(** * Order reconciliation and completion tracking (backend/api.py)

    A shallow embedding of the order cache merger, the completion tracker,
    the unified view builder and the dashboard reconciliation pass of
    [src/backend/api.py], with the properties the specification states
    about them.

    Conventions of the embedding.
    - A Python value stored in an order is a [pyval]: [None], a [bool], an
      [int] or a [str].  JSON floats, lists and nested objects are not
      represented.
    - A [str] is a Rocq [string] holding the UTF-8 encoding of the text,
      so equality and lexicographic comparison agree with Python's.
    - An order (a Python [dict] with string keys) is a [gmap string pyval];
      the order cache is a [list] of them.
    - Module-level globals ([orders_cache], [order_completion_log]) are
      threaded explicitly; the clock, the spreadsheet fetch and the
      library calls the code relies on are parameters. *)

From Stdlib Require Import ZArith QArith Lqa Ascii String List Bool Lia ZifyBool Permutation Sorted.
From stdpp Require Import base decidable option list gmap strings fin_maps pretty.

Open Scope string_scope.
Open Scope list_scope.
Open Scope Z_scope.

(** ** Python values *)

Inductive pyval :=
| VNone
| VBool (b : bool)
| VInt (z : Z)
| VStr (s : string).

#[global] Instance pyval_eq_dec : EqDecision pyval.
Proof. solve_decision. Defined.

#[global] Instance pyval_inhabited : Inhabited pyval := populate VNone.

(** [bool(v)]: the truth value Python gives to [v] in [if v], [a or b]. *)
Definition py_truthy (v : pyval) : bool :=
  match v with
  | VNone => false
  | VBool b => b
  | VInt z => negb (z =? 0)
  | VStr s => negb (String.eqb s "")
  end.

(** [a or b] *)
Definition py_or (a b : pyval) : pyval := if py_truthy a then a else b.

(** [a == b]; [bool] is a subclass of [int], so [True == 1]. *)
Definition py_eqb (a b : pyval) : bool :=
  match a, b with
  | VNone, VNone => true
  | VBool x, VBool y => Bool.eqb x y
  | VBool x, VInt z | VInt z, VBool x => Z.b2z x =? z
  | VInt x, VInt y => x =? y
  | VStr s, VStr t => String.eqb s t
  | _, _ => false
  end.

(** [str(v)] *)
Definition py_str (v : pyval) : string :=
  match v with
  | VNone => "None"
  | VBool true => "True"
  | VBool false => "False"
  | VInt z => pretty z
  | VStr s => s
  end.

(** ** Strings: [str.strip()] and [str.lower()] *)

Definition bytes_of (s : string) : list N := map N_of_ascii (list_ascii_of_string s).
Definition string_of (l : list N) : string := string_of_list_ascii (map ascii_of_N l).

(** The white space [str.strip()] removes, by UTF-8 encoding: the ASCII
    characters U+0009-000D, U+001C-001F and U+0020, ... *)
Definition ws1 (a : N) : bool :=
  ((9 <=? a) && (a <=? 13) || (28 <=? a) && (a <=? 32))%N.

(** ... U+0085 and U+00A0 (two bytes), ... *)
Definition ws2 (a b : N) : bool :=
  ((a =? 194) && ((b =? 133) || (b =? 160)))%N.

(** ... U+1680, U+2000-200A, U+2028, U+2029, U+202F, U+205F and U+3000
    (three bytes). *)
Definition ws3 (a b c : N) : bool :=
  ((a =? 225) && (b =? 154) && (c =? 128)
   || (a =? 226) && (b =? 128)
      && ((128 <=? c) && (c <=? 138) || (c =? 168) || (c =? 169) || (c =? 175))
   || (a =? 226) && (b =? 129) && (c =? 159)
   || (a =? 227) && (b =? 128) && (c =? 128))%N.

Fixpoint lstrip_bytes (l : list N) : list N :=
  match l with
  | [] => []
  | a :: r1 =>
      if ws1 a then lstrip_bytes r1
      else match r1 with
           | [] => l
           | b :: r2 =>
               if ws2 a b then lstrip_bytes r2
               else match r2 with
                    | [] => l
                    | c :: r3 => if ws3 a b c then lstrip_bytes r3 else l
                    end
           end
  end.

(** The same on the reversed byte sequence, for the right end. *)
Fixpoint rstrip_rev_bytes (l : list N) : list N :=
  match l with
  | [] => []
  | a :: r1 =>
      if ws1 a then rstrip_rev_bytes r1
      else match r1 with
           | [] => l
           | b :: r2 =>
               if ws2 b a then rstrip_rev_bytes r2
               else match r2 with
                    | [] => l
                    | c :: r3 => if ws3 c b a then rstrip_rev_bytes r3 else l
                    end
           end
  end.

Definition py_strip (s : string) : string :=
  string_of (rev (rstrip_rev_bytes (rev (lstrip_bytes (bytes_of s))))).

(** [str.lower()].  ASCII capitals are mapped to their small letters and
    every other byte is left as it is.  The code compares the result only
    with the ASCII words "true", "1", "yes", "y", "t": the lower-case form
    of a code point outside ASCII is again outside ASCII, except for U+0130
    and U+212A, which give an "i" and a "k", letters of none of these
    words; so each such comparison is decided as Python decides it. *)
Definition lower_byte (a : N) : N :=
  if ((65 <=? a) && (a <=? 90))%N then (a + 32)%N else a.

Definition py_lower (s : string) : string := string_of (map lower_byte (bytes_of s)).

(** [needle in s] for a one-character needle. *)
Definition contains_char (c : ascii) (s : string) : bool :=
  existsb (Ascii.eqb c) (list_ascii_of_string s).

(** ** Orders *)

Abbreviation order := (gmap string pyval).

(** [order.get(key)] *)
Definition get (o : order) (k : string) : pyval := default VNone (o !! k).

(** [order.get(key, dflt)] *)
Definition get_default (o : order) (k : string) (d : pyval) : pyval := default d (o !! k).

(** [bool(order)]: a dict is true when it is not empty. *)
Definition dict_truthy (o : order) : bool := negb (bool_decide (o = ∅)).

(** [normalize_flag_value], api.py 3423-3433. *)
Definition flag_words : list string := ["true"; "1"; "yes"; "y"; "t"].

Definition normalize_flag_value (value : pyval) : bool :=
  match value with
  | VNone => false
  | VBool b => b
  | VInt z => z =? 1
  | VStr s => bool_decide (py_lower (py_strip s) ∈ flag_words)
  end.

(** [get_order_stage_flags], api.py 3127-3131. *)
Definition get_order_stage_flags (o : order) : bool * bool * bool :=
  let produce := normalize_flag_value (py_or (get o "Produce") (get o "Kesildi")) in
  let ready := normalize_flag_value (py_or (get o "Ready") (get o "Hazır")) in
  let shipped := normalize_flag_value (py_or (get o "Shipped") (get o "Gönderildi")) in
  (produce, ready, shipped).

(** [is_order_marked_complete], api.py 3133-3135. *)
Definition is_order_marked_complete (o : order) : bool :=
  let '(produce, ready, shipped) := get_order_stage_flags o in
  produce && ready && shipped.

(** [get_order_identifier], api.py 3093-3108: the first candidate that is
    true, as a string. *)
Definition identifier_candidates (o : order) (explicit_identifier : pyval) : list pyval :=
  [ explicit_identifier; get o "transaction"; get o "Transaction ID";
    get o "Transaction"; get o "order_id"; get o "Order ID";
    get o "__manualId"; get o "id"; get o "ID" ].

Definition get_order_identifier (o : order) (explicit_identifier : pyval) : option string :=
  py_str <$> List.find py_truthy (identifier_candidates o explicit_identifier).

(** ** Library calls and the environment

    What the code gets from the Python library, the file system and the
    process environment, taken as parameters.  A naive [datetime] is the
    number of microseconds elapsed since [datetime.min]; an aware one
    carries its UTC offset as well. *)

Definition naive_datetime := N.

Definition datetime_min : naive_datetime := 0%N.

Record datetime := mk_datetime {
  dt_wall : naive_datetime;
  dt_utcoffset : option Z
}.

Class PyEnv := {
  (** [datetime.strptime(text, format)], [None] when it raises. *)
  strptime : string -> string -> option naive_datetime;
  (** [datetime.fromisoformat(text)], [None] when it raises [ValueError]. *)
  fromisoformat : string -> option datetime;
  (** [d.isoformat()] *)
  isoformat : datetime -> string;
  (** [timestamp.astimezone(ISTANBUL_TZ).date()] for an aware time stamp,
      as the number of days since [date.min]; [None] when it raises
      [OverflowError], which it does when the time stamp in UTC or in
      Istanbul time lies outside [datetime.min] .. [datetime.max]. *)
  istanbul_date : datetime -> option N;
  (** For a photo URL that is a Google Drive link with an [id=], the
      [/images/<md5>.jpg] path of its file in the image cache; [None] for
      any other URL (api.py 1764-1775, 1833-1834). *)
  cached_image_url : string -> option string;
  (** The order in which a [for] loop visits a [set] built from the given
      elements. *)
  set_iter : list pyval -> list pyval;
  set_iter_perm : forall l, Permutation (set_iter l) l;
  (** [MAX_SYNC_ORDERS], api.py 1668-1674: [None] unless the environment
      variable holds a positive number. *)
  MAX_SYNC_ORDERS : option nat;
  (** [os.environ.get("STARTUP_MODE", "normal") == "startup"] *)
  startup_mode : bool
}.

(** What the network and the image directory answer during one run of an
    image step (api.py 1776-1835, 2066-2125): for the position of an order
    in the cache and its photo URL, whether the file of the URL is in the
    image cache when the loop gets to [if cache_file.exists()], that is,
    whether it was there already or a download of it has gone through.
    Each run of an image step has answers of its own: a download that
    failed in one run is tried again in the next. *)
Class ImageRun := {
  cache_file_exists : nat -> string -> bool
}.

(** ** The completion log *)

Record completion_entry := mk_entry {
  is_complete : bool;
  completed_at : option string;
  history : list string
}.

#[global] Instance completion_entry_eq_dec : EqDecision completion_entry.
Proof. solve_decision. Defined.

Abbreviation completion_log := (gmap string completion_entry).

(** [history[-50:]] *)
Definition last_50 (h : list string) : list string := drop (length h - 50) h.

(** [update_order_completion_tracking], api.py 3137-3164; [timestamp] is
    the reading of [datetime.now(timezone.utc).isoformat()]. *)
Definition update_order_completion_tracking
    (timestamp : string) (o : order) (explicit_identifier : pyval)
    (order_completion_log : completion_log) : completion_log :=
  match get_order_identifier o explicit_identifier with
  | None => order_completion_log
  | Some identifier =>
      if String.eqb identifier "" then order_completion_log else
      let '(produce, ready, shipped) := get_order_stage_flags o in
      let is_complete_now := produce && ready && shipped in
      let entry := order_completion_log !! identifier in
      let was_complete := from_option is_complete false entry in
      if is_complete_now && negb was_complete then
        let history0 := from_option history [] entry ++ [timestamp] in
        let history1 := if (50 <? length history0)%nat then last_50 history0 else history0 in
        <[identifier := mk_entry true (Some timestamp) history1]> order_completion_log
      else if negb is_complete_now && was_complete then
        match entry with
        | Some e => <[identifier := mk_entry false None (history e)]> order_completion_log
        | None => order_completion_log
        end
      else order_completion_log
  end.

(** [remove_order_completion_entry], api.py 3166-3171. *)
Definition remove_order_completion_entry
    (identifier : option string) (order_completion_log : completion_log) : completion_log :=
  match identifier with
  | None => order_completion_log
  | Some i => if String.eqb i "" then order_completion_log else delete i order_completion_log
  end.

(** ** The dashboard pass over the unified view *)

(** [value[:-1]] when [value.endswith("Z")] *)
Definition strip_final_Z (value : string) : option string :=
  match rev (list_ascii_of_string value) with
  | "Z"%char :: r => Some (string_of_list_ascii (rev r))
  | _ => None
  end.

(** [value.split(".")[0]] *)
Fixpoint before_first_dot (value : string) : string :=
  match value with
  | EmptyString => EmptyString
  | String c r => if Ascii.eqb c "."%char then EmptyString else String c (before_first_dot r)
  end.

(** How [completion_date_from_entry] ends: with [None], with a date (in
    days since [date.min]), or with the [OverflowError] of [astimezone]. *)
Inductive date_result :=
| NoDate
| DateOf (d : N)
| DateOverflow.

Section Dashboard.
Context {env : PyEnv}.

(** [parse_iso_datetime], api.py 173-184; [None] when it raises. *)
Definition parse_iso_datetime (value : string) : option datetime :=
  if String.eqb value "" then None else
  let normalized :=
    match strip_final_Z value with
    | Some front => String.append front "+00:00"
    | None => value
    end in
  match fromisoformat normalized with
  | Some d => Some d
  | None => fromisoformat (before_first_dot normalized)
  end.

(** [parse_completion_timestamp], api.py 3110-3119. *)
Definition parse_completion_timestamp (value : option string) : option datetime :=
  match value with
  | None => None
  | Some v =>
      match parse_iso_datetime v with
      | Some t =>
          Some (match dt_utcoffset t with
                | None => mk_datetime (dt_wall t) (Some 0)
                | Some _ => t
                end)
      | None => None
      end
  end.

(** [completion_date_from_entry], api.py 3121-3125. *)
Definition completion_date_from_entry (entry : completion_entry) : date_result :=
  match parse_completion_timestamp (completed_at entry) with
  | None => NoDate
  | Some timestamp =>
      match istanbul_date timestamp with
      | Some d => DateOf d
      | None => DateOverflow
      end
  end.

(** The counters of [compute_dashboard_order_stats]; the per-day
    histograms ([monthly_trend], [stage_trend], [daily_completed]) are
    left out. *)
Record dashboard_stats := mk_stats {
  total_completed : nat;
  pending : nat;
  produce_only : nat;
  ready_total : nat;
  shipped_total : nat
}.

Record dashboard_state := mk_dash {
  dash_stats : dashboard_stats;
  dash_log : completion_log;
  log_dirty : bool
}.

Definition bump (b : bool) (n : nat) : nat := if b then S n else n.

(** [bool(entry.get("completed_at"))] *)
Definition completed_at_truthy (entry : completion_entry) : bool :=
  match completed_at entry with
  | Some s => negb (String.eqb s "")
  | None => false
  end.

(** The log part of one iteration, api.py 3471-3485: the log it leaves
    and whether it changed it; [None] when [completion_date_from_entry]
    raises, which happens before the iteration has changed anything. *)
Definition reconcile_entry (o : order) (is_complete_now : bool)
    (order_completion_log : completion_log) : option (completion_log * bool) :=
  match get_order_identifier o VNone with
  | None => Some (order_completion_log, false)
  | Some identifier =>
      if String.eqb identifier "" then Some (order_completion_log, false) else
      match order_completion_log !! identifier with
      | None => Some (order_completion_log, false)
      | Some entry =>
          if negb is_complete_now && is_complete entry then
            Some (<[identifier := mk_entry false None (history entry)]> order_completion_log,
                  true)
          else if is_complete_now && is_complete entry && completed_at_truthy entry then
            match completion_date_from_entry entry with
            | DateOf _ => Some (order_completion_log, false)
            | NoDate =>
                Some (<[identifier := mk_entry false None (history entry)]>
                        order_completion_log,
                      true)
            | DateOverflow => None
            end
          else Some (order_completion_log, false)
      end
  end.

(** One iteration of the loop, api.py 3452-3501; [None] when it raises. *)
Definition dashboard_step (st : dashboard_state) (o : order) : option dashboard_state :=
  let '(produce, ready, shipped) := get_order_stage_flags o in
  let is_complete_now := produce && ready && shipped in
  match reconcile_entry o is_complete_now (dash_log st) with
  | Some (log', dirty) =>
      let s := dash_stats st in
      Some (mk_dash
              (mk_stats (bump is_complete_now (total_completed s))
                        (bump (negb is_complete_now) (pending s))
                        (bump (produce && negb ready) (produce_only s))
                        (bump ready (ready_total s))
                        (bump shipped (shipped_total s)))
              log'
              (log_dirty st || dirty))
  | None => None
  end.

(** How [compute_dashboard_order_stats] ends: it returns its counters,
    with the log as it leaves it and whether it saved it; or the
    [OverflowError] leaves the function from inside the loop, with the
    log as the orders before have changed it, in memory only. *)
Inductive dashboard_result :=
| DashReturns (st : dashboard_state)
| DashRaises (order_completion_log : completion_log).

Definition result_log (r : dashboard_result) : completion_log :=
  match r with
  | DashReturns st => dash_log st
  | DashRaises order_completion_log => order_completion_log
  end.

(** The loop, api.py 3452-3501. *)
Fixpoint dashboard_loop (order_list : list order) (st : dashboard_state)
    : dashboard_result :=
  match order_list with
  | [] => DashReturns st
  | o :: rest =>
      match dashboard_step st o with
      | Some st' => dashboard_loop rest st'
      | None => DashRaises (dash_log st)
      end
  end.

(** [compute_dashboard_order_stats], api.py 3435-3525. *)
Definition compute_dashboard_order_stats
    (order_list : list order) (order_completion_log : completion_log) : dashboard_result :=
  dashboard_loop order_list (mk_dash (mk_stats 0 0 0 0 0) order_completion_log false).

End Dashboard.


(** ** The order cache and the three merges *)

(** The cache in memory ([orders_cache]) and on disk ([CACHE_FILE], [None]
    while there is no file). *)
Record cache_state := mk_cache {
  orders_cache : list order;
  cache_file : option (list order)
}.

(** [save_cache], api.py 1730-1736 (the write is taken to succeed). *)
Definition save_cache (st : cache_state) : cache_state :=
  mk_cache (orders_cache st) (Some (orders_cache st)).

(** How a call ends: with a return value, or with an exception that
    leaves the function. *)
Inductive outcome :=
| Returned (v : pyval)
| Raised.

(** The transaction id the merges read from a fetched row and from a
    cached row: the same two keys, in opposite order of preference. *)
Definition sheet_transaction (o : order) : pyval :=
  py_or (get o "Transaction ID") (get o "transaction").

Definition cache_transaction (o : order) : pyval :=
  py_or (get o "transaction") (get o "Transaction ID").

(** A Python [set] of ids, in insertion order; [x in s]. *)
Definition id_in (x : pyval) (s : list pyval) : bool := existsb (py_eqb x) s.

Definition set_add (x : pyval) (s : list pyval) : list pyval :=
  if id_in x s then s else s ++ [x].

(** A Python [dict] from ids to orders, in insertion order: [k in d],
    [d[k]] and [d[k] = v] (an equal key keeps its place and its first
    spelling). *)
Definition pydict := list (pyval * order).

Definition dict_has (k : pyval) (d : pydict) : bool :=
  existsb (fun kv => py_eqb (fst kv) k) d.

Definition dict_get (k : pyval) (d : pydict) : option order :=
  snd <$> List.find (fun kv => py_eqb (fst kv) k) d.

Fixpoint dict_set (k : pyval) (v : order) (d : pydict) : pydict :=
  match d with
  | [] => [(k, v)]
  | (k', v') :: rest =>
      if py_eqb k' k then (k', v) :: rest else (k', v') :: dict_set k v rest
  end.

(** [EDITABLE_FIELD_GROUPS], api.py 1879-1884. *)
Definition EDITABLE_FIELD_GROUPS : list (string * string) :=
  [ ("Produce", "Kesildi"); ("Ready", "Hazır"); ("Shipped", "Gönderildi");
    ("Note", "importantnote") ].

(** The value the preserver takes from the source for one group: the
    backend field when the source has that key, else the frontend one. *)
Definition preserved_value (source_order : order) (frontend_field backend_field : string) : pyval :=
  match source_order !! backend_field with
  | Some v => v
  | None => get source_order frontend_field
  end.

Definition preserve_group (source_order target_order : order) (g : string * string) : order :=
  match preserved_value source_order g.1 g.2 with
  | VNone => target_order
  | v => <[g.2 := v]> (<[g.1 := v]> target_order)
  end.

(** [preserve_editable_fields], api.py 1887-1902: the target after the
    call. *)
Definition preserve_editable_fields (target_order source_order : order) : order :=
  if negb (dict_truthy source_order) || negb (dict_truthy target_order) then target_order
  else fold_left (preserve_group source_order) EDITABLE_FIELD_GROUPS target_order.

(** [sorted(rows, key=..., reverse=True)] on rows already paired with their
    keys: Python's sort is stable, also when reversed, so a row stays
    ahead of the later rows with an equal key. *)
Section Sorting.
Context {K A : Type} (ltb : K -> K -> bool).

Fixpoint insert_desc (x : K * A) (l : list (K * A)) : list (K * A) :=
  match l with
  | [] => [x]
  | y :: rest => if ltb x.1 y.1 then y :: insert_desc x rest else x :: y :: rest
  end.

Definition sort_desc (l : list (K * A)) : list (K * A) := foldr insert_desc [] l.
End Sorting.

(** [a == b] on dicts: the same keys with equal values. *)
Definition order_py_eqb (a b : order) : bool :=
  bool_decide (dom a = dom b)
  && forallb (fun kv => py_eqb kv.2 (get b kv.1)) (map_to_list a).

(** [cache.index(x)]: the position of the first element equal to [x]. *)
Fixpoint list_index (x : order) (cache : list order) : option nat :=
  match cache with
  | [] => None
  | o :: rest => if order_py_eqb o x then Some 0%nat else S <$> list_index x rest
  end.

(** The keys the incremental merge leaves out of its comparison,
    api.py 2013. *)
Definition editable_keys : list string :=
  [ "Produce"; "Ready"; "Shipped"; "Note"; "Kesildi"; "Hazır"; "Gönderildi"; "importantnote" ].

Section Merges.
Context {env : PyEnv} {run : ImageRun}.

(** [limit_orders], api.py 1680-1686. *)
Definition limit_orders (records : list order) : list order :=
  match MAX_SYNC_ORDERS with
  | None => records
  | Some n =>
      if (n =? 0)%nat then records
      else if (n <? length records)%nat then take n records else records
  end.

(** The image step on the order at position [i], api.py 1760-1836:
    [None] when [order.get('Image', '').strip()] raises because the value
    is not a string. *)
Definition download_order_image (i : nat) (o : order) : option order :=
  match get_default o "Image" (VStr "") with
  | VStr url =>
      let photo_url := py_strip url in
      if String.eqb photo_url "" then Some o
      else match cached_image_url photo_url with
           | Some cached =>
               if cache_file_exists i photo_url
               then Some (<["photo" := VStr cached]> o)
               else Some o
           | None => Some o
           end
  | _ => None
  end.

(** The loop of [download_order_images] (api.py 1758-1836) and of
    [_download_images_for_specific_orders] (2048-2128) over the orders
    that [selected] picks, from position [i] on: the cache it leaves and
    whether it ran to the end. *)
Fixpoint download_images_loop (selected : order -> bool) (i : nat) (cache : list order)
    : list order * bool :=
  match cache with
  | [] => ([], true)
  | o :: rest =>
      if selected o then
        match download_order_image i o with
        | Some o' =>
            let '(rest', finished) := download_images_loop selected (S i) rest in
            (o' :: rest', finished)
        | None => (o :: rest, false)
        end
      else
        let '(rest', finished) := download_images_loop selected (S i) rest in
        (o :: rest', finished)
  end.

(** [download_order_images], api.py 1738-1840. *)
Definition download_order_images (cache : list order) : list order * bool :=
  if startup_mode then (cache, true)
  else download_images_loop (fun _ => true) 0 cache.

(** [_download_images_for_specific_orders], api.py 2040-2136. *)
Definition download_images_for_specific_orders
    (transaction_ids : list pyval) (cache : list order) : list order * bool :=
  match transaction_ids, cache with
  | [], _ | _, [] => (cache, true)
  | _, _ =>
      download_images_loop (fun o => id_in (cache_transaction o) transaction_ids) 0 cache
  end.

(** The lookup table of [update_cache] (api.py 1924-1928): the first
    cached order of each transaction id. *)
Definition existing_orders_first (cache : list order) : pydict :=
  fold_left
    (fun d existing_order =>
       let existing_transaction := cache_transaction existing_order in
       if py_truthy existing_transaction && negb (dict_has existing_transaction d)
       then dict_set existing_transaction existing_order d
       else d)
    cache [].

(** The first loop of [update_cache] (api.py 1935-1941): the new rows in
    sheet order, first occurrence of each id, with the edits of the cached
    order carried over. *)
Definition add_new_order (existing_orders_map : pydict)
    (acc : list order * list pyval) (o : order) : list order * list pyval :=
  let '(updated_cache, cached_transactions) := acc in
  let transaction_id := sheet_transaction o in
  if py_truthy transaction_id && negb (id_in transaction_id cached_transactions) then
    let o' := match dict_get transaction_id existing_orders_map with
              | Some existing_order => preserve_editable_fields o existing_order
              | None => o
              end in
    (updated_cache ++ [o'], set_add transaction_id cached_transactions)
  else acc.

(** The second loop (api.py 1944-1947): cached orders the sheet no longer
    has. *)
Definition keep_missing_order (cached_transactions : list pyval)
    (updated_cache : list order) (existing_order : order) : list order :=
  let transaction_id := cache_transaction existing_order in
  if py_truthy transaction_id && negb (id_in transaction_id cached_transactions)
  then updated_cache ++ [existing_order]
  else updated_cache.

Definition merged_cache (cache new_orders : list order) : list order :=
  let existing_orders_map := existing_orders_first cache in
  let '(updated_cache, cached_transactions) :=
    fold_left (add_new_order existing_orders_map) new_orders ([], []) in
  fold_left (keep_missing_order cached_transactions) cache updated_cache.

(** [update_cache], api.py 1905-1955; [fetched] is what
    [fetch_orders_from_sheet] returned.  ([sheet_ordering], which the
    function fills and never reads, is left out.)  When the image step
    raises, the new cache is already in memory and is not saved. *)
Definition update_cache (download_images : bool) (fetched : option (list order))
    (st : cache_state) : cache_state * outcome :=
  if startup_mode then (st, Returned VNone)
  else match fetched with
       | None => (st, Returned VNone)
       | Some new_orders =>
           let updated_cache := merged_cache (orders_cache st) (limit_orders new_orders) in
           let '(cache', finished) :=
             if download_images then download_order_images updated_cache
             else (updated_cache, true) in
           if finished then (save_cache (mk_cache cache' (cache_file st)), Returned VNone)
           else (mk_cache cache' (cache_file st), Raised)
       end.

(** *** Incremental merge *)

Definition current_transaction_ids (cache : list order) : list pyval :=
  fold_left
    (fun s o => let t := cache_transaction o in if py_truthy t then set_add t s else s)
    cache [].

Definition new_orders_by_id (new_orders : list order) : pydict :=
  fold_left
    (fun d o => let t := sheet_transaction o in if py_truthy t then dict_set t o d else d)
    new_orders [].

(** The loop over the new ids, api.py 1989-1994. *)
Definition append_new_order (new_orders_map : pydict)
    (acc : list order * list pyval) (transaction_id : pyval) : list order * list pyval :=
  let '(cache, updated_order_ids) := acc in
  match dict_get transaction_id new_orders_map with
  | Some o => (cache ++ [o], set_add transaction_id updated_order_ids)
  | None => acc
  end.

(** [order_changed], api.py 2011-2016. *)
Definition order_changed (existing_order new_order : order) : bool :=
  existsb
    (fun kv => negb (bool_decide (kv.1 ∈ editable_keys))
               && negb (py_eqb (get existing_order kv.1) kv.2))
    (map_to_list new_order).

(** The loop over the ids already cached, api.py 1997-2026. *)
Definition replace_changed_order (new_orders_map : pydict)
    (acc : list order * list pyval) (transaction_id : pyval) : list order * list pyval :=
  let '(cache, updated_order_ids) := acc in
  match dict_get transaction_id new_orders_map with
  | None => acc
  | Some new_order =>
      match List.find (fun o => py_eqb (cache_transaction o) transaction_id) cache with
      | None => acc
      | Some existing_order =>
          if dict_truthy existing_order && order_changed existing_order new_order then
            match list_index existing_order cache with
            | Some index =>
                (<[index := preserve_editable_fields new_order existing_order]> cache,
                 set_add transaction_id updated_order_ids)
            | None => acc
            end
          else acc
      end
  end.

(** [incremental_update_cache], api.py 1957-2038. *)
Definition incremental_update_cache (fetched : option (list order))
    (st : cache_state) : cache_state * outcome :=
  let current := current_transaction_ids (orders_cache st) in
  match fetched with
  | None => (st, Returned (VBool false))
  | Some new_orders =>
      let new_orders_map := new_orders_by_id (limit_orders new_orders) in
      let new_order_ids :=
        List.filter (fun k => negb (id_in k current)) (map fst new_orders_map) in
      let '(cache1, updated1) :=
        fold_left (append_new_order new_orders_map) (set_iter new_order_ids)
          (orders_cache st, []) in
      let '(cache2, updated2) :=
        fold_left (replace_changed_order new_orders_map) (set_iter current)
          (cache1, updated1) in
      match new_order_ids, updated2 with
      | [], [] => (mk_cache cache2 (cache_file st), Returned (VBool false))
      | _, _ =>
          let '(cache3, finished) :=
            download_images_for_specific_orders
              (set_iter new_order_ids ++ set_iter updated2) cache2 in
          if finished then (save_cache (mk_cache cache3 (cache_file st)), Returned (VBool true))
          else (mk_cache cache3 (cache_file st), Raised)
      end
  end.

(** *** Latest-20 quick sync *)

(** [get_order_date], api.py 2148-2162; [now] is the reading of
    [datetime.now()] when the key of this row is computed. *)
Definition get_order_date (now : naive_datetime) (o : order) : naive_datetime :=
  match o !! "Data" with
  | Some v =>
      if py_truthy v then
        let date_str := py_strip (py_str v) in
        if contains_char "/" date_str then
          default datetime_min (strptime date_str "%m/%d/%Y")
        else if contains_char "." date_str then
          default datetime_min (strptime date_str "%d.%m.%Y")
        else now
      else datetime_min
  | None => datetime_min
  end.

(** [sorted(new_orders, key=get_order_date, reverse=True)]; the keys are
    computed row by row, [clock i] being the clock when row [i] is
    reached. *)
Definition sorted_by_date (clock : nat -> naive_datetime) (new_orders : list order)
    : list order :=
  map snd (sort_desc N.ltb (imap (fun i o => (get_order_date (clock i) o, o)) new_orders)).

(** The lookup table of [sync_latest_orders] (api.py 2176-2180): the last
    cached order of each transaction id. *)
Definition existing_orders_last (cache : list order) : pydict :=
  fold_left
    (fun d existing_order =>
       let transaction := cache_transaction existing_order in
       if py_truthy transaction then dict_set transaction existing_order d else d)
    cache [].

(** The loop over the latest 20, api.py 2187-2198. *)
Definition sync_latest_order (existing_orders_map : pydict)
    (acc : list order * list pyval) (o : order) : list order * list pyval :=
  let '(updated_orders, transactions_processed) := acc in
  let transaction := cache_transaction o in
  if py_truthy transaction then
    let o' := match dict_get transaction existing_orders_map with
              | Some existing_order => preserve_editable_fields o existing_order
              | None => o
              end in
    (updated_orders ++ [o'], set_add transaction transactions_processed)
  else acc.

Definition synced_cache (clock : nat -> naive_datetime) (cache new_orders : list order)
    : list order :=
  let latest_20 := take 20 (sorted_by_date clock new_orders) in
  let existing_orders_map := existing_orders_last cache in
  let '(updated_orders, transactions_processed) :=
    fold_left (sync_latest_order existing_orders_map) latest_20 ([], []) in
  fold_left (keep_missing_order transactions_processed) cache updated_orders.

(** [sync_latest_orders], api.py 2138-2217. *)
Definition sync_latest_orders (clock : nat -> naive_datetime)
    (fetched : option (list order)) (st : cache_state) : cache_state * outcome :=
  match fetched with
  | None => (st, Returned VNone)
  | Some new_orders =>
      let updated_orders := synced_cache clock (orders_cache st) (limit_orders new_orders) in
      let '(cache', finished) := download_order_images updated_orders in
      if finished then (save_cache (mk_cache cache' (cache_file st)), Returned VNone)
      else (mk_cache cache' (cache_file st), Raised)
  end.

End Merges.

(** ** The unified view *)

(** [value in (None, "")] *)
Definition is_blank (v : pyval) : bool :=
  match v with
  | VNone => true
  | VStr s => String.eqb s ""
  | _ => false
  end.

(** [get_checkbox_string], api.py 3347-3351. *)
Definition get_checkbox_string (o : order) (primary_key fallback_key : string) : string :=
  let value := get o primary_key in
  let value := if is_blank value then get o fallback_key else value in
  py_str (if is_blank value then VStr "FALSE" else value).

(** [get_note_string], api.py 3354-3358. *)
Definition get_note_string (o : order) : string :=
  let value := get o "Note" in
  let value := if is_blank value then get o "importantnote" else value in
  py_str (if is_blank value then VStr "" else value).

(** [str(order.get(key, ''))] *)
Definition str_field (o : order) (k : string) : pyval :=
  VStr (py_str (get_default o k (VStr ""))).

(** [a < b] on sort keys: [None] when Python raises [TypeError]. *)
Definition py_lt (a b : pyval) : option bool :=
  match a, b with
  | VStr s, VStr t => Some (String.ltb s t)
  | VBool x, VBool y => Some (Z.b2z x <? Z.b2z y)
  | VBool x, VInt z => Some (Z.b2z x <? z)
  | VInt z, VBool y => Some (z <? Z.b2z y)
  | VInt x, VInt y => Some (x <? y)
  | _, _ => None
  end.

(** [item.get("_sortKey") or ""] *)
Definition sort_key (item : order) : pyval := py_or (get item "_sortKey") (VStr "").

(** No comparison of two of the keys raises. *)
Definition comparable_keys (keys : list pyval) : bool :=
  forallb (fun a => forallb (fun b => bool_decide (is_Some (py_lt a b))) keys) keys.

(** [items.sort(key=..., reverse=True)]: no key is compared when there are
    fewer than two items; otherwise the sort sets neighbours of the final
    order against each other, so it raises [TypeError] ([None]) as soon as
    two keys cannot be compared. *)
Definition py_sort_reverse (items : list order) : option (list order) :=
  if (length items <? 2)%nat then Some items
  else if comparable_keys (map sort_key items)
       then Some (map snd (sort_desc (fun a b => default false (py_lt a b))
                             (map (fun item => (sort_key item, item)) items)))
       else None.

Section UnifiedView.
Context {env : PyEnv}.

(** [load_cache], api.py 1719-1728 (a file that is there is taken to
    parse). *)
Definition load_cache (st : cache_state) : cache_state :=
  match cache_file st with
  | Some stored => mk_cache stored (cache_file st)
  | None => st
  end.

(** The first of the four formats of [try_parse_order_date] under which
    the text parses. *)
Definition strptime_any (text : string) : option datetime :=
  match List.flat_map
          (fun fmt => match strptime text fmt with
                      | Some d => [mk_datetime d None]
                      | None => []
                      end)
          ["%d.%m.%Y"; "%Y-%m-%d"; "%d/%m/%Y"; "%m/%d/%Y"] with
  | d :: _ => Some d
  | [] => None
  end.

(** [try_parse_order_date], api.py 3314-3332 (no stored value is a
    [datetime] object). *)
Definition try_parse_order_date (value : pyval) : option datetime :=
  match value with
  | VStr s =>
      let normalized := py_strip s in
      if String.eqb normalized "" then None
      else match parse_iso_datetime normalized with
           | Some d => Some d
           | None => strptime_any normalized
           end
  | _ => None
  end.

(** [determine_sort_key], api.py 3334-3345; [utcnow] is the reading of
    [datetime.utcnow()] when no candidate parses. *)
Definition determine_sort_key (utcnow : datetime) (o : order) : string :=
  match List.flat_map
          (fun candidate => match try_parse_order_date candidate with
                            | Some parsed => [isoformat parsed]
                            | None => []
                            end)
          [get o "tarih"; get o "tarihh"; get o "created_at"; get o "_sortKey"] with
  | key :: _ => key
  | [] => isoformat utcnow
  end.

(** The record built for one cached order, api.py 3369-3408. *)
Definition transformed_fields (o : order) : list (string * pyval) :=
  [ ("photo", VStr (py_str (get_default o "photo" (get_default o "Image" (VStr "")))));
    ("buyername", str_field o "Name");
    ("Produce", VStr (get_checkbox_string o "Produce" "Kesildi"));
    ("Ready", VStr (get_checkbox_string o "Ready" "Hazır"));
    ("Shipped", VStr (get_checkbox_string o "Shipped" "Gönderildi"));
    ("Note", VStr (get_note_string o));
    ("productname", str_field o "Product");
    ("Quantity", str_field o "Quantity");
    ("material", str_field o "Material & Size");
    ("Chain Length", str_field o "Chain Length");
    ("Personalization", str_field o "Personalization");
    ("ioss", str_field o "IOSS Number");
    ("FullAdress", str_field o "FullAdress");
    ("itemprice", str_field o "Item Price");
    ("discount", str_field o "Discount");
    ("salestax", str_field o "Sales Tax");
    ("ordertotal", str_field o "Order Total");
    ("buyeremail", str_field o "Buyer Email");
    ("tarih", str_field o "Data");
    ("vatcollected", str_field o "VAT");
    ("vatid", str_field o "VAT ID");
    ("shop", str_field o "Shop Name");
    ("vatpaidchf", str_field o "VAT Paid CHF");
    ("transaction", str_field o "Transaction ID");
    ("Buyer Note", str_field o "Buyer Note");
    ("Expres", str_field o "Express");
    ("data", str_field o "Data");
    ("buyermessage", str_field o "MÃ¼Återi MesajÄ±");
    ("express", str_field o "Express");
    ("gonderimdurumu", VStr "pending");
    ("status", VStr "pending");
    ("Kesildi", VStr (get_checkbox_string o "Kesildi" "Produce"));
    ("Hazır", VStr (get_checkbox_string o "Hazır" "Ready"));
    ("Gönderildi", VStr (get_checkbox_string o "Gönderildi" "Shipped"));
    ("importantnote", VStr (get_note_string o));
    ("Problem", VStr (py_str (py_or (get_default o "Problem" (VStr "")) (VStr "FALSE")))) ].

Definition transform_order (utcnow : datetime) (o : order) : order :=
  let transformed : order :=
    <["isManual" := VBool false]> (list_to_map (transformed_fields o)) in
  <["_sortKey" := VStr (determine_sort_key utcnow transformed)]> transformed.

(** [d.setdefault(k, v)] *)
Definition setdefault (k : string) (v : pyval) (d : order) : order :=
  match d !! k with
  | Some _ => d
  | None => <[k := v]> d
  end.

(** A manual order as it enters the view, api.py 3414-3417. *)
Definition manual_payload (utcnow : datetime) (entry : order) : order :=
  let entry := setdefault "isManual" (VBool true) entry in
  setdefault "_sortKey" (py_or (get entry "created_at") (VStr (isoformat utcnow))) entry.

(** The two parts of the view before the sort; the clock is read once per
    order, first for the cached orders, then for the manual ones. *)
Definition transformed_orders (utcnow : nat -> datetime) (cache : list order) : list order :=
  imap (fun i o => transform_order (utcnow i) o) cache.

Definition manual_payloads (utcnow : nat -> datetime) (offset : nat)
    (manual_orders : list order) : list order :=
  imap (fun j entry => manual_payload (utcnow (offset + j)%nat) entry) manual_orders.

(** [transform_orders_for_frontend], api.py 3361-3421: the cache state it
    leaves and the list it returns, [None] when the sort raises. *)
Definition transform_orders_for_frontend (utcnow : nat -> datetime)
    (manual_orders : list order) (st : cache_state)
    : cache_state * option (list order) :=
  let st := match orders_cache st with [] => load_cache st | _ => st end in
  let transformed := transformed_orders utcnow (orders_cache st) in
  let manual := manual_payloads utcnow (length (orders_cache st)) manual_orders in
  (st, py_sort_reverse (manual ++ transformed)).

End UnifiedView.

(** ** Vocabulary of the statements *)

(** The entry the tracker writes when an order becomes complete. *)
Definition completed_entry (timestamp : string) (old : option completion_entry) : completion_entry :=
  mk_entry true (Some timestamp) (last_50 (from_option history [] old ++ [timestamp])).

(** What the pass may do to the entry of an identifier: leave it, or reset
    it to incomplete with its history kept. *)
Definition reset_only (before after : completion_log) : Prop :=
  forall id,
    after !! id = before !! id \/
    exists e, before !! id = Some e /\ after !! id = Some (mk_entry false None (history e)).

(** An entry the dashboard pass has nothing to correct in, for a view
    order that is complete ([c]) or not: it is not stored as complete, or
    the order is complete and the stored [completed_at], if it is true,
    gives a date. *)
Definition entry_settled {env : PyEnv} (c : bool) (e : completion_entry) : Prop :=
  is_complete e = true ->
  c = true /\ (completed_at_truthy e = true -> exists d, completion_date_from_entry e = DateOf d).

(** Every history of the log holds at most 50 time stamps. *)
Definition history_bounded (log : completion_log) : Prop :=
  forall id e, log !! id = Some e -> (length (history e) <= 50)%nat.

(** The stored spelling of a stage flag. *)
Definition flag_literal (b : bool) : pyval := VStr (if b then "TRUE" else "FALSE").

(** A cached order with the given transaction id and stage flags. *)
Definition staged_order (transaction : string) (produce ready shipped : bool) : order :=
  {[ "Transaction ID" := VStr transaction;
     "Produce" := flag_literal produce;
     "Ready" := flag_literal ready;
     "Shipped" := flag_literal shipped ]}.

(** One complete / incomplete cycle per time stamp: the order is reported
    with all three flags set, then with one of them cleared. *)
Fixpoint run_cycles (transaction : string) (stamps : list string)
    (log : completion_log) : completion_log :=
  match stamps with
  | [] => log
  | t :: rest =>
      let done := update_order_completion_tracking t
                    (staged_order transaction true true true) (VStr transaction) log in
      let undone := update_order_completion_tracking t
                      (staged_order transaction true false true) (VStr transaction) done in
      run_cycles transaction rest undone
  end.

(** [timestamp.astimezone(ISTANBUL_TZ).date()] where [ISTANBUL_TZ] is the
    fixed offset of three hours (api.py 1637), the offset of a time stamp
    being counted in microseconds. *)
Definition datetime_max : naive_datetime := 315537897599999999%N.

Definition fixed_offset_date (timestamp : datetime) : option N :=
  let utc := (Z.of_N (dt_wall timestamp) - default 0 (dt_utcoffset timestamp))%Z in
  let local := (utc + 10800000000)%Z in
  if (0 <=? utc) && (utc <=? Z.of_N datetime_max)
     && (0 <=? local) && (local <=? Z.of_N datetime_max)
  then Some (Z.to_N (local / 86400000000))
  else None.

(** An environment for concrete runs: no date parses, no URL has a file in
    the image cache, sets are visited in insertion order, no row limit. *)
Definition sample_env : PyEnv :=
  {| strptime := fun _ _ => None;
     fromisoformat := fun _ => None;
     isoformat := fun _ => "";
     istanbul_date := fixed_offset_date;
     cached_image_url := fun _ => None;
     set_iter := fun l => l;
     set_iter_perm := fun l => Permutation_refl l;
     MAX_SYNC_ORDERS := None;
     startup_mode := false |}.

(** Two runs of an image step: one in which no file is in the image cache
    and no download goes through, one in which every file is there; and an
    environment in which one Google Drive URL has a file name. *)
Definition no_downloads : ImageRun := {| cache_file_exists := fun _ _ => false |}.
Definition all_downloaded : ImageRun := {| cache_file_exists := fun _ _ => true |}.

Definition drive_url : string := "https://drive.google.com/uc?id=abc".

Definition drive_env : PyEnv :=
  {| strptime := fun _ _ => None;
     fromisoformat := fun _ => None;
     isoformat := fun _ => "";
     istanbul_date := fixed_offset_date;
     cached_image_url := fun url =>
       if String.eqb url drive_url then Some "/images/5d41402abc4b2a76b9719d911017c592.jpg"
       else None;
     set_iter := fun l => l;
     set_iter_perm := fun l => Permutation_refl l;
     MAX_SYNC_ORDERS := None;
     startup_mode := false |}.


(** An environment in which the time stamp "9999-12-31T23:00:00" parses,
    to the last hour of [datetime.max]'s day; and logs whose entry for "T1"
    is complete with that time stamp, and with a text that is no time
    stamp. *)
Definition us_9999_12_31_23h : naive_datetime := 315537894000000000%N.

Definition late_env : PyEnv :=
  {| strptime := fun _ _ => None;
     fromisoformat := fun text =>
       if String.eqb text "9999-12-31T23:00:00"
       then Some (mk_datetime us_9999_12_31_23h None) else None;
     isoformat := fun _ => "";
     istanbul_date := fixed_offset_date;
     cached_image_url := fun _ => None;
     set_iter := fun l => l;
     set_iter_perm := fun l => Permutation_refl l;
     MAX_SYNC_ORDERS := None;
     startup_mode := false |}.

Definition late_complete_log : completion_log :=
  {[ "T1" := mk_entry true (Some "9999-12-31T23:00:00") ["9999-12-31T23:00:00"] ]}.

Definition unparsable_complete_log : completion_log :=
  {[ "T1" := mk_entry true (Some "yesterday") ["yesterday"] ]}.

(** The effect of the preserver on one key, group by group. *)
Definition preserve_key (source_order : order) (k : string)
    (acc : option pyval) (g : string * string) : option pyval :=
  if bool_decide (k = g.1 \/ k = g.2) then
    match preserved_value source_order g.1 g.2 with
    | VNone => acc
    | v => Some v
    end
  else acc.

(** A row has a transaction id the merges can use. *)
Definition has_transaction (o : order) : bool := py_truthy (cache_transaction o).

(** A cached row is the one the merges look up for the transaction id [t]. *)
Definition matches_transaction (t : pyval) (e : order) : bool :=
  has_transaction e && py_eqb (cache_transaction e) t.

(** The fetched rows a full replace keeps: those with a transaction id, the
    first of each id. *)
Fixpoint first_rows (seen : list pyval) (new_orders : list order) : list order :=
  match new_orders with
  | [] => []
  | o :: rest =>
      let t := sheet_transaction o in
      if py_truthy t && negb (id_in t seen)
      then o :: first_rows (seen ++ [t]) rest
      else first_rows seen rest
  end.

(** A fetched row with the edits of the first cached row of its id. *)
Definition with_edits (cache : list order) (o : order) : order :=
  match List.find (matches_transaction (sheet_transaction o)) cache with
  | Some existing_order => preserve_editable_fields o existing_order
  | None => o
  end.

(** The cached rows a merge keeps because their id is not among [ids]. *)
Definition missing_from (ids : list pyval) (cache : list order) : list order :=
  List.filter (fun e => has_transaction e && negb (id_in (cache_transaction e) ids)) cache.

(** The image step leaves a row as it is or sets its "photo". *)
Definition photo_only (o o' : order) : Prop :=
  o' = o \/ exists cached, o' = <["photo" := VStr cached]> o.

(** A row the spreadsheet could deliver that has no identifier at all. *)
Definition row_without_id : order := {[ "Name" := VStr "Alice" ]}.

(** What the image loop does to a row: nothing when the row is not selected. *)
Definition image_step (selected : order -> bool) (o o' : order) : Prop :=
  o' = o \/ (selected o = true /\ photo_only o o').

(** A fetched row with the edits of the last cached row of its id, as the
    quick sync looks it up. *)
Definition with_last_edits (cache : list order) (o : order) : order :=
  match List.find (matches_transaction (cache_transaction o)) (rev cache) with
  | Some existing_order => preserve_editable_fields o existing_order
  | None => o
  end.

(** A cache in memory that holds a row without identifier and was never
    written to disk. *)
Definition unsaved_cache : cache_state :=
  mk_cache [row_without_id; staged_order "T1" true false false] None.

(** A row carries the edit [v] of the editable pair ([f], [b]): under the
    frontend name, and under the backend name if it has that key. *)
Definition keeps_edit (f b : string) (v : pyval) (x : order) : Prop :=
  x !! f = Some v /\ (x !! b = None \/ x !! b = Some v).

(** The cache has a row with transaction id [t], and every such row carries
    the edit. *)
Definition edit_kept (t f b : string) (v : pyval) (cache : list order) : Prop :=
  (exists x, In x cache /\ cache_transaction x = VStr t)
  /\ forall x, In x cache -> cache_transaction x = VStr t -> keeps_edit f b v x.

(** A row holds the edit [v] of the editable pair ([f], [b]) under both
    names, and the cache has a row with transaction id [t] of which every
    such row holds the edit. *)
Definition holds_edit (f b : string) (v : pyval) (x : order) : Prop :=
  x !! f = Some v /\ x !! b = Some v.

Definition edit_held (t f b : string) (v : pyval) (cache : list order) : Prop :=
  (exists x, In x cache /\ cache_transaction x = VStr t)
  /\ forall x, In x cache -> cache_transaction x = VStr t -> holds_edit f b v x.

(** A row names one transaction id: both merges' readings agree. *)
Definition coherent_ids (o : order) : Prop :=
  has_transaction o = true -> sheet_transaction o = cache_transaction o.

(** The row the spreadsheet delivers for "T1": default flags, empty note. *)
Definition sheet_default_row : order :=
  {[ "Transaction ID" := VStr "T1"; "Name" := VStr "Alice";
     "Produce" := VStr "FALSE"; "Ready" := VStr "FALSE"; "Shipped" := VStr "FALSE";
     "Note" := VStr "" ]}.

(** The same row with a changed name. *)
Definition sheet_renamed_row : order := <["Name" := VStr "Alice-renamed"]> sheet_default_row.

(** The cached order after the user has set Produce and written a note. *)
Definition edited_order : order :=
  {[ "Transaction ID" := VStr "T1"; "Name" := VStr "Alice";
     "Produce" := VStr "TRUE"; "Ready" := VStr "FALSE"; "Shipped" := VStr "FALSE";
     "Note" := VStr "hello" ]}.

(** A cached order whose two names of the Produce flag disagree. *)
Definition disagreeing_order : order := <["Kesildi" := VStr "FALSE"]> edited_order.

(** A row the preserver maps to itself when it is its own source: for each
    editable pair the value the preserver would read is absent or already
    under both names. *)
Definition self_stable (o : order) : Prop := preserve_editable_fields o o = o.


(** Two rows that differ in their "photo" at most. *)
Definition same_but_photo (o o' : order) : Prop :=
  forall k, k <> "photo" -> o' !! k = o !! k.

(** A fetched row a second pass of the preserver leaves alone: the row as
    the merge stores it (with the edits of the cached order of its id) is
    what the preserver makes of the fetched row when that stored row is its
    source.  A row that is stable by itself is settled in every cache; a
    row that carries the frontend names only is settled in a cache whose
    order of this id has a value for each editable pair. *)
Definition settled (cache : list order) (o : order) : Prop :=
  preserve_editable_fields o (with_edits cache o) = with_edits cache o.

(** A fetched row with a photo URL that has a file name in [drive_env]. *)
Definition drive_row : order :=
  {[ "Transaction ID" := VStr "T3"; "Name" := VStr "Dan"; "Image" := VStr drive_url ]}.

(** No two rows of the list have equal transaction ids. *)
Fixpoint distinct_ids (rows : list order) : Prop :=
  match rows with
  | [] => True
  | o :: rest =>
      (forall x, In x rest -> py_eqb (sheet_transaction o) (sheet_transaction x) = false)
      /\ distinct_ids rest
  end.

(** A fetched row that carries both names of each editable pair with the
    same value, and one with no editable column at all. *)
Definition aliased_row : order :=
  {[ "Transaction ID" := VStr "T1"; "Name" := VStr "Alice";
     "Produce" := VStr "FALSE"; "Kesildi" := VStr "FALSE";
     "Ready" := VStr "FALSE"; "Hazır" := VStr "FALSE";
     "Shipped" := VStr "FALSE"; "Gönderildi" := VStr "FALSE";
     "Note" := VStr ""; "importantnote" := VStr "" ]}.

Definition plain_row : order :=
  {[ "Transaction ID" := VStr "T2"; "Name" := VStr "Bob" ]}.

(** A fetched row whose two transaction keys name different ids. *)
Definition two_id_row : order :=
  {[ "Transaction ID" := VStr "A"; "transaction" := VStr "B"; "Name" := VStr "Carol" ]}.

(** A list of keyed rows is in descending order of the keys. *)
Definition descending {K A : Type} (ltb : K -> K -> bool) (l : list (K * A)) : Prop :=
  StronglySorted (fun x y => ltb x.1 y.1 = false) l.

(** The rows of a keyed list that have the key [k], in their order. *)
Definition with_key {K A : Type} `{EqDecision K} (k : K) (l : list (K * A)) : list (K * A) :=
  List.filter (fun x => bool_decide (x.1 = k)) l.

(** The fetched rows paired with their date keys, as the quick sync sorts
    them. *)
Definition dated_rows {env : PyEnv} (clock : nat -> naive_datetime) (new_orders : list order)
    : list (naive_datetime * order) :=
  imap (fun i o => (get_order_date (clock i) o, o)) new_orders.

(** An environment in which two dates parse: "01.02.2024" under
    [%d.%m.%Y] and the ISO date "2025-01-02"; the clock constants below are
    2024-02-01, 2025-01-02 and 2026-11-03 12:00 in microseconds since
    [datetime.min]. *)
Definition us_2024_02_01 : naive_datetime := 63842342400000000%N.
Definition us_2025_01_02 : naive_datetime := 63871372800000000%N.
Definition us_2026_11_03_noon : naive_datetime := 63929304000000000%N.

Definition dated_env : PyEnv :=
  {| strptime := fun text format =>
       if String.eqb text "01.02.2024" && String.eqb format "%d.%m.%Y"
       then Some us_2024_02_01 else None;
     fromisoformat := fun text =>
       if String.eqb text "2025-01-02" then Some (mk_datetime us_2025_01_02 None) else None;
     isoformat := fun d =>
       if N.eqb (dt_wall d) us_2025_01_02 then "2025-01-02T00:00:00"
       else if N.eqb (dt_wall d) us_2024_02_01 then "2024-02-01T00:00:00"
       else "2026-11-03T12:00:00";
     istanbul_date := fixed_offset_date;
     cached_image_url := fun _ => None;
     set_iter := fun l => l;
     set_iter_perm := fun l => Permutation_refl l;
     MAX_SYNC_ORDERS := None;
     startup_mode := false |}.

(** Two fetched rows: one dated 1 February 2024, one whose date is no date. *)
Definition dated_row : order :=
  {[ "Transaction ID" := VStr "T1"; "Data" := VStr "01.02.2024" ]}.

Definition undated_row : order :=
  {[ "Transaction ID" := VStr "T2"; "Data" := VStr "garbage" ]}.

(** The sort key of a view item when it is a string. *)
Definition string_key (item : order) : string :=
  match sort_key item with
  | VStr s => s
  | _ => ""
  end.

(** View items whose sort key is a string. *)
Definition string_keyed (item : order) : Prop := sort_key item = VStr (string_key item).

(** A manual order the sort of the view can place: the value its sort key
    is read from, its "_sortKey" or, without one, its "created_at", is a
    string or counts as false. *)
Definition placeable_key (v : pyval) : bool :=
  match v with
  | VStr _ => true
  | _ => negb (py_truthy v)
  end.

Definition sortable_manual (m : order) : bool :=
  placeable_key (match m !! "_sortKey" with Some v => v | None => get m "created_at" end).

(** The items of a view with the sort key [k], in their order. *)
Definition keyed (k : string) (items : list order) : list order :=
  List.filter (fun x => bool_decide (string_key x = k)) items.

(** A manual order and a cached order that get the same sort key,
    "2025-01-02T00:00:00". *)
Definition manual_M : order :=
  {[ "transaction" := VStr "MANUAL-1A2B3C4D"; "__manualId" := VStr "1a2b3c4d";
     "buyername" := VStr "Mina"; "isManual" := VBool true;
     "_sortKey" := VStr "2025-01-02T00:00:00" ]}.

(** A stored manual order without "_sortKey", created on 3 January 2025,
    and one with neither "_sortKey" nor "created_at". *)
Definition manual_without_key : order :=
  {[ "transaction" := VStr "MANUAL-5E6F7A8B"; "__manualId" := VStr "5e6f7a8b";
     "buyername" := VStr "Nur"; "created_at" := VStr "2025-01-03T00:00:00" ]}.

Definition manual_bare : order :=
  {[ "transaction" := VStr "MANUAL-9C0D1E2F"; "__manualId" := VStr "9c0d1e2f" ]}.

Definition synced_S : order :=
  {[ "Transaction ID" := VStr "T1"; "Name" := VStr "Alice"; "Data" := VStr "2025-01-02" ]}.

(** ** The endpoints that write orders

    The state the order endpoints share: the cache, the manual orders (in
    memory and in [MANUAL_ORDERS_FILE]) and the completion log. *)

Record manual_store := mk_manual {
  manual_orders : list order;
  manual_orders_file : option (list order)
}.

(** [save_manual_orders], api.py 2987-2990. *)
Definition save_manual_orders (m : manual_store) : manual_store :=
  mk_manual (manual_orders m) (Some (manual_orders m)).

Record app_state := mk_app {
  app_cache : cache_state;
  app_manual : manual_store;
  app_log : completion_log
}.

(** What an endpoint answers: its body, or the [HTTPException] it raises. *)
Inductive response (A : Type) :=
| Ok (body : A)
| HTTPException (status_code : nat).

Arguments Ok {A} body.
Arguments HTTPException {A} status_code.

(** [(current_user.role or "").lower() == "admin"]; no character outside
    ASCII has a lower-case form that ends up in the word "admin" alone. *)
Definition is_admin_role (role : option string) : bool :=
  String.eqb (py_lower (default "" role)) "admin".

(** *** Resetting and refreshing the cache *)

(** [reset_orders_cache], api.py 1868-1877; [unlinked] is whether
    [CACHE_FILE.unlink()] went through. *)
Definition reset_orders_cache (unlinked : bool) (st : cache_state) : cache_state :=
  mk_cache [] (if unlinked then None else cache_file st).

(** [CRON_ALLOWED_HOSTS] and [ensure_local_cron_access], api.py 1858-1865:
    whether the request is let through. *)
Definition CRON_ALLOWED_HOSTS : list string := ["127.0.0.1"; "::1"].

Definition ensure_local_cron_access (client_host : option string) : bool :=
  match client_host with
  | Some host => bool_decide (host ∈ CRON_ALLOWED_HOSTS)
  | None => false
  end.

Section Refresh.
Context {env : PyEnv} {run : ImageRun}.

(** [refresh_orders], api.py 3538-3550: the state it leaves and the
    [records_fetched] of its answer; an exception of [update_cache]
    leaves the endpoint ([None]).  The image files are purged before the
    merge, so [cache_file_exists] stands for the downloads made after
    it. *)
Definition refresh_orders (unlinked : bool) (fetched : option (list order))
    (st : cache_state) : cache_state * option nat :=
  let '(st', out) := update_cache true fetched (reset_orders_cache unlinked st) in
  match out with
  | Returned _ => (st', Some (length (orders_cache st')))
  | Raised => (st', None)
  end.

(** [cron_refresh_orders], api.py 3553-3570. *)
Definition cron_refresh_orders (client_host : option string) (unlinked : bool)
    (fetched : option (list order)) (st : cache_state) : cache_state * response nat :=
  if ensure_local_cron_access client_host then
    match refresh_orders unlinked fetched st with
    | (st', Some records_fetched) => (st', Ok records_fetched)
    | (st', None) => (st', HTTPException 500)
    end
  else (st, HTTPException 403).

End Refresh.

(** *** Editing the fields of an order *)

(** [str(order.get('transaction') or order.get('Transaction ID') or '')],
    api.py 3810. *)
Definition edit_transaction (o : order) : string :=
  py_str (py_or (py_or (get o "transaction") (get o "Transaction ID")) (VStr "")).

(** [field_mapping], api.py 3829-3834, and [field_mapping.get(f, f)]. *)
Definition field_mapping : list (string * string) :=
  [ ("Produce", "Kesildi"); ("Ready", "Hazır"); ("Shipped", "Gönderildi");
    ("Note", "importantnote") ].

Definition mapped_field (frontend_field : string) : string :=
  match List.find (fun p => String.eqb p.1 frontend_field) field_mapping with
  | Some p => p.2
  | None => frontend_field
  end.

(** [requested_bool], api.py 3843-3847. *)
Definition requested_bool (value : pyval) : bool :=
  match value with
  | VStr s => bool_decide (py_lower (py_strip s) ∈ ["true"; "1"; "yes"; "y"])
  | _ => py_truthy value
  end.

Definition is_checkbox_field (frontend_field : string) : bool :=
  bool_decide (mapped_field frontend_field ∈ ["Kesildi"; "Hazır"; "Gönderildi"])
  || bool_decide (frontend_field ∈ ["Produce"; "Ready"; "Shipped"]).

Definition is_produce_field (frontend_field : string) : bool :=
  bool_decide (mapped_field frontend_field ∈ ["Kesildi"; "Produce"])
  || bool_decide (frontend_field ∈ ["Produce"; "Kesildi"]).

(** "Also update the UI fields", api.py 3861-3868. *)
Definition sync_ui_field (target_field : string) (o : order) : order :=
  if bool_decide (target_field ∈ ["Kesildi"; "Produce"])
  then <["Produce" := get o target_field]> o
  else if bool_decide (target_field ∈ ["Hazır"; "Ready"])
  then <["Ready" := get o target_field]> o
  else if bool_decide (target_field ∈ ["Gönderildi"; "Shipped"])
  then <["Shipped" := get o target_field]> o
  else if bool_decide (target_field ∈ ["importantnote"; "Note"])
  then <["Note" := get o target_field]> o
  else o.

(** One round of the loop over the request, api.py 3837-3871, on a cached
    order ([cached]) or a manual one: the order after it, [None] when the
    round raises 403. *)
Definition edit_field (cached is_admin : bool) (o : order) (u : string * pyval)
    : option order :=
  let frontend_field := u.1 in
  let value := u.2 in
  let backend_field := mapped_field frontend_field in
  let target_field := if cached then backend_field else frontend_field in
  if is_checkbox_field frontend_field then
    let requested := requested_bool value in
    if is_produce_field frontend_field && negb is_admin
       && normalize_flag_value (py_or (get o "Produce") (get o "Kesildi"))
       && negb requested
    then None
    else Some (sync_ui_field target_field (<[target_field := flag_literal requested]> o))
  else Some (sync_ui_field target_field (<[target_field := VStr (py_str value)]> o)).

(** The loop: the order as the loop leaves it (it is changed in place) and
    whether the loop ran to its end.  The request body is a [dict], visited
    in the order of its keys, each of which it holds once. *)
Fixpoint edit_fields (cached is_admin : bool) (updates : list (string * pyval)) (o : order)
    : order * bool :=
  match updates with
  | [] => (o, true)
  | u :: rest =>
      match edit_field cached is_admin o u with
      | Some o' => edit_fields cached is_admin rest o'
      | None => (o, false)
      end
  end.

Section Edit.
Context {env : PyEnv}.

(** [edit_order_fields], api.py 3795-3885; [timestamp] and [utcnow] are
    the clock readings of the tracker and of [determine_sort_key], the
    body of the answer is its [updated_fields]. *)
Definition edit_order_fields (timestamp : string) (utcnow : datetime) (is_admin : bool)
    (transaction : string) (updates : list (string * pyval)) (st : app_state)
    : app_state * response (list string) :=
  let cache := orders_cache (app_cache st) in
  let manual := manual_orders (app_manual st) in
  let updated_fields := map (fun u => mapped_field u.1) updates in
  match list_find (fun o => edit_transaction o = transaction) cache with
  | Some (order_index, o) =>
      let '(o', finished) := edit_fields true is_admin updates o in
      let cache' := mk_cache (<[order_index := o']> cache) (cache_file (app_cache st)) in
      if finished then
        (mk_app (save_cache cache') (app_manual st)
           (update_order_completion_tracking timestamp o' (VStr transaction) (app_log st)),
         Ok updated_fields)
      else (mk_app cache' (app_manual st) (app_log st), HTTPException 403)
  | None =>
      match list_find (fun o => py_str (get o "transaction") = transaction) manual with
      | None => (st, HTTPException 404)
      | Some (manual_index, manual_entry) =>
          if dict_truthy manual_entry then
            let '(o', finished) := edit_fields false is_admin updates manual_entry in
            if finished then
              let o'' := <["_sortKey" := VStr (determine_sort_key utcnow o')]> o' in
              (mk_app (app_cache st)
                 (save_manual_orders
                    (mk_manual (<[manual_index := o'']> manual)
                       (manual_orders_file (app_manual st))))
                 (update_order_completion_tracking timestamp o'' (VStr transaction)
                    (app_log st)),
               Ok updated_fields)
            else
              (mk_app (app_cache st)
                 (mk_manual (<[manual_index := o']> manual)
                    (manual_orders_file (app_manual st)))
                 (app_log st),
               HTTPException 403)
          else (st, HTTPException 404)
      end
  end.

End Edit.

(** *** Manual orders *)

(** [MANUAL_ORDER_FIELDS] and [DEFAULT_MANUAL_ORDER], api.py 3013-3044. *)
Definition MANUAL_ORDER_FIELDS : list string :=
  [ "buyername"; "productname"; "Quantity"; "material"; "Chain Length";
    "Personalization"; "ioss"; "FullAdress"; "itemprice"; "discount";
    "salestax"; "ordertotal"; "buyeremail"; "tarih"; "created_at";
    "Note"; "photo"; "Produce"; "Ready"; "Shipped"; "shop"; "transaction"; "_sortKey" ].

Definition DEFAULT_MANUAL_ORDER : order :=
  list_to_map
    [ ("buyername", VStr ""); ("productname", VStr ""); ("Quantity", VStr "");
      ("material", VStr ""); ("Chain Length", VStr ""); ("Personalization", VStr "");
      ("ioss", VStr ""); ("FullAdress", VStr ""); ("itemprice", VStr "");
      ("discount", VStr ""); ("salestax", VStr ""); ("ordertotal", VStr "");
      ("buyeremail", VStr ""); ("tarih", VStr ""); ("created_at", VStr "");
      ("Note", VStr ""); ("photo", VStr ""); ("Produce", VStr "FALSE");
      ("Ready", VStr "FALSE"); ("Shipped", VStr "FALSE"); ("shop", VStr "");
      ("transaction", VStr ""); ("isManual", VBool true) ].

(** The loop that copies the known fields of a payload,
    api.py 3049-3051 and 2976-2978. *)
Definition copy_manual_field (payload : order) (o : order) (field : string) : order :=
  match payload !! field with
  | Some VNone | None => o
  | Some v => <[field := v]> o
  end.

Definition copy_manual_fields (payload : order) : order :=
  fold_left (copy_manual_field payload) MANUAL_ORDER_FIELDS DEFAULT_MANUAL_ORDER.

(** [s[:n]], the first [n] code points of a text: in UTF-8 a byte
    [10xxxxxx] continues the code point begun before it. *)
Definition continuation_byte (c : ascii) : bool :=
  ((128 <=? N_of_ascii c) && (N_of_ascii c <? 192))%N.

Fixpoint py_prefix (n : nat) (s : string) : string :=
  match s with
  | EmptyString => EmptyString
  | String c r =>
      if continuation_byte c then String c (py_prefix n r)
      else match n with
           | O => EmptyString
           | S m => String c (py_prefix m r)
           end
  end.

(** [order.get("__manualId") == manual_id] *)
Definition has_manual_id (manual_id : pyval) (o : order) : bool :=
  py_eqb (get o "__manualId") manual_id.

(** [find_manual_by_id] and [find_manual_by_transaction], api.py 3060-3064:
    the first match with its position. *)
Definition find_manual_by_id (manual_id : string) (manual : list order)
    : option (nat * order) :=
  list_find (fun o => has_manual_id (VStr manual_id) o = true) manual.

Definition find_manual_by_transaction (transaction : string) (manual : list order)
    : option (nat * order) :=
  list_find (fun o => py_str (get o "transaction") = transaction) manual.

(** The value [update_manual_order] stores for a stage flag,
    api.py 5251-5256. *)
Definition manual_flag (value : pyval) : pyval :=
  match value with
  | VStr s => flag_literal (bool_decide (py_lower (py_strip s) ∈ ["true"; "1"; "yes"]))
  | _ => flag_literal (py_truthy value)
  end.

(** One round of its loop, api.py 5248-5258. *)
Definition update_manual_field (o : order) (u : string * pyval) : order :=
  if bool_decide (u.1 ∈ MANUAL_ORDER_FIELDS) then
    if bool_decide (u.1 ∈ ["Produce"; "Ready"; "Shipped"])
    then <[u.1 := manual_flag u.2]> o
    else <[u.1 := match u.2 with VNone => VStr "" | v => v end]> o
  else o.

(** The loop of [delete_manual_order], api.py 5275-5281: the first order
    with the id, and the others. *)
Fixpoint remove_first (manual_id : string) (manual : list order)
    : option order * list order :=
  match manual with
  | [] => (None, [])
  | o :: rest =>
      if has_manual_id (VStr manual_id) o then (Some o, rest)
      else let '(removed, remaining) := remove_first manual_id rest in
           (removed, o :: remaining)
  end.

Section ManualOrders.
Context {env : PyEnv}.
(** [str.upper()], a library call. *)
Variable upper : string -> string.

(** The transaction a manual order gets when it has none. *)
Definition manual_transaction (manual_id : string) : string :=
  String.append "MANUAL-" (upper (py_prefix 8 manual_id)).

(** [build_manual_order], api.py 3046-3058; [uuid] is the text of
    [uuid.uuid4()], [utcnow] and [utcnow'] the readings of the clock for
    [created_at] and in [determine_sort_key]. *)
Definition build_manual_order (uuid : string) (utcnow utcnow' : datetime)
    (payload : order) : order :=
  let manual_id := py_str (py_or (get payload "__manualId") (VStr uuid)) in
  let o := copy_manual_fields payload in
  let o := if py_truthy (get o "transaction") then o
           else <["transaction" := VStr (manual_transaction manual_id)]> o in
  let o := <["__manualId" := VStr manual_id]> o in
  let o := <["created_at" := py_or (get payload "created_at") (VStr (isoformat utcnow))]> o in
  let o := <["isManual" := VBool true]> o in
  <["_sortKey" := py_or (get payload "_sortKey") (VStr (determine_sort_key utcnow' o))]> o.

(** [create_manual_order], api.py 5224-5235. *)
Definition create_manual_order (timestamp uuid : string) (utcnow utcnow' : datetime)
    (payload : order) (st : app_state) : app_state * order :=
  let o := build_manual_order uuid utcnow utcnow' payload in
  let kept :=
    List.filter (fun entry => negb (has_manual_id (get o "__manualId") entry))
      (manual_orders (app_manual st)) in
  (mk_app (app_cache st)
     (save_manual_orders (mk_manual (kept ++ [o]) (manual_orders_file (app_manual st))))
     (update_order_completion_tracking timestamp o (get o "transaction") (app_log st)),
   o).

(** [update_manual_order], api.py 5237-5265. *)
Definition update_manual_order (timestamp : string) (utcnow : datetime)
    (manual_id : string) (updates : list (string * pyval)) (st : app_state)
    : app_state * response order :=
  let manual := manual_orders (app_manual st) in
  match find_manual_by_id manual_id manual with
  | None => (st, HTTPException 404)
  | Some (index, o) =>
      if dict_truthy o then
        let previous_identifier := get_order_identifier o VNone in
        let o1 := fold_left update_manual_field updates o in
        let o2 := <["_sortKey" := VStr (determine_sort_key utcnow o1)]> o1 in
        let log1 :=
          update_order_completion_tracking timestamp o2 (get o2 "transaction") (app_log st) in
        let new_identifier := get_order_identifier o2 VNone in
        let log2 :=
          match previous_identifier, new_identifier with
          | Some p, Some n =>
              if negb (String.eqb p "") && negb (String.eqb n "") && negb (String.eqb p n)
              then remove_order_completion_entry (Some p) log1
              else log1
          | _, _ => log1
          end in
        (mk_app (app_cache st)
           (save_manual_orders
              (mk_manual (<[index := o2]> manual) (manual_orders_file (app_manual st))))
           log2,
         Ok o2)
      else (st, HTTPException 404)
  end.

(** [delete_manual_order], api.py 5267-5289. *)
Definition delete_manual_order (is_admin : bool) (manual_id : string) (st : app_state)
    : app_state * response bool :=
  if is_admin then
    match remove_first manual_id (manual_orders (app_manual st)) with
    | (Some removed_order, remaining) =>
        if dict_truthy removed_order then
          (mk_app (app_cache st)
             (save_manual_orders (mk_manual remaining (manual_orders_file (app_manual st))))
             (remove_order_completion_entry (Some manual_id)
                (remove_order_completion_entry (get_order_identifier removed_order VNone)
                   (app_log st))),
           Ok true)
        else (st, HTTPException 404)
    | (None, _) => (st, HTTPException 404)
    end
  else (st, HTTPException 403).

(** [load_manual_orders], api.py 2962-2985, on the orders the file holds
    ([None]: no file, or one that does not parse); [uuid i], [uuid' i]
    and [utcnow i] are what the library returns while entry [i] is
    normalised. *)
Definition normalize_manual_entry (uuid uuid' : string) (utcnow : datetime)
    (entry : order) : order :=
  let o := fold_left (copy_manual_field entry) MANUAL_ORDER_FIELDS DEFAULT_MANUAL_ORDER in
  let o := <["transaction" :=
               py_or (get entry "transaction") (VStr (manual_transaction uuid))]> o in
  let o := <["__manualId" := py_or (get entry "__manualId") (VStr uuid')]> o in
  let o := <["created_at" := get_default entry "created_at" (VStr (isoformat utcnow))]> o in
  <["isManual" := VBool true]> o.

Definition load_manual_orders (uuid uuid' : nat -> string) (utcnow : nat -> datetime)
    (m : manual_store) : manual_store :=
  save_manual_orders
    (mk_manual
       (imap (fun i entry => normalize_manual_entry (uuid i) (uuid' i) (utcnow i) entry)
          (default [] (manual_orders_file m)))
       (manual_orders_file m)).

End ManualOrders.

(** *** The display order of the rows *)

(** [[str(item) for item in sequence if item]], api.py 2999 and 5306. *)
Definition sequence_items (sequence : list pyval) : list string :=
  map py_str (List.filter py_truthy sequence).

(** [update_order_sequence_endpoint], api.py 5295-5308: [privileged] is
    whether the user's e-mail is in [PRIVILEGED_ROW_ORDER_EMAILS],
    [sequence] the ["sequence"] of the payload when it is a list. *)
Definition update_order_sequence_endpoint (privileged : bool)
    (sequence : option (list pyval)) (order_sequence : list string)
    : list string * response (list string) :=
  if privileged then
    match sequence with
    | Some items => (sequence_items items, Ok (sequence_items items))
    | None => (order_sequence, HTTPException 400)
    end
  else (order_sequence, HTTPException 403).

(** ** Rate limiting and the lock-out after failed logins

    A reading of [time.time()] is the rational its float denotes; for the
    readings of a running clock [now - 1.0] and [now - 300] are exact.
    The two tables map a client address to the [deque] of its time stamps,
    oldest first; every operation runs under [_rate_limit_lock]. *)

Abbreviation stamps := (gmap string (list Q)).

Definition RATE_LIMIT_WINDOW_SECONDS : Q := 1.
Definition DEFAULT_RATE_LIMIT : nat := 30.
Definition WHITELIST_RATE_LIMIT : nat := 200.
Definition RATE_LIMIT_WHITELIST : list string := ["192.168.0.14"].
Definition FAILED_LOGIN_LIMIT : nat := 7.
Definition FAILED_LOGIN_WINDOW_SECONDS : Q := 300.

(** [while bucket and bucket[0] <= window_start: bucket.popleft()] *)
Fixpoint popleft_until (window_start : Q) (bucket : list Q) : list Q :=
  match bucket with
  | [] => []
  | t :: rest =>
      if Qle_bool t window_start then popleft_until window_start rest else bucket
  end.

Definition rate_limit (client_ip : string) : nat :=
  if bool_decide (client_ip ∈ RATE_LIMIT_WHITELIST)
  then WHITELIST_RATE_LIMIT else DEFAULT_RATE_LIMIT.

(** [rate_limit_dependency], api.py 1314-1333, for the address
    [_resolve_client_ip] found. *)
Definition rate_limit_dependency (client_ip : string) (now : Q) (hits : stamps)
    : stamps * response unit :=
  let window_start := (now - RATE_LIMIT_WINDOW_SECONDS)%Q in
  let bucket := popleft_until window_start (default [] (hits !! client_ip)) in
  if (rate_limit client_ip <=? length bucket)%nat
  then (<[client_ip := bucket]> hits, HTTPException 429)
  else (<[client_ip := bucket ++ [now]]> hits, Ok tt).

(** [register_failed_login], api.py 1336-1343. *)
Definition register_failed_login (ip_address : string) (now : Q) (attempts : stamps)
    : stamps :=
  let window_start := (now - FAILED_LOGIN_WINDOW_SECONDS)%Q in
  <[ip_address := popleft_until window_start (default [] (attempts !! ip_address)) ++ [now]]>
    attempts.

(** [is_ip_locked], api.py 1346-1355. *)
Definition is_ip_locked (ip_address : string) (now : Q) (attempts : stamps)
    : stamps * bool :=
  let window_start := (now - FAILED_LOGIN_WINDOW_SECONDS)%Q in
  match attempts !! ip_address with
  | None | Some [] => (attempts, false)
  | Some bucket =>
      let bucket := popleft_until window_start bucket in
      (<[ip_address := bucket]> attempts, (FAILED_LOGIN_LIMIT <=? length bucket)%nat)
  end.

(** What [login] (api.py 2350-2408) finds once the address is not locked
    and the captcha has passed: no user for the name and password, a user
    who is not active, one whose address is not in [ALLOWED_EMAILS], or
    one who is let in. *)
Inductive credentials :=
| BadPassword
| InactiveUser
| NotWhitelisted
| Accepted.

(** A login request: the address, the clock as [rate_limit_dependency],
    [is_ip_locked] and [register_failed_login] read it, the verdict on the
    captcha and what the user table says. *)
Record login_request := mk_login {
  login_ip : string;
  login_arrived_at : Q;
  login_checked_at : Q;
  login_failed_at : Q;
  login_captcha : bool;
  login_found : credentials
}.

(** [login], api.py 2350-2408, as far as the two tables go (the session it
    opens is left out).  The endpoint depends on [rate_limit_dependency]
    (api.py 2355), which runs before the body: when it raises, the request
    is answered 429 and the body does not run. *)
Definition login (r : login_request) (hits attempts : stamps)
    : stamps * stamps * response unit :=
  let '(hits, rate_guard) := rate_limit_dependency (login_ip r) (login_arrived_at r) hits in
  match rate_guard with
  | HTTPException status_code => (hits, attempts, HTTPException status_code)
  | Ok _ =>
      let '(attempts, locked) := is_ip_locked (login_ip r) (login_checked_at r) attempts in
      if locked then (hits, attempts, HTTPException 429)
      else if negb (login_captcha r) then (hits, attempts, HTTPException 400)
      else match login_found r with
           | BadPassword =>
               (hits, register_failed_login (login_ip r) (login_failed_at r) attempts,
                HTTPException 401)
           | InactiveUser => (hits, attempts, HTTPException 400)
           | NotWhitelisted => (hits, attempts, HTTPException 403)
           | Accepted => (hits, delete (login_ip r) attempts, Ok tt)
           end
  end.

(** The requests that touch the two tables: a login, or a request to one
    of the other endpoints behind [rate_limit_dependency] (api.py 3892,
    3964, 3999, 4125), of which only the guard matters here. *)
Inductive request :=
| Login (r : login_request)
| Guarded (client_ip : string) (now : Q).

(** A run of requests, one after the other: the answers, oldest first (for
    a guarded request the answer of the guard), and the two tables left. *)
Fixpoint run_traffic (requests : list request) (hits attempts : stamps)
    : list (response unit) * (stamps * stamps) :=
  match requests with
  | [] => ([], (hits, attempts))
  | Login r :: rest =>
      let '(hits', attempts', answer) := login r hits attempts in
      let '(answers, final) := run_traffic rest hits' attempts' in
      (answer :: answers, final)
  | Guarded client_ip now :: rest =>
      let '(hits', answer) := rate_limit_dependency client_ip now hits in
      let '(answers, final) := run_traffic rest hits' attempts in
      (answer :: answers, final)
  end.

Fixpoint run_requests (requests : list (string * Q)) (hits : stamps)
    : list (response unit) * stamps :=
  match requests with
  | [] => ([], hits)
  | (client_ip, now) :: rest =>
      let '(hits', answer) := rate_limit_dependency client_ip now hits in
      let '(answers, final) := run_requests rest hits' in
      (answer :: answers, final)
  end.

(** *** Chat messages *)

(** The slice [get_chat_messages] returns of the filtered, sorted
    messages, api.py 4848-4858; [limit] was checked to lie in 1..500 and
    [offset] to be 0 or more when the request came in. *)
Definition chat_window {A} (limit : option nat) (offset : nat) (filtered : list A) : list A :=
  match limit with
  | None => filtered
  | Some limit =>
      let total := length filtered in
      if (total =? 0)%nat then []
      else
        let effective_limit := Nat.max 1 (Nat.min limit 500) in
        let effective_offset := Nat.max 0 (Nat.min offset total) in
        let start_index := (total - effective_offset - effective_limit)%nat in
        let end_index := (total - effective_offset)%nat in
        drop start_index (take end_index filtered)
  end.

(** ** Vocabulary of the further statements *)

(** A log entry is well formed: it is complete exactly when it has a
    [completed_at], and that is the newest time stamp of its history. *)
Definition entry_well_formed (e : completion_entry) : Prop :=
  match completed_at e with
  | Some ts => is_complete e = true /\ last (history e) = Some ts
  | None => is_complete e = false
  end.

Definition log_well_formed (log : completion_log) : Prop :=
  forall id e, log !! id = Some e -> entry_well_formed e.

(** The six keys the stage flags are read from, and an order that holds
    text (or nothing) under each of them, as spreadsheet rows and edited
    orders do. *)
Definition stage_flag_keys : list string :=
  ["Produce"; "Kesildi"; "Ready"; "Hazır"; "Shipped"; "Gönderildi"].

Definition text_or_missing (v : option pyval) : Prop :=
  v = None \/ v = Some VNone \/ exists s, v = Some (VStr s).

Definition text_flags (o : order) : Prop :=
  forall k, k ∈ stage_flag_keys -> text_or_missing (o !! k).

(** The keys of a view record built from a cached order. *)
Definition view_keys : list string :=
  [ "photo"; "buyername"; "Produce"; "Ready"; "Shipped"; "Note"; "productname";
    "Quantity"; "material"; "Chain Length"; "Personalization"; "ioss"; "FullAdress";
    "itemprice"; "discount"; "salestax"; "ordertotal"; "buyeremail"; "tarih";
    "vatcollected"; "vatid"; "shop"; "vatpaidchf"; "transaction"; "Buyer Note";
    "Expres"; "data"; "buyermessage"; "express"; "gonderimdurumu"; "status";
    "Kesildi"; "Hazır"; "Gönderildi"; "importantnote"; "Problem"; "isManual"; "_sortKey" ].

(** The number of orders of a list that satisfy a test. *)
Definition count_orders (p : order -> bool) (l : list order) : nat :=
  length (List.filter p l).

(** The three stage flags of an order, one by one. *)
Definition produce_flag (o : order) : bool := (get_order_stage_flags o).1.1.
Definition ready_flag (o : order) : bool := (get_order_stage_flags o).1.2.
Definition shipped_flag (o : order) : bool := (get_order_stage_flags o).2.

(** What the edit endpoint stores for a value sent under a field: the flag
    literal for a checkbox field, the text of the value otherwise. *)
Definition stored_value (field : string) (value : pyval) : pyval :=
  if is_checkbox_field field then flag_literal (requested_bool value)
  else VStr (py_str value).

(** The keys one round of the edit loop writes: the target field and, for
    an editable pair, its frontend name. *)
Definition edit_targets (cached : bool) (frontend_field : string) : list string :=
  let target_field := if cached then mapped_field frontend_field else frontend_field in
  target_field ::
    (if bool_decide (target_field ∈ ["Kesildi"; "Produce"]) then ["Produce"]
     else if bool_decide (target_field ∈ ["Hazır"; "Ready"]) then ["Ready"]
     else if bool_decide (target_field ∈ ["Gönderildi"; "Shipped"]) then ["Shipped"]
     else if bool_decide (target_field ∈ ["importantnote"; "Note"]) then ["Note"]
     else []).

(** The keys a whole request may write. *)
Definition touched_keys (cached : bool) (updates : list (string * pyval)) : list string :=
  List.flat_map (fun u => edit_targets cached u.1) updates.

(** The last update of a request that is sent under one of two names. *)
Definition last_update (f b : string) (updates : list (string * pyval))
    : option (string * pyval) :=
  last (List.filter (fun u => String.eqb u.1 f || String.eqb u.1 b) updates).

(** The round of the edit loop is refused: a user who is not an admin asks
    to clear the Produce flag of an order on which it is set. *)
Definition clears_produce (is_admin : bool) (o : order) (u : string * pyval) : bool :=
  is_checkbox_field u.1 && is_produce_field u.1 && negb is_admin
  && produce_flag o && negb (requested_bool u.2).

(** A state with one cached order, the row the spreadsheet delivers for
    "T1", and nothing else. *)
Definition one_order_state : app_state :=
  mk_app (mk_cache [sheet_default_row] None) (mk_manual [] None) ∅.

(** A cached row whose "Produce" is the boolean [False] while its
    "Kesildi" is set. *)
Definition untyped_flag_row : order :=
  {[ "Transaction ID" := VStr "T1"; "Produce" := VBool false; "Kesildi" := VStr "TRUE";
     "Ready" := VStr "TRUE"; "Shipped" := VStr "TRUE" ]}.

(** A state whose one cached order has Produce set, and the request of a
    user who writes a note and then asks to clear Produce. *)
Definition edited_state : app_state :=
  mk_app (mk_cache [edited_order] None) (mk_manual [] None) ∅.

Definition note_then_clear : list (string * pyval) :=
  [ ("Note", VStr "call the buyer"); ("Produce", VStr "false") ].

(** A request that sets Produce. *)
Definition set_produce : list (string * pyval) := [ ("Produce", VStr "true") ].

(** The clock readings of the examples. *)
Definition sample_stamp : string := "2026-11-03T12:00:00+00:00".
Definition sample_now : datetime := mk_datetime us_2026_11_03_noon None.

(** A closed decidable proposition, settled by evaluation. *)
Ltac decide_closed := apply (bool_decide_unpack _); vm_compute; exact I.

(** The keys of a manual order as [build_manual_order] returns it. *)
Definition manual_keys : list string :=
  MANUAL_ORDER_FIELDS ++ ["isManual"; "__manualId"].

(** What a known field of a manual order holds after the payload has been
    copied over the defaults. *)
Definition copied_value (payload : order) (field : string) (dflt : option pyval)
    : option pyval :=
  match payload !! field with
  | Some VNone | None => dflt
  | Some v => Some v
  end.

(** No two manual orders of the list have equal ids. *)
Fixpoint distinct_manual_ids (manual : list order) : Prop :=
  match manual with
  | [] => True
  | o :: rest =>
      (forall x, In x rest -> has_manual_id (get o "__manualId") x = false)
      /\ distinct_manual_ids rest
  end.

(** The last update of a request that is sent under a given name. *)
Definition last_value (field : string) (updates : list (string * pyval)) : option pyval :=
  snd <$> last (List.filter (fun u => String.eqb u.1 field) updates).

(** A payload for a manual order, with all three stage flags set. *)
Definition manual_payload_done : order :=
  {[ "buyername" := VStr "Mina"; "Produce" := VStr "TRUE"; "Ready" := VStr "TRUE";
     "Shipped" := VStr "TRUE"; "color" := VStr "red" ]}.

(** The library calls of the examples: [str.upper] on ASCII letters, and
    the text of one UUID. *)
Definition ascii_upper (s : string) : string :=
  string_of (map (fun a => if ((97 <=? a) && (a <=? 122))%N then (a - 32)%N else a)
               (bytes_of s)).

Definition sample_uuid : string := "1a2b3c4d-0000-4000-8000-000000000000".

(** A state with no order at all. *)
Definition empty_state : app_state := mk_app (mk_cache [] None) (mk_manual [] None) ∅.

(** What [update_manual_order] stores for a value sent under a known
    field: the flag literal for a stage flag, the empty text for [None],
    the value itself otherwise. *)
Definition manual_stored_value (field : string) (value : pyval) : pyval :=
  if bool_decide (field ∈ ["Produce"; "Ready"; "Shipped"]) then manual_flag value
  else match value with VNone => VStr "" | v => v end.

(** The manual orders of a state. *)
Definition manual_of (st : app_state) : list order := manual_orders (app_manual st).

(** A display order as a request sends it back: its texts as values. *)
Definition as_values (sequence : list string) : list pyval := map VStr sequence.

(** An order a (re)load of the manual orders leaves as it is. *)
Definition normalized_manual (entry : order) : Prop :=
  entry !! "isManual" = Some (VBool true)
  /\ py_truthy (get entry "transaction") = true
  /\ py_truthy (get entry "__manualId") = true
  /\ is_Some (entry !! "created_at")
  /\ forall k, is_Some (entry !! k) -> k ∈ manual_keys.

(** *** The sliding windows the two tables of time stamps stand for *)

(** The readings of the clock do not go back. *)
Fixpoint nondecreasing (readings : list Q) : bool :=
  match readings with
  | [] => true
  | a :: rest =>
      match rest with
      | [] => true
      | b :: _ => Qle_bool a b && nondecreasing rest
      end
  end.

(** A stamp is newer than the start of the window. *)
Definition newer (window_start t : Q) : bool := negb (Qle_bool t window_start).

(** The stamps recorded for one address, oldest first, and how many of
    them lie less than [window] before [now]. *)
Definition times (client_ip : string) (recorded : list (string * Q)) : list Q :=
  map snd (List.filter (fun h => String.eqb h.1 client_ip) recorded).

Definition window_count (window : Q) (client_ip : string) (now : Q)
    (recorded : list (string * Q)) : nat :=
  length (List.filter (newer (now - window)%Q) (times client_ip recorded)).

(** The rate limit as a sliding window over all the requests let through
    so far: a request is refused when its address already has its limit of
    them in the last second. *)
Fixpoint sliding_window (requests accepted : list (string * Q)) : list (response unit) :=
  match requests with
  | [] => []
  | (client_ip, now) :: rest =>
      if (rate_limit client_ip
          <=? window_count RATE_LIMIT_WINDOW_SECONDS client_ip now accepted)%nat
      then HTTPException 429 :: sliding_window rest accepted
      else Ok tt :: sliding_window rest (accepted ++ [(client_ip, now)])
  end.

(** The two tables as sliding windows over what is on record, the
    requests the guard let through and the failed logins: a request is
    refused by the guard when its address already has its limit of accepted
    requests in the last second, and then nothing else happens; a login
    the guard lets through is locked out while seven failures of its
    address lie in the last five minutes; a wrong password adds a failure,
    a login that goes through clears the failures of its address, nothing
    else changes the record of failures. *)
Fixpoint traffic_windows (requests : list request) (accepted failures : list (string * Q))
    : list (response unit) :=
  match requests with
  | [] => []
  | Guarded client_ip now :: rest =>
      if (rate_limit client_ip
          <=? window_count RATE_LIMIT_WINDOW_SECONDS client_ip now accepted)%nat
      then HTTPException 429 :: traffic_windows rest accepted failures
      else Ok tt :: traffic_windows rest (accepted ++ [(client_ip, now)]) failures
  | Login r :: rest =>
      if (rate_limit (login_ip r)
          <=? window_count RATE_LIMIT_WINDOW_SECONDS (login_ip r) (login_arrived_at r)
                accepted)%nat
      then HTTPException 429 :: traffic_windows rest accepted failures
      else
        let accepted := accepted ++ [(login_ip r, login_arrived_at r)] in
        if (FAILED_LOGIN_LIMIT
            <=? window_count FAILED_LOGIN_WINDOW_SECONDS (login_ip r) (login_checked_at r)
                  failures)%nat
        then HTTPException 429 :: traffic_windows rest accepted failures
        else if negb (login_captcha r)
        then HTTPException 400 :: traffic_windows rest accepted failures
        else match login_found r with
             | BadPassword =>
                 HTTPException 401
                 :: traffic_windows rest accepted
                      (failures ++ [(login_ip r, login_failed_at r)])
             | InactiveUser => HTTPException 400 :: traffic_windows rest accepted failures
             | NotWhitelisted => HTTPException 403 :: traffic_windows rest accepted failures
             | Accepted =>
                 Ok tt
                 :: traffic_windows rest accepted
                      (List.filter (fun h => negb (String.eqb h.1 (login_ip r))) failures)
             end
  end.

(** The readings of the clock a run of requests makes, in their order. *)
Definition request_readings (q : request) : list Q :=
  match q with
  | Login r => [login_arrived_at r; login_checked_at r; login_failed_at r]
  | Guarded _ now => [now]
  end.

Definition traffic_readings (requests : list request) : list Q :=
  List.flat_map request_readings requests.

(** Thirty-one requests of one address in the same instant and one two
    seconds later. *)
Definition sample_burst : list (string * Q) :=
  repeat ("10.0.0.1", 5%Q) 31 ++ [("10.0.0.1", 7%Q)].

(** Seven wrong passwords and then the right one; thirty requests to
    other endpoints in one instant and a login in the same instant; the
    right password six minutes later. *)
Definition sample_traffic : list request :=
  repeat (Login (mk_login "10.0.0.1" 10 10 10 true BadPassword)) 7
  ++ [Login (mk_login "10.0.0.1" 20 20 20 true Accepted)]
  ++ repeat (Guarded "10.0.0.1" 30) 30
  ++ [Login (mk_login "10.0.0.1" 30 30 30 true Accepted);
      Login (mk_login "10.0.0.1" 400 400 400 true Accepted);
      Login (mk_login "10.0.0.1" 401 401 401 true BadPassword)].

(** A table of time stamps and a record agree on every address, for the
    readings of the clock still to come: the bucket of an address holds
    its recorded stamps from some point on, and that point lies before
    every window still to be looked at. *)
Definition on_record (window : Q) (table : stamps) (recorded : list (string * Q))
    (readings : list Q) : Prop :=
  forall ip, exists w,
    (forall q, In q readings -> (w <= q - window)%Q)
    /\ default [] (table !! ip) = List.filter (newer w) (times ip recorded)
    /\ StronglySorted Qle (times ip recorded ++ readings).

Definition hits_on_record := on_record RATE_LIMIT_WINDOW_SECONDS.
Definition failures_on_record := on_record FAILED_LOGIN_WINDOW_SECONDS.

(** * Properties *)

(** ** Strings *)

Lemma bytes_of_bounded s : Forall (fun a => (a < 256)%N) (bytes_of s).
Proof.
  unfold bytes_of. induction s as [|c s IH]; simpl; constructor; auto.
  apply N_ascii_bounded.
Qed.

Lemma bytes_of_string_of l :
  Forall (fun a => (a < 256)%N) l -> bytes_of (string_of l) = l.
Proof.
  unfold bytes_of, string_of. intros H.
  rewrite list_ascii_of_string_of_list_ascii, map_map.
  induction H as [|a l Ha _ IH]; simpl; [reflexivity|].
  rewrite IH. f_equal. apply N_ascii_embedding. exact Ha.
Qed.

Lemma lower_byte_bounded a : (a < 256)%N -> (lower_byte a < 256)%N.
Proof. unfold lower_byte. destruct (_ && _) eqn:E; [|auto]. intros _. lia. Qed.

Lemma lower_byte_idemp a : lower_byte (lower_byte a) = lower_byte a.
Proof.
  unfold lower_byte. destruct ((65 <=? a)%N && (a <=? 90)%N) eqn:E; [|rewrite E; reflexivity].
  destruct ((65 <=? a + 32)%N && (a + 32 <=? 90)%N) eqn:E'; [lia|reflexivity].
Qed.

Lemma ws1_lower a : ws1 (lower_byte a) = ws1 a.
Proof. unfold ws1, lower_byte. destruct ((65 <=? a)%N && (a <=? 90)%N) eqn:E; [lia|reflexivity]. Qed.

Lemma lower_byte_eqb a k :
  (k < 65 \/ 122 < k)%N -> (lower_byte a =? k)%N = (a =? k)%N.
Proof. unfold lower_byte. destruct ((65 <=? a)%N && (a <=? 90)%N) eqn:E; lia. Qed.

Lemma lower_byte_leb_l a k :
  (122 < k)%N -> (k <=? lower_byte a)%N = (k <=? a)%N.
Proof. unfold lower_byte. destruct ((65 <=? a)%N && (a <=? 90)%N) eqn:E; lia. Qed.

Lemma lower_byte_leb_r a k :
  (122 < k)%N -> (lower_byte a <=? k)%N = (a <=? k)%N.
Proof. unfold lower_byte. destruct ((65 <=? a)%N && (a <=? 90)%N) eqn:E; lia. Qed.

Lemma ws2_lower a b : ws2 (lower_byte a) (lower_byte b) = ws2 a b.
Proof. unfold ws2. rewrite !lower_byte_eqb by lia. reflexivity. Qed.

Lemma ws3_lower a b c : ws3 (lower_byte a) (lower_byte b) (lower_byte c) = ws3 a b c.
Proof.
  unfold ws3.
  rewrite !lower_byte_eqb, lower_byte_leb_l, lower_byte_leb_r by lia. reflexivity.
Qed.

Lemma lstrip_bytes_cons a r1 :
  lstrip_bytes (a :: r1) =
  if ws1 a then lstrip_bytes r1
  else match r1 with
       | [] => a :: r1
       | b :: r2 =>
           if ws2 a b then lstrip_bytes r2
           else match r2 with
                | [] => a :: r1
                | c :: r3 => if ws3 a b c then lstrip_bytes r3 else a :: r1
                end
       end.
Proof. reflexivity. Qed.

Lemma rstrip_rev_bytes_cons a r1 :
  rstrip_rev_bytes (a :: r1) =
  if ws1 a then rstrip_rev_bytes r1
  else match r1 with
       | [] => a :: r1
       | b :: r2 =>
           if ws2 b a then rstrip_rev_bytes r2
           else match r2 with
                | [] => a :: r1
                | c :: r3 => if ws3 c b a then rstrip_rev_bytes r3 else a :: r1
                end
       end.
Proof. reflexivity. Qed.

Lemma lstrip_bytes_lower l :
  lstrip_bytes (map lower_byte l) = map lower_byte (lstrip_bytes l).
Proof.
  remember (length l) as n eqn:Hn. revert l Hn.
  induction n as [n IH] using lt_wf_ind. intros l Hn.
  destruct l as [|a r1]; [reflexivity|].
  rewrite map_cons, !lstrip_bytes_cons, ws1_lower.
  destruct (ws1 a).
  { apply (IH (length r1)); simpl in *; [lia|reflexivity]. }
  destruct r1 as [|b r2]; [reflexivity|].
  rewrite map_cons, ws2_lower.
  destruct (ws2 a b).
  { apply (IH (length r2)); simpl in *; [lia|reflexivity]. }
  destruct r2 as [|c r3]; [reflexivity|].
  rewrite map_cons, ws3_lower.
  destruct (ws3 a b c); [|reflexivity].
  apply (IH (length r3)); simpl in *; [lia|reflexivity].
Qed.

Lemma rstrip_rev_bytes_lower l :
  rstrip_rev_bytes (map lower_byte l) = map lower_byte (rstrip_rev_bytes l).
Proof.
  remember (length l) as n eqn:Hn. revert l Hn.
  induction n as [n IH] using lt_wf_ind. intros l Hn.
  destruct l as [|a r1]; [reflexivity|].
  rewrite map_cons, !rstrip_rev_bytes_cons, ws1_lower.
  destruct (ws1 a).
  { apply (IH (length r1)); simpl in *; [lia|reflexivity]. }
  destruct r1 as [|b r2]; [reflexivity|].
  rewrite map_cons, ws2_lower.
  destruct (ws2 b a).
  { apply (IH (length r2)); simpl in *; [lia|reflexivity]. }
  destruct r2 as [|c r3]; [reflexivity|].
  rewrite map_cons, ws3_lower.
  destruct (ws3 c b a); [|reflexivity].
  apply (IH (length r3)); simpl in *; [lia|reflexivity].
Qed.

Lemma lstrip_bytes_Forall (P : N -> Prop) l : Forall P l -> Forall P (lstrip_bytes l).
Proof.
  remember (length l) as n eqn:Hn. revert l Hn.
  induction n as [n IH] using lt_wf_ind. intros l Hn Hl.
  destruct l as [|a r1]; [constructor|].
  rewrite lstrip_bytes_cons.
  destruct (ws1 a).
  { apply (IH (length r1)); simpl in *; [lia|reflexivity|]. now inversion Hl. }
  destruct r1 as [|b r2]; [exact Hl|].
  destruct (ws2 a b).
  { apply (IH (length r2)); simpl in *; [lia|reflexivity|].
    inversion Hl as [|? ? _ H1]; now inversion H1. }
  destruct r2 as [|c r3]; [exact Hl|].
  destruct (ws3 a b c); [|exact Hl].
  apply (IH (length r3)); simpl in *; [lia|reflexivity|].
  inversion Hl as [|? ? _ H1]; inversion H1 as [|? ? _ H2]; now inversion H2.
Qed.

Lemma rstrip_rev_bytes_Forall (P : N -> Prop) l : Forall P l -> Forall P (rstrip_rev_bytes l).
Proof.
  remember (length l) as n eqn:Hn. revert l Hn.
  induction n as [n IH] using lt_wf_ind. intros l Hn Hl.
  destruct l as [|a r1]; [constructor|].
  rewrite rstrip_rev_bytes_cons.
  destruct (ws1 a).
  { apply (IH (length r1)); simpl in *; [lia|reflexivity|]. now inversion Hl. }
  destruct r1 as [|b r2]; [exact Hl|].
  destruct (ws2 b a).
  { apply (IH (length r2)); simpl in *; [lia|reflexivity|].
    inversion Hl as [|? ? _ H1]; now inversion H1. }
  destruct r2 as [|c r3]; [exact Hl|].
  destruct (ws3 c b a); [|exact Hl].
  apply (IH (length r3)); simpl in *; [lia|reflexivity|].
  inversion Hl as [|? ? _ H1]; inversion H1 as [|? ? _ H2]; now inversion H2.
Qed.

Lemma bytes_of_py_lower s : bytes_of (py_lower s) = map lower_byte (bytes_of s).
Proof.
  unfold py_lower. apply bytes_of_string_of.
  apply List.Forall_map. eapply List.Forall_impl; [|apply bytes_of_bounded].
  intros a. apply lower_byte_bounded.
Qed.

Lemma py_strip_lower s : py_strip (py_lower s) = py_lower (py_strip s).
Proof.
  unfold py_strip at 1. rewrite bytes_of_py_lower, lstrip_bytes_lower.
  rewrite <- map_rev, rstrip_rev_bytes_lower, <- map_rev.
  unfold py_lower at 1, py_strip. f_equal.
  rewrite bytes_of_string_of; [reflexivity|].
  apply List.Forall_rev, rstrip_rev_bytes_Forall, List.Forall_rev, lstrip_bytes_Forall.
  apply bytes_of_bounded.
Qed.

Lemma py_lower_idemp s : py_lower (py_lower s) = py_lower s.
Proof.
  unfold py_lower at 1. rewrite bytes_of_py_lower, map_map.
  unfold py_lower. f_equal. apply map_ext. intros a. apply lower_byte_idemp.
Qed.

(** ** Flag evaluation *)

Lemma normalize_flag_value_lower s :
  normalize_flag_value (VStr (py_lower s)) = normalize_flag_value (VStr s).
Proof. simpl. now rewrite py_strip_lower, py_lower_idemp. Qed.

(** C10.  [normalize_flag_value], through which the completion tracker and
    the dashboard pass read every stage flag ([get_order_stage_flags]),
    returns true exactly for the boolean [True], the number 1 and the
    strings whose stripped lower-case form is one of "true", "1", "yes",
    "y", "t"; [None], the empty string and "FALSE" count as false, the
    spelling of a string flag does not depend on letter case, and the stored
    literals "TRUE" / "FALSE" evaluate to true / false. *)
Theorem C10_normalize_flag_value_spec :
  (forall v : pyval,
      normalize_flag_value v = true <->
      v = VBool true \/ v = VInt 1 \/
      exists s, v = VStr s /\ In (py_lower (py_strip s)) ["true"; "1"; "yes"; "y"; "t"])
  /\ normalize_flag_value VNone = false
  /\ normalize_flag_value (VStr "") = false
  /\ normalize_flag_value (VStr "FALSE") = false
  /\ normalize_flag_value (VStr "TRUE") = true
  /\ normalize_flag_value (VStr " yEs ") = true
  /\ normalize_flag_value (VStr "T") = true
  /\ normalize_flag_value (VStr "on") = false
  /\ normalize_flag_value (VInt 2) = false
  /\ (forall s, normalize_flag_value (VStr (py_lower s)) = normalize_flag_value (VStr s))
  /\ (forall o : order,
        get_order_stage_flags o =
        (normalize_flag_value (py_or (get o "Produce") (get o "Kesildi")),
         normalize_flag_value (py_or (get o "Ready") (get o "Hazır")),
         normalize_flag_value (py_or (get o "Shipped") (get o "Gönderildi")))).
Proof.
  split; [|repeat split; try reflexivity; apply normalize_flag_value_lower].
  intros v; split.
  - destruct v as [|b|z|s]; simpl; intros H.
    + discriminate.
    + left; now subst.
    + right; left. f_equal. lia.
    + right; right. exists s. split; [reflexivity|].
      apply bool_decide_eq_true_1 in H. apply list_elem_of_In in H. exact H.
  - intros [->|[->|(s & -> & Hs)]]; try reflexivity.
    apply bool_decide_eq_true_2. apply list_elem_of_In. exact Hs.
Qed.


(** ** Identifiers *)

Lemma pretty_N_go_length x s :
  (String.length s <= String.length (pretty_N_go x s))%nat.
Proof.
  revert s. induction (N.lt_wf_0 x) as [x _ IH]. intros s.
  destruct (decide (x = 0%N)) as [->|Hx].
  - rewrite pretty_N_go_0. lia.
  - rewrite pretty_N_go_step by lia.
    etransitivity; [|apply IH; apply N.div_lt; lia]. simpl. lia.
Qed.

Lemma pretty_positive_nonempty p : pretty (Zpos p) <> "".
Proof.
  unfold pretty, pretty_Z, pretty, pretty_positive, pretty, pretty_N.
  case_decide; [lia|].
  rewrite pretty_N_go_step by lia.
  intros Hs. pose proof (pretty_N_go_length (N.pos p `div` 10)
    (String (pretty_N_char (N.pos p `mod` 10)) "")) as L.
  rewrite Hs in L. simpl in L. lia.
Qed.

Lemma py_str_truthy v : py_truthy v = true -> py_str v <> "".
Proof.
  destruct v as [|[]|[|p|p]|s]; simpl; try discriminate.
  - intros _. apply pretty_positive_nonempty.
  - intros H ->. discriminate.
Qed.

Lemma get_order_identifier_nonempty o ex id :
  get_order_identifier o ex = Some id -> String.eqb id "" = false.
Proof.
  unfold get_order_identifier. intros H.
  destruct (List.find py_truthy (identifier_candidates o ex)) as [c|] eqn:F; [|discriminate].
  injection H as <-. apply find_some in F as [_ F].
  apply String.eqb_neq. now apply py_str_truthy.
Qed.

(** ** The completion tracker *)

Lemma last_50_short h : (length h <= 50)%nat -> last_50 h = h.
Proof. intros H. unfold last_50. replace (length h - 50)%nat with 0%nat by lia. reflexivity. Qed.

Lemma last_50_length h : length (last_50 h) = Nat.min (length h) 50.
Proof. unfold last_50. rewrite length_drop. lia. Qed.

Lemma tracking_completes ts o ex log id :
  get_order_identifier o ex = Some id ->
  is_order_marked_complete o = true ->
  from_option is_complete false (log !! id) = false ->
  update_order_completion_tracking ts o ex log = <[id := completed_entry ts (log !! id)]> log.
Proof.
  intros Hid Hc Hw. unfold update_order_completion_tracking, is_order_marked_complete in *.
  rewrite Hid, (get_order_identifier_nonempty _ _ _ Hid).
  destruct (get_order_stage_flags o) as [[p r] s]. rewrite Hc, Hw. simpl.
  unfold completed_entry. f_equal. f_equal.
  destruct (50 <? _)%nat eqn:E; [reflexivity|].
  symmetry. apply last_50_short. apply Nat.ltb_ge in E. exact E.
Qed.

Lemma tracking_reverts ts o ex log id e :
  get_order_identifier o ex = Some id ->
  is_order_marked_complete o = false ->
  log !! id = Some e -> is_complete e = true ->
  update_order_completion_tracking ts o ex log = <[id := mk_entry false None (history e)]> log.
Proof.
  intros Hid Hc He Hw. unfold update_order_completion_tracking, is_order_marked_complete in *.
  rewrite Hid, (get_order_identifier_nonempty _ _ _ Hid).
  destruct (get_order_stage_flags o) as [[p r] s]. rewrite Hc, He. simpl. rewrite Hw.
  reflexivity.
Qed.

Lemma tracking_steady ts o ex log id :
  get_order_identifier o ex = Some id ->
  from_option is_complete false (log !! id) = is_order_marked_complete o ->
  update_order_completion_tracking ts o ex log = log.
Proof.
  intros Hid Hw. unfold update_order_completion_tracking, is_order_marked_complete in *.
  rewrite Hid, (get_order_identifier_nonempty _ _ _ Hid).
  destruct (get_order_stage_flags o) as [[p r] s]. rewrite Hw.
  destruct (p && r && s); reflexivity.
Qed.

Lemma tracking_no_identifier ts o ex log :
  get_order_identifier o ex = None ->
  update_order_completion_tracking ts o ex log = log.
Proof. intros H. unfold update_order_completion_tracking. now rewrite H. Qed.

(** ** The dashboard pass and the log *)

Lemma reset_only_refl log : reset_only log log.
Proof. intros id. now left. Qed.

Lemma reset_only_trans a b c : reset_only a b -> reset_only b c -> reset_only a c.
Proof.
  intros Hab Hbc id. destruct (Hbc id) as [E|(e & E1 & E2)], (Hab id) as [F|(f & F1 & F2)].
  - left. congruence.
  - right. exists f. split; congruence.
  - right. exists e. split; congruence.
  - right. exists f. split; [assumption|]. rewrite E2. rewrite F2 in E1. now injection E1 as <-.
Qed.

Lemma reset_only_insert log id e :
  log !! id = Some e -> reset_only log (<[id := mk_entry false None (history e)]> log).
Proof.
  intros He j. destruct (decide (id = j)) as [<-|Hne].
  - right. exists e. split; [assumption|]. apply lookup_insert_eq.
  - left. now apply lookup_insert_ne.
Qed.

Section DashboardFacts.
Context {env : PyEnv}.

Lemma reconcile_entry_reset_only o c log r :
  reconcile_entry o c log = Some r -> reset_only log r.1.
Proof.
  unfold reconcile_entry.
  destruct (get_order_identifier o VNone) as [id|];
    [|intros [= <-]; apply reset_only_refl].
  destruct (String.eqb id ""); [intros [= <-]; apply reset_only_refl|].
  destruct (log !! id) as [e|] eqn:He; [|intros [= <-]; apply reset_only_refl].
  destruct (negb c && is_complete e); [intros [= <-]; now apply reset_only_insert|].
  destruct (c && is_complete e && completed_at_truthy e);
    [|intros [= <-]; apply reset_only_refl].
  destruct (completion_date_from_entry e); intros [= <-];
    [now apply reset_only_insert|apply reset_only_refl].
Qed.

Lemma reconcile_entry_incomplete o log :
  reconcile_entry o false log <> None.
Proof.
  unfold reconcile_entry.
  destruct (get_order_identifier o VNone) as [id|]; [|discriminate].
  destruct (String.eqb id ""); [discriminate|].
  destruct (log !! id) as [e|]; [|discriminate].
  cbn [negb andb]. destruct (is_complete e); discriminate.
Qed.

(** What one iteration leaves of the entry of its order. *)
Lemma reconcile_entry_settles o c log r id e' :
  reconcile_entry o c log = Some r ->
  get_order_identifier o VNone = Some id ->
  r.1 !! id = Some e' -> entry_settled c e'.
Proof.
  intros Hr Hid. unfold reconcile_entry in Hr.
  rewrite Hid, (get_order_identifier_nonempty _ _ _ Hid) in Hr.
  destruct (log !! id) as [e|] eqn:He; [|injection Hr as <-; simpl; congruence].
  destruct (negb c && is_complete e) eqn:A.
  { injection Hr as <-. simpl. rewrite lookup_insert_eq. intros [= <-] Hc. discriminate. }
  destruct (c && is_complete e && completed_at_truthy e) eqn:B.
  - destruct (completion_date_from_entry e) as [|d|] eqn:D; [| |discriminate];
      injection Hr as <-; simpl.
    + rewrite lookup_insert_eq. intros [= <-] Hc. discriminate.
    + rewrite He. intros [= <-] _. apply andb_true_iff in B as [B _].
      apply andb_true_iff in B as [-> _]. split; [reflexivity|]. intros _. eauto.
  - injection Hr as <-. simpl. rewrite He. intros [= <-] Hc. rewrite Hc in A, B.
    rewrite andb_true_r in A. apply negb_false_iff in A. subst c.
    split; [reflexivity|]. simpl in B. intros T. congruence.
Qed.

(** An iteration raises only at a complete order whose entry is complete
    and holds a time stamp that parses and cannot be converted. *)
Lemma reconcile_entry_raises o c log :
  reconcile_entry o c log = None ->
  c = true
  /\ exists id e, get_order_identifier o VNone = Some id /\ log !! id = Some e
       /\ is_complete e = true /\ completed_at_truthy e = true
       /\ completion_date_from_entry e = DateOverflow.
Proof.
  unfold reconcile_entry.
  destruct (get_order_identifier o VNone) as [id|]; [|discriminate].
  destruct (String.eqb id ""); [discriminate|].
  destruct (log !! id) as [e|] eqn:He; [|discriminate].
  destruct (negb c && is_complete e); [discriminate|].
  destruct (c && is_complete e && completed_at_truthy e) eqn:B; [|discriminate].
  destruct (completion_date_from_entry e) eqn:D; try discriminate. intros _.
  apply andb_true_iff in B as [B T]. apply andb_true_iff in B as [-> C].
  split; [reflexivity|]. exists id, e. auto.
Qed.

Lemma dashboard_step_Some st o st' :
  dashboard_step st o = Some st' ->
  exists dirty,
    reconcile_entry o (is_order_marked_complete o) (dash_log st) = Some (dash_log st', dirty)
    /\ log_dirty st' = log_dirty st || dirty.
Proof.
  unfold dashboard_step, is_order_marked_complete.
  destruct (get_order_stage_flags o) as [[p r] s].
  destruct (reconcile_entry o (p && r && s) (dash_log st)) as [[log' dirty]|];
    [|discriminate].
  intros [= <-]. exists dirty. auto.
Qed.

Lemma dashboard_step_None st o :
  dashboard_step st o = None <->
  reconcile_entry o (is_order_marked_complete o) (dash_log st) = None.
Proof.
  unfold dashboard_step, is_order_marked_complete.
  destruct (get_order_stage_flags o) as [[p r] s].
  destruct (reconcile_entry o (p && r && s) (dash_log st)) as [[log' dirty]|];
    split; congruence.
Qed.

Lemma dashboard_step_reset_only st o st' :
  dashboard_step st o = Some st' -> reset_only (dash_log st) (dash_log st').
Proof.
  intros H. apply dashboard_step_Some in H as (dirty & H & _).
  now apply reconcile_entry_reset_only in H.
Qed.

Lemma dashboard_loop_reset_only l st :
  reset_only (dash_log st) (result_log (dashboard_loop l st)).
Proof.
  revert st. induction l as [|o l IH]; intros st; simpl; [apply reset_only_refl|].
  destruct (dashboard_step st o) as [st'|] eqn:E; [|apply reset_only_refl].
  eapply reset_only_trans; [exact (dashboard_step_reset_only _ _ _ E)|apply IH].
Qed.

Lemma reset_only_keeps_incomplete a b id e e' :
  reset_only a b -> a !! id = Some e -> is_complete e = false ->
  b !! id = Some e' -> is_complete e' = false.
Proof.
  intros H Ha Hc Hb. destruct (H id) as [E|(f & F1 & F2)].
  - congruence.
  - rewrite Hb in F2. now injection F2 as ->.
Qed.

Lemma reset_only_lookup_Some a b id e' :
  reset_only a b -> b !! id = Some e' -> exists e, a !! id = Some e.
Proof.
  intros H Hb. destruct (H id) as [E|(f & F1 & F2)]; [|now exists f].
  exists e'. congruence.
Qed.

Lemma reset_only_settled a b c id e' :
  reset_only a b ->
  (forall e, a !! id = Some e -> entry_settled c e) ->
  b !! id = Some e' -> entry_settled c e'.
Proof.
  intros H Ha Hb. destruct (H id) as [E|(e & E1 & E2)].
  - apply Ha. congruence.
  - rewrite Hb in E2. injection E2 as ->. intros Hc. discriminate.
Qed.

(** When the loop runs to its end, the entry of every order it has seen
    is settled. *)
Lemma dashboard_loop_settled l st st' o id e' :
  dashboard_loop l st = DashReturns st' ->
  In o l -> get_order_identifier o VNone = Some id ->
  dash_log st' !! id = Some e' ->
  entry_settled (is_order_marked_complete o) e'.
Proof.
  revert st. induction l as [|x l IH]; intros st Hl Hin Hid He'; [destruct Hin|].
  cbn [dashboard_loop] in Hl.
  destruct (dashboard_step st x) as [st1|] eqn:E; [|discriminate].
  destruct Hin as [->|Hin]; [|eapply IH; eauto].
  pose proof (dashboard_loop_reset_only l st1) as R. rewrite Hl in R. simpl in R.
  eapply reset_only_settled; [exact R| |exact He'].
  intros e He. apply dashboard_step_Some in E as (dirty & E & _).
  exact (reconcile_entry_settles _ _ _ _ _ _ E Hid He).
Qed.

(** When the loop raises, it does so at the first order whose iteration
    raises, with the log the orders before it have left. *)
Lemma dashboard_loop_raises l st log' :
  dashboard_loop l st = DashRaises log' ->
  exists pre o post st1,
    l = pre ++ o :: post
    /\ dashboard_loop pre st = DashReturns st1
    /\ dash_log st1 = log'
    /\ dashboard_step st1 o = None.
Proof.
  revert st. induction l as [|x l IH]; intros st H; [discriminate|].
  cbn [dashboard_loop] in H. destruct (dashboard_step st x) as [st1|] eqn:E.
  - destruct (IH _ H) as (pre & o & post & st2 & -> & L & D & N).
    exists (x :: pre), o, post, st2. cbn [dashboard_loop app]. rewrite E. auto.
  - injection H as <-. exists [], x, l, st. auto.
Qed.

Lemma dashboard_loop_app pre post st :
  dashboard_loop (pre ++ post) st =
  match dashboard_loop pre st with
  | DashReturns st1 => dashboard_loop post st1
  | DashRaises log' => DashRaises log'
  end.
Proof.
  revert st. induction pre as [|x pre IH]; intros st; [reflexivity|].
  cbn [dashboard_loop app]. destruct (dashboard_step st x); [apply IH|reflexivity].
Qed.

End DashboardFacts.

(** ** C1: the tracker is edge-triggered *)

Lemma staged_order_identifier t p r s ex :
  py_truthy ex = false -> t <> "" ->
  get_order_identifier (staged_order t p r s) ex = Some t.
Proof.
  intros Hex Ht. unfold get_order_identifier, identifier_candidates.
  cbn [List.find]. rewrite Hex.
  assert (get (staged_order t p r s) "transaction" = VNone) as -> by reflexivity.
  assert (get (staged_order t p r s) "Transaction ID" = VStr t) as -> by reflexivity.
  cbn. apply String.eqb_neq in Ht. now rewrite Ht.
Qed.

Lemma staged_order_identifier_explicit t p r s :
  t <> "" -> get_order_identifier (staged_order t p r s) (VStr t) = Some t.
Proof.
  intros Ht. unfold get_order_identifier, identifier_candidates.
  cbn. apply String.eqb_neq in Ht. now rewrite Ht.
Qed.

Lemma staged_order_complete t p r s :
  is_order_marked_complete (staged_order t p r s) = p && r && s.
Proof. now destruct p, r, s. Qed.

(** C1.  With [id] the identifier the tracker resolves for the order: when
    all three stage flags evaluate true and the stored [is_complete] is
    false (or there is no entry), the entry becomes complete, the time stamp
    is appended to its history (kept to the last 50) and is its
    [completed_at]; when the stored flag is true and the flags are not all
    true, [is_complete] becomes false and [completed_at] null with the
    history kept; when the stored flag equals the conjunction of the live
    flags the log is unchanged.  Driving one identifier through F,F,F /
    T,T,F / T,T,T leaves one history entry, T,F,T then clears
    [completed_at] and keeps it, and completing again appends a second. *)
Theorem C1_completion_edge_trigger :
  (forall ts o ex log id,
      get_order_identifier o ex = Some id ->
      (is_order_marked_complete o = true ->
       from_option is_complete false (log !! id) = false ->
       update_order_completion_tracking ts o ex log =
         <[id := mk_entry true (Some ts)
                   (last_50 (from_option history [] (log !! id) ++ [ts]))]> log
       /\ ((length (from_option history [] (log !! id)) < 50)%nat ->
           last_50 (from_option history [] (log !! id) ++ [ts]) =
           from_option history [] (log !! id) ++ [ts]))
      /\ (forall e, log !! id = Some e -> is_complete e = true ->
          is_order_marked_complete o = false ->
          update_order_completion_tracking ts o ex log =
            <[id := mk_entry false None (history e)]> log)
      /\ (from_option is_complete false (log !! id) = is_order_marked_complete o ->
          update_order_completion_tracking ts o ex log = log))
  /\ (forall t1 t2 t3 t4 t5 : string,
        let track ts p r s :=
          update_order_completion_tracking ts (staged_order "T1" p r s) (VStr "T1") in
        let log1 := track t1 false false false ∅ in
        let log2 := track t2 true true false log1 in
        let log3 := track t3 true true true log2 in
        let log4 := track t4 true false true log3 in
        let log5 := track t5 true true true log4 in
        log1 = ∅ /\ log2 = ∅
        /\ log3 = {[ "T1" := mk_entry true (Some t3) [t3] ]}
        /\ log4 = {[ "T1" := mk_entry false None [t3] ]}
        /\ log5 = {[ "T1" := mk_entry true (Some t5) [t3; t5] ]}).
Proof.
  split.
  - intros ts o ex log id Hid. repeat split.
    + now apply tracking_completes.
    + intros Hlen. apply last_50_short. rewrite length_app. simpl. lia.
    + intros e He Hc Hl. now apply tracking_reverts.
    + now apply tracking_steady.
  - intros t1 t2 t3 t4 t5 track log1 log2 log3 log4 log5.
    assert (forall p r s, get_order_identifier (staged_order "T1" p r s) (VStr "T1") = Some "T1")
      as Hid by (intros; now apply staged_order_identifier_explicit).
    assert (log1 = ∅) as E1.
    { apply (tracking_steady _ _ _ _ _ (Hid _ _ _)). reflexivity. }
    assert (log2 = ∅) as E2.
    { subst log2. rewrite E1. apply (tracking_steady _ _ _ _ _ (Hid _ _ _)). reflexivity. }
    assert (log3 = {[ "T1" := mk_entry true (Some t3) [t3] ]}) as E3.
    { subst log3. rewrite E2. unfold track.
      rewrite (tracking_completes _ _ _ _ _ (Hid _ _ _)) by reflexivity. reflexivity. }
    assert (log4 = {[ "T1" := mk_entry false None [t3] ]}) as E4.
    { subst log4. rewrite E3. unfold track.
      rewrite (tracking_reverts t4 (staged_order "T1" true false true) (VStr "T1") _ "T1"
                 (mk_entry true (Some t3) [t3]));
        [apply insert_singleton_eq|apply Hid|reflexivity|apply lookup_singleton_eq|reflexivity]. }
    split; [exact E1|]. split; [exact E2|]. split; [exact E3|]. split; [exact E4|].
    subst log5. rewrite E4. unfold track.
    rewrite (tracking_completes _ _ _ _ _ (Hid _ _ _)) by reflexivity.
    unfold completed_entry. rewrite lookup_singleton_eq. simpl.
    apply insert_singleton_eq.
Qed.

(** ** C5: the history cap *)

Lemma last_50_app a b : last_50 (last_50 a ++ b) = last_50 (a ++ b).
Proof.
  unfold last_50. destruct (decide (length a <= 50)%nat) as [H|H].
  - replace (length a - 50)%nat with 0%nat by lia. reflexivity.
  - rewrite !length_app, length_drop.
    replace (length a - (length a - 50) + length b - 50)%nat with (length b) by lia.
    replace (length a + length b - 50)%nat with ((length a - 50) + length b)%nat by lia.
    rewrite <- drop_drop. f_equal. rewrite drop_app_le by lia. reflexivity.
Qed.

Lemma last_50_evicts_oldest old ts :
  length old = 50%nat -> last_50 (old ++ [ts]) = tl old ++ [ts].
Proof.
  intros H. unfold last_50. rewrite length_app, H. simpl.
  destruct old; [discriminate|reflexivity].
Qed.

Lemma history_bounded_insert log id e :
  history_bounded log -> (length (history e) <= 50)%nat ->
  history_bounded (<[id := e]> log).
Proof.
  intros Hb He j f. destruct (decide (id = j)) as [<-|Hne].
  - rewrite lookup_insert_eq. now intros [= <-].
  - rewrite lookup_insert_ne by assumption. apply Hb.
Qed.

Lemma tracking_history_bounded ts o ex log :
  history_bounded log -> history_bounded (update_order_completion_tracking ts o ex log).
Proof.
  intros Hb. unfold update_order_completion_tracking.
  destruct (get_order_identifier o ex) as [id|]; [|assumption].
  destruct (String.eqb id ""); [assumption|].
  destruct (get_order_stage_flags o) as [[p r] s].
  destruct (p && r && s && negb _).
  - apply history_bounded_insert; [assumption|]. simpl.
    destruct (50 <? _)%nat eqn:E.
    + rewrite last_50_length. lia.
    + apply Nat.ltb_ge in E. exact E.
  - destruct (negb (p && r && s) && _); [|assumption].
    destruct (log !! id) as [e|] eqn:He; [|assumption].
    apply history_bounded_insert; [assumption|]. simpl. eapply Hb; eauto.
Qed.

Lemma remove_history_bounded id log :
  history_bounded log -> history_bounded (remove_order_completion_entry id log).
Proof.
  intros Hb. unfold remove_order_completion_entry.
  destruct id as [i|]; [|assumption]. destruct (String.eqb i ""); [assumption|].
  intros j e. destruct (decide (i = j)) as [<-|Hne].
  - rewrite lookup_delete_eq. discriminate.
  - rewrite lookup_delete_ne by assumption. apply Hb.
Qed.

Lemma reset_only_history a b id :
  reset_only a b -> history <$> (b !! id) = history <$> (a !! id).
Proof.
  intros H. destruct (H id) as [E|(e & E1 & E2)]; [now rewrite E|].
  now rewrite E1, E2.
Qed.

Lemma reset_only_history_bounded a b :
  reset_only a b -> history_bounded a -> history_bounded b.
Proof.
  intros H Hb id e' He'. pose proof (reset_only_history a b id H) as E.
  rewrite He' in E. destruct (a !! id) as [e|] eqn:He; [|discriminate].
  simpl in E. injection E as ->. eapply Hb; eauto.
Qed.

Lemma cycle_step t s log :
  t <> "" ->
  from_option is_complete false (log !! t) = false ->
  update_order_completion_tracking s (staged_order t true false true) (VStr t)
    (update_order_completion_tracking s (staged_order t true true true) (VStr t) log) =
  <[t := mk_entry false None (last_50 (from_option history [] (log !! t) ++ [s]))]> log.
Proof.
  intros Ht Hw.
  rewrite (tracking_completes s _ _ log t (staged_order_identifier_explicit _ _ _ _ Ht))
    by (rewrite ?staged_order_complete; assumption || reflexivity).
  rewrite (tracking_reverts s _ _ _ t (completed_entry s (log !! t))
             (staged_order_identifier_explicit _ _ _ _ Ht)).
  - rewrite insert_insert_eq. reflexivity.
  - now rewrite staged_order_complete.
  - apply lookup_insert_eq.
  - reflexivity.
Qed.

Lemma run_cycles_from_entry t stamps h :
  t <> "" ->
  run_cycles t stamps {[ t := mk_entry false None h ]} =
  {[ t := mk_entry false None (fold_left (fun h s => last_50 (h ++ [s])) stamps h) ]}.
Proof.
  intros Ht. revert h. induction stamps as [|s rest IH]; intros h; [reflexivity|].
  cbn [run_cycles fold_left].
  rewrite cycle_step by (rewrite ?lookup_singleton_eq; assumption || reflexivity).
  rewrite insert_singleton_eq, lookup_singleton_eq. cbn [history from_option]. apply IH.
Qed.

Lemma fold_last_50 stamps h :
  fold_left (fun h s => last_50 (h ++ [s])) stamps (last_50 h) = last_50 (h ++ stamps).
Proof.
  revert h. induction stamps as [|s rest IH]; intros h; simpl.
  - now rewrite app_nil_r.
  - rewrite last_50_app, IH, <- app_assoc. reflexivity.
Qed.

Lemma run_cycles_from_empty t stamps :
  t <> "" -> stamps <> [] ->
  run_cycles t stamps ∅ = {[ t := mk_entry false None (last_50 stamps) ]}.
Proof.
  intros Ht Hs. destruct stamps as [|s rest]; [congruence|].
  cbn [run_cycles].
  rewrite cycle_step by (rewrite ?lookup_empty; assumption || reflexivity).
  rewrite insert_empty, lookup_empty. cbn [history from_option app].
  rewrite run_cycles_from_entry by assumption.
  change (s :: rest) with ([s] ++ rest). rewrite <- (fold_last_50 rest [s]). reflexivity.
Qed.

(** C5.  Every operation on the completion log keeps each history within 50
    time stamps: the tracker, the removal of an entry and the dashboard
    pass (whether it returns or raises) preserve the bound, and an entry the tracker completes holds the
    last 50 of the old history followed by the new time stamp, so a full
    history loses its first, oldest element.  51 complete / incomplete
    cycles for one identifier, from an empty log, leave the last 50 of the
    51 time stamps in their order. *)
Theorem C5_history_cap :
  (forall ts o ex log,
      history_bounded log ->
      history_bounded (update_order_completion_tracking ts o ex log))
  /\ (forall id log,
        history_bounded log -> history_bounded (remove_order_completion_entry id log))
  /\ (forall (env : PyEnv) view log,
        history_bounded log ->
        history_bounded (result_log (compute_dashboard_order_stats view log)))
  /\ (forall ts o ex log id,
        get_order_identifier o ex = Some id ->
        is_order_marked_complete o = true ->
        from_option is_complete false (log !! id) = false ->
        exists e', update_order_completion_tracking ts o ex log !! id = Some e'
          /\ history e' = last_50 (from_option history [] (log !! id) ++ [ts])
          /\ (length (history e') <= 50)%nat)
  /\ (forall old ts, length old = 50%nat -> last_50 (old ++ [ts]) = tl old ++ [ts])
  /\ (forall stamps,
        length stamps = 51%nat ->
        run_cycles "T1" stamps ∅ = {[ "T1" := mk_entry false None (tl stamps) ]}
        /\ length (tl stamps) = 50%nat).
Proof.
  split; [exact tracking_history_bounded|].
  split; [exact remove_history_bounded|].
  split.
  { intros env view log Hb. eapply reset_only_history_bounded; [|exact Hb].
    apply (dashboard_loop_reset_only view (mk_dash (mk_stats 0 0 0 0 0) log false)). }
  split.
  { intros ts o ex log id Hid Hc Hw. eexists. split; [|split].
    - rewrite (tracking_completes _ _ _ _ _ Hid Hc Hw). apply lookup_insert_eq.
    - reflexivity.
    - simpl. rewrite last_50_length. lia. }
  split; [exact last_50_evicts_oldest|].
  intros stamps Hlen. split.
  - rewrite run_cycles_from_empty; [|discriminate|now destruct stamps].
    do 2 f_equal. unfold last_50. rewrite Hlen. now destruct stamps.
  - destruct stamps; simpl in *; lia.
Qed.

(** ** C6: what the dashboard pass does to the log *)



(** The two cases of C6 that concern a stored [completed_at]: a text that
    is no time stamp gets the entry reset; a time stamp in the last hours
    of the year 9999 makes the pass raise, and the log is left as it was. *)
Example dashboard_pass_on_stored_stamps :
  let o := staged_order "T1" true true true in
  (exists st, compute_dashboard_order_stats (env := late_env) [o] unparsable_complete_log
              = DashReturns st
              /\ dash_log st !! "T1" = Some (mk_entry false None ["yesterday"])
              /\ log_dirty st = true)
  /\ compute_dashboard_order_stats (env := late_env) [o] late_complete_log
     = DashRaises late_complete_log.
Proof. split; [eexists; split; [|split]|]; vm_compute; reflexivity. Qed.

(** ** Python equality *)

Lemma py_eqb_refl a : py_eqb a a = true.
Proof.
  destruct a as [|b|z|s]; simpl; auto using Z.eqb_refl, String.eqb_refl.
  now destruct b.
Qed.

Lemma py_eqb_sym a b : py_eqb a b = py_eqb b a.
Proof.
  destruct a as [|x|x|x], b as [|y|y|y]; simpl; auto using Z.eqb_sym, String.eqb_sym.
  now destruct x, y.
Qed.

Lemma py_eqb_trans a b c : py_eqb a b = true -> py_eqb b c = true -> py_eqb a c = true.
Proof.
  destruct a as [|x|x|x], b as [|y|y|y], c as [|z|z|z]; simpl; try discriminate; auto;
    rewrite ?String.eqb_eq; try (destruct x); try (destruct y); try (destruct z);
    simpl; try lia; try congruence.
Qed.

Lemma py_eqb_str s v : py_eqb (VStr s) v = true <-> v = VStr s.
Proof.
  destruct v; simpl; split; try discriminate; intros H.
  - apply String.eqb_eq in H. now subst.
  - injection H as ->. apply String.eqb_refl.
Qed.

Lemma py_eqb_true_l a b c : py_eqb a b = true -> py_eqb a c = py_eqb b c.
Proof.
  intros H. destruct (py_eqb b c) eqn:E.
  - eapply py_eqb_trans; eauto.
  - destruct (py_eqb a c) eqn:F; [|reflexivity].
    rewrite <- E. symmetry. eapply py_eqb_trans; [|exact F]. now rewrite py_eqb_sym.
Qed.

Lemma id_in_eqb a b s : py_eqb a b = true -> id_in a s = id_in b s.
Proof.
  intros H. unfold id_in. induction s as [|x s IH]; simpl; [reflexivity|].
  now rewrite IH, (py_eqb_true_l _ _ _ H).
Qed.

Lemma id_in_app x s t : id_in x (s ++ t) = id_in x s || id_in x t.
Proof. unfold id_in. apply existsb_app. Qed.

Lemma id_in_set_add x y s : id_in x (set_add y s) = id_in x s || py_eqb x y.
Proof.
  unfold set_add. destruct (id_in y s) eqn:E.
  - destruct (py_eqb x y) eqn:F; [|now rewrite orb_false_r].
    rewrite (id_in_eqb _ _ _ F), E. reflexivity.
  - rewrite id_in_app. simpl. now rewrite orb_false_r.
Qed.

(** ** Transaction ids *)

Lemma transaction_truthy o : py_truthy (sheet_transaction o) = py_truthy (cache_transaction o).
Proof.
  unfold sheet_transaction, cache_transaction, py_or.
  destruct (py_truthy (get o "Transaction ID")) eqn:A, (py_truthy (get o "transaction")) eqn:B;
    congruence.
Qed.

Lemma no_identifier_no_transaction o :
  get_order_identifier o VNone = None -> has_transaction o = false.
Proof.
  unfold get_order_identifier, identifier_candidates, has_transaction, cache_transaction, py_or.
  cbn [List.find py_truthy].
  destruct (py_truthy (get o "transaction")) eqn:A; [discriminate|].
  destruct (py_truthy (get o "Transaction ID")) eqn:B; [discriminate|]. reflexivity.
Qed.

(** ** The preserver *)

Lemma preserve_group_lookup s t g k :
  preserve_group s t g !! k = preserve_key s k (t !! k) g.
Proof.
  unfold preserve_group, preserve_key. destruct g as [f b]. cbn [fst snd].
  assert (forall v, <[b := v]> (<[f := v]> t) !! k =
                    if bool_decide (k = f \/ k = b) then Some v else t !! k) as Hins.
  { intros v. destruct (decide (k = b)) as [-> | Hb].
    - rewrite lookup_insert_eq, bool_decide_eq_true_2 by auto. reflexivity.
    - rewrite lookup_insert_ne by congruence.
      destruct (decide (k = f)) as [-> | Hf].
      + rewrite lookup_insert_eq, bool_decide_eq_true_2 by auto. reflexivity.
      + rewrite lookup_insert_ne by congruence.
        rewrite bool_decide_eq_false_2 by tauto. reflexivity. }
  destruct (preserved_value s f b); [now destruct (bool_decide _)|..]; apply Hins.
Qed.

Lemma preserve_fold_lookup s gs t k :
  fold_left (preserve_group s) gs t !! k = fold_left (preserve_key s k) gs (t !! k).
Proof.
  revert t. induction gs as [|g gs IH]; intros t; simpl; [reflexivity|].
  now rewrite IH, preserve_group_lookup.
Qed.

Lemma preserve_lookup t s k :
  dict_truthy s = true -> dict_truthy t = true ->
  preserve_editable_fields t s !! k =
  fold_left (preserve_key s k) EDITABLE_FIELD_GROUPS (t !! k).
Proof.
  intros Hs Ht. unfold preserve_editable_fields. rewrite Hs, Ht. simpl negb. cbn [orb].
  apply preserve_fold_lookup.
Qed.

Lemma preserve_falsy t s :
  dict_truthy s = false \/ dict_truthy t = false -> preserve_editable_fields t s = t.
Proof.
  intros [H|H]; unfold preserve_editable_fields; rewrite H; simpl; [reflexivity|].
  now rewrite orb_true_r.
Qed.

Lemma preserve_other_key t s k :
  k ∉ editable_keys -> preserve_editable_fields t s !! k = t !! k.
Proof.
  intros Hk.
  destruct (dict_truthy s) eqn:Hs; [|now rewrite preserve_falsy by auto].
  destruct (dict_truthy t) eqn:Ht; [|now rewrite preserve_falsy by auto].
  rewrite preserve_lookup by assumption.
  unfold EDITABLE_FIELD_GROUPS, preserve_key; cbn [fold_left fst snd].
  repeat (rewrite bool_decide_eq_false_2;
          [|intros [-> | ->]; apply Hk; apply list_elem_of_In; simpl; tauto]).
  reflexivity.
Qed.

Lemma dict_truthy_spec (o : order) : dict_truthy o = true <-> o <> ∅.
Proof.
  unfold dict_truthy. rewrite negb_true_iff, bool_decide_eq_false. reflexivity.
Qed.

Lemma has_transaction_truthy o : has_transaction o = true -> dict_truthy o = true.
Proof.
  intros H. apply dict_truthy_spec. intros ->. discriminate.
Qed.

Lemma get_preserve_other t s k :
  k ∉ editable_keys -> get (preserve_editable_fields t s) k = get t k.
Proof. intros H. unfold get. now rewrite preserve_other_key. Qed.

Lemma preserve_cache_transaction t s :
  cache_transaction (preserve_editable_fields t s) = cache_transaction t.
Proof.
  unfold cache_transaction. rewrite !get_preserve_other; [reflexivity|..];
    rewrite list_elem_of_In; simpl; intuition discriminate.
Qed.

Lemma preserve_sheet_transaction t s :
  sheet_transaction (preserve_editable_fields t s) = sheet_transaction t.
Proof.
  unfold sheet_transaction. rewrite !get_preserve_other; [reflexivity|..];
    rewrite list_elem_of_In; simpl; intuition discriminate.
Qed.

(** ** Dictionaries keyed by transaction id *)

Lemma dict_has_get k d : dict_has k d = true <-> dict_get k d <> None.
Proof.
  unfold dict_has, dict_get. induction d as [|[k' v'] d IH]; simpl.
  - split; [discriminate|congruence].
  - destruct (py_eqb k' k); simpl; [split; [discriminate|reflexivity]|exact IH].
Qed.

Lemma dict_has_false_get k d : dict_has k d = false -> dict_get k d = None.
Proof.
  intros H. destruct (dict_get k d) eqn:E; [|reflexivity].
  assert (dict_has k d = true) by (apply dict_has_get; congruence). congruence.
Qed.

Lemma dict_has_eqb a b d : py_eqb a b = true -> dict_has a d = dict_has b d.
Proof.
  intros H. unfold dict_has. induction d as [|[k v] d IH]; simpl; [reflexivity|].
  rewrite IH. f_equal. rewrite !(py_eqb_sym k). now apply py_eqb_true_l.
Qed.

Lemma dict_get_set t k v d :
  dict_get t (dict_set k v d) = if py_eqb k t then Some v else dict_get t d.
Proof.
  unfold dict_get. induction d as [|[k' v'] d IH]; simpl.
  - now destruct (py_eqb k t).
  - destruct (py_eqb k' k) eqn:E; simpl.
    + rewrite (py_eqb_true_l _ _ t E). now destruct (py_eqb k t).
    + destruct (py_eqb k' t) eqn:F; simpl.
      * destruct (py_eqb k t) eqn:G; [|reflexivity].
        exfalso. rewrite py_eqb_sym in G.
        rewrite (py_eqb_trans _ _ _ F G) in E. discriminate.
      * exact IH.
Qed.

Lemma existing_first_get_acc t cache d :
  dict_get t
    (fold_left
       (fun d e =>
          if py_truthy (cache_transaction e) && negb (dict_has (cache_transaction e) d)
          then dict_set (cache_transaction e) e d else d) cache d) =
  match dict_get t d with
  | Some e => Some e
  | None => List.find (matches_transaction t) cache
  end.
Proof.
  revert d. induction cache as [|e cache IH]; intros d; simpl.
  - now destruct (dict_get t d).
  - rewrite IH. unfold matches_transaction at 2, has_transaction.
    destruct (py_truthy (cache_transaction e)) eqn:T; simpl; [|reflexivity].
    destruct (py_eqb (cache_transaction e) t) eqn:E.
    + rewrite (dict_has_eqb _ _ d E).
      destruct (dict_has t d) eqn:H; simpl.
      * apply dict_has_get in H. now destruct (dict_get t d).
      * rewrite dict_get_set, E. now rewrite (dict_has_false_get _ _ H).
    + destruct (negb _); [|reflexivity]. rewrite dict_get_set, E. reflexivity.
Qed.

Section MergeFacts.
Context {env : PyEnv} {run : ImageRun}.

Lemma existing_first_get t cache :
  dict_get t (existing_orders_first cache) = List.find (matches_transaction t) cache.
Proof. unfold existing_orders_first. now rewrite existing_first_get_acc. Qed.

Lemma keep_missing_fold ids cache acc :
  fold_left (keep_missing_order ids) cache acc = acc ++ missing_from ids cache.
Proof.
  unfold missing_from. revert acc. induction cache as [|e cache IH]; intros acc; simpl.
  - now rewrite app_nil_r.
  - rewrite IH. unfold keep_missing_order, has_transaction.
    destruct (_ && _); simpl; [now rewrite <- app_assoc|reflexivity].
Qed.

Lemma add_new_fold cache new acc seen :
  fold_left (add_new_order (existing_orders_first cache)) new (acc, seen) =
  (acc ++ map (with_edits cache) (first_rows seen new),
   seen ++ map sheet_transaction (first_rows seen new)).
Proof.
  revert acc seen. induction new as [|o new IH]; intros acc seen; simpl.
  - now rewrite !app_nil_r.
  - destruct (py_truthy (sheet_transaction o) && negb (id_in (sheet_transaction o) seen))
      eqn:C.
    + apply andb_true_iff in C as [_ C]. apply negb_true_iff in C.
      unfold set_add. rewrite C, IH. cbn [map]. rewrite <- !app_assoc.
      unfold with_edits at 2. rewrite existing_first_get. reflexivity.
    + apply IH.
Qed.

Lemma merged_cache_eq cache new :
  merged_cache cache new =
  map (with_edits cache) (first_rows [] new)
  ++ missing_from (map sheet_transaction (first_rows [] new)) cache.
Proof.
  unfold merged_cache. rewrite add_new_fold. simpl. apply keep_missing_fold.
Qed.

End MergeFacts.

(** ** The image step *)

Lemma photo_only_refl o : photo_only o o.
Proof. now left. Qed.

Lemma photo_only_lookup o o' k : photo_only o o' -> k <> "photo" -> o' !! k = o !! k.
Proof.
  intros [->|[c ->]] Hk; [reflexivity|]. now rewrite lookup_insert_ne by congruence.
Qed.

Lemma photo_only_get o o' k : photo_only o o' -> k <> "photo" -> get o' k = get o k.
Proof. intros H Hk. unfold get. now rewrite (photo_only_lookup _ _ _ H Hk). Qed.

Lemma photo_only_cache_transaction o o' :
  photo_only o o' -> cache_transaction o' = cache_transaction o.
Proof.
  intros H. unfold cache_transaction. now rewrite !(photo_only_get _ _ _ H) by discriminate.
Qed.

Lemma photo_only_has_transaction o o' :
  photo_only o o' -> has_transaction o' = has_transaction o.
Proof. intros H. unfold has_transaction. now rewrite (photo_only_cache_transaction _ _ H). Qed.

Section ImageFacts.
Context {env : PyEnv} {run : ImageRun}.

Lemma download_order_image_photo_only i o o' :
  download_order_image i o = Some o' -> photo_only o o'.
Proof.
  unfold download_order_image.
  destruct (get_default o "Image" (VStr "")) as [| | |url]; try discriminate.
  destruct (String.eqb (py_strip url) ""); [intros [= <-]; apply photo_only_refl|].
  destruct (cached_image_url (py_strip url)) as [c|];
    [destruct (cache_file_exists i (py_strip url))|]; intros [= <-];
    [right; now exists c|apply photo_only_refl..].
Qed.

Lemma download_images_loop_spec selected i cache :
  Forall2 (image_step selected) cache (download_images_loop selected i cache).1.
Proof.
  revert i. induction cache as [|o cache IH]; intros i; simpl; [constructor|].
  destruct (selected o) eqn:Sel.
  - destruct (download_order_image i o) as [o'|] eqn:D.
    + specialize (IH (S i)).
      destruct (download_images_loop selected (S i) cache) as [rest fin]. simpl in *.
      constructor; [|exact IH]. right. split; [exact Sel|].
      now apply download_order_image_photo_only with i.
    + simpl. apply Forall2_same_length_lookup_2; [reflexivity|].
      intros j x y Hx Hy. left. congruence.
  - specialize (IH (S i)).
    destruct (download_images_loop selected (S i) cache) as [rest fin]. simpl in *.
    constructor; [now left|exact IH].
Qed.

Lemma download_order_images_spec cache :
  Forall2 photo_only cache (download_order_images cache).1.
Proof.
  unfold download_order_images. destruct startup_mode; simpl.
  - apply Forall2_same_length_lookup_2; [reflexivity|].
    intros i x y Hx Hy. left. congruence.
  - eapply Forall2_impl; [apply download_images_loop_spec|].
    intros o o' [->|[_ H]]; [apply photo_only_refl|exact H].
Qed.

Lemma download_specific_spec ids cache :
  Forall2 (image_step (fun o => id_in (cache_transaction o) ids)) cache
    (download_images_for_specific_orders ids cache).1.
Proof.
  unfold download_images_for_specific_orders.
  destruct ids as [|i ids]; [|destruct cache as [|o cache]];
    try apply download_images_loop_spec;
    simpl; (apply Forall2_same_length_lookup_2; [reflexivity|]);
    intros j x y Hx Hy; left; congruence.
Qed.

End ImageFacts.

(** ** Rows of the merged caches carry a transaction id *)

Lemma py_eqb_truthy a b : py_eqb a b = true -> py_truthy a = py_truthy b.
Proof.
  destruct a as [|x|x|x], b as [|y|y|y]; simpl; try discriminate; try reflexivity.
  - destruct x, y; simpl; congruence.
  - intros H. apply Z.eqb_eq in H. subst y. now destruct x.
  - intros H. apply Z.eqb_eq in H. subst x. now destruct y.
  - intros H. apply Z.eqb_eq in H. now subst.
  - intros H. apply String.eqb_eq in H. now subst.
Qed.

Lemma first_rows_In seen new o :
  In o (first_rows seen new) -> In o new /\ has_transaction o = true.
Proof.
  revert seen. induction new as [|x new IH]; intros seen; simpl; [tauto|].
  destruct (py_truthy (sheet_transaction x) && negb (id_in (sheet_transaction x) seen)) eqn:C.
  - intros [<-|H].
    + split; [now left|]. apply andb_true_iff in C as [C _].
      unfold has_transaction. now rewrite <- transaction_truthy.
    + apply IH in H as [H1 H2]. tauto.
  - intros H. apply IH in H as [H1 H2]. tauto.
Qed.

Lemma find_matches_transaction t cache e :
  List.find (matches_transaction t) cache = Some e ->
  In e cache /\ has_transaction e = true /\ py_eqb (cache_transaction e) t = true.
Proof.
  intros H. apply find_some in H as [H1 H2].
  apply andb_true_iff in H2 as [H2 H3]. tauto.
Qed.

Lemma with_edits_has_transaction cache o :
  has_transaction (with_edits cache o) = has_transaction o.
Proof.
  unfold with_edits, has_transaction.
  destruct (List.find _ cache); [now rewrite preserve_cache_transaction|reflexivity].
Qed.

Lemma with_last_edits_has_transaction cache o :
  has_transaction (with_last_edits cache o) = has_transaction o.
Proof.
  unfold with_last_edits, has_transaction.
  destruct (List.find _ (rev cache)); [now rewrite preserve_cache_transaction|reflexivity].
Qed.

Lemma missing_from_In ids cache e :
  In e (missing_from ids cache) <->
  In e cache /\ has_transaction e = true /\ id_in (cache_transaction e) ids = false.
Proof.
  unfold missing_from. rewrite filter_In, andb_true_iff, negb_true_iff. tauto.
Qed.

Lemma missing_from_ext ids ids' cache :
  (forall x, id_in x ids = id_in x ids') -> missing_from ids cache = missing_from ids' cache.
Proof.
  intros H. unfold missing_from. apply filter_ext. intros e. now rewrite H.
Qed.

Lemma find_app_first {A} (P : A -> bool) l1 l2 :
  List.find P (l1 ++ l2) =
  match List.find P l1 with Some x => Some x | None => List.find P l2 end.
Proof. induction l1 as [|x l1 IH]; simpl; [reflexivity|]. now destruct (P x). Qed.

Lemma existing_last_get_acc t cache d :
  dict_get t
    (fold_left
       (fun d e =>
          if py_truthy (cache_transaction e) then dict_set (cache_transaction e) e d else d)
       cache d) =
  match List.find (matches_transaction t) (rev cache) with
  | Some e => Some e
  | None => dict_get t d
  end.
Proof.
  revert d. induction cache as [|e cache IH]; intros d; simpl; [reflexivity|].
  rewrite IH, find_app_first. destruct (List.find _ (rev cache)); [reflexivity|].
  simpl. unfold matches_transaction, has_transaction.
  destruct (py_truthy (cache_transaction e)); simpl; [|reflexivity].
  rewrite dict_get_set. now destruct (py_eqb (cache_transaction e) t).
Qed.

Section MergeRows.
Context {env : PyEnv} {run : ImageRun}.

Lemma existing_last_get t cache :
  dict_get t (existing_orders_last cache) =
  List.find (matches_transaction t) (rev cache).
Proof.
  unfold existing_orders_last. rewrite existing_last_get_acc.
  now destruct (List.find _ (rev cache)).
Qed.

Lemma sync_latest_fold cache l acc seen :
  let r := fold_left (sync_latest_order (existing_orders_last cache)) l (acc, seen) in
  r.1 = acc ++ map (with_last_edits cache) (List.filter has_transaction l)
  /\ forall x, id_in x r.2 =
               id_in x seen || id_in x (map cache_transaction (List.filter has_transaction l)).
Proof.
  revert acc seen. induction l as [|o l IH]; intros acc seen; simpl.
  - split; [now rewrite app_nil_r|]. intros x. now rewrite orb_false_r.
  - fold (has_transaction o). destruct (has_transaction o) eqn:T.
    + specialize (IH (acc ++ [match dict_get (cache_transaction o) (existing_orders_last cache) with
                             | Some e => preserve_editable_fields o e | None => o end])
                    (set_add (cache_transaction o) seen)).
      simpl in IH. destruct IH as [IH1 IH2]. split.
      * rewrite IH1, <- app_assoc. simpl. unfold with_last_edits at 2.
        now rewrite existing_last_get.
      * intros x. rewrite IH2, id_in_set_add. simpl.
        now rewrite orb_assoc.
    + apply IH.
Qed.

Lemma synced_cache_eq clock cache new :
  exists ids,
    (forall x, id_in x ids =
               id_in x (map cache_transaction
                          (List.filter has_transaction (take 20 (sorted_by_date clock new)))))
    /\ synced_cache clock cache new =
       map (with_last_edits cache)
         (List.filter has_transaction (take 20 (sorted_by_date clock new)))
       ++ missing_from ids cache.
Proof.
  unfold synced_cache.
  pose proof (sync_latest_fold cache (take 20 (sorted_by_date clock new)) [] []) as H.
  simpl in H.
  destruct (fold_left _ (take 20 (sorted_by_date clock new)) ([], [])) as [upd ids].
  simpl in H. destruct H as [-> H]. exists ids. split; [exact H|].
  apply keep_missing_fold.
Qed.

Lemma merged_cache_has_transaction cache new :
  Forall (fun o => has_transaction o = true) (merged_cache cache new).
Proof.
  rewrite merged_cache_eq. apply Forall_app. split.
  - apply List.Forall_map, List.Forall_forall. intros o H.
    rewrite with_edits_has_transaction. now apply first_rows_In in H.
  - apply List.Forall_forall. intros e H. now apply missing_from_In in H.
Qed.

Lemma synced_cache_has_transaction clock cache new :
  Forall (fun o => has_transaction o = true) (synced_cache clock cache new).
Proof.
  destruct (synced_cache_eq clock cache new) as (ids & _ & ->).
  apply Forall_app. split.
  - apply List.Forall_map, List.Forall_forall. intros o H.
    rewrite with_last_edits_has_transaction. now apply filter_In in H.
  - apply List.Forall_forall. intros e H. now apply missing_from_In in H.
Qed.

Lemma photo_only_Forall_has_transaction l l' :
  Forall2 photo_only l l' ->
  Forall (fun o => has_transaction o = true) l ->
  Forall (fun o => has_transaction o = true) l'.
Proof.
  induction 1 as [|o o' l l' Ho _ IH]; intros H; [constructor|].
  inversion H as [|? ? H1 H2]; subst. constructor; [|now apply IH].
  now rewrite (photo_only_has_transaction _ _ Ho).
Qed.

Lemma update_cache_has_transaction dl new st :
  startup_mode = false ->
  Forall (fun o => has_transaction o = true)
    (orders_cache (update_cache dl (Some new) st).1).
Proof.
  intros S. unfold update_cache. rewrite S.
  pose proof (merged_cache_has_transaction (orders_cache st) (limit_orders new)) as M.
  destruct dl.
  - pose proof (download_order_images_spec (merged_cache (orders_cache st) (limit_orders new)))
      as D.
    destruct (download_order_images _) as [c fin]. simpl in D.
    destruct fin; simpl; eapply photo_only_Forall_has_transaction; eauto.
  - exact M.
Qed.

Lemma sync_latest_has_transaction clock new st :
  Forall (fun o => has_transaction o = true)
    (orders_cache (sync_latest_orders clock (Some new) st).1).
Proof.
  unfold sync_latest_orders.
  pose proof (synced_cache_has_transaction clock (orders_cache st) (limit_orders new)) as M.
  pose proof (download_order_images_spec (synced_cache clock (orders_cache st) (limit_orders new)))
    as D.
  destruct (download_order_images _) as [c fin]. simpl in D.
  destruct fin; simpl; eapply photo_only_Forall_has_transaction; eauto.
Qed.

End MergeRows.

(** ** The incremental merge: an invariant principle *)

Lemma fold_left_invariant {A B} (J : A -> Prop) (f : A -> B -> A) l a :
  J a -> (forall a x, In x l -> J a -> J (f a x)) -> J (fold_left f l a).
Proof.
  revert a. induction l as [|x l IH]; intros a Ha Hf; simpl; [exact Ha|].
  apply IH; [apply Hf; [now left|exact Ha]|].
  intros b y Hy. apply Hf. now right.
Qed.

Lemma id_in_true x s : id_in x s = true -> exists y, In y s /\ py_eqb x y = true.
Proof. unfold id_in. intros H. apply existsb_exists in H. exact H. Qed.

Lemma set_add_In x y s : In x (set_add y s) -> x = y \/ In x s.
Proof.
  unfold set_add. destruct (id_in y s); [tauto|].
  intros H. apply in_app_or in H as [H|[H|[]]]; auto.
Qed.

Lemma dict_set_keys k v d x : In x (map fst (dict_set k v d)) -> x = k \/ In x (map fst d).
Proof.
  induction d as [|[k' v'] d IH]; simpl.
  - intros [<-|[]]. now left.
  - destruct (py_eqb k' k); simpl; [tauto|]. intros [<-|H]; [tauto|].
    apply IH in H. tauto.
Qed.

Lemma list_index_Some e l i :
  list_index e l = Some i -> exists x, l !! i = Some x /\ order_py_eqb x e = true.
Proof.
  revert i. induction l as [|o l IH]; intros i; simpl; [discriminate|].
  destruct (order_py_eqb o e) eqn:E.
  - intros [= <-]. now exists o.
  - destruct (list_index e l) as [j|]; [|discriminate]. intros [= <-].
    destruct (IH j eq_refl) as (x & H1 & H2). now exists x.
Qed.

Section Incremental.
Context {env : PyEnv} {run : ImageRun}.

Lemma set_iter_In x l : In x (set_iter l) <-> In x l.
Proof.
  split; apply Permutation_in; [apply set_iter_perm|].
  apply Permutation_sym, set_iter_perm.
Qed.

Lemma current_ids_truthy cache :
  Forall (fun x => py_truthy x = true) (current_transaction_ids cache).
Proof.
  unfold current_transaction_ids.
  apply (fold_left_invariant (Forall (fun x => py_truthy x = true))); [constructor|].
  intros s o _ Hs. destruct (py_truthy (cache_transaction o)) eqn:T; [|exact Hs].
  apply List.Forall_forall. intros x Hx. apply set_add_In in Hx as [->|Hx]; [exact T|].
  rewrite List.Forall_forall in Hs. auto.
Qed.

Lemma new_orders_by_id_get new tid o :
  dict_get tid (new_orders_by_id new) = Some o ->
  In o new /\ has_transaction o = true /\ py_eqb (sheet_transaction o) tid = true.
Proof.
  unfold new_orders_by_id.
  apply (fold_left_invariant
           (fun d => dict_get tid d = Some o ->
                     In o new /\ has_transaction o = true
                     /\ py_eqb (sheet_transaction o) tid = true)); [discriminate|].
  intros d x Hx Hd.
  destruct (py_truthy (sheet_transaction x)) eqn:T; [|exact Hd].
  rewrite dict_get_set. destruct (py_eqb (sheet_transaction x) tid) eqn:E; [|exact Hd].
  intros [= <-]. repeat split; try assumption.
  unfold has_transaction. now rewrite <- transaction_truthy.
Qed.

Lemma new_orders_by_id_keys new :
  Forall (fun k => py_truthy k = true) (map fst (new_orders_by_id new)).
Proof.
  unfold new_orders_by_id.
  apply (fold_left_invariant (fun d => Forall (fun k => py_truthy k = true) (map fst d)));
    [constructor|].
  intros d x _ Hd. destruct (py_truthy (sheet_transaction x)) eqn:T; [|exact Hd].
  apply List.Forall_forall. intros k Hk. apply dict_set_keys in Hk as [->|Hk]; [exact T|].
  rewrite List.Forall_forall in Hd. auto.
Qed.

Lemma incremental_invariant (I : list order -> Prop) new st :
  I (orders_cache st) ->
  (forall l o,
      I l -> In o (limit_orders new) -> has_transaction o = true ->
      id_in (sheet_transaction o) (current_transaction_ids (orders_cache st)) = false ->
      I (l ++ [o])) ->
  (forall l i o e x,
      I l -> In o (limit_orders new) -> has_transaction o = true ->
      In e l -> py_eqb (cache_transaction e) (sheet_transaction o) = true ->
      l !! i = Some x -> order_py_eqb x e = true ->
      I (<[i := preserve_editable_fields o e]> l)) ->
  (forall l l', I l -> Forall2 (image_step has_transaction) l l' -> I l') ->
  I (orders_cache (incremental_update_cache (Some new) st).1).
Proof.
  intros H0 Happ Hrep Himg. unfold incremental_update_cache.
  set (current := current_transaction_ids (orders_cache st)).
  set (m := new_orders_by_id (limit_orders new)).
  set (new_ids := List.filter (fun k => negb (id_in k current)) (map fst m)).
  set (J := fun acc : list order * list pyval =>
              I acc.1 /\ Forall (fun x => py_truthy x = true) acc.2).
  assert (J (fold_left (append_new_order m) (set_iter new_ids) (orders_cache st, []))) as J1.
  { apply fold_left_invariant; [split; [exact H0|constructor]|].
    intros [c u] tid Htid [Hc Hu]. simpl in Hc, Hu.
    apply (proj1 (set_iter_In _ _)), filter_In in Htid as [Hk Hn]. apply negb_true_iff in Hn.
    unfold append_new_order. destruct (dict_get tid m) as [o|] eqn:G; [|now split].
    apply new_orders_by_id_get in G as (G1 & G2 & G3). split; simpl.
    - apply Happ; try assumption. now rewrite (id_in_eqb _ _ _ G3).
    - apply List.Forall_forall. intros x Hx. apply set_add_In in Hx as [->|Hx].
      + pose proof (new_orders_by_id_keys (limit_orders new)) as K.
        rewrite List.Forall_forall in K. now apply K.
      + rewrite List.Forall_forall in Hu. auto. }
  destruct (fold_left (append_new_order m) (set_iter new_ids) (orders_cache st, []))
    as [cache1 updated1].
  assert (J (fold_left (replace_changed_order m) (set_iter current) (cache1, updated1))) as J2.
  { apply fold_left_invariant; [exact J1|].
    intros [c u] tid Htid [Hc Hu]. simpl in Hc, Hu.
    apply (proj1 (set_iter_In _ _)) in Htid.
    unfold replace_changed_order. destruct (dict_get tid m) as [o|] eqn:G; [|now split].
    apply new_orders_by_id_get in G as (G1 & G2 & G3).
    destruct (List.find _ c) as [e|] eqn:F; [|now split].
    apply find_some in F as [F1 F2].
    destruct (dict_truthy e && order_changed e o); [|now split].
    destruct (list_index e c) as [i|] eqn:L; [|now split].
    apply list_index_Some in L as (x & L1 & L2). split; simpl.
    - eapply Hrep; eauto. rewrite py_eqb_sym in G3. eapply py_eqb_trans; eauto.
    - apply List.Forall_forall. intros y Hy. apply set_add_In in Hy as [->|Hy].
      + pose proof (current_ids_truthy (orders_cache st)) as K.
        rewrite List.Forall_forall in K. apply K. exact Htid.
      + rewrite List.Forall_forall in Hu. auto. }
  destruct (fold_left (replace_changed_order m) (set_iter current) (cache1, updated1))
    as [cache2 updated2].
  destruct J2 as [I2 U2]. simpl in I2, U2.
  assert (forall ids,
             Forall (fun x => py_truthy x = true) ids ->
             I (download_images_for_specific_orders ids cache2).1) as Hdl.
  { intros ids Hids. apply (Himg cache2); [exact I2|].
    eapply Forall2_impl; [apply download_specific_spec|].
    intros a b [->|[S P]]; [now left|right]. split; [|exact P].
    apply id_in_true in S as (y & Hy & E). rewrite List.Forall_forall in Hids.
    unfold has_transaction. rewrite (py_eqb_truthy _ _ E). auto. }
  assert (Forall (fun x => py_truthy x = true) (set_iter new_ids ++ set_iter updated2)) as Hids.
  { apply Forall_app. split; apply List.Forall_forall; intros x Hx; apply (proj1 (set_iter_In _ _)) in Hx.
    - apply filter_In in Hx as [Hx _].
      pose proof (new_orders_by_id_keys (limit_orders new)) as K.
      rewrite List.Forall_forall in K. now apply K.
    - rewrite List.Forall_forall in U2. auto. }
  specialize (Hdl _ Hids).
  destruct (download_images_for_specific_orders (set_iter new_ids ++ set_iter updated2) cache2)
    as [cache3 fin].
  destruct new_ids as [|n ns]; [destruct updated2 as [|u us]|]; simpl;
    try exact I2; destruct fin; exact Hdl.
Qed.

End Incremental.

(** ** C4: rows without identifier *)

Section RowsWithoutIdentifier.
Context {env : PyEnv} {run : ImageRun}.

Lemma limit_orders_In o new : In o (limit_orders new) -> In o new.
Proof.
  unfold limit_orders. destruct MAX_SYNC_ORDERS as [n|]; [|auto].
  destruct (n =? 0)%nat; [auto|]. destruct (n <? length new)%nat; [|auto].
  intros H. apply list_elem_of_In in H. apply list_elem_of_In.
  eapply subseteq_take; eauto.
Qed.

Lemma incremental_keeps_or_has_transaction new st :
  Forall (fun x => has_transaction x = true \/ In x (orders_cache st))
    (orders_cache (incremental_update_cache (Some new) st).1).
Proof.
  apply (incremental_invariant
           (Forall (fun x => has_transaction x = true \/ In x (orders_cache st)))).
  - apply List.Forall_forall. auto.
  - intros l o Hl _ Ho _. apply Forall_app. split; [exact Hl|]. constructor; [now left|constructor].
  - intros l i o e x Hl _ Ho _ _ _ _. apply Forall_insert; [exact Hl|].
    left. unfold has_transaction. now rewrite preserve_cache_transaction.
  - intros l l' Hl H2. induction H2 as [|a b l l' Hab _ IH]; [constructor|].
    inversion Hl as [|? ? Ha Hl']; subst. constructor; [|now apply IH].
    destruct Hab as [->|[S P]]; [exact Ha|]. left.
    now rewrite (photo_only_has_transaction _ _ P).
Qed.

End RowsWithoutIdentifier.

(** C4 fails as stated: the full-replace merge drops a fetched row without
    identifier; here the second of three fetched rows. *)
Lemma C4_full_replace_drops_row_without_id :
  let batch := [staged_order "T1" false false false; row_without_id;
                staged_order "T2" false false false] in
  get_order_identifier row_without_id VNone = None
  /\ orders_cache (update_cache (env := sample_env) (run := no_downloads) false (Some batch) (mk_cache [] None)).1
     = [staged_order "T1" false false false; staged_order "T2" false false false]
  /\ orders_cache (update_cache (env := sample_env) (run := no_downloads) true (Some batch) (mk_cache [] None)).1
     = [staged_order "T1" false false false; staged_order "T2" false false false].
Proof. repeat split; vm_compute; reflexivity. Qed.

(** C4, amended.  A fetched row without resolvable identifier is left out
    of the de-duplicated rows and of every lookup by transaction id, and no
    merge puts it into the cache: the results of the full replace and of
    the quick sync hold no such row, and the incremental merge holds it only
    if it was cached before. *)
Theorem C4_rows_without_identifier (env : PyEnv) (run : ImageRun) (dl : bool) (clock : nat -> naive_datetime)
    (batch : list order) (st : cache_state) (r : order) :
  get_order_identifier r VNone = None ->
  ~ In r (first_rows [] (limit_orders batch))
  /\ (forall t cache, List.find (matches_transaction t) cache <> Some r)
  /\ (forall t, dict_get t (new_orders_by_id (limit_orders batch)) <> Some r)
  /\ (startup_mode = false -> ~ In r (orders_cache (update_cache dl (Some batch) st).1))
  /\ ~ In r (orders_cache (sync_latest_orders clock (Some batch) st).1)
  /\ (In r (orders_cache (incremental_update_cache (Some batch) st).1) ->
      In r (orders_cache st)).
Proof.
  intros Hr. apply no_identifier_no_transaction in Hr.
  split; [|split; [|split; [|split; [|split]]]].
  - intros H. apply first_rows_In in H as [_ H]. congruence.
  - intros t cache H. apply find_matches_transaction in H as (_ & H & _). congruence.
  - intros t H. apply new_orders_by_id_get in H as (_ & H & _). congruence.
  - intros S H. pose proof (update_cache_has_transaction dl batch st S) as F.
    rewrite List.Forall_forall in F. apply F in H. congruence.
  - intros H. pose proof (sync_latest_has_transaction clock batch st) as F.
    rewrite List.Forall_forall in F. apply F in H. congruence.
  - intros H. pose proof (incremental_keeps_or_has_transaction batch st) as F.
    rewrite List.Forall_forall in F. apply F in H as [H|H]; [congruence|exact H].
Qed.

(** C4 at a batch and a cache that both hold a row without identifier. *)
Lemma C4_rows_without_identifier_witness :
  let batch := [staged_order "T1" false false false; row_without_id] in
  let st := mk_cache [row_without_id] None in
  ~ In row_without_id (orders_cache (update_cache (env := sample_env) (run := no_downloads) true (Some batch) st).1)
  /\ ~ In row_without_id
        (orders_cache (sync_latest_orders (env := sample_env) (run := no_downloads) (fun _ => 0%N) (Some batch) st).1)
  /\ (In row_without_id
        (orders_cache (incremental_update_cache (env := sample_env) (run := no_downloads) (Some batch) st).1) ->
      In row_without_id (orders_cache st)).
Proof.
  intros batch st.
  pose proof (C4_rows_without_identifier sample_env no_downloads true (fun _ => 0%N) batch st row_without_id
                eq_refl) as (_ & _ & _ & H1 & H2 & H3).
  split; [exact (H1 eq_refl)|]. split; [exact H2|exact H3].
Defined.

(** ** C8: a failed or empty fetch *)

Section FetchFailure.
Context {env : PyEnv} {run : ImageRun}.

Lemma limit_orders_nil : limit_orders [] = [].
Proof.
  unfold limit_orders. destruct MAX_SYNC_ORDERS as [n|]; [|reflexivity].
  destruct (n =? 0)%nat; [reflexivity|]. destruct (n <? length [])%nat; [apply take_nil|reflexivity].
Qed.

Lemma set_iter_nil : set_iter [] = [].
Proof.
  pose proof (set_iter_perm []) as H. apply Permutation_sym in H.
  now apply Stdlib.Sorting.Permutation.Permutation_nil in H.
Qed.

Lemma fold_left_id {A B} (f : A -> B -> A) l a :
  (forall a x, f a x = a) -> fold_left f l a = a.
Proof. intros H. revert a. induction l as [|x l IH]; intros a; simpl; [|rewrite H]; auto. Qed.

Lemma merged_cache_nil cache : merged_cache cache [] = List.filter has_transaction cache.
Proof.
  rewrite merged_cache_eq. simpl. unfold missing_from. apply filter_ext.
  intros e. simpl. now rewrite andb_true_r.
Qed.

Lemma synced_cache_nil clock cache :
  synced_cache clock cache [] = List.filter has_transaction cache.
Proof.
  unfold synced_cache, sorted_by_date. simpl. rewrite keep_missing_fold. simpl.
  unfold missing_from. apply filter_ext. intros e. simpl. now rewrite andb_true_r.
Qed.

Lemma incremental_empty_fetch st :
  incremental_update_cache (Some []) st = (st, Returned (VBool false)).
Proof.
  unfold incremental_update_cache. rewrite limit_orders_nil. simpl.
  rewrite set_iter_nil. simpl.
  rewrite fold_left_id by (intros [c u] x; reflexivity).
  now destruct st.
Qed.

End FetchFailure.

(** C8 fails as stated for a fetch that returns no rows: the full replace
    (and the quick sync) rebuild the cache from the cached rows that have a
    transaction id and write it to disk. *)
Lemma C8_empty_fetch_rewrites_cache :
  update_cache (env := sample_env) (run := no_downloads) true (Some []) unsaved_cache
  = (mk_cache [staged_order "T1" true false false]
       (Some [staged_order "T1" true false false]), Returned VNone)
  /\ sync_latest_orders (env := sample_env) (run := no_downloads) (fun _ => 0%N) (Some []) unsaved_cache
     = (mk_cache [staged_order "T1" true false false]
          (Some [staged_order "T1" true false false]), Returned VNone)
  /\ orders_cache unsaved_cache <> [staged_order "T1" true false false]
  /\ cache_file unsaved_cache = None.
Proof. repeat split; try (vm_compute; reflexivity). discriminate. Qed.

(** C8, amended.  When the fetch fails (returns [None]) each of the three
    merges leaves the cache in memory and on disk as it is and returns a
    false value ([False] for the incremental merge, [None] for the other
    two); so does the incremental merge when the fetch returns no rows.
    On an empty fetch the full replace and the quick sync keep the cached
    rows that have a transaction id, run the image step and save. *)
Theorem C8_fetch_failure (env : PyEnv) (run : ImageRun) (dl : bool) (clock : nat -> naive_datetime)
    (st : cache_state) :
  update_cache dl None st = (st, Returned VNone)
  /\ incremental_update_cache None st = (st, Returned (VBool false))
  /\ sync_latest_orders clock None st = (st, Returned VNone)
  /\ incremental_update_cache (Some []) st = (st, Returned (VBool false))
  /\ py_truthy VNone = false /\ py_truthy (VBool false) = false
  /\ update_cache dl (Some []) st =
     (if startup_mode then (st, Returned VNone)
      else
        let kept := List.filter has_transaction (orders_cache st) in
        let '(cache', finished) :=
          if dl then download_order_images kept else (kept, true) in
        if finished then (mk_cache cache' (Some cache'), Returned VNone)
        else (mk_cache cache' (cache_file st), Raised))
  /\ sync_latest_orders clock (Some []) st =
     (let kept := List.filter has_transaction (orders_cache st) in
      let '(cache', finished) := download_order_images kept in
      if finished then (mk_cache cache' (Some cache'), Returned VNone)
      else (mk_cache cache' (cache_file st), Raised)).
Proof.
  split; [|split; [|split; [|split; [|split; [|split; [|split]]]]]];
    try reflexivity.
  - unfold update_cache. now destruct startup_mode.
  - apply incremental_empty_fetch.
  - unfold update_cache. destruct startup_mode; [reflexivity|].
    rewrite limit_orders_nil, merged_cache_nil. reflexivity.
  - unfold sync_latest_orders. rewrite limit_orders_nil, synced_cache_nil. reflexivity.
Qed.

(** ** C2: edits survive the merges *)

Lemma keeps_edit_preserved_value f b v e :
  keeps_edit f b v e -> preserved_value e f b = v.
Proof.
  intros [Hf [Hb|Hb]]; unfold preserved_value, get; rewrite Hb; [now rewrite Hf|reflexivity].
Qed.

Lemma preserve_keeps_edit f b v o e :
  In (f, b) EDITABLE_FIELD_GROUPS -> v <> VNone ->
  dict_truthy o = true -> dict_truthy e = true ->
  keeps_edit f b v e -> keeps_edit f b v (preserve_editable_fields o e).
Proof.
  intros Hg Hv Ho He Hk. apply keeps_edit_preserved_value in Hk.
  assert (forall k, (k = f \/ k = b) ->
                    preserve_editable_fields o e !! k = Some v) as H.
  { intros k Hkey. rewrite preserve_lookup by assumption.
    unfold EDITABLE_FIELD_GROUPS in *. cbn [fold_left].
    destruct Hg as [G|[G|[G|[G|[]]]]]; injection G as <- <-;
      destruct Hkey as [-> | ->]; unfold preserve_key; cbn [fst snd];
      rewrite Hk; destruct v; try congruence; reflexivity. }
  split; [|right]; apply H; auto.
Qed.

Lemma photo_only_keeps_edit f b v o o' :
  In (f, b) EDITABLE_FIELD_GROUPS -> photo_only o o' ->
  keeps_edit f b v o -> keeps_edit f b v o'.
Proof.
  intros Hg P [H1 H2]. unfold keeps_edit.
  assert (f <> "photo" /\ b <> "photo") as [Nf Nb].
  { unfold EDITABLE_FIELD_GROUPS in Hg.
    destruct Hg as [G|[G|[G|[G|[]]]]]; injection G as <- <-; split; discriminate. }
  now rewrite !(photo_only_lookup _ _ _ P) by assumption.
Qed.

Lemma VStr_truthy t : t <> "" -> py_truthy (VStr t) = true.
Proof. intros H. simpl. apply negb_true_iff, String.eqb_neq. exact H. Qed.

Lemma has_transaction_of_id t x : t <> "" -> cache_transaction x = VStr t -> has_transaction x = true.
Proof. intros Ht H. unfold has_transaction. rewrite H. now apply VStr_truthy. Qed.

Lemma edit_kept_images t f b v sel l l' :
  In (f, b) EDITABLE_FIELD_GROUPS ->
  Forall2 (image_step sel) l l' -> edit_kept t f b v l -> edit_kept t f b v l'.
Proof.
  intros Hg H2 [(w & Hw & Ew) Hall].
  assert (forall a a', image_step sel a a' -> photo_only a a') as Himp.
  { intros a a' [->|[_ P]]; [apply photo_only_refl|exact P]. }
  split.
  - apply list_elem_of_In in Hw. apply list_elem_of_lookup in Hw as [i Hi].
    destruct (Forall2_lookup_l _ _ _ _ _ H2 Hi) as (w' & Hi' & S).
    exists w'. split.
    + apply list_elem_of_In, list_elem_of_lookup. now exists i.
    + now rewrite (photo_only_cache_transaction _ _ (Himp _ _ S)).
  - intros x' Hx' Ex'. apply list_elem_of_In in Hx'.
    apply list_elem_of_lookup in Hx' as [i Hi].
    destruct (Forall2_lookup_r _ _ _ _ _ H2 Hi) as (x & Hx & S).
    apply Himp in S. apply (photo_only_keeps_edit f b v x x' Hg S).
    apply Hall.
    + apply list_elem_of_In, list_elem_of_lookup. now exists i.
    + now rewrite <- (photo_only_cache_transaction _ _ S).
Qed.

Lemma edit_kept_photo_only t f b v l l' :
  In (f, b) EDITABLE_FIELD_GROUPS ->
  Forall2 photo_only l l' -> edit_kept t f b v l -> edit_kept t f b v l'.
Proof.
  intros Hg H2. apply (edit_kept_images t f b v (fun _ => true)); [exact Hg|].
  eapply Forall2_impl; [exact H2|]. intros a a' P. right. now split.
Qed.

Lemma find_matches_exists t cache c :
  In c cache -> has_transaction c = true -> py_eqb (cache_transaction c) t = true ->
  exists e, List.find (matches_transaction t) cache = Some e.
Proof.
  intros Hc Ht He. destruct (List.find (matches_transaction t) cache) as [e|] eqn:F; [eauto|].
  pose proof (find_none _ _ F c Hc) as N. unfold matches_transaction in N.
  rewrite Ht, He in N. discriminate.
Qed.

Section EditPreservation.
Context {env : PyEnv} {run : ImageRun}.
Variables (t f b : string) (v : pyval).
Hypothesis t_nonempty : t <> "".
Hypothesis editable : In (f, b) EDITABLE_FIELD_GROUPS.
Hypothesis v_some : v <> VNone.

(** A fetched row with id [t], merged with the edits of a cached row that
    the lookup found, carries the edit. *)
Lemma edited_after_lookup cache o e :
  edit_kept t f b v cache ->
  has_transaction o = true ->
  In e cache -> py_eqb (cache_transaction e) (VStr t) = true ->
  keeps_edit f b v (preserve_editable_fields o e).
Proof.
  intros [_ Hall] Ho He Ee. rewrite py_eqb_sym in Ee. apply py_eqb_str in Ee.
  apply preserve_keeps_edit; try assumption.
  - now apply has_transaction_truthy.
  - apply has_transaction_truthy. now apply has_transaction_of_id with t.
  - now apply Hall.
Qed.

Lemma merged_cache_edit_kept cache new :
  edit_kept t f b v cache -> Forall coherent_ids new ->
  edit_kept t f b v (merged_cache cache new).
Proof.
  intros K Hco. pose proof K as [(c & Hc & Ec) Hall].
  assert (has_transaction c = true) as Tc by now apply has_transaction_of_id with t.
  rewrite merged_cache_eq.
  set (rows := first_rows [] new).
  assert (forall o, In o rows -> In o new /\ has_transaction o = true) as Hrows
    by (intros o; apply first_rows_In).
  split.
  - destruct (id_in (VStr t) (map sheet_transaction rows)) eqn:M.
    + apply id_in_true in M as (y & Hy & E). apply py_eqb_str in E. subst y.
      apply in_map_iff in Hy as (o & Eo & Ho).
      exists (with_edits cache o). split; [apply in_or_app; left; now apply in_map|].
      destruct (Hrows o Ho) as [Hn To].
      rewrite List.Forall_forall in Hco.
      unfold with_edits. destruct (List.find _ cache);
        rewrite ?preserve_cache_transaction, <- (Hco o Hn To); exact Eo.
    + exists c. split; [|exact Ec]. apply in_or_app. right.
      apply missing_from_In. rewrite Ec. auto.
  - intros x Hx Ex. apply in_app_or in Hx as [Hx|Hx].
    + apply in_map_iff in Hx as (o & <- & Ho). destruct (Hrows o Ho) as [Hn To].
      rewrite List.Forall_forall in Hco. pose proof (Hco o Hn To) as Co.
      unfold with_edits in *.
      destruct (List.find (matches_transaction (sheet_transaction o)) cache) as [e|] eqn:F.
      * rewrite preserve_cache_transaction in Ex.
        apply find_matches_transaction in F as (F1 & F2 & F3).
        rewrite Co, Ex in F3. now apply (edited_after_lookup cache).
      * exfalso. rewrite Co, Ex in F.
        destruct (find_matches_exists (VStr t) cache c Hc Tc) as [e E];
          [rewrite Ec; apply py_eqb_refl|congruence].
    + apply missing_from_In in Hx as [Hx _]. now apply Hall.
Qed.

Lemma synced_cache_edit_kept clock cache new :
  edit_kept t f b v cache ->
  edit_kept t f b v (synced_cache clock cache new).
Proof.
  intros K. pose proof K as [(c & Hc & Ec) Hall].
  assert (has_transaction c = true) as Tc by now apply has_transaction_of_id with t.
  destruct (synced_cache_eq clock cache new) as (ids & Hids & ->).
  set (rows := List.filter has_transaction (take 20 (sorted_by_date clock new))) in *.
  split.
  - destruct (id_in (VStr t) ids) eqn:M.
    + rewrite Hids in M. apply id_in_true in M as (y & Hy & E).
      apply py_eqb_str in E. subst y. apply in_map_iff in Hy as (o & Eo & Ho).
      exists (with_last_edits cache o). split; [apply in_or_app; left; now apply in_map|].
      unfold with_last_edits. destruct (List.find _ (rev cache));
        rewrite ?preserve_cache_transaction; exact Eo.
    + exists c. split; [|exact Ec]. apply in_or_app. right.
      apply missing_from_In. rewrite Ec. auto.
  - intros x Hx Ex. apply in_app_or in Hx as [Hx|Hx].
    + apply in_map_iff in Hx as (o & <- & Ho). apply filter_In in Ho as [_ To].
      unfold with_last_edits in *.
      destruct (List.find (matches_transaction (cache_transaction o)) (rev cache))
        as [e|] eqn:F.
      * rewrite preserve_cache_transaction in Ex.
        apply find_matches_transaction in F as (F1 & F2 & F3).
        rewrite Ex in F3. apply in_rev in F1. now apply (edited_after_lookup cache).
      * exfalso. rewrite Ex in F.
        destruct (find_matches_exists (VStr t) (rev cache) c) as [e E];
          [now apply in_rev in Hc|exact Tc|rewrite Ec; apply py_eqb_refl|congruence].
    + apply missing_from_In in Hx as [Hx _]. now apply Hall.
Qed.

End EditPreservation.

Lemma current_ids_id_in x cache s :
  id_in x
    (fold_left
       (fun s o => let t := cache_transaction o in if py_truthy t then set_add t s else s)
       cache s) =
  id_in x s || existsb (fun e => has_transaction e && py_eqb x (cache_transaction e)) cache.
Proof.
  revert s. induction cache as [|e cache IH]; intros s; simpl; [now rewrite orb_false_r|].
  rewrite IH. unfold has_transaction. destruct (py_truthy (cache_transaction e)); simpl.
  - now rewrite id_in_set_add, orb_assoc.
  - reflexivity.
Qed.

Lemma order_py_eqb_get x e k : order_py_eqb x e = true -> py_eqb (get x k) (get e k) = true.
Proof.
  unfold order_py_eqb. intros H. apply andb_true_iff in H as [D H].
  apply bool_decide_eq_true_1 in D. rewrite forallb_forall in H.
  unfold get at 1. destruct (x !! k) as [w|] eqn:E; simpl.
  - apply (H (k, w)). apply list_elem_of_In, elem_of_map_to_list. exact E.
  - assert (e !! k = None) as N; [|unfold get; now rewrite N].
    apply not_elem_of_dom. rewrite <- D. now apply not_elem_of_dom.
Qed.

Lemma py_or_eqb a a' c c' :
  py_eqb a a' = true -> py_eqb c c' = true -> py_eqb (py_or a c) (py_or a' c') = true.
Proof.
  intros Ha Hc. unfold py_or. rewrite (py_eqb_truthy _ _ Ha). now destruct (py_truthy a').
Qed.

Lemma order_py_eqb_transaction x e :
  order_py_eqb x e = true -> py_eqb (cache_transaction x) (cache_transaction e) = true.
Proof. intros H. unfold cache_transaction. apply py_or_eqb; now apply order_py_eqb_get. Qed.

Lemma In_list_insert {A} (l : list A) i y z :
  In y (<[i := z]> l) -> y = z \/ In y l.
Proof.
  revert i. induction l as [|a l IH]; intros i; simpl; [tauto|].
  destruct i as [|i]; simpl.
  - intros [<-|H]; auto.
  - intros [<-|H]; [auto|]. apply IH in H. tauto.
Qed.

Section EditPreservationIncremental.
Context {env : PyEnv} {run : ImageRun}.
Variables (t f b : string) (v : pyval).
Hypothesis t_nonempty : t <> "".
Hypothesis editable : In (f, b) EDITABLE_FIELD_GROUPS.
Hypothesis v_some : v <> VNone.

Lemma incremental_edit_kept new st :
  edit_kept t f b v (orders_cache st) -> Forall coherent_ids new ->
  edit_kept t f b v (orders_cache (incremental_update_cache (Some new) st).1).
Proof.
  intros K Hco. pose proof K as [(c & Hc & Ec) _].
  assert (has_transaction c = true) as Tc by now apply has_transaction_of_id with t.
  rewrite List.Forall_forall in Hco.
  apply (incremental_invariant (edit_kept t f b v)); [exact K|..].
  - intros l o [(w & Hw & Ew) Hall] Hn To Hnew. split.
    + exists w. split; [apply in_or_app; now left|exact Ew].
    + intros x Hx Ex. apply in_app_or in Hx as [Hx|[->|[]]]; [now apply Hall|].
      exfalso. apply limit_orders_In in Hn.
      rewrite (Hco x Hn To), Ex in Hnew.
      unfold current_transaction_ids in Hnew. rewrite current_ids_id_in in Hnew.
      unfold id_in at 1 in Hnew. cbn [existsb orb] in Hnew.
      assert (existsb (fun e => has_transaction e && py_eqb (VStr t) (cache_transaction e))
                (orders_cache st) = true) as Hex.
      { apply existsb_exists. exists c. split; [exact Hc|]. rewrite Tc, Ec. apply py_eqb_refl. }
      congruence.
  - intros l i o e x Kl Hn To He Ee Hi Exe. pose proof Kl as [(w & Hw & Ew) Hall].
    apply limit_orders_In in Hn. pose proof (Hco o Hn To) as Co.
    assert (cache_transaction (preserve_editable_fields o e) = VStr t ->
            keeps_edit f b v (preserve_editable_fields o e)) as Hnewrow.
    { rewrite preserve_cache_transaction. intros Eo. rewrite Co, Eo in Ee.
      now apply (edited_after_lookup t f b v t_nonempty editable v_some l). }
    split.
    + destruct (decide (w = x)) as [->|Hne].
      * exists (preserve_editable_fields o e). split.
        -- apply list_elem_of_In, list_elem_of_lookup. exists i.
           apply list_lookup_insert_eq. now apply lookup_lt_Some in Hi.
        -- rewrite preserve_cache_transaction, <- Co.
           apply order_py_eqb_transaction in Exe. rewrite Ew in Exe.
           apply py_eqb_str in Exe. rewrite Exe in Ee.
           now apply py_eqb_str in Ee.
      * exists w. split; [|exact Ew].
        apply list_elem_of_In in Hw. apply list_elem_of_lookup in Hw as [j Hj].
        apply list_elem_of_In, list_elem_of_lookup. exists j.
        rewrite list_lookup_insert_ne; [exact Hj|]. intros <-. congruence.
    + intros y Hy Ey. apply In_list_insert in Hy as [->|Hy]; [now apply Hnewrow|].
      now apply Hall.
  - intros l l' Kl H2. now apply (edit_kept_images t f b v has_transaction l l').
Qed.

End EditPreservationIncremental.

(** C2 fails as stated: a cached order with Produce "TRUE" and note
    "hello" whose backend name of the flag ("Kesildi") says "FALSE" has its
    Produce flag reset by each merge that takes the fetched row; the
    preserver reads the backend name first. *)
Lemma C2_disagreeing_flag_is_reset :
  let st := mk_cache [disagreeing_order] None in
  let produce cache := map (fun x : order => x !! "Produce") cache in
  disagreeing_order !! "Produce" = Some (VStr "TRUE")
  /\ disagreeing_order !! "Note" = Some (VStr "hello")
  /\ get_order_stage_flags disagreeing_order = (true, false, false)
  /\ sheet_transaction sheet_default_row = cache_transaction disagreeing_order
  /\ produce (orders_cache (update_cache (env := sample_env) (run := no_downloads) true
                              (Some [sheet_default_row]) st).1)
     = [Some (VStr "FALSE")]
  /\ produce (orders_cache (sync_latest_orders (env := sample_env) (run := no_downloads) (fun _ => 0%N)
                              (Some [sheet_default_row]) st).1)
     = [Some (VStr "FALSE")]
  /\ produce (orders_cache (incremental_update_cache (env := sample_env) (run := no_downloads)
                              (Some [sheet_renamed_row]) st).1)
     = [Some (VStr "FALSE")].
Proof. repeat split; vm_compute; reflexivity. Qed.

(** C2, amended.  Let a cache hold a row with the transaction id [t], and
    let every cached row with that id carry the value [v] of an editable
    pair under its frontend name and, if the row has the backend name at
    all, under that too (for instance Produce = "TRUE", or Note = "hello").
    Then after a full replace, an incremental merge or a quick sync with
    any batch whose rows each name one transaction id, the cache still has a
    row with id [t], and every row with that id carries [v]: no merge resets
    the edit to what the spreadsheet delivers. *)
Theorem C2_edit_preservation (env : PyEnv) (run : ImageRun) (dl : bool) (clock : nat -> naive_datetime)
    (batch : list order) (st : cache_state) (t f b : string) (v : pyval) :
  t <> "" -> In (f, b) EDITABLE_FIELD_GROUPS -> v <> VNone ->
  edit_kept t f b v (orders_cache st) ->
  Forall coherent_ids batch ->
  edit_kept t f b v (orders_cache (update_cache dl (Some batch) st).1)
  /\ edit_kept t f b v (orders_cache (incremental_update_cache (Some batch) st).1)
  /\ edit_kept t f b v (orders_cache (sync_latest_orders clock (Some batch) st).1).
Proof.
  intros Ht Hg Hv K Hco.
  assert (Forall coherent_ids (limit_orders batch)) as Hco'.
  { rewrite List.Forall_forall in *. intros o Ho. apply Hco. now apply limit_orders_In. }
  split; [|split].
  - unfold update_cache. destruct startup_mode; [exact K|].
    pose proof (merged_cache_edit_kept t f b v Ht Hg Hv (orders_cache st) _ K Hco') as M.
    destruct dl.
    + pose proof (download_order_images_spec
                    (merged_cache (orders_cache st) (limit_orders batch))) as D.
      destruct (download_order_images _) as [c fin]. simpl in D.
      destruct fin; simpl; eapply edit_kept_photo_only; eauto.
    + exact M.
  - now apply incremental_edit_kept.
  - unfold sync_latest_orders.
    pose proof (synced_cache_edit_kept t f b v Ht Hg Hv clock (orders_cache st)
                  (limit_orders batch) K) as M.
    pose proof (download_order_images_spec
                  (synced_cache clock (orders_cache st) (limit_orders batch))) as D.
    destruct (download_order_images _) as [c fin]. simpl in D.
    destruct fin; simpl; eapply edit_kept_photo_only; eauto.
Qed.

(** C2 at the scenario of the specification: the cached "T1" has Produce
    "TRUE", the fetched row has the default flags and a changed name. *)
Lemma C2_edit_preservation_witness :
  let st := mk_cache [edited_order] None in
  edit_kept "T1" "Produce" "Kesildi" (VStr "TRUE")
    (orders_cache (update_cache (env := sample_env) (run := no_downloads) true (Some [sheet_renamed_row]) st).1)
  /\ edit_kept "T1" "Produce" "Kesildi" (VStr "TRUE")
       (orders_cache (incremental_update_cache (env := sample_env) (run := no_downloads)
                        (Some [sheet_renamed_row]) st).1)
  /\ edit_kept "T1" "Produce" "Kesildi" (VStr "TRUE")
       (orders_cache (sync_latest_orders (env := sample_env) (run := no_downloads) (fun _ => 0%N)
                        (Some [sheet_renamed_row]) st).1).
Proof.
  intros st.
  apply (C2_edit_preservation sample_env no_downloads true (fun _ => 0%N) [sheet_renamed_row] st
           "T1" "Produce" "Kesildi" (VStr "TRUE")).
  - discriminate.
  - left. reflexivity.
  - discriminate.
  - split.
    + exists edited_order. split; [now left|reflexivity].
    + intros x [<-|[]] _. split; [reflexivity|left; reflexivity].
  - constructor; [|constructor]. intros _. reflexivity.
Defined.

(** ** C3: merging the same batch twice *)

Lemma key_cases k :
  k ∉ editable_keys \/ exists f b, In (f, b) EDITABLE_FIELD_GROUPS /\ (k = f \/ k = b).
Proof.
  destruct (decide (k ∈ editable_keys)) as [H|H]; [right|now left].
  unfold editable_keys in H. unfold EDITABLE_FIELD_GROUPS.
  repeat (apply elem_of_cons in H as [->|H]);
    [exists "Produce", "Kesildi"|exists "Ready", "Hazır"|exists "Shipped", "Gönderildi"
    |exists "Note", "importantnote"
    |exists "Produce", "Kesildi"|exists "Ready", "Hazır"|exists "Shipped", "Gönderildi"
    |exists "Note", "importantnote"|]; simpl; try tauto.
  now apply elem_of_nil in H.
Qed.

Lemma preserve_lookup_group t s f b k :
  In (f, b) EDITABLE_FIELD_GROUPS -> k = f \/ k = b ->
  dict_truthy s = true -> dict_truthy t = true ->
  preserve_editable_fields t s !! k =
  match preserved_value s f b with
  | VNone => t !! k
  | v => Some v
  end.
Proof.
  intros Hg Hk Hs Ht. rewrite preserve_lookup by assumption.
  unfold EDITABLE_FIELD_GROUPS in *. cbn [fold_left].
  destruct Hg as [G|[G|[G|[G|[]]]]]; injection G as <- <-;
    destruct Hk as [-> | ->]; unfold preserve_key; cbn [fst snd];
    reflexivity.
Qed.

Lemma preserved_value_preserve o e f b :
  In (f, b) EDITABLE_FIELD_GROUPS ->
  dict_truthy e = true -> dict_truthy o = true ->
  preserved_value (preserve_editable_fields o e) f b =
  match preserved_value e f b with
  | VNone => preserved_value o f b
  | v => v
  end.
Proof.
  intros Hg He Ho. unfold preserved_value at 1, get.
  rewrite (preserve_lookup_group o e f b b Hg) by auto.
  rewrite (preserve_lookup_group o e f b f Hg) by auto.
  destruct (preserved_value e f b); reflexivity.
Qed.

Lemma preserve_idempotent o e :
  dict_truthy o = true -> self_stable o ->
  preserve_editable_fields o (preserve_editable_fields o e) = preserve_editable_fields o e.
Proof.
  intros Ho Hs.
  destruct (dict_truthy e) eqn:He; [|rewrite (preserve_falsy o e) by auto; exact Hs].
  assert (dict_truthy (preserve_editable_fields o e) = true) as Hp.
  { apply dict_truthy_spec. intros E.
    pose proof (proj1 (dict_truthy_spec o) Ho) as Ho'. apply Ho'.
    apply map_eq. intros k. rewrite lookup_empty.
    destruct (o !! k) as [w|] eqn:Ek; [|reflexivity]. exfalso.
    assert (preserve_editable_fields o e !! k <> None) as N; [|now rewrite E, lookup_empty in N].
    destruct (key_cases k) as [Hk|(f & b & Hg & Hk)].
    - rewrite preserve_other_key by assumption. congruence.
    - rewrite (preserve_lookup_group o e f b k Hg Hk) by assumption.
      destruct (preserved_value e f b); congruence. }
  apply map_eq. intros k. destruct (key_cases k) as [Hk|(f & b & Hg & Hk)].
  - now rewrite !preserve_other_key by assumption.
  - rewrite (preserve_lookup_group o _ f b k Hg Hk) by assumption.
    rewrite preserved_value_preserve by assumption.
    rewrite (preserve_lookup_group o e f b k Hg Hk) by assumption.
    destruct (preserved_value e f b) eqn:E; try reflexivity.
    rewrite <- (preserve_lookup_group o o f b k Hg Hk) by assumption.
    now rewrite Hs.
Qed.

Lemma preserved_value_photo_only e e' f b :
  In (f, b) EDITABLE_FIELD_GROUPS -> photo_only e e' ->
  preserved_value e' f b = preserved_value e f b.
Proof.
  intros Hg P. unfold preserved_value, get.
  assert (f <> "photo" /\ b <> "photo") as [Nf Nb].
  { unfold EDITABLE_FIELD_GROUPS in Hg.
    destruct Hg as [G|[G|[G|[G|[]]]]]; injection G as <- <-; split; discriminate. }
  now rewrite !(photo_only_lookup _ _ _ P) by assumption.
Qed.

Lemma preserve_photo_only o e e' :
  photo_only e e' -> dict_truthy e = true ->
  preserve_editable_fields o e' = preserve_editable_fields o e.
Proof.
  intros P He.
  assert (dict_truthy e' = true) as He'.
  { destruct P as [->|[c ->]]; [exact He|]. apply dict_truthy_spec. apply insert_non_empty. }
  unfold preserve_editable_fields. rewrite He, He'.
  destruct (negb (dict_truthy o)); simpl; [reflexivity|].
  unfold preserve_group, EDITABLE_FIELD_GROUPS. cbn [fst snd].
  rewrite !(preserved_value_photo_only e e') by (try exact P; simpl; tauto).
  reflexivity.
Qed.

Lemma first_rows_fresh seen new o :
  In o (first_rows seen new) -> id_in (sheet_transaction o) seen = false.
Proof.
  revert seen. induction new as [|x new IH]; intros seen; simpl; [tauto|].
  destruct (py_truthy (sheet_transaction x) && negb (id_in (sheet_transaction x) seen)) eqn:C.
  - intros [<-|H].
    + apply andb_true_iff in C as [_ C]. now apply negb_true_iff in C.
    + apply IH in H. rewrite id_in_app in H. now apply orb_false_iff in H as [H _].
  - apply IH.
Qed.

Lemma first_rows_distinct seen new : distinct_ids (first_rows seen new).
Proof.
  revert seen. induction new as [|x new IH]; intros seen; simpl; [exact I|].
  destruct (py_truthy (sheet_transaction x) && negb (id_in (sheet_transaction x) seen)).
  - split; [|apply IH]. intros y Hy. apply first_rows_fresh in Hy.
    rewrite id_in_app in Hy. apply orb_false_iff in Hy as [_ Hy]. simpl in Hy.
    rewrite orb_false_r, py_eqb_sym in Hy. exact Hy.
  - apply IH.
Qed.

Lemma filter_none {A} (p : A -> bool) l :
  (forall x, In x l -> p x = false) -> List.filter p l = [].
Proof.
  induction l as [|a l IH]; intros H; simpl; [reflexivity|].
  rewrite (H a) by now left. apply IH. intros x Hx. apply H. now right.
Qed.

Lemma filter_all {A} (p : A -> bool) l :
  (forall x, In x l -> p x = true) -> List.filter p l = l.
Proof.
  induction l as [|a l IH]; intros H; simpl; [reflexivity|].
  rewrite (H a) by now left. f_equal. apply IH. intros x Hx. apply H. now right.
Qed.

Lemma Forall2_In_r {A B} (R : A -> B -> Prop) l l' y :
  Forall2 R l l' -> In y l' -> exists x, In x l /\ R x y.
Proof.
  induction 1 as [|a b l l' Hab _ IH]; simpl; [tauto|].
  intros [<-|H]; [exists a; auto|]. destruct (IH H) as (x & Hx & Rx). exists x. auto.
Qed.

Lemma Forall2_map_l {A B C} (R : B -> C -> Prop) (g : A -> B) l k :
  Forall2 R (map g l) k -> Forall2 (fun x y => R (g x) y) l k.
Proof.
  revert k. induction l as [|a l IH]; intros k H; inversion H; subst; constructor; auto.
Qed.

Lemma id_in_map_In o rows :
  In o rows -> id_in (sheet_transaction o) (map sheet_transaction rows) = true.
Proof.
  intros H. unfold id_in. apply existsb_exists. exists (sheet_transaction o).
  split; [now apply in_map|apply py_eqb_refl].
Qed.

Lemma self_stable_settled cache o :
  has_transaction o = true -> self_stable o -> settled cache o.
Proof.
  intros Ht Hs. unfold settled, with_edits.
  destruct (List.find _ cache) as [e|]; [|exact Hs].
  apply preserve_idempotent; [now apply has_transaction_truthy|exact Hs].
Qed.

Lemma same_but_photo_refl o : same_but_photo o o.
Proof. intros k _. reflexivity. Qed.

Lemma same_but_photo_sym o o' : same_but_photo o o' -> same_but_photo o' o.
Proof. intros H k Hk. symmetry. now apply H. Qed.

Lemma same_but_photo_trans a b c :
  same_but_photo a b -> same_but_photo b c -> same_but_photo a c.
Proof. intros H1 H2 k Hk. now rewrite (H2 k Hk), (H1 k Hk). Qed.

Lemma photo_only_same o o' : photo_only o o' -> same_but_photo o o'.
Proof. intros H k Hk. now apply photo_only_lookup. Qed.

Lemma Forall2_same_refl (l : list order) : Forall2 same_but_photo l l.
Proof. induction l; constructor; auto using same_but_photo_refl. Qed.

Lemma Forall2_same_sym (l l' : list order) :
  Forall2 same_but_photo l l' -> Forall2 same_but_photo l' l.
Proof. induction 1; constructor; auto using same_but_photo_sym. Qed.

Lemma Forall2_same_trans (a b c : list order) :
  Forall2 same_but_photo a b -> Forall2 same_but_photo b c -> Forall2 same_but_photo a c.
Proof.
  intros H. revert c. induction H as [|x y a b Hxy _ IH]; intros c Hc; inversion Hc; subst;
    constructor; eauto using same_but_photo_trans.
Qed.

Lemma Forall2_photo_same (l l' : list order) :
  Forall2 photo_only l l' -> Forall2 same_but_photo l l'.
Proof. induction 1; constructor; auto using photo_only_same. Qed.

Section SecondMerge.
Context {env : PyEnv}.
Variables (cache new : list order).
Hypothesis coherent : Forall coherent_ids new.

Local Notation rows := (first_rows [] new).
Local Notation ids := (map sheet_transaction (first_rows [] new)).

Lemma rows_facts o :
  In o rows -> has_transaction o = true /\ sheet_transaction o = cache_transaction o.
Proof.
  intros H. apply first_rows_In in H as [Hn Ht].
  pose proof (proj1 (List.Forall_forall _ _) coherent o Hn) as Co.
  split; [exact Ht|exact (Co Ht)].
Qed.

Lemma find_among_images sub images tail o :
  (forall x, In x sub -> In x rows) -> distinct_ids sub ->
  Forall2 (fun r h => photo_only (with_edits cache r) h) sub images ->
  In o sub ->
  exists h, List.find (matches_transaction (sheet_transaction o)) (images ++ tail) = Some h
            /\ photo_only (with_edits cache o) h.
Proof.
  intros Hsub Hd H2. revert Hsub Hd.
  induction H2 as [|r h sub images Hrh _ IH]; intros Hsub Hd Ho; [destruct Ho|].
  destruct Hd as [Hd1 Hd2].
  destruct (rows_facts r (Hsub r (or_introl eq_refl))) as (Tr & Cr).
  assert (matches_transaction (sheet_transaction o) h
          = py_eqb (sheet_transaction r) (sheet_transaction o)) as Em.
  { unfold matches_transaction.
    rewrite (photo_only_has_transaction _ _ Hrh), with_edits_has_transaction, Tr.
    unfold has_transaction. rewrite (photo_only_cache_transaction _ _ Hrh).
    fold (has_transaction (with_edits cache r)).
    assert (cache_transaction (with_edits cache r) = cache_transaction r) as ->.
    { unfold with_edits. destruct (List.find _ cache); [apply preserve_cache_transaction|reflexivity]. }
    now rewrite Cr. }
  simpl. rewrite Em. destruct Ho as [->|Ho].
  - rewrite py_eqb_refl. now exists h.
  - rewrite (Hd1 o Ho). apply IH; auto. intros x Hx. apply Hsub. now right.
Qed.

(** What the second merge makes of a fetched row: the preserver runs on
    it with the row the first merge stored as its source. *)
Lemma with_edits_after_images images tail o :
  Forall2 (fun r h => photo_only (with_edits cache r) h) rows images ->
  In o rows ->
  with_edits (images ++ tail) o = preserve_editable_fields o (with_edits cache o).
Proof.
  intros H2 Ho.
  destruct (find_among_images rows images tail o (fun x H => H)
              (first_rows_distinct [] new) H2 Ho) as (h & F & P).
  unfold with_edits at 1. rewrite F.
  apply (preserve_photo_only o _ _ P).
  apply has_transaction_truthy. rewrite with_edits_has_transaction.
  now apply rows_facts.
Qed.

Lemma second_merge images tail :
  Forall2 photo_only (map (with_edits cache) rows) images ->
  Forall2 photo_only (missing_from ids cache) tail ->
  merged_cache (images ++ tail) new
  = map (fun o => preserve_editable_fields o (with_edits cache o)) rows ++ tail.
Proof.
  intros H1 H2. rewrite merged_cache_eq.
  assert (Forall2 (fun r h => photo_only (with_edits cache r) h) rows images) as H1'.
  { now apply Forall2_map_l. }
  f_equal.
  - apply map_ext_in. intros o Ho. now apply with_edits_after_images.
  - unfold missing_from. rewrite List.filter_app.
    rewrite filter_none, filter_all; [reflexivity|..].
    + intros x Hx. destruct (Forall2_In_r _ _ _ _ H2 Hx) as (e & He & P).
      apply missing_from_In in He as (_ & Te & Ie).
      now rewrite (photo_only_has_transaction _ _ P), (photo_only_cache_transaction _ _ P),
        Te, Ie.
    + intros x Hx. destruct (Forall2_In_r _ _ _ _ H1' Hx) as (r & Hr & P).
      destruct (rows_facts r Hr) as (Tr & Cr).
      rewrite (photo_only_cache_transaction _ _ P).
      assert (cache_transaction (with_edits cache r) = cache_transaction r) as ->.
      { unfold with_edits. destruct (List.find _ cache);
          [apply preserve_cache_transaction|reflexivity]. }
      rewrite <- Cr, (id_in_map_In r _ Hr). apply andb_false_r.
Qed.

Lemma settled_rows_again :
  Forall (settled cache) rows ->
  map (fun o => preserve_editable_fields o (with_edits cache o)) rows
  = map (with_edits cache) rows.
Proof.
  intros H. apply map_ext_in. intros o Ho.
  exact (proj1 (List.Forall_forall _ _) H o Ho).
Qed.

Lemma again_rows_settled :
  map (fun o => preserve_editable_fields o (with_edits cache o)) rows
  = map (with_edits cache) rows ->
  Forall (settled cache) rows.
Proof.
  induction rows as [|o l IH]; cbn [map]; intros H; [constructor|].
  injection H as H1 H2. constructor; [exact H1|auto].
Qed.

End SecondMerge.

Section ImageLoop.
Context {env : PyEnv} {run : ImageRun}.

Lemma download_images_loop_app sel i A B :
  download_images_loop sel i (A ++ B) =
  let '(A', fa) := download_images_loop sel i A in
  if fa then let '(B', fb) := download_images_loop sel (i + length A) B in (A' ++ B', fb)
  else (A' ++ B, false).
Proof.
  revert i. induction A as [|o A IH]; intros i; cbn [app download_images_loop length].
  - rewrite Nat.add_0_r. now destruct (download_images_loop sel i B).
  - rewrite IH, <- Nat.add_succ_comm.
    destruct (download_images_loop sel (S i) A) as [A' fa].
    destruct (sel o).
    + destruct (download_order_image i o) as [o'|]; [|reflexivity].
      destruct fa; [now destruct (download_images_loop sel (S i + length A) B)|reflexivity].
    + destruct fa; [now destruct (download_images_loop sel (S i + length A) B)|reflexivity].
Qed.

Lemma download_order_image_idem i o o' :
  download_order_image i o = Some o' -> download_order_image i o' = Some o'.
Proof.
  unfold download_order_image.
  destruct (get_default o "Image" (VStr "")) as [| | |url] eqn:G; try discriminate.
  destruct (String.eqb (py_strip url) "") eqn:E.
  - intros [= <-]. now rewrite G, E.
  - destruct (cached_image_url (py_strip url)) as [c|] eqn:C;
      [destruct (cache_file_exists i (py_strip url)) eqn:X|]; intros [= <-].
    + unfold get_default in *. rewrite lookup_insert_ne by discriminate.
      rewrite G, E, C, X. now rewrite insert_insert_eq.
    + now rewrite G, E, C, X.
    + now rewrite G, E, C.
Qed.

Lemma download_images_loop_idem i cache :
  download_images_loop (fun _ => true) i (download_images_loop (fun _ => true) i cache).1 =
  download_images_loop (fun _ => true) i cache.
Proof.
  revert i. induction cache as [|o cache IH]; intros i; simpl; [reflexivity|].
  destruct (download_order_image i o) as [o'|] eqn:D.
  - specialize (IH (S i)).
    destruct (download_images_loop (fun _ => true) (S i) cache) as [rest fin] eqn:L.
    simpl in *. now rewrite (download_order_image_idem _ _ _ D), IH.
  - simpl. now rewrite D.
Qed.

Lemma download_images_loop_photo_only i cache :
  Forall2 photo_only cache (download_images_loop (fun _ => true) i cache).1.
Proof.
  eapply Forall2_impl; [apply download_images_loop_spec|].
  intros o o' [->|[_ H]]; [apply photo_only_refl|exact H].
Qed.

Lemma Forall2_photo_only_refl (l : list order) : Forall2 photo_only l l.
Proof. induction l; constructor; auto using photo_only_refl. Qed.

(** Whether the image step of an order raises is a matter of its "Image"
    alone. *)
Lemma download_order_image_None i o :
  download_order_image i o = None <->
  forall url, get_default o "Image" (VStr "") <> VStr url.
Proof.
  unfold download_order_image.
  destruct (get_default o "Image" (VStr "")) as [| | |url].
  1-3: split; [intros _ url; discriminate|reflexivity].
  split; [|intros H; now destruct (H url)]. intros H.
  destruct (String.eqb (py_strip url) ""); [discriminate|].
  destruct (cached_image_url (py_strip url)); [|discriminate].
  destruct (cache_file_exists i (py_strip url)); discriminate.
Qed.

End ImageLoop.

Lemma download_images_loop_finished_same {env : PyEnv} (first second : ImageRun) i l l' :
  Forall2 same_but_photo l l' ->
  (download_images_loop (run := first) (fun _ => true) i l).2
  = (download_images_loop (run := second) (fun _ => true) i l').2.
Proof.
  intros H. revert i. induction H as [|o o' l l' Ho _ IH]; intros i; [reflexivity|].
  cbn [download_images_loop].
  assert (get_default o' "Image" (VStr "") = get_default o "Image" (VStr "")) as G
    by (unfold get_default; now rewrite (Ho "Image") by discriminate).
  destruct (download_order_image (run := first) i o) as [x|] eqn:D1;
    destruct (download_order_image (run := second) i o') as [y|] eqn:D2.
  - specialize (IH (S i)).
    destruct (download_images_loop (run := first) _ (S i) l),
             (download_images_loop (run := second) _ (S i) l'). exact IH.
  - exfalso. pose proof (proj1 (download_order_image_None (run := second) i o') D2) as N2.
    assert (download_order_image (run := first) i o = None) as N
      by (apply download_order_image_None; intros url; rewrite <- G; apply N2).
    congruence.
  - exfalso. pose proof (proj1 (download_order_image_None (run := first) i o) D1) as N1.
    assert (download_order_image (run := second) i o' = None) as N
      by (apply download_order_image_None; intros url; rewrite G; apply N1).
    congruence.
  - reflexivity.
Qed.

Section TwoMerges.
Context {env : PyEnv}.
Variables (first second : ImageRun).
Variables (dl : bool) (new : list order) (st : cache_state).
Hypothesis running : startup_mode = false.
Hypothesis coherent : Forall coherent_ids (limit_orders new).

Local Notation rows := (first_rows [] (limit_orders new)).
Local Notation F1 := (map (with_edits (orders_cache st)) (first_rows [] (limit_orders new))).
Local Notation F2 :=
  (map (fun o => preserve_editable_fields o (with_edits (orders_cache st) o))
     (first_rows [] (limit_orders new))).
Local Notation O1 :=
  (missing_from (map sheet_transaction (first_rows [] (limit_orders new))) (orders_cache st)).

(** A call of [update_cache] in terms of the merged rows. *)
Lemma update_cache_running (run : ImageRun) s :
  update_cache (run := run) dl (Some new) s =
  let merged := merged_cache (orders_cache s) (limit_orders new) in
  let '(cache', finished) :=
    if dl then download_images_loop (run := run) (fun _ => true) 0 merged
    else (merged, true) in
  if finished then (mk_cache cache' (Some cache'), Returned VNone)
  else (mk_cache cache' (cache_file s), Raised).
Proof.
  unfold update_cache, download_order_images. rewrite running. cbv zeta.
  destruct dl; [|reflexivity].
  destruct (download_images_loop _ 0 _) as [c fin]. now destruct fin.
Qed.

Local Notation image_pass run merged :=
  (if dl then download_images_loop (run := run) (fun _ => true) 0 merged else (merged, true)).

Local Notation update_cache_parts run s :=
  (mk_cache (image_pass run (merged_cache (orders_cache s) (limit_orders new))).1
     (if (image_pass run (merged_cache (orders_cache s) (limit_orders new))).2
      then Some (image_pass run (merged_cache (orders_cache s) (limit_orders new))).1
      else cache_file s),
   if (image_pass run (merged_cache (orders_cache s) (limit_orders new))).2
   then Returned VNone else Raised).

Lemma update_cache_parts_eq (run : ImageRun) s :
  update_cache (run := run) dl (Some new) s = update_cache_parts run s.
Proof.
  rewrite update_cache_running. cbv zeta.
  destruct dl; [|reflexivity].
  destruct (download_images_loop _ 0 _) as [c fin]. now destruct fin.
Qed.

(** The cache the first call leaves, and what the second call merges. *)
Lemma once_then_merged :
  exists images tail,
    orders_cache (update_cache (run := first) dl (Some new) st).1 = images ++ tail
    /\ Forall2 photo_only F1 images /\ Forall2 photo_only O1 tail
    /\ merged_cache (images ++ tail) (limit_orders new) = F2 ++ tail.
Proof.
  assert (exists images tail,
             orders_cache (update_cache (run := first) dl (Some new) st).1 = images ++ tail
             /\ Forall2 photo_only F1 images /\ Forall2 photo_only O1 tail)
    as (images & tail & E & P1 & P2).
  { rewrite update_cache_running. cbv zeta. rewrite merged_cache_eq.
    destruct dl.
    - pose proof (download_images_loop_photo_only (run := first) 0 (F1 ++ O1)) as P.
      destruct (download_images_loop _ 0 (F1 ++ O1)) as [c fin]. cbn [fst] in P.
      apply Forall2_app_inv_l in P as (images & tail & P1 & P2 & ->).
      exists images, tail. now destruct fin.
    - exists F1, O1. split; [reflexivity|]. split; apply Forall2_photo_only_refl. }
  exists images, tail. split; [exact E|]. split; [exact P1|]. split; [exact P2|].
  now apply second_merge.
Qed.

Hypothesis settled_rows : Forall (settled (orders_cache st)) rows.

Lemma merged_twice images tail :
  Forall2 photo_only F1 images -> Forall2 photo_only O1 tail ->
  merged_cache (images ++ tail) (limit_orders new) = F1 ++ tail.
Proof.
  intros P1 P2. rewrite (second_merge _ _ coherent images tail P1 P2).
  now rewrite settled_rows_again.
Qed.

(** The second call in the run of the first. *)
Lemma update_cache_twice :
  update_cache (run := first) dl (Some new) (update_cache (run := first) dl (Some new) st).1
  = update_cache (run := first) dl (Some new) st.
Proof.
  rewrite (update_cache_running first (update_cache (run := first) dl (Some new) st).1).
  rewrite (update_cache_running first st). cbv zeta.
  rewrite (merged_cache_eq (orders_cache st)).
  destruct dl.
  - rewrite (download_images_loop_app (run := first) _ 0 F1 O1).
    pose proof (download_images_loop_photo_only (run := first) 0 F1) as PF.
    pose proof (download_images_loop_photo_only (run := first) (0 + length F1) O1) as PO.
    pose proof (download_images_loop_idem (run := first) (0 + length F1) O1) as IO.
    destruct (download_images_loop (fun _ => true) 0 F1) as [A' fa] eqn:LF.
    destruct (download_images_loop (fun _ => true) (0 + length F1) O1) as [B' fb] eqn:LO.
    cbn [fst] in PF, PO, IO.
    destruct fa.
    + assert (orders_cache (if fb then (mk_cache (A' ++ B') (Some (A' ++ B')), Returned VNone)
                            else (mk_cache (A' ++ B') (cache_file st), Raised)).1
              = A' ++ B') as -> by now destruct fb.
      rewrite (merged_twice A' B' PF PO).
      rewrite (download_images_loop_app (run := first) _ 0 F1 B'), LF, IO.
      now destruct fb.
    + cbn [fst orders_cache].
      rewrite (merged_twice A' O1 PF (Forall2_photo_only_refl O1)).
      now rewrite (download_images_loop_app (run := first) _ 0 F1 O1), LF.
  - cbn [fst orders_cache].
    now rewrite (merged_twice F1 O1 (Forall2_photo_only_refl F1) (Forall2_photo_only_refl O1)).
Qed.

(** The second call in a run of its own. *)
Lemma update_cache_twice_runs :
  let once := update_cache (run := first) dl (Some new) st in
  let twice := update_cache (run := second) dl (Some new) once.1 in
  Forall2 same_but_photo (orders_cache once.1) (orders_cache twice.1)
  /\ twice.2 = once.2
  /\ option_Forall2 (Forall2 same_but_photo) (cache_file once.1) (cache_file twice.1).
Proof.
  intros once twice.
  destruct once_then_merged as (images & tail & E & P1 & P2 & _). fold once in E.
  assert (twice = update_cache_parts second once.1) as Et
    by (subst twice; apply update_cache_parts_eq).
  assert (once = update_cache_parts first st) as Eo
    by (subst once; apply update_cache_parts_eq).
  clearbody once twice. subst twice.
  rewrite E, (merged_twice images tail P1 P2).
  assert (Forall2 same_but_photo (images ++ tail) (F1 ++ tail)) as S1.
  { apply Forall2_app; [apply Forall2_same_sym; now apply Forall2_photo_same
                       |apply Forall2_same_refl]. }
  assert (Forall2 same_but_photo (F1 ++ O1) (F1 ++ tail)) as S2.
  { apply Forall2_app; [apply Forall2_same_refl|now apply Forall2_photo_same]. }
  assert (once.2 = if (image_pass first (F1 ++ O1)).2 then Returned VNone else Raised) as Eo2.
  { rewrite Eo. now rewrite merged_cache_eq. }
  assert (cache_file once.1 = if (image_pass first (F1 ++ O1)).2
                              then Some (images ++ tail) else cache_file st) as Eo3.
  { rewrite <- E, Eo. now rewrite merged_cache_eq. }
  rewrite Eo2, Eo3. clear Eo Eo2 Eo3 E.
  assert ((image_pass second (F1 ++ tail)).2 = (image_pass first (F1 ++ O1)).2) as ->.
  { destruct dl; [|reflexivity].
    symmetry. now apply download_images_loop_finished_same. }
  assert (Forall2 same_but_photo (F1 ++ tail) (image_pass second (F1 ++ tail)).1) as S3.
  { destruct dl; [|apply Forall2_same_refl].
    apply Forall2_photo_same, download_images_loop_photo_only. }
  pose proof (Forall2_same_trans _ _ _ S1 S3) as S.
  cbn [fst snd orders_cache cache_file].
  split; [exact S|]. split; [reflexivity|].
  destruct (image_pass first (F1 ++ O1)).2; [now constructor|].
  destruct (cache_file st); constructor. apply Forall2_same_refl.
Qed.

End TwoMerges.

Section TwoMergesWithoutImages.
Context {env : PyEnv}.
Variables (first second : ImageRun) (new : list order) (st : cache_state).
Hypothesis running : startup_mode = false.
Hypothesis coherent : Forall coherent_ids (limit_orders new).

Lemma update_cache_false_run s :
  update_cache (run := second) false (Some new) s
  = update_cache (run := first) false (Some new) s.
Proof. reflexivity. Qed.

Lemma update_cache_twice_only_if :
  update_cache (run := second) false (Some new)
    (update_cache (run := first) false (Some new) st).1
  = update_cache (run := first) false (Some new) st ->
  Forall (settled (orders_cache st)) (first_rows [] (limit_orders new)).
Proof.
  destruct (once_then_merged first false new st running coherent)
    as (images & tail & E & P1 & P2 & M).
  rewrite update_cache_false_run.
  rewrite (update_cache_running false new running first
             (update_cache (run := first) false (Some new) st).1).
  cbv zeta. rewrite E, M.
  rewrite (update_cache_running false new running first st) in *. cbv zeta in *.
  rewrite (merged_cache_eq (orders_cache st)) in *. cbn [fst orders_cache] in E.
  intros H. injection H as H _.
  apply app_inj_1 in H as [H _]; [|now rewrite !length_map].
  now apply again_rows_settled.
Qed.

End TwoMergesWithoutImages.

(** C3 fails as stated.  On an empty cache, a second full replace with the
    same one-row batch adds the backend names of the editable fields to the
    row; with a row whose two names of Produce disagree it resets the flag;
    with a row whose two transaction keys differ it duplicates the row. *)
Lemma C3_second_merge_differs :
  let merge batch st :=
    (update_cache (env := sample_env) (run := no_downloads) false (Some batch) st).1 in
  let empty := mk_cache [] None in
  orders_cache (merge [sheet_default_row] empty) = [sheet_default_row]
  /\ orders_cache (merge [sheet_default_row] (merge [sheet_default_row] empty))
     = [<["Kesildi" := VStr "FALSE"]> (<["Hazır" := VStr "FALSE"]>
          (<["Gönderildi" := VStr "FALSE"]> (<["importantnote" := VStr ""]>
             sheet_default_row)))]
  /\ merge [sheet_default_row] (merge [sheet_default_row] empty)
     <> merge [sheet_default_row] empty
  /\ map get_order_stage_flags (orders_cache (merge [disagreeing_order] empty))
     = [(true, false, false)]
  /\ map get_order_stage_flags
       (orders_cache (merge [disagreeing_order] (merge [disagreeing_order] empty)))
     = [(false, false, false)]
  /\ orders_cache (merge [two_id_row] empty) = [two_id_row]
  /\ orders_cache (merge [two_id_row] (merge [two_id_row] empty)) = [two_id_row; two_id_row].
Proof.
  repeat split; try (vm_compute; reflexivity).
  intros H. apply (f_equal (fun s => map (fun x : order => x !! "Kesildi") (orders_cache s))) in H.
  vm_compute in H. discriminate.
Qed.

(** With the image step, a second full replace can also differ in a photo:
    a download that failed in the first call and goes through in the second
    sets the photo then. *)
Example second_merge_retries_download :
  let once := update_cache (env := drive_env) (run := no_downloads) true (Some [drive_row])
                (mk_cache [] None) in
  let twice := update_cache (env := drive_env) (run := all_downloaded) true (Some [drive_row])
                 once.1 in
  settled [] drive_row
  /\ orders_cache once.1 = [drive_row]
  /\ orders_cache twice.1
     = [<["photo" := VStr "/images/5d41402abc4b2a76b9719d911017c592.jpg"]> drive_row].
Proof. repeat split; vm_compute; reflexivity. Qed.

(** C3, amended.  Let every fetched row name one transaction id.  If the
    rows the merge takes from the batch are settled in the cache, a second
    full replace with the same batch gives the rows of the first one, in
    their order, and ends as the first one did: no row is added, dropped or
    duplicated and no field but "photo" differs, in memory and on disk.
    When the image step is off, or answers as it did in the first call,
    the second call leaves memory, disk and outcome exactly as the first
    one did.  With the image step off the condition on the rows is also
    necessary. *)
Theorem C3_full_replace_idempotent (env : PyEnv) (first second : ImageRun) (dl : bool)
    (batch : list order) (st : cache_state) :
  Forall coherent_ids batch ->
  let rows := first_rows [] (limit_orders batch) in
  let once := update_cache (run := first) dl (Some batch) st in
  let twice := update_cache (run := second) dl (Some batch) once.1 in
  (Forall (settled (orders_cache st)) rows ->
     update_cache (run := first) dl (Some batch) once.1 = once
     /\ (dl = false -> twice = once)
     /\ Forall2 same_but_photo (orders_cache once.1) (orders_cache twice.1)
     /\ twice.2 = once.2
     /\ option_Forall2 (Forall2 same_but_photo) (cache_file once.1) (cache_file twice.1))
  /\ (dl = false -> startup_mode = false -> twice = once ->
      Forall (settled (orders_cache st)) rows).
Proof.
  intros Hco rows once twice.
  assert (Forall coherent_ids (limit_orders batch)) as Hco'.
  { rewrite List.Forall_forall in *. intros o Ho. apply limit_orders_In in Ho. auto. }
  destruct startup_mode eqn:S.
  - assert (forall (r : ImageRun) s, update_cache (run := r) dl (Some batch) s
                                     = (s, Returned VNone)) as E
      by (intros r s; unfold update_cache; now rewrite S).
    subst once twice. rewrite !E. cbn [fst snd]. split; [|discriminate].
    intros _. split; [reflexivity|]. split; [reflexivity|].
    split; [apply Forall2_same_refl|]. split; [reflexivity|].
    destruct (cache_file st); constructor. apply Forall2_same_refl.
  - split.
    + intros Hs.
      pose proof (update_cache_twice first dl batch st S Hco' Hs) as Same.
      destruct (update_cache_twice_runs first second dl batch st S Hco' Hs) as (A & B & C).
      split; [exact Same|]. split; [|auto].
      intros ->. subst twice once.
      rewrite (update_cache_false_run first second batch). exact Same.
    + intros -> _ H. subst twice once.
      now apply (update_cache_twice_only_if first second batch st S Hco').
Qed.

(** C3 at a batch of rows that carry the frontend names only, one of them
    twice, and a row with a photo URL, merged into a cache that holds an
    edited order of the same id and a row without identifier; the image step
    runs, and its download fails in the first call and goes through in the
    second. *)
Lemma C3_full_replace_idempotent_witness :
  let batch := [sheet_renamed_row; drive_row; sheet_renamed_row] in
  let st := mk_cache [edited_order; row_without_id] None in
  let once := update_cache (env := drive_env) (run := no_downloads) true (Some batch) st in
  let twice := update_cache (env := drive_env) (run := all_downloaded) true (Some batch)
                 once.1 in
  update_cache (env := drive_env) (run := no_downloads) true (Some batch) once.1 = once
  /\ (true = false -> twice = once)
  /\ Forall2 same_but_photo (orders_cache once.1) (orders_cache twice.1)
  /\ twice.2 = once.2
  /\ option_Forall2 (Forall2 same_but_photo) (cache_file once.1) (cache_file twice.1).
Proof.
  intros batch st.
  apply (C3_full_replace_idempotent drive_env no_downloads all_downloaded true batch st).
  - repeat constructor; intros _; reflexivity.
  - repeat constructor; unfold settled; vm_compute; reflexivity.
Defined.

(** ** Stable descending sort *)

Section SortFacts.
Context {K A : Type} `{EqDecision K} (ltb : K -> K -> bool).
Hypothesis ltb_irrefl : forall a, ltb a a = false.
Hypothesis ltb_asym : forall a b, ltb a b = true -> ltb b a = false.
Hypothesis geb_trans : forall a b c, ltb a b = false -> ltb b c = false -> ltb a c = false.

Lemma insert_desc_perm (x : K * A) l : Permutation (insert_desc ltb x l) (x :: l).
Proof.
  induction l as [|y l IH]; simpl; [reflexivity|].
  destruct (ltb x.1 y.1); [|reflexivity].
  rewrite IH. apply perm_swap.
Qed.

Lemma sort_desc_perm (l : list (K * A)) : Permutation (sort_desc ltb l) l.
Proof.
  induction l as [|x l IH]; simpl; [reflexivity|].
  rewrite insert_desc_perm. now apply perm_skip.
Qed.

Lemma insert_desc_sorted (x : K * A) l :
  descending ltb l -> descending ltb (insert_desc ltb x l).
Proof.
  unfold descending. induction l as [|y l IH]; intros Hl; simpl.
  - repeat constructor.
  - inversion Hl as [|? ? Hl' Hy]; subst.
    destruct (ltb x.1 y.1) eqn:E.
    + constructor; [now apply IH|].
      apply List.Forall_forall. intros z Hz.
      apply (Permutation_in _ (insert_desc_perm x l)) in Hz. destruct Hz as [<-|Hz].
      * now apply ltb_asym.
      * rewrite List.Forall_forall in Hy. now apply Hy.
    + constructor; [exact Hl|]. constructor; [exact E|].
      apply List.Forall_forall. intros z Hz. rewrite List.Forall_forall in Hy.
      eapply geb_trans; [exact E|now apply Hy].
Qed.

Lemma sort_desc_sorted (l : list (K * A)) : descending ltb (sort_desc ltb l).
Proof.
  induction l as [|x l IH]; simpl; [constructor|]. now apply insert_desc_sorted.
Qed.

Lemma insert_desc_with_key k (x : K * A) l :
  with_key k (insert_desc ltb x l) = with_key k (x :: l).
Proof.
  unfold with_key. induction l as [|y l IH]; simpl; [reflexivity|].
  destruct (ltb x.1 y.1) eqn:E; [|reflexivity].
  simpl. rewrite IH. simpl.
  destruct (bool_decide (x.1 = k)) eqn:X, (bool_decide (y.1 = k)) eqn:Y; try reflexivity.
  apply bool_decide_eq_true_1 in X, Y. rewrite X, Y, ltb_irrefl in E. discriminate.
Qed.

Lemma sort_desc_stable k (l : list (K * A)) : with_key k (sort_desc ltb l) = with_key k l.
Proof.
  induction l as [|x l IH]; simpl; [reflexivity|].
  rewrite insert_desc_with_key. unfold with_key in *. simpl. now rewrite IH.
Qed.

End SortFacts.

(** ** C9: the latest-20 quick sync *)

Lemma N_ltb_irrefl a : N.ltb a a = false.
Proof. lia. Qed.

Lemma N_ltb_asym a b : N.ltb a b = true -> N.ltb b a = false.
Proof. lia. Qed.

Lemma N_geb_trans a b c : N.ltb a b = false -> N.ltb b c = false -> N.ltb a c = false.
Proof. lia. Qed.

(** C9 fails as stated: a date text without "/" and "." parses under no
    format, yet its row gets the current time as key and is sorted first,
    ahead of a dated row. *)
Lemma C9_unparsable_date_sorts_newest :
  let now := us_2026_11_03_noon in
  strptime (PyEnv := dated_env) "garbage" "%m/%d/%Y" = None
  /\ strptime (PyEnv := dated_env) "garbage" "%d.%m.%Y" = None
  /\ get_order_date (env := dated_env) now dated_row = us_2024_02_01
  /\ get_order_date (env := dated_env) now undated_row = now
  /\ now <> datetime_min
  /\ sorted_by_date (env := dated_env) (fun _ => now) [dated_row; undated_row]
     = [undated_row; dated_row].
Proof. repeat split; try (vm_compute; reflexivity). discriminate. Qed.

Lemma Forall2_In_l {A B} (R : A -> B -> Prop) l l' x :
  Forall2 R l l' -> In x l -> exists y, In y l' /\ R x y.
Proof.
  induction 1 as [|a b l l' Hab _ IH]; simpl; [tauto|].
  intros [<-|H]; [exists b; auto|]. destruct (IH H) as (y & Hy & Ry). exists y. auto.
Qed.

Lemma id_in_filter_false x (p : order -> bool) l :
  id_in x (map cache_transaction l) = false ->
  id_in x (map cache_transaction (List.filter p l)) = false.
Proof.
  unfold id_in. induction l as [|a l IH]; simpl; [auto|].
  intros H. apply orb_false_iff in H as [H1 H2].
  destruct (p a); simpl; [rewrite H1|]; auto.
Qed.

Section QuickSync.
Context {env : PyEnv} {run : ImageRun}.

Lemma get_order_date_min now o : (datetime_min <= get_order_date now o)%N.
Proof. unfold datetime_min. lia. Qed.

Lemma sync_latest_result clock new st :
  Forall2 photo_only (synced_cache clock (orders_cache st) (limit_orders new))
    (orders_cache (sync_latest_orders clock (Some new) st).1).
Proof.
  unfold sync_latest_orders.
  pose proof (download_order_images_spec
                (synced_cache clock (orders_cache st) (limit_orders new))) as D.
  destruct (download_order_images _) as [c fin]. simpl in D. now destruct fin.
Qed.

End QuickSync.

(** C9, amended.  The quick sync pairs every fetched row with a date key:
    [datetime.min] when the row has no date text or the text has a "/" or a
    "." but does not parse under the format tried for it, the parsed date
    when it does, and the current time when the text has neither
    separator.  It sorts the rows by that key in descending order, rows
    with equal keys staying in fetched order, so the rows keyed
    [datetime.min] come last; it takes the first 20 and gives each of them
    that has a transaction id the edits of the cached row of that id.  The
    resulting cache holds these rows and every cached row with a
    transaction id that is not among those of the 20 (each up to the
    "photo" the image step may set), and no row without transaction id. *)
Theorem C9_latest_orders_sync (env : PyEnv) (run : ImageRun) (clock : nat -> naive_datetime)
    (batch : list order) (st : cache_state) :
  let new_orders := limit_orders batch in
  let sorted := sort_desc N.ltb (dated_rows clock new_orders) in
  let latest_20 := take 20 (map snd sorted) in
  let result := orders_cache (sync_latest_orders clock (Some batch) st).1 in
  (forall now o, py_truthy (get o "Data") = false -> get_order_date now o = datetime_min)
  /\ (forall now o v,
        o !! "Data" = Some v -> py_truthy v = true ->
        let date_str := py_strip (py_str v) in
        get_order_date now o =
        if contains_char "/" date_str then default datetime_min (strptime date_str "%m/%d/%Y")
        else if contains_char "." date_str
             then default datetime_min (strptime date_str "%d.%m.%Y")
             else now)
  /\ (forall now o, (datetime_min <= get_order_date now o)%N)
  /\ Permutation sorted (dated_rows clock new_orders)
  /\ descending N.ltb sorted
  /\ (forall k, with_key k sorted = with_key k (dated_rows clock new_orders))
  /\ sorted_by_date clock new_orders = map snd sorted
  /\ (forall o, In o latest_20 -> has_transaction o = true ->
        exists o', In o' result /\ photo_only (with_last_edits (orders_cache st) o) o')
  /\ (forall e, In e (orders_cache st) -> has_transaction e = true ->
        id_in (cache_transaction e) (map cache_transaction latest_20) = false ->
        exists e', In e' result /\ photo_only e e')
  /\ (forall x, In x result -> has_transaction x = true).
Proof.
  intros new_orders sorted latest_20 result.
  split; [|split; [|split; [|split; [|split; [|split; [|split; [|split; [|split]]]]]]]].
  - intros now o H. unfold get_order_date, get in *.
    destruct (o !! "Data") as [v|]; [|reflexivity]. simpl in H. now rewrite H.
  - intros now o v Hv Tv. unfold get_order_date. now rewrite Hv, Tv.
  - intros now o. apply get_order_date_min.
  - apply sort_desc_perm.
  - apply sort_desc_sorted; [exact N_ltb_asym|exact N_geb_trans].
  - intros k. apply sort_desc_stable. exact N_ltb_irrefl.
  - reflexivity.
  - intros o Ho To.
    destruct (synced_cache_eq clock (orders_cache st) new_orders) as (ids & Hids & E).
    apply (Forall2_In_l _ _ _ _ (sync_latest_result clock batch st)).
    fold new_orders. rewrite E. apply in_or_app. left. apply in_map.
    apply filter_In. split; [exact Ho|exact To].
  - intros e He Te Hn.
    destruct (synced_cache_eq clock (orders_cache st) new_orders) as (ids & Hids & E).
    apply (Forall2_In_l _ _ _ _ (sync_latest_result clock batch st)).
    fold new_orders. rewrite E. apply in_or_app. right. apply missing_from_In.
    split; [exact He|]. split; [exact Te|]. rewrite Hids.
    now apply id_in_filter_false.
  - intros x Hx. pose proof (sync_latest_has_transaction clock batch st) as F.
    rewrite List.Forall_forall in F. now apply F.
Qed.

(** ** C7: the order of the unified view *)

Lemma string_ltb_leb a b : String.ltb a b = negb (String.leb b a).
Proof.
  unfold String.ltb, String.leb. rewrite (String.compare_antisym a b).
  now destruct (String.compare b a).
Qed.

Lemma string_ltb_irrefl a : String.ltb a a = false.
Proof.
  rewrite string_ltb_leb. apply negb_false_iff.
  pose proof (@reflexivity _ String.le _ a) as H. unfold String.le in H.
  now apply Is_true_true in H.
Qed.

Lemma string_ltb_asym a b : String.ltb a b = true -> String.ltb b a = false.
Proof.
  unfold String.ltb. rewrite (String.compare_antisym a b).
  now destruct (String.compare b a).
Qed.

Lemma string_geb_trans a b c :
  String.ltb a b = false -> String.ltb b c = false -> String.ltb a c = false.
Proof.
  rewrite !string_ltb_leb, !negb_false_iff. intros H1 H2.
  apply Is_true_true. apply Is_true_true in H1, H2.
  exact (@transitivity _ String.le _ c b a H2 H1).
Qed.

Lemma insert_desc_map_keys {K K' A} (g : K -> K') (ltb : K -> K -> bool)
    (ltb' : K' -> K' -> bool) (x : K * A) l :
  (forall a b, ltb' (g a) (g b) = ltb a b) ->
  insert_desc ltb' (g x.1, x.2) (map (fun y => (g y.1, y.2)) l) =
  map (fun y => (g y.1, y.2)) (insert_desc ltb x l).
Proof.
  intros H. induction l as [|y l IH]; simpl; [reflexivity|].
  rewrite H. destruct (ltb x.1 y.1); simpl; [now rewrite IH|reflexivity].
Qed.

Lemma sort_desc_map_keys {K K' A} (g : K -> K') (ltb : K -> K -> bool)
    (ltb' : K' -> K' -> bool) (l : list (K * A)) :
  (forall a b, ltb' (g a) (g b) = ltb a b) ->
  sort_desc ltb' (map (fun y => (g y.1, y.2)) l) =
  map (fun y => (g y.1, y.2)) (sort_desc ltb l).
Proof.
  intros H. induction l as [|x l IH]; simpl; [reflexivity|].
  rewrite IH. now apply insert_desc_map_keys.
Qed.

Lemma app_split_at {A} (X Y pre post : list A) s :
  X ++ Y = pre ++ s :: post -> ~ In s X ->
  exists mid, Y = mid ++ s :: post /\ pre = X ++ mid.
Proof.
  revert pre. induction X as [|x X IH]; intros pre E Hs; simpl in *.
  - exists pre. auto.
  - destruct pre as [|p pre]; simpl in E; injection E as -> E.
    + exfalso. apply Hs. now left.
    + destruct (IH pre E) as (mid & -> & ->); [tauto|]. now exists mid.
Qed.

Lemma string_keyed_intro item s : sort_key item = VStr s -> string_keyed item.
Proof. intros H. unfold string_keyed, string_key. now rewrite H. Qed.

Lemma comparable_string_keys items :
  Forall string_keyed items -> comparable_keys (map sort_key items) = true.
Proof.
  intros H. unfold comparable_keys. apply forallb_forall. intros a Ha.
  apply forallb_forall. intros b Hb. apply bool_decide_eq_true_2.
  apply in_map_iff in Ha as (x & <- & Hx), Hb as (y & <- & Hy).
  rewrite List.Forall_forall in H. rewrite (H x Hx), (H y Hy). simpl. eauto.
Qed.

Lemma decorate_string_keys items :
  Forall string_keyed items ->
  map (fun item => (sort_key item, item)) items =
  map (fun y : string * order => (VStr y.1, y.2)) (map (fun item => (string_key item, item)) items).
Proof.
  intros H. rewrite map_map. apply map_ext_in. intros x Hx. simpl.
  rewrite List.Forall_forall in H. now rewrite (H x Hx).
Qed.

Lemma py_sort_reverse_strings items :
  Forall string_keyed items ->
  py_sort_reverse items =
  Some (map snd (sort_desc String.ltb (map (fun item => (string_key item, item)) items))).
Proof.
  intros H. unfold py_sort_reverse.
  destruct (length items <? 2)%nat eqn:L.
  - destruct items as [|x [|y items]]; simpl in *; try reflexivity. discriminate.
  - rewrite (comparable_string_keys items H), (decorate_string_keys items H).
    rewrite (sort_desc_map_keys VStr String.ltb) by reflexivity.
    now rewrite map_map.
Qed.

Section SortedView.
Variable items : list order.

Local Notation decorated := (map (fun item => (string_key item, item)) items).
Local Notation sorted := (sort_desc String.ltb decorated).

Lemma sorted_keys : Forall (fun p : string * order => p.1 = string_key p.2) sorted.
Proof.
  apply List.Forall_forall. intros p Hp.
  apply (Permutation_in _ (sort_desc_perm String.ltb decorated)) in Hp.
  apply in_map_iff in Hp as (x & <- & _). reflexivity.
Qed.

Lemma sorted_view_perm : Permutation (map snd sorted) items.
Proof.
  rewrite (sort_desc_perm String.ltb decorated : Permutation sorted decorated).
  rewrite map_map. simpl. now rewrite map_id.
Qed.

Lemma sorted_view_descending :
  StronglySorted (fun x y => String.ltb (string_key x) (string_key y) = false)
    (map snd sorted).
Proof.
  pose proof (sort_desc_sorted String.ltb string_ltb_asym string_geb_trans decorated) as S.
  pose proof sorted_keys as Ks. unfold descending in S.
  induction S as [|p l Hl IH Hp]; simpl; [constructor|].
  inversion Ks as [|? ? Kp Kl]; subst. constructor; [now apply IH|].
  apply List.Forall_map. rewrite List.Forall_forall in *.
  intros q Hq. rewrite <- Kp, <- (Kl q Hq). now apply Hp.
Qed.

Lemma keyed_map_snd k (l : list (string * order)) :
  Forall (fun p : string * order => p.1 = string_key p.2) l ->
  keyed k (map snd l) = map snd (with_key k l).
Proof.
  unfold keyed, with_key. induction 1 as [|p l Hp _ IH]; simpl; [reflexivity|].
  rewrite <- Hp. destruct (bool_decide (p.1 = k)); simpl; now rewrite IH.
Qed.

Lemma sorted_view_stable k : keyed k (map snd sorted) = keyed k items.
Proof.
  rewrite (keyed_map_snd k sorted sorted_keys).
  rewrite (sort_desc_stable String.ltb string_ltb_irrefl).
  rewrite <- keyed_map_snd.
  - rewrite map_map. simpl. now rewrite map_id.
  - apply List.Forall_map, List.Forall_forall. now intros.
Qed.

End SortedView.

Lemma py_or_str_is_str s : exists k, py_or (VStr s) (VStr "") = VStr k.
Proof. unfold py_or. destruct (py_truthy (VStr s)); eauto. Qed.

Section ViewKeys.
Context {env : PyEnv}.

Lemma transform_order_string_keyed u o : string_keyed (transform_order u o).
Proof.
  unfold transform_order.
  destruct (py_or_str_is_str
              (determine_sort_key u
                 (<["isManual" := VBool false]> (list_to_map (transformed_fields o)))))
    as [k Hk].
  apply (string_keyed_intro _ k). unfold sort_key, get.
  rewrite lookup_insert_eq. exact Hk.
Qed.

Lemma setdefault_lookup_ne k k' v (d : order) :
  k <> k' -> setdefault k v d !! k' = d !! k'.
Proof.
  intros N. unfold setdefault. destruct (d !! k); [reflexivity|].
  now rewrite lookup_insert_ne.
Qed.

(** The sort key of a manual order in the view. *)
Lemma manual_payload_sort_key u (m : order) :
  sort_key (manual_payload u m) =
  match m !! "_sortKey" with
  | Some v => py_or v (VStr "")
  | None => py_or (py_or (get m "created_at") (VStr (isoformat u))) (VStr "")
  end.
Proof.
  unfold sort_key, manual_payload, get.
  set (entry := setdefault "isManual" (VBool true) m).
  assert (entry !! "_sortKey" = m !! "_sortKey") as E1
    by (apply setdefault_lookup_ne; discriminate).
  assert (entry !! "created_at" = m !! "created_at") as E2
    by (apply setdefault_lookup_ne; discriminate).
  unfold setdefault at 1. rewrite E1, E2.
  destruct (m !! "_sortKey") as [v|] eqn:K.
  - now rewrite E1.
  - now rewrite lookup_insert_eq.
Qed.

Lemma placeable_or v d :
  placeable_key v = true -> exists k, py_or v (VStr d) = VStr k.
Proof.
  unfold py_or, placeable_key. destruct v as [|b|z|s]; cbn [py_truthy]; intros H.
  - eauto.
  - apply negb_true_iff in H. rewrite H. eauto.
  - apply negb_true_iff in H. rewrite H. eauto.
  - destruct (negb (String.eqb s "")); eauto.
Qed.

Lemma unplaceable_or v d :
  placeable_key v = false -> py_or v d = v /\ forall s, py_lt v (VStr s) = None.
Proof.
  unfold py_or, placeable_key. destruct v as [|b|z|s]; cbn [py_truthy]; intros H; try discriminate.
  - apply negb_false_iff in H. rewrite H. auto.
  - apply negb_false_iff in H. rewrite H. auto.
Qed.

Lemma manual_payload_string_keyed u m :
  sortable_manual m = true -> string_keyed (manual_payload u m).
Proof.
  intros H.
  assert (exists k, sort_key (manual_payload u m) = VStr k) as [k Hk];
    [|now apply (string_keyed_intro _ k)].
  rewrite manual_payload_sort_key. unfold sortable_manual in H.
  destruct (m !! "_sortKey") as [v|].
  - exact (placeable_or v "" H).
  - destruct (placeable_or _ (isoformat u) H) as [k ->]. apply py_or_str_is_str.
Qed.

(** The key of a manual order that cannot be placed is a number or a
    truth value. *)
Lemma manual_payload_other_key u m :
  sortable_manual m = false ->
  forall s, py_lt (sort_key (manual_payload u m)) (VStr s) = None.
Proof.
  intros H s. rewrite manual_payload_sort_key. unfold sortable_manual in H.
  destruct (m !! "_sortKey") as [v|].
  - destruct (unplaceable_or v (VStr "") H) as [-> L]. apply L.
  - destruct (unplaceable_or _ (VStr (isoformat u)) H) as [-> L].
    destruct (unplaceable_or _ (VStr "") H) as [-> _]. apply L.
Qed.

Lemma transformed_orders_string_keyed utcnow cache :
  Forall string_keyed (transformed_orders utcnow cache).
Proof.
  apply List.Forall_forall. intros x Hx. unfold transformed_orders in Hx.
  apply list_elem_of_In, elem_of_lookup_imap in Hx as (i & o & -> & _).
  apply transform_order_string_keyed.
Qed.

Lemma manual_payloads_string_keyed utcnow offset manual :
  forallb sortable_manual manual = true ->
  Forall string_keyed (manual_payloads utcnow offset manual).
Proof.
  intros H. apply List.Forall_forall. intros x Hx. unfold manual_payloads in Hx.
  apply list_elem_of_In, elem_of_lookup_imap in Hx as (i & m & -> & Hm).
  apply manual_payload_string_keyed.
  apply (proj1 (forallb_forall _ _) H), list_elem_of_In, list_elem_of_lookup. eauto.
Qed.

Lemma comparable_keys_false keys a b :
  In a keys -> In b keys -> py_lt a b = None -> comparable_keys keys = false.
Proof.
  intros Ha Hb N. apply not_true_is_false. intros C.
  unfold comparable_keys in C.
  pose proof (proj1 (forallb_forall _ _) C a Ha) as Ca. cbv beta in Ca.
  pose proof (proj1 (forallb_forall _ _) Ca b Hb) as Cb. cbv beta in Cb.
  apply bool_decide_eq_true_1 in Cb. rewrite N in Cb. now destruct Cb.
Qed.

(** With a cached order in the view, a manual order that cannot be placed
    makes the sort raise. *)
Lemma py_sort_reverse_raises utcnow offset manual cache :
  forallb sortable_manual manual = false -> cache <> [] ->
  py_sort_reverse (manual_payloads utcnow offset manual ++ transformed_orders utcnow cache)
  = None.
Proof.
  intros H Hc.
  assert (exists j m, manual !! j = Some m /\ sortable_manual m = false) as (j & m & Hj & Hm).
  { clear -H. induction manual as [|x l IH]; [discriminate|].
    cbn [forallb] in H. destruct (sortable_manual x) eqn:X.
    - destruct (IH H) as (j & m & Hj & Hm). exists (S j), m. auto.
    - exists 0%nat, x. auto. }
  destruct cache as [|o cache']; [congruence|].
  set (M := manual_payload (utcnow (offset + j)%nat) m).
  set (T := transform_order (utcnow 0%nat) o).
  set (items := manual_payloads utcnow offset manual ++ transformed_orders utcnow (o :: cache')).
  assert (In M items) as HM.
  { apply in_or_app. left. apply list_elem_of_In, list_elem_of_lookup. exists j.
    unfold manual_payloads. rewrite list_lookup_imap, Hj. reflexivity. }
  assert (In T items) as HT.
  { apply in_or_app. right. left. reflexivity. }
  assert (py_lt (sort_key M) (sort_key T) = None) as N.
  { pose proof (transform_order_string_keyed (utcnow 0%nat) o) as K.
    unfold string_keyed in K. fold T in K. rewrite K.
    now apply manual_payload_other_key. }
  unfold py_sort_reverse. fold items.
  assert ((length items <? 2)%nat = false) as ->.
  { apply Nat.ltb_ge. unfold items, manual_payloads, transformed_orders.
    rewrite length_app, !length_imap. cbn [length].
    apply lookup_lt_Some in Hj. lia. }
  rewrite (comparable_keys_false _ (sort_key M) (sort_key T)); auto using in_map.
Qed.

End ViewKeys.

(** C7 fails as stated.  A manual order that was posted with a number as
    its "_sortKey" is stored with that number, and with a cached order next
    to it the sort of the view raises [TypeError]: no list is returned.
    The same happens for a stored manual order without "_sortKey" whose
    "created_at" is a number. *)
Lemma C7_int_sort_key_raises :
  let utcnow := fun _ : nat => mk_datetime us_2026_11_03_noon None in
  let posted : order := {[ "buyername" := VStr "Mina"; "_sortKey" := VInt 5 ]} in
  let m := build_manual_order (env := dated_env) ascii_upper sample_uuid (utcnow 0%nat)
             (utcnow 0%nat) posted in
  let stored : order := {[ "transaction" := VStr "MANUAL-1"; "created_at" := VInt 1735776000 ]} in
  m !! "_sortKey" = Some (VInt 5)
  /\ (transform_orders_for_frontend (env := dated_env) utcnow [m]
        (mk_cache [synced_S] None)).2 = None
  /\ (transform_orders_for_frontend (env := dated_env) utcnow [stored]
        (mk_cache [synced_S] None)).2 = None.
Proof. repeat split; vm_compute; reflexivity. Qed.

(** C7, amended.  Let the value the sort key of each manual order is read
    from, its "_sortKey" or, without one, its "created_at", be a string or
    count as false.  Then the unified view is returned and is the manual
    orders followed by the transformed cached orders, rearranged so that
    the sort keys descend; items with the same key keep the order they had
    before the sort, so for each key the manual orders with that key come
    first and the cached ones after them: no cached order stands before a
    manual order with the same key.  When that value is a number or True
    for some manual order and the cache is not empty, the call raises and
    returns no view. *)
Theorem C7_unified_view_order (env : PyEnv) (utcnow : nat -> datetime)
    (manual_orders : list order) (st : cache_state) :
  let cache := orders_cache (transform_orders_for_frontend utcnow manual_orders st).1 in
  let manual := manual_payloads utcnow (length cache) manual_orders in
  let synced := transformed_orders utcnow cache in
  (forallb sortable_manual manual_orders = true ->
   exists view,
    (transform_orders_for_frontend utcnow manual_orders st).2 = Some view
    /\ Permutation view (manual ++ synced)
    /\ Forall string_keyed view
    /\ StronglySorted (fun x y => String.ltb (string_key x) (string_key y) = false) view
    /\ (forall k, keyed k view = keyed k manual ++ keyed k synced)
    /\ (forall pre s post m,
          view = pre ++ s :: post ->
          In s synced -> ~ In s manual ->
          In m post -> In m manual -> ~ In m synced ->
          string_key m <> string_key s))
  /\ (forallb sortable_manual manual_orders = false -> cache <> [] ->
      (transform_orders_for_frontend utcnow manual_orders st).2 = None).
Proof.
  intros cache manual synced. split.
  2: { intros H Hc. unfold transform_orders_for_frontend. cbn [snd].
       now apply py_sort_reverse_raises. }
  intros Hm.
  assert (Forall string_keyed (manual ++ synced)) as Hk.
  { apply Forall_app. split.
    - now apply manual_payloads_string_keyed.
    - apply transformed_orders_string_keyed. }
  set (view := map snd (sort_desc String.ltb
                          (map (fun item => (string_key item, item)) (manual ++ synced)))).
  assert (forall k, keyed k view = keyed k manual ++ keyed k synced) as Hstable.
  { intros k. unfold view. rewrite sorted_view_stable. unfold keyed. apply List.filter_app. }
  exists view. split; [|split; [|split; [|split; [|split]]]].
  - unfold transform_orders_for_frontend. simpl.
    now apply py_sort_reverse_strings.
  - apply sorted_view_perm.
  - rewrite List.Forall_forall in *. intros x Hx. apply Hk.
    now apply (Permutation_in _ (sorted_view_perm (manual ++ synced))).
  - apply sorted_view_descending.
  - exact Hstable.
  - intros pre s post m E Hs Hns Hmp Hmm Hnm Ekey.
    pose proof (Hstable (string_key s)) as H. rewrite E in H.
    unfold keyed in H at 1. rewrite List.filter_app in H. simpl in H.
    rewrite bool_decide_eq_true_2 in H by reflexivity.
    symmetry in H. apply app_split_at in H as (mid & H & _).
    + assert (In m (keyed (string_key s) synced)) as Hin.
      { rewrite H. apply in_or_app. right. right. apply filter_In.
        split; [exact Hmp|]. now apply bool_decide_eq_true_2. }
      apply filter_In in Hin as [Hin _]. contradiction.
    + intros Hin. apply filter_In in Hin as [Hin _]. contradiction.
Qed.

(** C7 at a cached order and three manual orders: one with the same sort
    key, one without "_sortKey" and one with neither "_sortKey" nor
    "created_at". *)
Lemma C7_unified_view_order_witness :
  let utcnow := fun _ : nat => mk_datetime us_2026_11_03_noon None in
  let st := mk_cache [synced_S] None in
  let stored := [manual_M; manual_without_key; manual_bare] in
  let manual := manual_payloads (env := dated_env) utcnow 1 stored in
  let synced := transformed_orders (env := dated_env) utcnow [synced_S] in
  exists view,
    (transform_orders_for_frontend (env := dated_env) utcnow stored st).2 = Some view
    /\ Permutation view (manual ++ synced)
    /\ Forall string_keyed view
    /\ StronglySorted (fun x y => String.ltb (string_key x) (string_key y) = false) view
    /\ (forall k, keyed k view = keyed k manual ++ keyed k synced)
    /\ (forall pre s post m,
          view = pre ++ s :: post ->
          In s synced -> ~ In s manual ->
          In m post -> In m manual -> ~ In m synced ->
          string_key m <> string_key s).
Proof.
  intros utcnow st stored manual synced.
  apply (proj1 (C7_unified_view_order dated_env utcnow stored st)).
  reflexivity.
Defined.

(** The example of the specification: M and S both have the sort key
    "2025-01-02T00:00:00", and the view lists M before S. *)
Example unified_view_lists_manual_first :
  let utcnow := fun _ : nat => mk_datetime us_2026_11_03_noon None in
  let view := (transform_orders_for_frontend (env := dated_env) utcnow [manual_M]
                 (mk_cache [synced_S] None)).2 in
  view = Some [manual_M; transform_order (env := dated_env) (utcnow 0%nat) synced_S]
  /\ (string_key <$> default [] view) = ["2025-01-02T00:00:00"; "2025-01-02T00:00:00"].
Proof. split; vm_compute; reflexivity. Qed.

(** * Further properties of the code *)

(** * Further properties of the order code *)

(** ** The row limit *)

(** X1.  [limit_orders] returns a prefix of the fetched rows; with a limit
    of [n] rows in force it returns at most [n], it returns the rows as
    they are when they are within the limit or no limit is set, and it
    changes nothing when applied again. *)
Theorem limit_orders_bounded_prefix (env : PyEnv) (records : list order) :
  (exists dropped, records = limit_orders records ++ dropped)
  /\ (forall n, MAX_SYNC_ORDERS = Some n -> n <> 0%nat ->
        length (limit_orders records) = Nat.min n (length records))
  /\ (MAX_SYNC_ORDERS = None \/ MAX_SYNC_ORDERS = Some 0%nat ->
        limit_orders records = records)
  /\ limit_orders (limit_orders records) = limit_orders records.
Proof.
  unfold limit_orders. destruct MAX_SYNC_ORDERS as [n|].
  - destruct (n =? 0)%nat eqn:Z.
    + apply Nat.eqb_eq in Z. subst n.
      split; [exists []; now rewrite app_nil_r|].
      split; [intros n [= <-] H; now destruct H|]. split; reflexivity.
    + destruct (n <? length records)%nat eqn:L.
      * apply Nat.ltb_lt in L.
        split; [exists (drop n records); now rewrite take_drop|].
        split; [intros m [= <-] _; rewrite length_take; lia|].
        split; [intros [H|[= ->]]; discriminate|].
        rewrite length_take.
        replace (n <? n `min` length records)%nat with false; [reflexivity|].
        symmetry. apply Nat.ltb_ge. lia.
      * rewrite L. apply Nat.ltb_ge in L.
        split; [exists []; now rewrite app_nil_r|].
        split; [intros m [= <-] _; lia|]. split; reflexivity.
  - split; [exists []; now rewrite app_nil_r|].
    split; [discriminate|]. split; reflexivity.
Qed.

(** ** The preserver of the user's edits *)

Lemma editable_group_keys f b :
  In (f, b) EDITABLE_FIELD_GROUPS -> f ∈ editable_keys /\ b ∈ editable_keys.
Proof.
  unfold EDITABLE_FIELD_GROUPS, editable_keys.
  intros [G|[G|[G|[G|[]]]]]; injection G as <- <-;
    split; apply list_elem_of_In; simpl; tauto.
Qed.

Lemma preserved_value_from_source s f b v :
  preserved_value s f b = v -> v <> VNone -> s !! b = Some v \/ s !! f = Some v.
Proof.
  unfold preserved_value, get. destruct (s !! b) as [x|]; [intros ->; now left|].
  destruct (s !! f) as [y|]; simpl; [intros ->; now right|congruence].
Qed.

Lemma preserve_dict_truthy t s :
  dict_truthy t = true -> dict_truthy (preserve_editable_fields t s) = true.
Proof.
  intros Ht. destruct (dict_truthy s) eqn:Hs; [|now rewrite preserve_falsy by auto].
  apply dict_truthy_spec. apply dict_truthy_spec in Ht.
  apply map_choose in Ht as (k & x & Hk). intros E.
  assert (is_Some (preserve_editable_fields t s !! k)) as [y Hy]; [|rewrite E in Hy; discriminate].
  assert (dict_truthy t = true) as Ht' by (apply dict_truthy_spec; intros ->; discriminate).
  destruct (key_cases k) as [N|(f & b & Hg & Hk')].
  - rewrite preserve_other_key by assumption. eauto.
  - rewrite (preserve_lookup_group t s f b k) by assumption.
    destruct (preserved_value s f b); eauto.
Qed.

(** X2.  The preserver changes no key outside the eight editable ones and
    removes none; a value it writes is not [None], is taken from the source
    order's two names of the same editable pair, and is then stored under
    both names. *)
Theorem preserve_editable_fields_frame (t s : order) :
  (forall k, k ∉ editable_keys -> preserve_editable_fields t s !! k = t !! k)
  /\ (forall k, is_Some (t !! k) -> is_Some (preserve_editable_fields t s !! k))
  /\ (forall k v,
        preserve_editable_fields t s !! k = Some v -> t !! k <> Some v ->
        v <> VNone
        /\ exists f b, In (f, b) EDITABLE_FIELD_GROUPS /\ (k = f \/ k = b)
             /\ (s !! b = Some v \/ s !! f = Some v)
             /\ preserve_editable_fields t s !! f = Some v
             /\ preserve_editable_fields t s !! b = Some v).
Proof.
  split; [intros k; apply preserve_other_key|]. split.
  - intros k [x Hx].
    destruct (dict_truthy s) eqn:Hs; [|rewrite preserve_falsy by auto; eauto].
    assert (dict_truthy t = true) as Ht by (apply dict_truthy_spec; intros ->; discriminate).
    destruct (key_cases k) as [N|(f & b & Hg & Hk)].
    + rewrite preserve_other_key by assumption. eauto.
    + rewrite (preserve_lookup_group t s f b k) by assumption.
      destruct (preserved_value s f b); eauto.
  - intros k v Hp Hne.
    destruct (dict_truthy s) eqn:Hs; [|rewrite preserve_falsy in Hp by auto; congruence].
    destruct (dict_truthy t) eqn:Ht; [|rewrite preserve_falsy in Hp by auto; congruence].
    destruct (key_cases k) as [N|(f & b & Hg & Hk)];
      [rewrite preserve_other_key in Hp by assumption; congruence|].
    rewrite (preserve_lookup_group t s f b k) in Hp by assumption.
    destruct (preserved_value s f b) as [| x | z | x] eqn:Hv; [congruence|..];
      injection Hp as <-; (split; [discriminate|]); exists f, b;
      (split; [exact Hg|]); (split; [exact Hk|]);
      (split; [apply preserved_value_from_source; [exact Hv|discriminate]|]);
      rewrite !(preserve_lookup_group t s f b) by auto; rewrite Hv; auto.
Qed.

(** X3.  Carrying the edits of the same source over a second time changes
    nothing: the preserver is idempotent in its target. *)
Theorem preserve_editable_fields_idempotent (t s : order) :
  preserve_editable_fields (preserve_editable_fields t s) s = preserve_editable_fields t s.
Proof.
  destruct (dict_truthy s) eqn:Hs; [|now rewrite !preserve_falsy by auto].
  destruct (dict_truthy t) eqn:Ht; [|now rewrite !(preserve_falsy t s) by auto].
  pose proof (preserve_dict_truthy t s Ht) as Hp.
  apply map_eq. intros k.
  destruct (key_cases k) as [N|(f & b & Hg & Hk)].
  - now rewrite !preserve_other_key by assumption.
  - rewrite (preserve_lookup_group _ s f b k) by assumption.
    rewrite (preserve_lookup_group t s f b k) by assumption.
    destruct (preserved_value s f b); reflexivity.
Qed.

(** ** Identifiers *)

Lemma find_truthy_none l :
  List.find py_truthy l = None <-> Forall (fun c => py_truthy c = false) l.
Proof.
  induction l as [|c l IH]; simpl; [split; [constructor|reflexivity]|].
  destruct (py_truthy c) eqn:E.
  - split; [discriminate|]. intros H. inversion H; congruence.
  - rewrite IH. split; [now constructor|]. intros H. now inversion H.
Qed.

Lemma edit_transaction_cache_transaction o :
  has_transaction o = true -> edit_transaction o = py_str (cache_transaction o).
Proof.
  unfold has_transaction, edit_transaction. fold (cache_transaction o).
  intros H. unfold py_or at 1. now rewrite H.
Qed.

Lemma identifier_of_transaction o :
  has_transaction o = true ->
  get_order_identifier o VNone = Some (py_str (cache_transaction o)).
Proof.
  unfold has_transaction, cache_transaction, get_order_identifier, identifier_candidates, py_or.
  cbn [List.find py_truthy].
  destruct (py_truthy (get o "transaction")) eqn:A; [reflexivity|].
  intros B. now rewrite B.
Qed.

(** X4.  The identifier of an order is never the empty text; a true
    explicit identifier wins over every key of the order, a false one is
    ignored; there is no identifier exactly when all nine candidates are
    false; and for an order with a transaction id the identifier is the
    text of the id the merges use, which is also the text the edit endpoint
    matches. *)
Theorem get_order_identifier_spec (o : order) (ex : pyval) :
  (forall id, get_order_identifier o ex = Some id -> id <> "")
  /\ (py_truthy ex = true -> get_order_identifier o ex = Some (py_str ex))
  /\ (py_truthy ex = false -> get_order_identifier o ex = get_order_identifier o VNone)
  /\ (get_order_identifier o ex = None <->
      Forall (fun c => py_truthy c = false) (identifier_candidates o ex))
  /\ (has_transaction o = true ->
      get_order_identifier o VNone = Some (py_str (cache_transaction o))
      /\ edit_transaction o = py_str (cache_transaction o)).
Proof.
  split; [|split; [|split; [|split]]].
  - intros id H. apply String.eqb_neq. eapply get_order_identifier_nonempty; eauto.
  - intros H. unfold get_order_identifier, identifier_candidates. cbn [List.find].
    now rewrite H.
  - intros H. unfold get_order_identifier, identifier_candidates. cbn [List.find py_truthy].
    now rewrite H.
  - unfold get_order_identifier. rewrite <- find_truthy_none.
    destruct (List.find py_truthy _); simpl; split; congruence.
  - intros H. split; [now apply identifier_of_transaction|].
    now apply edit_transaction_cache_transaction.
Qed.

(** ** The completion log stays well formed *)

Lemma last_last_50 h ts : last (last_50 (h ++ [ts])) = Some ts.
Proof.
  unfold last_50. rewrite length_app. simpl.
  rewrite drop_app_le by lia.
  now rewrite last_snoc.
Qed.

Lemma log_well_formed_insert log id e :
  log_well_formed log -> entry_well_formed e -> log_well_formed (<[id := e]> log).
Proof.
  intros Hw He j f. destruct (decide (id = j)) as [<-|Hne].
  - rewrite lookup_insert_eq. now intros [= <-].
  - rewrite lookup_insert_ne by assumption. apply Hw.
Qed.

Lemma tracking_well_formed ts o ex log :
  log_well_formed log -> log_well_formed (update_order_completion_tracking ts o ex log).
Proof.
  intros Hw. unfold update_order_completion_tracking.
  destruct (get_order_identifier o ex) as [id|]; [|assumption].
  destruct (String.eqb id ""); [assumption|].
  destruct (get_order_stage_flags o) as [[p r] s].
  destruct (p && r && s && negb _).
  - apply log_well_formed_insert; [assumption|]. unfold entry_well_formed. simpl.
    split; [reflexivity|].
    destruct (50 <? _)%nat; [apply last_last_50|apply last_snoc].
  - destruct (negb (p && r && s) && _); [|assumption].
    destruct (log !! id) as [e|] eqn:He; [|assumption].
    apply log_well_formed_insert; [assumption|]. reflexivity.
Qed.

Lemma remove_well_formed id log :
  log_well_formed log -> log_well_formed (remove_order_completion_entry id log).
Proof.
  intros Hw. unfold remove_order_completion_entry.
  destruct id as [i|]; [|assumption]. destruct (String.eqb i ""); [assumption|].
  intros j e. destruct (decide (i = j)) as [<-|Hne].
  - rewrite lookup_delete_eq. discriminate.
  - rewrite lookup_delete_ne by assumption. apply Hw.
Qed.

Lemma reset_only_well_formed a b :
  reset_only a b -> log_well_formed a -> log_well_formed b.
Proof.
  intros H Hw id e' He'. destruct (H id) as [E|(e & E1 & E2)].
  - rewrite E in He'. eapply Hw; eauto.
  - rewrite He' in E2. injection E2 as ->. reflexivity.
Qed.

(** X5.  Every operation on the completion log keeps it well formed: an
    entry has a [completed_at] exactly when it is complete, and that time
    stamp is the newest of its history.  The tracker, the removal of an
    entry and the dashboard pass (whether it returns or raises) preserve
    this, and the empty log has it. *)
Theorem completion_log_stays_well_formed :
  log_well_formed ∅
  /\ (forall ts o ex log,
        log_well_formed log ->
        log_well_formed (update_order_completion_tracking ts o ex log))
  /\ (forall id log,
        log_well_formed log -> log_well_formed (remove_order_completion_entry id log))
  /\ (forall (env : PyEnv) view log,
        log_well_formed log ->
        log_well_formed (result_log (compute_dashboard_order_stats view log))).
Proof.
  split; [intros id e H; now rewrite lookup_empty in H|].
  split; [exact tracking_well_formed|].
  split; [exact remove_well_formed|].
  intros env view log Hw. eapply reset_only_well_formed; [|exact Hw].
  apply (dashboard_loop_reset_only view (mk_dash (mk_stats 0 0 0 0 0) log false)).
Qed.

(** ** What the tracker leaves behind *)

Lemma tracking_other_id ts o ex log id id' :
  get_order_identifier o ex = Some id -> id' <> id ->
  update_order_completion_tracking ts o ex log !! id' = log !! id'.
Proof.
  intros Hid Hne. unfold update_order_completion_tracking.
  rewrite Hid, (get_order_identifier_nonempty _ _ _ Hid).
  destruct (get_order_stage_flags o) as [[p r] s].
  destruct (p && r && s && negb _); [now rewrite lookup_insert_ne by congruence|].
  destruct (negb (p && r && s) && _); [|reflexivity].
  destruct (log !! id); [now rewrite lookup_insert_ne by congruence|reflexivity].
Qed.

Lemma tracking_in_sync ts o ex log id :
  get_order_identifier o ex = Some id ->
  from_option is_complete false (update_order_completion_tracking ts o ex log !! id)
  = is_order_marked_complete o.
Proof.
  intros Hid.
  destruct (is_order_marked_complete o) eqn:C,
           (from_option is_complete false (log !! id)) eqn:W.
  - rewrite (tracking_steady _ _ _ _ id); congruence.
  - rewrite (tracking_completes _ _ _ _ _ Hid C W), lookup_insert_eq. reflexivity.
  - destruct (log !! id) as [e|] eqn:He; [|discriminate]. simpl in W.
    rewrite (tracking_reverts _ _ _ _ _ e Hid C He W), lookup_insert_eq. reflexivity.
  - rewrite (tracking_steady _ _ _ _ id); congruence.
Qed.

(** X6.  After the tracker has seen an order that has an identifier, the
    stored [is_complete] of that identifier equals the conjunction of the
    order's three stage flags, whatever was stored before; no entry of
    another identifier is touched, and an order without identifier leaves
    the whole log as it was. *)
Theorem tracker_leaves_log_in_sync (ts : string) (o : order) (ex : pyval)
    (log : completion_log) :
  (forall id,
      get_order_identifier o ex = Some id ->
      from_option is_complete false (update_order_completion_tracking ts o ex log !! id)
      = is_order_marked_complete o
      /\ forall id', id' <> id ->
           update_order_completion_tracking ts o ex log !! id' = log !! id')
  /\ (get_order_identifier o ex = None ->
      update_order_completion_tracking ts o ex log = log).
Proof.
  split.
  - intros id Hid. split; [now apply tracking_in_sync|].
    intros id' Hne. now apply tracking_other_id with id.
  - apply tracking_no_identifier.
Qed.

(** ** The counters of the dashboard *)

Lemma count_orders_cons p o l :
  count_orders p (o :: l) = (bump (p o) 0 + count_orders p l)%nat.
Proof. unfold count_orders, bump. simpl. destruct (p o); reflexivity. Qed.

Lemma bump_plus b n : bump b n = (n + bump b 0)%nat.
Proof. unfold bump. destruct b; lia. Qed.

Section DashboardCounters.
Context {env : PyEnv}.

Lemma dashboard_step_stats st o st' :
  dashboard_step st o = Some st' ->
  dash_stats st' =
  mk_stats (bump (is_order_marked_complete o) (total_completed (dash_stats st)))
           (bump (negb (is_order_marked_complete o)) (pending (dash_stats st)))
           (bump (produce_flag o && negb (ready_flag o)) (produce_only (dash_stats st)))
           (bump (ready_flag o) (ready_total (dash_stats st)))
           (bump (shipped_flag o) (shipped_total (dash_stats st))).
Proof.
  unfold dashboard_step, is_order_marked_complete, produce_flag, ready_flag, shipped_flag.
  destruct (get_order_stage_flags o) as [[p r] s].
  destruct (reconcile_entry o (p && r && s) (dash_log st)) as [[log' dirty]|];
    [|discriminate].
  now intros [= <-].
Qed.

Lemma dashboard_loop_stats l st st' :
  dashboard_loop l st = DashReturns st' ->
  let s := dash_stats st in
  dash_stats st' =
  mk_stats (total_completed s + count_orders is_order_marked_complete l)
           (pending s + count_orders (fun o => negb (is_order_marked_complete o)) l)
           (produce_only s
            + count_orders (fun o => produce_flag o && negb (ready_flag o)) l)
           (ready_total s + count_orders ready_flag l)
           (shipped_total s + count_orders shipped_flag l).
Proof.
  revert st. induction l as [|o l IH]; intros st; cbn [dashboard_loop].
  - intros [= <-]. unfold count_orders. simpl. rewrite !Nat.add_0_r.
    now destruct (dash_stats st).
  - destruct (dashboard_step st o) as [st1|] eqn:E; [|discriminate].
    intros H. rewrite (IH _ H), (dashboard_step_stats _ _ _ E).
    cbn [total_completed pending produce_only ready_total shipped_total].
    rewrite !count_orders_cons.
    rewrite (bump_plus _ (total_completed _)), (bump_plus _ (pending _)),
      (bump_plus _ (produce_only _)), (bump_plus _ (ready_total _)),
      (bump_plus _ (shipped_total _)).
    f_equal; lia.
Qed.

(** No stored time stamp lies beyond the range of dates. *)
Lemma reset_only_in_range a b :
  reset_only a b ->
  (forall id e, a !! id = Some e -> is_complete e = true ->
                completion_date_from_entry e <> DateOverflow) ->
  forall id e, b !! id = Some e -> is_complete e = true ->
               completion_date_from_entry e <> DateOverflow.
Proof.
  intros R H id e He Hc. destruct (R id) as [E|(f & F1 & F2)].
  - apply (H id); [congruence|exact Hc].
  - rewrite He in F2. injection F2 as ->. discriminate.
Qed.

Lemma dashboard_loop_returns l st :
  (forall id e, dash_log st !! id = Some e -> is_complete e = true ->
                completion_date_from_entry e <> DateOverflow) ->
  exists st', dashboard_loop l st = DashReturns st'.
Proof.
  intros H. destruct (dashboard_loop l st) as [st'|left] eqn:E; [eauto|].
  exfalso. apply dashboard_loop_raises in E as (pre & o & post & st1 & _ & P & _ & N).
  apply dashboard_step_None, reconcile_entry_raises in N
    as (_ & id & e & _ & He & Hc & _ & D).
  pose proof (dashboard_loop_reset_only pre st) as R. rewrite P in R. cbn [result_log] in R.
  exact (reset_only_in_range _ _ R H id e He Hc D).
Qed.

End DashboardCounters.

Lemma count_orders_le p q l :
  (forall o, p o = true -> q o = true) -> (count_orders p l <= count_orders q l)%nat.
Proof.
  intros H. induction l as [|o l IH]; [reflexivity|].
  rewrite !count_orders_cons. pose proof (H o). unfold bump.
  destruct (p o), (q o); lia.
Qed.

Lemma count_orders_split p l :
  (count_orders p l + count_orders (fun o => negb (p o)) l = length l)%nat.
Proof.
  induction l as [|o l IH]; [reflexivity|].
  rewrite !count_orders_cons. unfold bump. simpl. destruct (p o); simpl; lia.
Qed.

Lemma complete_flags o :
  is_order_marked_complete o = produce_flag o && ready_flag o && shipped_flag o.
Proof.
  unfold is_order_marked_complete, produce_flag, ready_flag, shipped_flag.
  now destruct (get_order_stage_flags o) as [[p r] s].
Qed.

(** X7.  When the dashboard pass returns, its five counters are counts
    over the orders it is given and do not depend on the completion log:
    [completed] counts the orders with all three flags, [pending] the
    others, so the two add up to the number of orders; an order counted as
    completed is counted as ready and as shipped; and no order is counted
    both under [produce] (produced, not yet ready) and under [ready].  The
    pass returns when no entry stored as complete has a time stamp whose
    Istanbul date is out of range; when it raises, on such an entry of a
    complete order, it returns no counters. *)
Theorem dashboard_counters (env : PyEnv) (view : list order) (log : completion_log) :
  (forall st, compute_dashboard_order_stats view log = DashReturns st ->
     let s := dash_stats st in
     total_completed s = count_orders is_order_marked_complete view
     /\ pending s = count_orders (fun o => negb (is_order_marked_complete o)) view
     /\ produce_only s = count_orders (fun o => produce_flag o && negb (ready_flag o)) view
     /\ ready_total s = count_orders ready_flag view
     /\ shipped_total s = count_orders shipped_flag view
     /\ (total_completed s + pending s = length view)%nat
     /\ (total_completed s <= ready_total s)%nat
     /\ (total_completed s <= shipped_total s)%nat
     /\ (produce_only s + ready_total s <= length view)%nat)
  /\ ((forall id e, log !! id = Some e -> is_complete e = true ->
                    completion_date_from_entry e <> DateOverflow) ->
      exists st, compute_dashboard_order_stats view log = DashReturns st)
  /\ (forall left, compute_dashboard_order_stats view log = DashRaises left ->
      exists o id e, In o view /\ is_order_marked_complete o = true
        /\ get_order_identifier o VNone = Some id /\ left !! id = Some e
        /\ is_complete e = true /\ completion_date_from_entry e = DateOverflow).
Proof.
  split; [|split].
  - intros st H s. subst s. unfold compute_dashboard_order_stats in H.
    rewrite (dashboard_loop_stats _ _ _ H).
    cbn [dash_stats total_completed pending produce_only ready_total shipped_total].
    rewrite !Nat.add_0_l.
    repeat split.
    + apply count_orders_split.
    + apply count_orders_le. intros o. rewrite complete_flags.
      destruct (produce_flag o), (ready_flag o); simpl; congruence.
    + apply count_orders_le. intros o. rewrite complete_flags.
      destruct (produce_flag o), (ready_flag o); simpl; congruence.
    + rewrite <- (count_orders_split ready_flag view).
      pose proof (count_orders_le (fun o => produce_flag o && negb (ready_flag o))
                    (fun o => negb (ready_flag o)) view) as H'.
      assert (forall o, produce_flag o && negb (ready_flag o) = true ->
                        negb (ready_flag o) = true) as Himp
        by (intros o; destruct (produce_flag o); simpl; congruence).
      specialize (H' Himp). lia.
  - intros H. now apply dashboard_loop_returns.
  - intros left H. unfold compute_dashboard_order_stats in H.
    apply dashboard_loop_raises in H as (pre & o & post & st1 & -> & _ & <- & N).
    apply dashboard_step_None, reconcile_entry_raises in N
      as (C & id & e & Hid & He & Hc & _ & D).
    exists o, id, e. split; [apply in_or_app; right; now left|]. auto.
Qed.

(** ** The dashboard pass settles the log in one go *)

Section DashboardSettles.
Context {env : PyEnv}.

Lemma reconcile_entry_settled_fixed o c log :
  (forall id e, get_order_identifier o VNone = Some id -> log !! id = Some e ->
                entry_settled c e) ->
  reconcile_entry o c log = Some (log, false).
Proof.
  intros H. unfold reconcile_entry.
  destruct (get_order_identifier o VNone) as [id|]; [|reflexivity].
  destruct (String.eqb id ""); [reflexivity|].
  destruct (log !! id) as [e|] eqn:He; [|reflexivity].
  specialize (H id e eq_refl He). unfold entry_settled in H.
  destruct (is_complete e); [|now rewrite !andb_false_r].
  destruct (H eq_refl) as [-> Hd]. simpl.
  destruct (completed_at_truthy e); [|reflexivity].
  destruct (Hd eq_refl) as [d ->]. reflexivity.
Qed.

Lemma dashboard_step_settled_fixed st o :
  (forall id e, get_order_identifier o VNone = Some id -> dash_log st !! id = Some e ->
                entry_settled (is_order_marked_complete o) e) ->
  exists st', dashboard_step st o = Some st'
              /\ dash_log st' = dash_log st /\ log_dirty st' = log_dirty st.
Proof.
  intros H. apply reconcile_entry_settled_fixed in H.
  unfold dashboard_step. unfold is_order_marked_complete in H.
  destruct (get_order_stage_flags o) as [[p r] s]. rewrite H.
  eexists. split; [reflexivity|]. cbn [dash_log log_dirty].
  split; [reflexivity|apply orb_false_r].
Qed.

Lemma dashboard_loop_fixed l st :
  (forall o id e, In o l -> get_order_identifier o VNone = Some id ->
                  dash_log st !! id = Some e ->
                  entry_settled (is_order_marked_complete o) e) ->
  exists st', dashboard_loop l st = DashReturns st'
              /\ dash_log st' = dash_log st /\ log_dirty st' = log_dirty st.
Proof.
  revert st. induction l as [|o l IH]; intros st H; cbn [dashboard_loop]; [eauto|].
  destruct (dashboard_step_settled_fixed st o) as (st1 & E & E1 & E2).
  { intros id e Hid He. apply (H o id e); auto. now left. }
  rewrite E. destruct (IH st1) as (st' & F & F1 & F2).
  - intros x id e Hx Hid He. rewrite E1 in He. apply (H x id e); auto. now right.
  - exists st'. split; [exact F|]. split; congruence.
Qed.

End DashboardSettles.

(** X8.  A dashboard pass that returns settles the completion log: a
    second pass over the same orders, started on the log the first one
    left, returns too, changes no entry, does not save the log again and
    gives the same counters.  A pass that raises has left the log so that a
    second pass raises again, at the same order, and changes nothing. *)
Theorem dashboard_pass_idempotent (env : PyEnv) (view : list order) (log : completion_log) :
  (forall once, compute_dashboard_order_stats view log = DashReturns once ->
     exists twice,
       compute_dashboard_order_stats view (dash_log once) = DashReturns twice
       /\ dash_log twice = dash_log once
       /\ log_dirty twice = false
       /\ dash_stats twice = dash_stats once)
  /\ (forall left, compute_dashboard_order_stats view log = DashRaises left ->
        compute_dashboard_order_stats view left = DashRaises left).
Proof.
  unfold compute_dashboard_order_stats. split.
  - intros once H.
    destruct (dashboard_loop_fixed view (mk_dash (mk_stats 0 0 0 0 0) (dash_log once) false))
      as (twice & E & E1 & E2).
    + intros o id e Hin Hid He. cbn [dash_log] in He.
      eapply dashboard_loop_settled; eauto.
    + exists twice. split; [exact E|]. split; [exact E1|]. split; [exact E2|].
      now rewrite (dashboard_loop_stats _ _ _ E), (dashboard_loop_stats _ _ _ H).
  - intros left H.
    apply dashboard_loop_raises in H as (pre & o & post & st1 & -> & P & <- & N).
    destruct (dashboard_loop_fixed pre (mk_dash (mk_stats 0 0 0 0 0) (dash_log st1) false))
      as (st2 & E & E1 & E2).
    + intros x id e Hin Hid He. cbn [dash_log] in He.
      eapply dashboard_loop_settled; eauto.
    + rewrite dashboard_loop_app, E. cbn [dashboard_loop].
      cbn [dash_log] in E1.
      assert (dashboard_step st2 o = None) as ->.
      { apply dashboard_step_None. rewrite E1. now apply dashboard_step_None. }
      now rewrite E1.
Qed.

(** ** The record the view builds for a cached order *)

Lemma transformed_fields_keys o :
  (transformed_fields o).*1 = take 36 view_keys.
Proof. reflexivity. Qed.

Lemma view_keys_NoDup : NoDup view_keys.
Proof. apply (bool_decide_unpack _). vm_compute. exact I. Qed.

Lemma transformed_fields_NoDup o : NoDup (transformed_fields o).*1.
Proof.
  rewrite transformed_fields_keys.
  pose proof view_keys_NoDup as H. rewrite <- (take_drop 36 view_keys) in H.
  now apply NoDup_app in H as [H _].
Qed.

Lemma transformed_lookup_Some o k v :
  list_to_map (M := order) (transformed_fields o) !! k = Some v <->
  In (k, v) (transformed_fields o).
Proof.
  rewrite <- list_elem_of_In. symmetry.
  apply elem_of_list_to_map. apply transformed_fields_NoDup.
Qed.

Lemma transformed_lookup_None o k :
  k ∉ take 36 view_keys -> list_to_map (M := order) (transformed_fields o) !! k = None.
Proof.
  intros H. apply not_elem_of_list_to_map. now rewrite transformed_fields_keys.
Qed.

Lemma sortKey_not_field : "_sortKey" ∉ take 36 view_keys.
Proof. apply (bool_decide_unpack _). vm_compute. exact I. Qed.

Lemma isManual_not_field : "isManual" ∉ take 36 view_keys.
Proof. apply (bool_decide_unpack _). vm_compute. exact I. Qed.

Section ViewRecord.
Context {env : PyEnv}.

Lemma transform_order_lookup u o k :
  k <> "_sortKey" -> k <> "isManual" ->
  transform_order u o !! k = list_to_map (M := order) (transformed_fields o) !! k.
Proof.
  intros H1 H2. unfold transform_order. now rewrite !lookup_insert_ne by congruence.
Qed.

Lemma transform_order_field u o k v :
  In (k, v) (transformed_fields o) -> transform_order u o !! k = Some v.
Proof.
  intros H. assert (k ∈ take 36 view_keys) as Hk.
  { rewrite <- (transformed_fields_keys o). apply list_elem_of_fmap.
    exists (k, v). split; [reflexivity|now apply list_elem_of_In]. }
  rewrite transform_order_lookup.
  - now apply transformed_lookup_Some.
  - intros ->. now apply sortKey_not_field.
  - intros ->. now apply isManual_not_field.
Qed.

Lemma transform_order_get u o k v :
  In (k, v) (transformed_fields o) -> get (transform_order u o) k = v.
Proof. intros H. unfold get. now rewrite (transform_order_field u o k v H). Qed.

End ViewRecord.

(** *** Stage flags *)

Lemma checkbox_string_flag o p f other :
  text_or_missing (o !! p) -> text_or_missing (o !! f) ->
  normalize_flag_value (py_or (VStr (get_checkbox_string o p f)) other)
  = normalize_flag_value (py_or (get o p) (get o f)).
Proof.
  intros Hp Hf. unfold get_checkbox_string, get, py_or.
  destruct Hp as [->|[->|[s ->]]]; destruct Hf as [->|[->|[t ->]]]; simpl;
    try reflexivity;
    try (destruct (String.eqb s "") eqn:Es; simpl; rewrite ?Es; simpl);
    try (destruct (String.eqb t "") eqn:Et; simpl; rewrite ?Et; simpl);
    try reflexivity.
  all: repeat match goal with
              | H : String.eqb _ "" = true |- _ => apply String.eqb_eq in H; subst
              end.
  all: try reflexivity.
  all: rewrite ?Es, ?Et; simpl; rewrite ?Es, ?Et; try reflexivity.
Qed.

Section ViewFlags.
Context {env : PyEnv}.

Lemma transform_order_stage_flags u o :
  text_flags o -> get_order_stage_flags (transform_order u o) = get_order_stage_flags o.
Proof.
  intros H. unfold get_order_stage_flags.
  assert (forall k, In k stage_flag_keys -> text_or_missing (o !! k)) as H'
    by (intros k Hk; apply H; now apply list_elem_of_In).
  rewrite (transform_order_get u o "Produce" (VStr (get_checkbox_string o "Produce" "Kesildi")))
    by (simpl; tauto).
  rewrite (transform_order_get u o "Ready" (VStr (get_checkbox_string o "Ready" "Hazır")))
    by (simpl; tauto).
  rewrite (transform_order_get u o "Shipped"
             (VStr (get_checkbox_string o "Shipped" "Gönderildi")))
    by (simpl; tauto).
  rewrite !checkbox_string_flag; [reflexivity|..]; apply H'; simpl; tauto.
Qed.

Lemma transformed_orders_counts (p : bool * bool * bool -> bool) utcnow cache :
  Forall text_flags cache ->
  count_orders (fun o => p (get_order_stage_flags o)) (transformed_orders utcnow cache)
  = count_orders (fun o => p (get_order_stage_flags o)) cache.
Proof.
  unfold transformed_orders. revert utcnow.
  induction cache as [|o cache IH]; intros utcnow H; [reflexivity|].
  inversion H as [|? ? Ho Hc]; subst. cbn [imap].
  rewrite !count_orders_cons, transform_order_stage_flags by assumption.
  f_equal. exact (IH (fun i => utcnow (S i)) Hc).
Qed.

End ViewFlags.

(** X9.  For a cached order whose six stage-flag fields hold text or
    nothing, the record the view builds has the same three stage flags, and
    so the same completion, as the order itself; hence the dashboard, which
    counts over the view, returns, when it returns, the counters it returns
    over the cache.  (The boolean [False] under "Produce" with "Kesildi"
    set is read as produced on the order and as not produced on its view
    record.) *)
Theorem view_keeps_stage_flags (env : PyEnv) (u : datetime) (o : order) :
  text_flags o ->
  get_order_stage_flags (transform_order u o) = get_order_stage_flags o
  /\ is_order_marked_complete (transform_order u o) = is_order_marked_complete o
  /\ (forall utcnow cache log log' over_view over_cache,
        Forall text_flags cache ->
        compute_dashboard_order_stats (transformed_orders utcnow cache) log
        = DashReturns over_view ->
        compute_dashboard_order_stats cache log' = DashReturns over_cache ->
        dash_stats over_view = dash_stats over_cache).
Proof.
  intros H. split; [now apply transform_order_stage_flags|]. split.
  - unfold is_order_marked_complete. now rewrite transform_order_stage_flags.
  - intros utcnow cache log log' over_view over_cache Hc Hv Hk.
    unfold compute_dashboard_order_stats in Hv, Hk.
    rewrite (dashboard_loop_stats _ _ _ Hv), (dashboard_loop_stats _ _ _ Hk).
    cbn [dash_stats total_completed pending produce_only ready_total shipped_total].
    f_equal; f_equal.
    + apply (transformed_orders_counts (fun '(p, r, s) => p && r && s) utcnow cache Hc).
    + apply (transformed_orders_counts (fun '(p, r, s) => negb (p && r && s)) utcnow cache Hc).
    + apply (transformed_orders_counts (fun f => f.1.1 && negb f.1.2) utcnow cache Hc).
    + apply (transformed_orders_counts (fun f => f.1.2) utcnow cache Hc).
    + apply (transformed_orders_counts (fun f => f.2) utcnow cache Hc).
Qed.

Lemma view_keeps_stage_flags_witness :
  get_order_stage_flags
    (transform_order (env := sample_env) (mk_datetime 0%N None) edited_order)
  = get_order_stage_flags edited_order
  /\ is_order_marked_complete
       (transform_order (env := sample_env) (mk_datetime 0%N None) edited_order)
     = is_order_marked_complete edited_order
  /\ (forall utcnow cache log log' over_view over_cache,
        Forall text_flags cache ->
        compute_dashboard_order_stats (env := sample_env)
          (transformed_orders (env := sample_env) utcnow cache) log
        = DashReturns over_view ->
        compute_dashboard_order_stats (env := sample_env) cache log'
        = DashReturns over_cache ->
        dash_stats over_view = dash_stats over_cache).
Proof.
  apply (view_keeps_stage_flags sample_env (mk_datetime 0%N None) edited_order).
  intros k Hk. unfold stage_flag_keys in Hk.
  repeat (apply elem_of_cons in Hk as [->|Hk]);
    [right; right; eexists; reflexivity|now left|right; right; eexists; reflexivity|now left
    |right; right; eexists; reflexivity|now left|].
  now apply elem_of_nil in Hk.
Defined.

(** The hypothesis of X9 cannot be dropped. *)
Example view_changes_untyped_flag :
  is_order_marked_complete untyped_flag_row = true
  /\ is_order_marked_complete
       (transform_order (env := sample_env) (mk_datetime 0%N None) untyped_flag_row) = false.
Proof. split; vm_compute; reflexivity. Qed.

(** *** The shape of a view record *)

Lemma transformed_fields_text o k v :
  In (k, v) (transformed_fields o) -> exists s, v = VStr s.
Proof.
  unfold transformed_fields. intros H.
  repeat (destruct H as [H|H]; [injection H as <- <-; eexists; reflexivity|]).
  destruct H.
Qed.

Lemma view_keys_split k :
  k ∈ view_keys <-> k ∈ take 36 view_keys \/ k = "isManual" \/ k = "_sortKey".
Proof.
  rewrite <- (take_drop 36 view_keys) at 1. rewrite elem_of_app.
  change (drop 36 view_keys) with ["isManual"; "_sortKey"].
  rewrite !elem_of_cons, elem_of_nil. tauto.
Qed.

(** X10.  Whatever a cached order holds, the record the view builds for it
    has exactly the 38 keys of the view, [isManual] is [False], and every
    other value is text: a missing or non-text field of the order never
    leaves a key out or puts a non-string in the record. *)
Theorem view_record_schema (env : PyEnv) (u : datetime) (o : order) :
  (forall k, is_Some (transform_order u o !! k) <-> k ∈ view_keys)
  /\ transform_order u o !! "isManual" = Some (VBool false)
  /\ (forall k v, transform_order u o !! k = Some v -> k <> "isManual" ->
        exists s, v = VStr s).
Proof.
  assert (forall k, k <> "_sortKey" -> k <> "isManual" ->
                    transform_order u o !! k
                    = list_to_map (M := order) (transformed_fields o) !! k) as L
    by (intros; now apply transform_order_lookup).
  assert (transform_order u o !! "isManual" = Some (VBool false)) as M.
  { unfold transform_order. rewrite lookup_insert_ne by discriminate.
    apply lookup_insert_eq. }
  assert (exists s, transform_order u o !! "_sortKey" = Some (VStr s)) as [sk S].
  { unfold transform_order. rewrite lookup_insert_eq. eauto. }
  split; [|split; [exact M|]].
  - intros k. rewrite view_keys_split.
    destruct (decide (k = "_sortKey")) as [->|N1]; [rewrite S; split; eauto|].
    destruct (decide (k = "isManual")) as [->|N2]; [rewrite M; split; eauto|].
    rewrite L by assumption. split.
    + intros [v Hv]. left. apply transformed_lookup_Some in Hv.
      rewrite <- (transformed_fields_keys o). apply list_elem_of_fmap.
      exists (k, v). split; [reflexivity|now apply list_elem_of_In].
    + intros [Hk|[->| ->]]; try congruence.
      rewrite <- (transformed_fields_keys o) in Hk.
      apply list_elem_of_fmap in Hk as ([k' v] & -> & Hin). exists v.
      apply transformed_lookup_Some. now apply list_elem_of_In.
  - intros k v Hv N2.
    destruct (decide (k = "_sortKey")) as [->|N1]; [rewrite S in Hv; injection Hv as <-; eauto|].
    rewrite L in Hv by assumption. apply transformed_lookup_Some in Hv.
    now apply transformed_fields_text in Hv.
Qed.

(** *** The sort key of a cached order *)

Section ViewSortKey.
Context {env : PyEnv}.

Lemma try_parse_order_date_None : try_parse_order_date VNone = None.
Proof. reflexivity. Qed.

Lemma transform_order_sort_key u o :
  transform_order u o !! "_sortKey" =
  Some (VStr (match try_parse_order_date (str_field o "Data") with
              | Some parsed => isoformat parsed
              | None => isoformat u
              end)).
Proof.
  unfold transform_order. rewrite lookup_insert_eq. do 2 f_equal.
  unfold determine_sort_key.
  set (T := <["isManual" := VBool false]> (list_to_map (transformed_fields o)) : order).
  assert (forall k, k <> "isManual" -> k ∉ take 36 view_keys -> get T k = VNone) as Hnone.
  { intros k N1 N2. unfold get, T. rewrite lookup_insert_ne by congruence.
    now rewrite transformed_lookup_None. }
  assert (get T "tarih" = str_field o "Data") as ->.
  { unfold get, T. rewrite lookup_insert_ne by discriminate.
    erewrite (proj2 (transformed_lookup_Some o "tarih" _)); [reflexivity|].
    unfold transformed_fields. simpl. tauto. }
  rewrite (Hnone "tarihh"), (Hnone "created_at"), (Hnone "_sortKey");
    try discriminate; try (apply (bool_decide_unpack _); vm_compute; exact I).
  cbn [List.flat_map]. rewrite try_parse_order_date_None. cbn [app].
  destruct (try_parse_order_date (str_field o "Data")); reflexivity.
Qed.

End ViewSortKey.

(** X11.  The sort key of a cached order in the view is read from its
    "Data" column alone: it is the ISO form of the date parsed from that
    text, and the reading of the clock when the text does not parse; an
    order without "Data", or with a blank one, therefore gets the time of
    the request as its key. *)
Theorem view_sort_key_from_data (env : PyEnv) (u : datetime) (o : order) :
  transform_order u o !! "_sortKey" =
    Some (VStr (match try_parse_order_date (str_field o "Data") with
                | Some parsed => isoformat parsed
                | None => isoformat u
                end))
  /\ (o !! "Data" = None \/ o !! "Data" = Some (VStr "") ->
      transform_order u o !! "_sortKey" = Some (VStr (isoformat u)))
  /\ (forall o', o' !! "Data" = o !! "Data" ->
      transform_order u o' !! "_sortKey" = transform_order u o !! "_sortKey").
Proof.
  split; [apply transform_order_sort_key|]. split.
  - intros H. rewrite transform_order_sort_key.
    assert (str_field o "Data" = VStr "") as ->
      by (unfold str_field, get_default; destruct H as [-> | ->]; reflexivity).
    reflexivity.
  - intros o' H. rewrite !transform_order_sort_key.
    unfold str_field, get_default. now rewrite H.
Qed.

(** ** The image step *)

Section ImageStep.
Context {env : PyEnv} {run : ImageRun}.





End ImageStep.


(** ** Editing the fields of an order *)

Lemma produce_flag_eq o :
  produce_flag o = normalize_flag_value (py_or (get o "Produce") (get o "Kesildi")).
Proof. reflexivity. Qed.

Lemma edit_field_None cached adm o u :
  edit_field cached adm o u = None <-> clears_produce adm o u = true.
Proof.
  unfold edit_field, clears_produce. rewrite produce_flag_eq. cbn [fst snd].
  destruct (is_checkbox_field u.1); [|split; discriminate]. simpl.
  destruct (is_produce_field u.1 && negb adm
            && normalize_flag_value (py_or (get o "Produce") (get o "Kesildi"))
            && negb (requested_bool u.2)); split; congruence.
Qed.

Lemma sync_ui_field_lookup target x o k :
  sync_ui_field target (<[target := x]> o) !! k =
  if bool_decide (k ∈ target ::
       (if bool_decide (target ∈ ["Kesildi"; "Produce"]) then ["Produce"]
        else if bool_decide (target ∈ ["Hazır"; "Ready"]) then ["Ready"]
        else if bool_decide (target ∈ ["Gönderildi"; "Shipped"]) then ["Shipped"]
        else if bool_decide (target ∈ ["importantnote"; "Note"]) then ["Note"]
        else []))
  then Some x else o !! k.
Proof.
  unfold sync_ui_field, get. rewrite lookup_insert_eq. simpl.
  repeat case_bool_decide; simpl;
    repeat match goal with
           | H : _ ∈ _ :: _ |- _ => apply elem_of_cons in H as [H|H]
           | H : _ ∈ [] |- _ => apply elem_of_nil in H; destruct H
           | H : _ ∉ _ :: _ |- _ => apply not_elem_of_cons in H as [? H]
           end; subst; simplify_map_eq; try reflexivity; try congruence.
Qed.

Lemma edit_field_lookup cached adm o u o' k :
  edit_field cached adm o u = Some o' ->
  o' !! k = if bool_decide (k ∈ edit_targets cached u.1)
            then Some (stored_value u.1 u.2) else o !! k.
Proof.
  unfold edit_field, stored_value, edit_targets.
  destruct (is_checkbox_field u.1).
  - destruct (_ && _); [discriminate|]. intros [= <-]. apply sync_ui_field_lookup.
  - intros [= <-]. apply sync_ui_field_lookup.
Qed.

Lemma field_cases k :
  k ∈ editable_keys
  \/ ((k ∉ editable_keys)
      /\ forall c, edit_targets c k = [k]
                   /\ is_checkbox_field k = false /\ mapped_field k = k).
Proof.
  destruct (decide (k ∈ editable_keys)) as [H|H]; [now left|right].
  split; [exact H|]. intros c.
  assert (forall x, x ∈ editable_keys -> String.eqb x k = false) as N.
  { intros x Hx. apply String.eqb_neq. intros ->. contradiction. }
  assert (mapped_field k = k) as M.
  { unfold mapped_field, field_mapping. cbn [List.find fst snd].
    rewrite !N; [reflexivity|..]; apply (bool_decide_unpack _); vm_compute; exact I. }
  assert (forall l, l ⊆ editable_keys -> bool_decide (k ∈ l) = false) as B.
  { intros l Hl. apply bool_decide_eq_false. intros Hk. apply H. now apply Hl. }
  split; [|split; [|exact M]].
  - unfold edit_targets. rewrite M. destruct c; rewrite !B; try reflexivity;
      apply (bool_decide_unpack _); vm_compute; exact I.
  - unfold is_checkbox_field. rewrite M, !B; [reflexivity|..];
      apply (bool_decide_unpack _); vm_compute; exact I.
Qed.

Lemma editable_keys_cases k :
  k ∈ editable_keys ->
  k = "Produce" \/ k = "Ready" \/ k = "Shipped" \/ k = "Note" \/ k = "Kesildi"
  \/ k = "Hazır" \/ k = "Gönderildi" \/ k = "importantnote".
Proof.
  unfold editable_keys. rewrite !elem_of_cons, elem_of_nil. tauto.
Qed.

Lemma produce_targets c u1 :
  "Produce" ∈ edit_targets c u1 \/ "Kesildi" ∈ edit_targets c u1 ->
  "Produce" ∈ edit_targets c u1
  /\ is_checkbox_field u1 = true /\ is_produce_field u1 = true.
Proof.
  destruct (field_cases u1) as [H|[H F]].
  - apply editable_keys_cases in H.
    destruct c; destruct H as [->|[->|[->|[->|[->|[->|[->| ->]]]]]]]; decide_closed.
  - destruct (F c) as (-> & _ & _). rewrite !list_elem_of_singleton.
    intros [E|E]; exfalso; apply H; rewrite <- E; decide_closed.
Qed.

Lemma edit_field_keeps_produce c o u o' :
  produce_flag o = true -> edit_field c false o u = Some o' -> produce_flag o' = true.
Proof.
  intros Hp He. rewrite produce_flag_eq. unfold get.
  rewrite !(edit_field_lookup _ _ _ _ _ _ He).
  destruct (decide ("Produce" ∈ edit_targets c u.1 \/ "Kesildi" ∈ edit_targets c u.1))
    as [T|T].
  - destruct (produce_targets _ _ T) as (T1 & C & P).
    rewrite (bool_decide_eq_true_2 _ T1).
    assert (clears_produce false o u = false) as G.
    { destruct (clears_produce false o u) eqn:G; [|reflexivity].
      apply edit_field_None with (cached := c) in G. congruence. }
    unfold clears_produce in G. rewrite C, P, Hp in G. simpl in G.
    apply negb_false_iff in G. unfold stored_value. rewrite C, G. reflexivity.
  - rewrite !bool_decide_eq_false_2 by tauto. rewrite produce_flag_eq in Hp. exact Hp.
Qed.

Lemma edit_fields_keeps_produce c updates o :
  produce_flag o = true -> produce_flag (edit_fields c false updates o).1 = true.
Proof.
  revert o. induction updates as [|u updates IH]; intros o Hp; simpl; [exact Hp|].
  destruct (edit_field c false o u) as [o'|] eqn:E; [|exact Hp].
  apply IH. eapply edit_field_keeps_produce; eauto.
Qed.

Lemma edit_fields_lookup c adm updates o o' k :
  edit_fields c adm updates o = (o', true) ->
  o' !! k =
  match last (List.filter (fun u => bool_decide (k ∈ edit_targets c u.1)) updates) with
  | Some u => Some (stored_value u.1 u.2)
  | None => o !! k
  end.
Proof.
  revert o. induction updates as [|u updates IH]; intros o; simpl.
  - now intros [= <-].
  - destruct (edit_field c adm o u) as [o1|] eqn:E; [|discriminate].
    intros H. rewrite (IH _ H). rewrite (edit_field_lookup _ _ _ _ _ k E).
    destruct (bool_decide (k ∈ edit_targets c u.1)); simpl.
    + destruct (List.filter _ updates) as [|w ws] eqn:F; [reflexivity|].
      rewrite (last_cons u (w :: ws)). destruct (last (w :: ws)); reflexivity.
    + reflexivity.
Qed.

Lemma edit_fields_stops c adm updates o o' :
  edit_fields c adm updates o = (o', false) ->
  exists pre u post,
    updates = pre ++ u :: post
    /\ edit_fields c adm pre o = (o', true)
    /\ clears_produce adm o' u = true.
Proof.
  revert o. induction updates as [|u updates IH]; intros o; simpl; [discriminate|].
  destruct (edit_field c adm o u) as [o1|] eqn:E.
  - intros H. destruct (IH _ H) as (pre & w & post & -> & Hpre & G).
    exists (u :: pre), w, post. split; [reflexivity|]. split; [|exact G].
    simpl. now rewrite E.
  - intros [= <-]. exists [], u, updates. split; [reflexivity|]. split; [reflexivity|].
    now apply edit_field_None with (cached := c).
Qed.


Lemma pair_targets f b u1 :
  In (f, b) EDITABLE_FIELD_GROUPS ->
  bool_decide (f ∈ edit_targets true u1) = (String.eqb u1 f || String.eqb u1 b)
  /\ bool_decide (b ∈ edit_targets true u1) = (String.eqb u1 f || String.eqb u1 b).
Proof.
  intros Hg. destruct (field_cases u1) as [H|[H F]].
  - apply editable_keys_cases in H. unfold EDITABLE_FIELD_GROUPS in Hg.
    destruct Hg as [G|[G|[G|[G|[]]]]]; injection G as <- <-;
      destruct H as [->|[->|[->|[->|[->|[->|[->| ->]]]]]]]; decide_closed.
  - destruct (F true) as (-> & _ & _).
    destruct (editable_group_keys f b Hg) as [Kf Kb].
    assert (String.eqb u1 f = false) as -> by (apply String.eqb_neq; intros ->; contradiction).
    assert (String.eqb u1 b = false) as -> by (apply String.eqb_neq; intros ->; contradiction).
    split; apply bool_decide_eq_false; rewrite list_elem_of_singleton; intros ->; contradiction.
Qed.

Lemma id_keys_not_targets c u1 k :
  k = "transaction" \/ k = "Transaction ID" \/ k = "__manualId" \/ k = "isManual" ->
  u1 <> k -> k ∉ edit_targets c u1.
Proof.
  intros Hk Hne. destruct (field_cases u1) as [H|[H F]].
  - apply editable_keys_cases in H.
    destruct c; destruct Hk as [->|[->|[->| ->]]];
      destruct H as [->|[->|[->|[->|[->|[->|[->| ->]]]]]]]; decide_closed.
  - destruct (F c) as (-> & _ & _). rewrite list_elem_of_singleton. congruence.
Qed.

Lemma touched_keys_spec c updates k :
  k ∈ touched_keys c updates <-> exists u, In u updates /\ k ∈ edit_targets c u.1.
Proof.
  unfold touched_keys. rewrite list_elem_of_In, in_flat_map.
  split; intros (u & H1 & H2); exists u; split; auto; now apply list_elem_of_In.
Qed.

Lemma edit_fields_untouched c adm updates o k :
  k ∉ touched_keys c updates -> (edit_fields c adm updates o).1 !! k = o !! k.
Proof.
  revert o. induction updates as [|u updates IH]; intros o H; simpl; [reflexivity|].
  destruct (edit_field c adm o u) as [o1|] eqn:E; [|reflexivity].
  rewrite IH.
  - rewrite (edit_field_lookup _ _ _ _ _ k E). rewrite bool_decide_eq_false_2; [reflexivity|].
    intros Hk. apply H. apply touched_keys_spec. exists u. split; [now left|exact Hk].
  - intros Hk. apply H. apply touched_keys_spec. apply touched_keys_spec in Hk as (w & Hw & Hk).
    exists w. split; [now right|exact Hk].
Qed.

Lemma sort_key_untouched (o : order) k v : k <> "_sortKey" -> <["_sortKey" := v]> o !! k = o !! k.
Proof. intros H. now rewrite lookup_insert_ne by congruence. Qed.

Section EditEndpoint.
Context {env : PyEnv}.
Variables (timestamp : string) (utcnow : datetime) (is_admin : bool) (transaction : string)
          (updates : list (string * pyval)) (st : app_state).

Local Notation cache := (orders_cache (app_cache st)).
Local Notation manual := (manual_orders (app_manual st)).
Local Notation result := (edit_order_fields timestamp utcnow is_admin transaction updates st).

Lemma edit_cached_result i o :
  list_find (fun o => edit_transaction o = transaction) cache = Some (i, o) ->
  result =
  let o' := (edit_fields true is_admin updates o).1 in
  if (edit_fields true is_admin updates o).2 then
    (mk_app (mk_cache (<[i := o']> cache) (Some (<[i := o']> cache))) (app_manual st)
       (update_order_completion_tracking timestamp o' (VStr transaction) (app_log st)),
     Ok (map (fun u => mapped_field u.1) updates))
  else
    (mk_app (mk_cache (<[i := o']> cache) (cache_file (app_cache st))) (app_manual st)
       (app_log st),
     HTTPException 403).
Proof.
  intros F. unfold edit_order_fields. rewrite F.
  destruct (edit_fields true is_admin updates o) as [o' fin]. now destruct fin.
Qed.

Lemma edit_manual_result i m :
  list_find (fun o => edit_transaction o = transaction) cache = None ->
  list_find (fun o => py_str (get o "transaction") = transaction) manual = Some (i, m) ->
  dict_truthy m = true ->
  result =
  let o' := (edit_fields false is_admin updates m).1 in
  if (edit_fields false is_admin updates m).2 then
    let o'' := <["_sortKey" := VStr (determine_sort_key utcnow o')]> o' in
    (mk_app (app_cache st)
       (mk_manual (<[i := o'']> manual) (Some (<[i := o'']> manual)))
       (update_order_completion_tracking timestamp o'' (VStr transaction) (app_log st)),
     Ok (map (fun u => mapped_field u.1) updates))
  else
    (mk_app (app_cache st) (mk_manual (<[i := o']> manual) (manual_orders_file (app_manual st)))
       (app_log st),
     HTTPException 403).
Proof.
  intros F1 F2 T. unfold edit_order_fields. rewrite F1, F2, T.
  destruct (edit_fields false is_admin updates m) as [o' fin]. now destruct fin.
Qed.

Lemma edit_not_found :
  list_find (fun o => edit_transaction o = transaction) cache = None ->
  (forall i m, list_find (fun o => py_str (get o "transaction") = transaction) manual
               = Some (i, m) -> dict_truthy m = false) ->
  result = (st, HTTPException 404).
Proof.
  intros F1 F2. unfold edit_order_fields. rewrite F1.
  destruct (list_find _ manual) as [[i m]|] eqn:F; [|reflexivity].
  now rewrite (F2 i m eq_refl).
Qed.

End EditEndpoint.

Lemma surjective_pair_eq {A B} (p : A * B) a b : p.1 = a -> p.2 = b -> p = (a, b).
Proof. destruct p. simpl. congruence. Qed.

(** X13.  A request the edit endpoint accepts changes one order in place:
    the first cached order whose transaction text is the one asked for
    (no cached order before it matches), or, when no cached order matches,
    the first manual order with that transaction (no manual order before
    it has it).  Every other order keeps its place and content, the order
    itself keeps every key the request does not write (for a manual order
    [_sortKey] is recomputed), the list that holds it is saved to its
    file, and the completion log is brought up to date, so that the stored
    state of the transaction equals the completion of the edited order. *)
Theorem edit_order_fields_success (env : PyEnv) (timestamp : string) (utcnow : datetime)
    (is_admin : bool) (transaction : string) (updates : list (string * pyval))
    (st st' : app_state) (updated_fields : list string) :
  edit_order_fields timestamp utcnow is_admin transaction updates st
  = (st', Ok updated_fields) ->
  updated_fields = map (fun u => mapped_field u.1) updates
  /\ ((exists i o o',
         orders_cache (app_cache st) !! i = Some o
         /\ edit_transaction o = transaction
         /\ (forall j y, orders_cache (app_cache st) !! j = Some y -> (j < i)%nat ->
                         edit_transaction y <> transaction)
         /\ orders_cache (app_cache st') = <[i := o']> (orders_cache (app_cache st))
         /\ cache_file (app_cache st') = Some (orders_cache (app_cache st'))
         /\ app_manual st' = app_manual st
         /\ (forall k, k ∉ touched_keys true updates -> o' !! k = o !! k)
         /\ app_log st'
            = update_order_completion_tracking timestamp o' (VStr transaction) (app_log st)
         /\ (transaction <> "" ->
             from_option is_complete false (app_log st' !! transaction)
             = is_order_marked_complete o'))
      \/ (exists i m m',
            (forall y, In y (orders_cache (app_cache st)) -> edit_transaction y <> transaction)
            /\ manual_orders (app_manual st) !! i = Some m
            /\ py_str (get m "transaction") = transaction
            /\ (forall j y, manual_orders (app_manual st) !! j = Some y -> (j < i)%nat ->
                            py_str (get y "transaction") <> transaction)
            /\ manual_orders (app_manual st') = <[i := m']> (manual_orders (app_manual st))
            /\ manual_orders_file (app_manual st') = Some (manual_orders (app_manual st'))
            /\ app_cache st' = app_cache st
            /\ (forall k, k ∉ touched_keys false updates -> k <> "_sortKey" ->
                          m' !! k = m !! k)
            /\ app_log st'
               = update_order_completion_tracking timestamp m' (VStr transaction) (app_log st)
            /\ (transaction <> "" ->
                from_option is_complete false (app_log st' !! transaction)
                = is_order_marked_complete m'))).
Proof.
  intros H.
  assert (forall o, transaction <> "" ->
            from_option is_complete false
              (update_order_completion_tracking timestamp o (VStr transaction) (app_log st)
               !! transaction) = is_order_marked_complete o) as Sync.
  { intros o Ht. apply tracking_in_sync.
    unfold get_order_identifier, identifier_candidates. cbn [List.find].
    rewrite VStr_truthy by assumption. reflexivity. }
  destruct (list_find (fun o => edit_transaction o = transaction) (orders_cache (app_cache st)))
    as [[i o]|] eqn:F.
  - rewrite (edit_cached_result _ _ _ _ _ _ i o F) in H. cbv zeta in H.
    destruct (edit_fields true is_admin updates o).2 eqn:Fin; [|discriminate].
    injection H as <- <-. split; [reflexivity|]. left.
    apply list_find_Some in F as (F1 & F2 & F3).
    exists i, o, (edit_fields true is_admin updates o).1. simpl.
    split; [exact F1|]. split; [exact F2|]. split; [exact F3|].
    split; [reflexivity|]. split; [reflexivity|]. split; [reflexivity|].
    split; [intros k Hk; now apply edit_fields_untouched|].
    split; [reflexivity|]. apply Sync.
  - destruct (list_find (fun o => py_str (get o "transaction") = transaction)
                (manual_orders (app_manual st))) as [[i m]|] eqn:F2.
    + destruct (dict_truthy m) eqn:T.
      * rewrite (edit_manual_result _ _ _ _ _ _ i m F F2 T) in H. cbv zeta in H.
        destruct (edit_fields false is_admin updates m).2 eqn:Fin; [|discriminate].
        injection H as <- <-. split; [reflexivity|]. right.
        apply list_find_Some in F2 as (G1 & G2 & G3).
        exists i, m, (<["_sortKey" := VStr (determine_sort_key utcnow
                                       (edit_fields false is_admin updates m).1)]>
                     (edit_fields false is_admin updates m).1). simpl.
        split.
        { intros y Hy. apply list_elem_of_In in Hy.
          eapply list_find_None in F. rewrite Forall_forall in F. now apply F. }
        split; [exact G1|]. split; [exact G2|]. split; [exact G3|].
        split; [reflexivity|]. split; [reflexivity|]. split; [reflexivity|].
        split.
        { intros k Hk Hs. rewrite sort_key_untouched by assumption.
          now apply edit_fields_untouched. }
        split; [reflexivity|]. apply Sync.
      * unfold edit_order_fields in H. rewrite F, F2, T in H. discriminate.
    + unfold edit_order_fields in H. rewrite F, F2 in H. discriminate.
Qed.

Lemma edit_order_fields_success_witness :
  let r := edit_order_fields (env := sample_env) sample_stamp sample_now true "T1" set_produce
             one_order_state in
  r = (r.1, Ok ["Kesildi"])
  /\ ["Kesildi"] = map (fun u => mapped_field u.1) set_produce
  /\ orders_cache (app_cache r.1)
     = [<["Produce" := VStr "TRUE"]> (<["Kesildi" := VStr "TRUE"]> sheet_default_row)]
  /\ cache_file (app_cache r.1) = Some (orders_cache (app_cache r.1)).
Proof.
  intros r.
  assert (r = (r.1, Ok ["Kesildi"])) as H by (vm_compute; reflexivity).
  split; [exact H|].
  destruct (edit_order_fields_success sample_env sample_stamp sample_now true "T1" set_produce
              one_order_state r.1 ["Kesildi"] H) as [E _].
  split; [exact E|]. split; vm_compute; reflexivity.
Defined.

(** X14.  A request the edit endpoint refuses is answered 404 or 403.  On
    404 nothing at all has changed.  403 is raised only for a user who is
    not an admin, at the round that asks to clear a Produce flag that is
    set; the rounds before it have already changed the order in memory,
    but neither file is written and the completion log is left alone. *)
Theorem edit_order_fields_refused (env : PyEnv) (timestamp : string) (utcnow : datetime)
    (is_admin : bool) (transaction : string) (updates : list (string * pyval))
    (st st' : app_state) (status_code : nat) :
  edit_order_fields timestamp utcnow is_admin transaction updates st
  = (st', HTTPException status_code) ->
  (status_code = 404%nat /\ st' = st
   /\ forall y, In y (orders_cache (app_cache st)) -> edit_transaction y <> transaction)
  \/ (status_code = 403%nat /\ is_admin = false
      /\ cache_file (app_cache st') = cache_file (app_cache st)
      /\ manual_orders_file (app_manual st') = manual_orders_file (app_manual st)
      /\ app_log st' = app_log st
      /\ exists pre u post cached i o o',
           updates = pre ++ u :: post
           /\ edit_fields cached false pre o = (o', true)
           /\ clears_produce false o' u = true
           /\ (if cached
               then orders_cache (app_cache st) !! i = Some o
                    /\ orders_cache (app_cache st') = <[i := o']> (orders_cache (app_cache st))
                    /\ app_manual st' = app_manual st
               else manual_orders (app_manual st) !! i = Some o
                    /\ manual_orders (app_manual st')
                       = <[i := o']> (manual_orders (app_manual st))
                    /\ orders_cache (app_cache st') = orders_cache (app_cache st))).
Proof.
  intros H.
  assert (forall c o o', edit_fields c is_admin updates o = (o', false) ->
            is_admin = false /\ exists pre u post,
              updates = pre ++ u :: post /\ edit_fields c false pre o = (o', true)
              /\ clears_produce false o' u = true) as Stop.
  { intros c o o' E. destruct (edit_fields_stops _ _ _ _ _ E) as (pre & u & post & E1 & E2 & E3).
    assert (is_admin = false) as ->.
    { unfold clears_produce in E3. destruct is_admin; [|reflexivity].
      now rewrite !andb_false_r in E3. }
    split; [reflexivity|]. exists pre, u, post. auto. }
  destruct (list_find (fun o => edit_transaction o = transaction) (orders_cache (app_cache st)))
    as [[i o]|] eqn:F.
  - rewrite (edit_cached_result _ _ _ _ _ _ i o F) in H. cbv zeta in H.
    destruct (edit_fields true is_admin updates o) as [o' fin] eqn:E. simpl in H.
    destruct fin; [discriminate|]. injection H as <- <-. right.
    destruct (Stop _ _ _ E) as (-> & pre & u & post & E1 & E2 & E3).
    apply list_find_Some in F as (F1 & _ & _). simpl.
    split; [reflexivity|]. split; [reflexivity|]. split; [reflexivity|].
    split; [reflexivity|]. split; [reflexivity|].
    exists pre, u, post, true, i, o, o'. simpl. repeat split; auto.
  - assert (forall y, In y (orders_cache (app_cache st)) -> edit_transaction y <> transaction)
      as NF.
    { intros y Hy. apply list_elem_of_In in Hy.
      eapply list_find_None in F. rewrite Forall_forall in F. now apply F. }
    destruct (list_find (fun o => py_str (get o "transaction") = transaction)
                (manual_orders (app_manual st))) as [[i m]|] eqn:F2.
    + destruct (dict_truthy m) eqn:T.
      * rewrite (edit_manual_result _ _ _ _ _ _ i m F F2 T) in H. cbv zeta in H.
        destruct (edit_fields false is_admin updates m) as [o' fin] eqn:E. simpl in H.
        destruct fin; [discriminate|]. injection H as <- <-. right.
        destruct (Stop _ _ _ E) as (-> & pre & u & post & E1 & E2 & E3).
        apply list_find_Some in F2 as (G1 & _ & _). simpl.
        split; [reflexivity|]. split; [reflexivity|]. split; [reflexivity|].
        split; [reflexivity|]. split; [reflexivity|].
        exists pre, u, post, false, i, m, o'. simpl. repeat split; auto.
      * unfold edit_order_fields in H. rewrite F, F2, T in H. injection H as <- <-.
        left. auto.
    + unfold edit_order_fields in H. rewrite F, F2 in H. injection H as <- <-.
      left. auto.
Qed.

Lemma edit_order_fields_refused_witness :
  let r := edit_order_fields (env := sample_env) sample_stamp sample_now false "T1"
             note_then_clear edited_state in
  r = (r.1, HTTPException 403)
  /\ cache_file (app_cache r.1) = None
  /\ app_log r.1 = ∅
  /\ orders_cache (app_cache r.1)
     = [<["Note" := VStr "call the buyer"]>
          (<["importantnote" := VStr "call the buyer"]> edited_order)].
Proof.
  intros r.
  assert (r = (r.1, HTTPException 403)) as H by (vm_compute; reflexivity).
  split; [exact H|].
  destruct (edit_order_fields_refused sample_env sample_stamp sample_now false "T1"
              note_then_clear edited_state r.1 403%nat H)
    as [(E & _)|(_ & _ & E1 & _ & E2 & _)]; [discriminate E|].
  split; [exact E1|]. split; [exact E2|]. vm_compute. reflexivity.
Defined.

Lemma produce_flag_insert_other (o : order) k v :
  k <> "Produce" -> k <> "Kesildi" -> produce_flag (<[k := v]> o) = produce_flag o.
Proof.
  intros H1 H2. rewrite !produce_flag_eq. unfold get.
  now rewrite !lookup_insert_ne by congruence.
Qed.

Lemma insert_keeps_produce (l : list order) j x' :
  (forall x, l !! j = Some x -> produce_flag x = true -> produce_flag x' = true) ->
  forall i o, l !! i = Some o -> produce_flag o = true ->
    exists o', <[j := x']> l !! i = Some o' /\ produce_flag o' = true.
Proof.
  intros Hx i o Hi Ho. destruct (decide (i = j)) as [->|N].
  - exists x'. split; [apply list_lookup_insert_eq; now apply lookup_lt_Some in Hi|].
    now apply (Hx o).
  - exists o. now rewrite list_lookup_insert_ne by congruence.
Qed.

(** X15.  Whatever a user who is not an admin sends to the edit endpoint,
    and whether the request is accepted or refused, every order, cached or
    manual, whose Produce flag was set still has it set afterwards. *)
Theorem edit_cannot_clear_produce (env : PyEnv) (timestamp : string) (utcnow : datetime)
    (transaction : string) (updates : list (string * pyval)) (st : app_state) :
  let st' := (edit_order_fields timestamp utcnow false transaction updates st).1 in
  (forall i o, orders_cache (app_cache st) !! i = Some o -> produce_flag o = true ->
     exists o', orders_cache (app_cache st') !! i = Some o' /\ produce_flag o' = true)
  /\ (forall i m, manual_orders (app_manual st) !! i = Some m -> produce_flag m = true ->
        exists m', manual_orders (app_manual st') !! i = Some m' /\ produce_flag m' = true).
Proof.
  intros st'. subst st'.
  destruct (list_find (fun o => edit_transaction o = transaction) (orders_cache (app_cache st)))
    as [[j x]|] eqn:F.
  - rewrite (edit_cached_result _ _ _ _ _ _ j x F). cbv zeta.
    apply list_find_Some in F as (F1 & _ & _).
    assert (forall y, orders_cache (app_cache st) !! j = Some y -> produce_flag y = true ->
                      produce_flag (edit_fields true false updates x).1 = true) as K.
    { intros y Hy Hp. assert (y = x) as -> by congruence.
      now apply edit_fields_keeps_produce. }
    destruct (edit_fields true false updates x).2; simpl;
      (split; [now apply insert_keeps_produce|eauto]).
  - destruct (list_find (fun o => py_str (get o "transaction") = transaction)
                (manual_orders (app_manual st))) as [[j m]|] eqn:F2.
    + destruct (dict_truthy m) eqn:T.
      * rewrite (edit_manual_result _ _ _ _ _ _ j m F F2 T). cbv zeta.
        apply list_find_Some in F2 as (G1 & _ & _).
        assert (forall y, manual_orders (app_manual st) !! j = Some y -> produce_flag y = true ->
                          produce_flag (edit_fields false false updates m).1 = true) as K.
        { intros y Hy Hp. assert (y = m) as -> by congruence.
          now apply edit_fields_keeps_produce. }
        destruct (edit_fields false false updates m).2; simpl;
          (split; [eauto|apply insert_keeps_produce]); [|exact K].
        intros y Hy Hp. rewrite produce_flag_insert_other by discriminate. now apply (K y).
      * unfold edit_order_fields. rewrite F, F2, T. simpl. split; eauto.
    + unfold edit_order_fields. rewrite F, F2. simpl. split; eauto.
Qed.

Lemma edit_fields_pairs (is_admin : bool) (updates : list (string * pyval)) (o o' : order)
    (f b : string) :
  edit_fields true is_admin updates o = (o', true) ->
  In (f, b) EDITABLE_FIELD_GROUPS ->
  match last_update f b updates with
  | Some u => o' !! f = Some (stored_value u.1 u.2)
              /\ o' !! b = Some (stored_value u.1 u.2)
  | None => o' !! f = o !! f /\ o' !! b = o !! b
  end.
Proof.
  intros H Hg. unfold last_update.
  rewrite (edit_fields_lookup _ _ _ _ _ f H), (edit_fields_lookup _ _ _ _ _ b H).
  rewrite (filter_ext (fun u => bool_decide (f ∈ edit_targets true u.1))
             (fun u => String.eqb u.1 f || String.eqb u.1 b))
    by (intros u; apply (pair_targets f b u.1 Hg)).
  rewrite (filter_ext (fun u => bool_decide (b ∈ edit_targets true u.1))
             (fun u => String.eqb u.1 f || String.eqb u.1 b))
    by (intros u; apply (pair_targets f b u.1 Hg)).
  destruct (last _); auto.
Qed.

(** X16.  When the loop over the request runs to its end, a key of the
    order holds what the last round that writes it stored (the flag
    literal for a checkbox field, the text of the value otherwise), and is
    untouched if no round writes it.  On a cached order each editable pair
    is written under both its names at once, whichever name the request
    uses: after the loop the two names hold the same value. *)
Theorem edit_loop_last_writer_wins (cached is_admin : bool) (updates : list (string * pyval))
    (o o' : order) :
  edit_fields cached is_admin updates o = (o', true) ->
  (forall k,
      o' !! k =
      match last (List.filter (fun u => bool_decide (k ∈ edit_targets cached u.1)) updates) with
      | Some u => Some (stored_value u.1 u.2)
      | None => o !! k
      end)
  /\ (cached = true ->
      forall f b, In (f, b) EDITABLE_FIELD_GROUPS ->
        match last_update f b updates with
        | Some u => o' !! f = Some (stored_value u.1 u.2)
                    /\ o' !! b = Some (stored_value u.1 u.2)
        | None => o' !! f = o !! f /\ o' !! b = o !! b
        end).
Proof.
  intros H. split; [intros k; now apply edit_fields_lookup with is_admin|].
  intros -> f b Hg. now apply edit_fields_pairs with is_admin.
Qed.

Lemma edit_loop_last_writer_wins_witness :
  let updates := [ ("Produce", VStr "true"); ("Kesildi", VStr "no") ] in
  let o' := (edit_fields true true updates sheet_default_row).1 in
  edit_fields true true updates sheet_default_row = (o', true)
  /\ o' !! "Produce" = Some (VStr "FALSE") /\ o' !! "Kesildi" = Some (VStr "FALSE").
Proof.
  intros updates o'.
  assert (edit_fields true true updates sheet_default_row = (o', true)) as H
    by (vm_compute; reflexivity).
  split; [exact H|].
  destruct (edit_loop_last_writer_wins true true updates sheet_default_row o' H) as [_ P].
  exact (P eq_refl "Produce" "Kesildi" (or_introl eq_refl)).
Defined.

(** ** An edit is held under both names *)

Lemma holds_keeps_edit f b v x : holds_edit f b v x -> keeps_edit f b v x.
Proof. intros [H1 H2]. split; [exact H1|now right]. Qed.

Lemma preserve_holds_edit f b v o e :
  In (f, b) EDITABLE_FIELD_GROUPS -> v <> VNone ->
  dict_truthy o = true -> dict_truthy e = true ->
  holds_edit f b v e -> holds_edit f b v (preserve_editable_fields o e).
Proof.
  intros Hg Hv Ho He Hk. apply holds_keeps_edit, keeps_edit_preserved_value in Hk.
  assert (forall k, (k = f \/ k = b) ->
                    preserve_editable_fields o e !! k = Some v) as H.
  { intros k Hkey. rewrite preserve_lookup by assumption.
    unfold EDITABLE_FIELD_GROUPS in *. cbn [fold_left].
    destruct Hg as [G|[G|[G|[G|[]]]]]; injection G as <- <-;
      destruct Hkey as [-> | ->]; unfold preserve_key; cbn [fst snd];
      rewrite Hk; destruct v; try congruence; reflexivity. }
  split; apply H; auto.
Qed.

Lemma photo_only_holds_edit f b v o o' :
  In (f, b) EDITABLE_FIELD_GROUPS -> photo_only o o' ->
  holds_edit f b v o -> holds_edit f b v o'.
Proof.
  intros Hg P [H1 H2]. unfold holds_edit.
  assert (f <> "photo" /\ b <> "photo") as [Nf Nb].
  { unfold EDITABLE_FIELD_GROUPS in Hg.
    destruct Hg as [G|[G|[G|[G|[]]]]]; injection G as <- <-; split; discriminate. }
  now rewrite !(photo_only_lookup _ _ _ P) by assumption.
Qed.

Lemma edit_held_images t f b v sel l l' :
  In (f, b) EDITABLE_FIELD_GROUPS ->
  Forall2 (image_step sel) l l' -> edit_held t f b v l -> edit_held t f b v l'.
Proof.
  intros Hg H2 [(w & Hw & Ew) Hall].
  assert (forall a a', image_step sel a a' -> photo_only a a') as Himp.
  { intros a a' [->|[_ P]]; [apply photo_only_refl|exact P]. }
  split.
  - apply list_elem_of_In in Hw. apply list_elem_of_lookup in Hw as [i Hi].
    destruct (Forall2_lookup_l _ _ _ _ _ H2 Hi) as (w' & Hi' & S).
    exists w'. split.
    + apply list_elem_of_In, list_elem_of_lookup. now exists i.
    + now rewrite (photo_only_cache_transaction _ _ (Himp _ _ S)).
  - intros x' Hx' Ex'. apply list_elem_of_In in Hx'.
    apply list_elem_of_lookup in Hx' as [i Hi].
    destruct (Forall2_lookup_r _ _ _ _ _ H2 Hi) as (x & Hx & S).
    apply Himp in S. apply (photo_only_holds_edit f b v x x' Hg S).
    apply Hall.
    + apply list_elem_of_In, list_elem_of_lookup. now exists i.
    + now rewrite <- (photo_only_cache_transaction _ _ S).
Qed.

Lemma edit_held_photo_only t f b v l l' :
  In (f, b) EDITABLE_FIELD_GROUPS ->
  Forall2 photo_only l l' -> edit_held t f b v l -> edit_held t f b v l'.
Proof.
  intros Hg H2. apply (edit_held_images t f b v (fun _ => true)); [exact Hg|].
  eapply Forall2_impl; [exact H2|]. intros a a' P. right. now split.
Qed.

Section EditHeld.
Context {env : PyEnv} {run : ImageRun}.
Variables (t f b : string) (v : pyval).
Hypothesis t_nonempty : t <> "".
Hypothesis editable : In (f, b) EDITABLE_FIELD_GROUPS.
Hypothesis v_some : v <> VNone.

(** A fetched row with id [t], merged with the edits of a cached row that
    the lookup found, carries the edit. *)
Lemma held_after_lookup cache o e :
  edit_held t f b v cache ->
  has_transaction o = true ->
  In e cache -> py_eqb (cache_transaction e) (VStr t) = true ->
  holds_edit f b v (preserve_editable_fields o e).
Proof.
  intros [_ Hall] Ho He Ee. rewrite py_eqb_sym in Ee. apply py_eqb_str in Ee.
  apply preserve_holds_edit; try assumption.
  - now apply has_transaction_truthy.
  - apply has_transaction_truthy. now apply has_transaction_of_id with t.
  - now apply Hall.
Qed.

Lemma merged_cache_edit_held cache new :
  edit_held t f b v cache -> Forall coherent_ids new ->
  edit_held t f b v (merged_cache cache new).
Proof.
  intros K Hco. pose proof K as [(c & Hc & Ec) Hall].
  assert (has_transaction c = true) as Tc by now apply has_transaction_of_id with t.
  rewrite merged_cache_eq.
  set (rows := first_rows [] new).
  assert (forall o, In o rows -> In o new /\ has_transaction o = true) as Hrows
    by (intros o; apply first_rows_In).
  split.
  - destruct (id_in (VStr t) (map sheet_transaction rows)) eqn:M.
    + apply id_in_true in M as (y & Hy & E). apply py_eqb_str in E. subst y.
      apply in_map_iff in Hy as (o & Eo & Ho).
      exists (with_edits cache o). split; [apply in_or_app; left; now apply in_map|].
      destruct (Hrows o Ho) as [Hn To].
      rewrite List.Forall_forall in Hco.
      unfold with_edits. destruct (List.find _ cache);
        rewrite ?preserve_cache_transaction, <- (Hco o Hn To); exact Eo.
    + exists c. split; [|exact Ec]. apply in_or_app. right.
      apply missing_from_In. rewrite Ec. auto.
  - intros x Hx Ex. apply in_app_or in Hx as [Hx|Hx].
    + apply in_map_iff in Hx as (o & <- & Ho). destruct (Hrows o Ho) as [Hn To].
      rewrite List.Forall_forall in Hco. pose proof (Hco o Hn To) as Co.
      unfold with_edits in *.
      destruct (List.find (matches_transaction (sheet_transaction o)) cache) as [e|] eqn:F.
      * rewrite preserve_cache_transaction in Ex.
        apply find_matches_transaction in F as (F1 & F2 & F3).
        rewrite Co, Ex in F3. now apply (held_after_lookup cache).
      * exfalso. rewrite Co, Ex in F.
        destruct (find_matches_exists (VStr t) cache c Hc Tc) as [e E];
          [rewrite Ec; apply py_eqb_refl|congruence].
    + apply missing_from_In in Hx as [Hx _]. now apply Hall.
Qed.

Lemma synced_cache_edit_held clock cache new :
  edit_held t f b v cache ->
  edit_held t f b v (synced_cache clock cache new).
Proof.
  intros K. pose proof K as [(c & Hc & Ec) Hall].
  assert (has_transaction c = true) as Tc by now apply has_transaction_of_id with t.
  destruct (synced_cache_eq clock cache new) as (ids & Hids & ->).
  set (rows := List.filter has_transaction (take 20 (sorted_by_date clock new))) in *.
  split.
  - destruct (id_in (VStr t) ids) eqn:M.
    + rewrite Hids in M. apply id_in_true in M as (y & Hy & E).
      apply py_eqb_str in E. subst y. apply in_map_iff in Hy as (o & Eo & Ho).
      exists (with_last_edits cache o). split; [apply in_or_app; left; now apply in_map|].
      unfold with_last_edits. destruct (List.find _ (rev cache));
        rewrite ?preserve_cache_transaction; exact Eo.
    + exists c. split; [|exact Ec]. apply in_or_app. right.
      apply missing_from_In. rewrite Ec. auto.
  - intros x Hx Ex. apply in_app_or in Hx as [Hx|Hx].
    + apply in_map_iff in Hx as (o & <- & Ho). apply filter_In in Ho as [_ To].
      unfold with_last_edits in *.
      destruct (List.find (matches_transaction (cache_transaction o)) (rev cache))
        as [e|] eqn:F.
      * rewrite preserve_cache_transaction in Ex.
        apply find_matches_transaction in F as (F1 & F2 & F3).
        rewrite Ex in F3. apply in_rev in F1. now apply (held_after_lookup cache).
      * exfalso. rewrite Ex in F.
        destruct (find_matches_exists (VStr t) (rev cache) c) as [e E];
          [now apply in_rev in Hc|exact Tc|rewrite Ec; apply py_eqb_refl|congruence].
    + apply missing_from_In in Hx as [Hx _]. now apply Hall.
Qed.

End EditHeld.

Section EditHeldIncremental.
Context {env : PyEnv} {run : ImageRun}.
Variables (t f b : string) (v : pyval).
Hypothesis t_nonempty : t <> "".
Hypothesis editable : In (f, b) EDITABLE_FIELD_GROUPS.
Hypothesis v_some : v <> VNone.

Lemma incremental_edit_held new st :
  edit_held t f b v (orders_cache st) -> Forall coherent_ids new ->
  edit_held t f b v (orders_cache (incremental_update_cache (Some new) st).1).
Proof.
  intros K Hco. pose proof K as [(c & Hc & Ec) _].
  assert (has_transaction c = true) as Tc by now apply has_transaction_of_id with t.
  rewrite List.Forall_forall in Hco.
  apply (incremental_invariant (edit_held t f b v)); [exact K|..].
  - intros l o [(w & Hw & Ew) Hall] Hn To Hnew. split.
    + exists w. split; [apply in_or_app; now left|exact Ew].
    + intros x Hx Ex. apply in_app_or in Hx as [Hx|[->|[]]]; [now apply Hall|].
      exfalso. apply limit_orders_In in Hn.
      rewrite (Hco x Hn To), Ex in Hnew.
      unfold current_transaction_ids in Hnew. rewrite current_ids_id_in in Hnew.
      unfold id_in at 1 in Hnew. cbn [existsb orb] in Hnew.
      assert (existsb (fun e => has_transaction e && py_eqb (VStr t) (cache_transaction e))
                (orders_cache st) = true) as Hex.
      { apply existsb_exists. exists c. split; [exact Hc|]. rewrite Tc, Ec. apply py_eqb_refl. }
      congruence.
  - intros l i o e x Kl Hn To He Ee Hi Exe. pose proof Kl as [(w & Hw & Ew) Hall].
    apply limit_orders_In in Hn. pose proof (Hco o Hn To) as Co.
    assert (cache_transaction (preserve_editable_fields o e) = VStr t ->
            holds_edit f b v (preserve_editable_fields o e)) as Hnewrow.
    { rewrite preserve_cache_transaction. intros Eo. rewrite Co, Eo in Ee.
      now apply (held_after_lookup t f b v t_nonempty editable v_some l). }
    split.
    + destruct (decide (w = x)) as [->|Hne].
      * exists (preserve_editable_fields o e). split.
        -- apply list_elem_of_In, list_elem_of_lookup. exists i.
           apply list_lookup_insert_eq. now apply lookup_lt_Some in Hi.
        -- rewrite preserve_cache_transaction, <- Co.
           apply order_py_eqb_transaction in Exe. rewrite Ew in Exe.
           apply py_eqb_str in Exe. rewrite Exe in Ee.
           now apply py_eqb_str in Ee.
      * exists w. split; [|exact Ew].
        apply list_elem_of_In in Hw. apply list_elem_of_lookup in Hw as [j Hj].
        apply list_elem_of_In, list_elem_of_lookup. exists j.
        rewrite list_lookup_insert_ne; [exact Hj|]. intros <-. congruence.
    + intros y Hy Ey. apply In_list_insert in Hy as [->|Hy]; [now apply Hnewrow|].
      now apply Hall.
  - intros l l' Kl H2. now apply (edit_held_images t f b v has_transaction l l').
Qed.

End EditHeldIncremental.

Section EditSurvives.
Context {env : PyEnv} {run : ImageRun}.

Lemma merges_hold_edit dl clock batch cs t f b v :
  t <> "" -> In (f, b) EDITABLE_FIELD_GROUPS -> v <> VNone ->
  edit_held t f b v (orders_cache cs) -> Forall coherent_ids batch ->
  edit_held t f b v (orders_cache (update_cache dl (Some batch) cs).1)
  /\ edit_held t f b v (orders_cache (incremental_update_cache (Some batch) cs).1)
  /\ edit_held t f b v (orders_cache (sync_latest_orders clock (Some batch) cs).1).
Proof.
  intros Ht Hg Hv K Hco.
  assert (Forall coherent_ids (limit_orders batch)) as Hco'.
  { rewrite List.Forall_forall in *. intros o Ho. apply Hco. now apply limit_orders_In. }
  split; [|split].
  - unfold update_cache. destruct startup_mode; [exact K|].
    pose proof (merged_cache_edit_held t f b v Ht Hg Hv (orders_cache cs) _ K Hco') as M.
    destruct dl; [|exact M].
    pose proof (download_order_images_spec
                  (merged_cache (orders_cache cs) (limit_orders batch))) as D.
    destruct (download_order_images _) as [c fin]. simpl in D.
    destruct fin; simpl; eapply edit_held_photo_only; eauto.
  - now apply incremental_edit_held.
  - unfold sync_latest_orders.
    pose proof (synced_cache_edit_held t f b v Ht Hg Hv clock (orders_cache cs)
                  (limit_orders batch) K) as M.
    pose proof (download_order_images_spec
                  (synced_cache clock (orders_cache cs) (limit_orders batch))) as D.
    destruct (download_order_images _) as [c fin]. simpl in D.
    destruct fin; simpl; eapply edit_held_photo_only; eauto.
Qed.

End EditSurvives.

Lemma cache_transaction_untouched o o' :
  o' !! "transaction" = o !! "transaction" ->
  o' !! "Transaction ID" = o !! "Transaction ID" ->
  cache_transaction o' = cache_transaction o.
Proof. intros H1 H2. unfold cache_transaction, get. now rewrite H1, H2. Qed.

Lemma edit_transaction_of_text o t :
  t <> "" -> cache_transaction o = VStr t -> edit_transaction o = t.
Proof.
  intros Ht H. unfold edit_transaction. fold (cache_transaction o). rewrite H.
  unfold py_or. now rewrite VStr_truthy.
Qed.

Lemma stored_value_not_None k v : stored_value k v <> VNone.
Proof. unfold stored_value, flag_literal. now destruct (is_checkbox_field k). Qed.

(** X17.  An edit made through the endpoint survives the merges.  Let the
    cache hold the transaction id [t] as text in one row, the only row the
    endpoint can match, and let an accepted request write the editable pair
    ([f], [b]) without renaming the transaction.  Then the cache holds the
    stored value under the frontend name and under the backend name of
    every row with id [t], and so it does after a full replace, an
    incremental merge or a quick sync with any batch whose rows each name
    one transaction id. *)
Theorem edit_survives_merges (env : PyEnv) (run : ImageRun) (timestamp : string)
    (utcnow : datetime)
    (is_admin dl : bool) (clock : nat -> naive_datetime) (t f b : string)
    (updates : list (string * pyval)) (u : string * pyval) (batch : list order)
    (st st' : app_state) (updated_fields : list string) (i : nat) (x : order) :
  t <> "" -> In (f, b) EDITABLE_FIELD_GROUPS ->
  orders_cache (app_cache st) !! i = Some x -> cache_transaction x = VStr t ->
  (forall j y, orders_cache (app_cache st) !! j = Some y -> edit_transaction y = t -> j = i) ->
  (forall w, In w updates -> w.1 <> "transaction" /\ w.1 <> "Transaction ID") ->
  last_update f b updates = Some u ->
  edit_order_fields timestamp utcnow is_admin t updates st = (st', Ok updated_fields) ->
  Forall coherent_ids batch ->
  let v := stored_value u.1 u.2 in
  edit_held t f b v (orders_cache (app_cache st'))
  /\ edit_held t f b v (orders_cache (update_cache dl (Some batch) (app_cache st')).1)
  /\ edit_held t f b v (orders_cache (incremental_update_cache (Some batch) (app_cache st')).1)
  /\ edit_held t f b v (orders_cache (sync_latest_orders clock (Some batch) (app_cache st')).1).
Proof.
  intros Ht Hg Hx Ex Uniq Ids Hu H Hco v.
  assert (list_find (fun o => edit_transaction o = t) (orders_cache (app_cache st))
          = Some (i, x)) as F.
  { apply list_find_Some. split; [exact Hx|]. split; [now apply edit_transaction_of_text|].
    intros j y Hy Hj E. specialize (Uniq j y Hy E). lia. }
  rewrite (edit_cached_result _ _ _ _ _ _ i x F) in H. cbv zeta in H.
  destruct (edit_fields true is_admin updates x) as [o' fin] eqn:E. simpl in H.
  destruct fin; [|discriminate]. injection H as <- _. simpl.
  pose proof (edit_fields_pairs _ _ _ _ f b E Hg) as Pairs. rewrite Hu in Pairs. destruct Pairs as [Pf Pb].
  assert (forall k, k = "transaction" \/ k = "Transaction ID" -> o' !! k = x !! k) as Same.
  { intros k Hk. change o' with (o', true).1. rewrite <- E.
    apply edit_fields_untouched. intros T. apply touched_keys_spec in T as (w & Hw & T).
    revert T. apply id_keys_not_targets; [tauto|].
    destruct (Ids w Hw). destruct Hk as [-> | ->]; assumption. }
  assert (cache_transaction o' = VStr t) as Eo.
  { rewrite <- Ex. apply cache_transaction_untouched; apply Same; auto. }
  assert (edit_held t f b v (<[i := o']> (orders_cache (app_cache st)))) as K.
  { split.
    - exists o'. split; [|exact Eo]. apply list_elem_of_In, list_elem_of_lookup. exists i.
      apply list_lookup_insert_eq. now apply lookup_lt_Some in Hx.
    - intros y Hy Ey. apply list_elem_of_In, list_elem_of_lookup in Hy as [j Hj].
      destruct (decide (j = i)) as [->|N].
      + rewrite list_lookup_insert_eq in Hj by (now apply lookup_lt_Some in Hx).
        injection Hj as <-. split; [exact Pf|exact Pb].
      + rewrite list_lookup_insert_ne in Hj by congruence.
        exfalso. apply N. apply (Uniq j y Hj). now apply edit_transaction_of_text. }
  split; [exact K|].
  apply (merges_hold_edit dl clock batch
           (mk_cache (<[i := o']> (orders_cache (app_cache st)))
                     (Some (<[i := o']> (orders_cache (app_cache st))))) t f b v);
    [exact Ht|exact Hg|apply stored_value_not_None|exact K|exact Hco].
Qed.

Lemma edit_survives_merges_witness :
  let r := edit_order_fields (env := sample_env) sample_stamp sample_now true "T1" set_produce
             one_order_state in
  let v := VStr "TRUE" in
  edit_held "T1" "Produce" "Kesildi" v (orders_cache (app_cache r.1))
  /\ edit_held "T1" "Produce" "Kesildi" v
       (orders_cache (update_cache (env := sample_env) (run := no_downloads) true (Some [sheet_renamed_row])
                        (app_cache r.1)).1)
  /\ edit_held "T1" "Produce" "Kesildi" v
       (orders_cache (incremental_update_cache (env := sample_env) (run := no_downloads) (Some [sheet_renamed_row])
                        (app_cache r.1)).1)
  /\ edit_held "T1" "Produce" "Kesildi" v
       (orders_cache (sync_latest_orders (env := sample_env) (run := no_downloads) (fun _ => 0%N)
                        (Some [sheet_renamed_row]) (app_cache r.1)).1).
Proof.
  intros r v.
  apply (edit_survives_merges sample_env no_downloads sample_stamp sample_now true true (fun _ => 0%N)
           "T1" "Produce" "Kesildi" set_produce ("Produce", VStr "true") [sheet_renamed_row]
           one_order_state r.1 ["Kesildi"] 0%nat sheet_default_row).
  - discriminate.
  - left. reflexivity.
  - reflexivity.
  - reflexivity.
  - intros [|j] y Hy _; [reflexivity|discriminate Hy].
  - intros w [<-|[]]. split; discriminate.
  - reflexivity.
  - vm_compute. reflexivity.
  - constructor; [|constructor]. intros _. reflexivity.
Defined.

(** ** Refreshing the cache *)

Section RefreshFacts.
Context {env : PyEnv} {run : ImageRun}.

Lemma with_edits_nil o : with_edits [] o = o.
Proof. reflexivity. Qed.

Lemma merged_cache_from_nothing new : merged_cache [] new = first_rows [] new.
Proof.
  rewrite merged_cache_eq. unfold missing_from. simpl. rewrite app_nil_r.
  induction (first_rows [] new) as [|o l IH]; simpl; [reflexivity|].
  now rewrite IH.
Qed.

Lemma refresh_orders_cache unlinked fetched st :
  orders_cache (refresh_orders unlinked fetched st).1 =
  match fetched with
  | Some new =>
      if startup_mode then []
      else (download_order_images (first_rows [] (limit_orders new))).1
  | None => []
  end.
Proof.
  unfold refresh_orders, update_cache, reset_orders_cache. cbn [orders_cache cache_file].
  destruct startup_mode; [now destruct fetched|].
  destruct fetched as [new|]; [|reflexivity].
  rewrite merged_cache_from_nothing.
  destruct (download_order_images _) as [c fin]. now destruct fin.
Qed.

End RefreshFacts.

(** X18.  The refresh endpoint forgets the cache: the cache it leaves does
    not depend on the cache it found.  When the fetch fails, or in start-up
    mode, the cache is left empty (the cache file is gone if it could be
    deleted) and the answer still reports success, with 0 records.
    Otherwise the cache holds the fetched rows that have a transaction id,
    the first row of each id, within the row limit, unchanged but for
    their "photo": no edit and no order the spreadsheet lacks is carried
    over.  [records_fetched] is the number of cached orders. *)
Theorem refresh_orders_forgets_cache (env : PyEnv) (run : ImageRun) (unlinked : bool)
    (fetched : option (list order)) (st : cache_state) :
  let st' := (refresh_orders unlinked fetched st).1 in
  (forall st0,
      orders_cache (refresh_orders unlinked fetched st0).1 = orders_cache st')
  /\ (fetched = None \/ startup_mode = true ->
      orders_cache st' = []
      /\ cache_file st' = (if unlinked then None else cache_file st)
      /\ (refresh_orders unlinked fetched st).2 = Some 0%nat)
  /\ (forall new, fetched = Some new -> startup_mode = false ->
      Forall2 photo_only (first_rows [] (limit_orders new)) (orders_cache st')
      /\ (length (orders_cache st') <= length (limit_orders new))%nat)
  /\ (forall n, (refresh_orders unlinked fetched st).2 = Some n ->
      n = length (orders_cache st')).
Proof.
  intros st'. subst st'. split; [|split; [|split]].
  - intros st0. now rewrite !refresh_orders_cache.
  - intros H. unfold refresh_orders, update_cache, reset_orders_cache.
    destruct startup_mode eqn:S; [auto|].
    destruct H as [->|H]; [auto|discriminate].
  - intros new -> S. rewrite refresh_orders_cache, S.
    pose proof (download_order_images_spec (first_rows [] (limit_orders new))) as D.
    split; [exact D|]. rewrite <- (Forall2_length _ _ _ D).
    clear D. generalize (@nil pyval). induction (limit_orders new) as [|o l IH]; intros seen;
      simpl; [lia|].
    destruct (_ && _); simpl; [specialize (IH (seen ++ [sheet_transaction o]))|specialize (IH seen)];
      lia.
  - intros n. unfold refresh_orders.
    destruct (update_cache true fetched (reset_orders_cache unlinked st)) as [s out].
    destruct out; simpl; congruence.
Qed.

(** ** Manual orders *)

Lemma copy_fold_lookup payload fields acc k :
  fold_left (copy_manual_field payload) fields acc !! k =
  if bool_decide (k ∈ fields) then copied_value payload k (acc !! k) else acc !! k.
Proof.
  revert acc. induction fields as [|f fields IH]; intros acc; simpl; [reflexivity|].
  rewrite IH. unfold copy_manual_field, copied_value.
  destruct (decide (k = f)) as [->|N].
  - rewrite (bool_decide_eq_true_2 (f ∈ f :: fields)) by (left).
    destruct (payload !! f) as [[]|]; rewrite ?lookup_insert_eq;
      destruct (bool_decide (f ∈ fields)); reflexivity.
  - assert (bool_decide (k ∈ f :: fields) = bool_decide (k ∈ fields)) as ->.
    { apply bool_decide_ext. rewrite elem_of_cons. tauto. }
    destruct (payload !! f) as [[]|]; rewrite ?lookup_insert_ne by congruence; reflexivity.
Qed.

Lemma copy_manual_fields_lookup payload k :
  copy_manual_fields payload !! k =
  if bool_decide (k ∈ MANUAL_ORDER_FIELDS)
  then copied_value payload k (DEFAULT_MANUAL_ORDER !! k)
  else DEFAULT_MANUAL_ORDER !! k.
Proof. apply copy_fold_lookup. Qed.

Lemma default_manual_keys k :
  is_Some (DEFAULT_MANUAL_ORDER !! k) <->
  k ∈ MANUAL_ORDER_FIELDS ++ ["isManual"] /\ k <> "_sortKey".
Proof.
  unfold DEFAULT_MANUAL_ORDER.
  set (l := [ ("buyername", VStr ""); ("productname", VStr ""); ("Quantity", VStr "");
      ("material", VStr ""); ("Chain Length", VStr ""); ("Personalization", VStr "");
      ("ioss", VStr ""); ("FullAdress", VStr ""); ("itemprice", VStr "");
      ("discount", VStr ""); ("salestax", VStr ""); ("ordertotal", VStr "");
      ("buyeremail", VStr ""); ("tarih", VStr ""); ("created_at", VStr "");
      ("Note", VStr ""); ("photo", VStr ""); ("Produce", VStr "FALSE");
      ("Ready", VStr "FALSE"); ("Shipped", VStr "FALSE"); ("shop", VStr "");
      ("transaction", VStr ""); ("isManual", VBool true) ]).
  rewrite <- elem_of_dom, dom_list_to_map_L, elem_of_list_to_set.
  change (l.*1) with ["buyername"; "productname"; "Quantity"; "material"; "Chain Length";
    "Personalization"; "ioss"; "FullAdress"; "itemprice"; "discount";
    "salestax"; "ordertotal"; "buyeremail"; "tarih"; "created_at";
    "Note"; "photo"; "Produce"; "Ready"; "Shipped"; "shop"; "transaction"; "isManual"].
  unfold MANUAL_ORDER_FIELDS. cbn [app].
  rewrite !elem_of_cons, !elem_of_nil.
  split.
  - intros H. split; [tauto|]. intros ->.
    repeat (destruct H as [H|H]; [discriminate H|]). exact H.
  - intros [H N]. tauto.
Qed.

Lemma manual_transaction_truthy upper id : py_truthy (VStr (manual_transaction upper id)) = true.
Proof. reflexivity. Qed.

Lemma fields_key k : k ∈ MANUAL_ORDER_FIELDS -> k <> "_sortKey" -> is_Some (DEFAULT_MANUAL_ORDER !! k).
Proof.
  intros H N. apply default_manual_keys. split; [|exact N]. apply elem_of_app. now left.
Qed.

Lemma copied_value_Some payload k d : is_Some d -> is_Some (copied_value payload k d).
Proof. unfold copied_value. destruct (payload !! k) as [[]|]; eauto. Qed.

Lemma copy_manual_fields_transaction payload :
  get (copy_manual_fields payload) "transaction" =
  match payload !! "transaction" with
  | Some VNone | None => VStr ""
  | Some v => v
  end.
Proof.
  unfold get. rewrite copy_manual_fields_lookup.
  rewrite bool_decide_eq_true_2 by decide_closed.
  unfold copied_value. change (DEFAULT_MANUAL_ORDER !! "transaction") with (Some (VStr "")).
  destruct (payload !! "transaction") as [[]|]; reflexivity.
Qed.

Lemma truthy_get_Some (m : order) k : py_truthy (get m k) = true -> is_Some (m !! k).
Proof. unfold get. destruct (m !! k); [eauto|discriminate]. Qed.

Lemma identifier_of_truthy_transaction (o : order) :
  py_truthy (get o "transaction") = true ->
  get_order_identifier o VNone = Some (py_str (get o "transaction")).
Proof.
  intros T. unfold get_order_identifier, identifier_candidates.
  cbn [List.find py_truthy]. now rewrite T.
Qed.

Section BuildManual.
Context {env : PyEnv}.
Variable upper : string -> string.
Variables (uuid : string) (now now' : datetime) (payload : order).

Local Notation o := (build_manual_order upper uuid now now' payload).
Local Notation manual_id := (py_str (py_or (get payload "__manualId") (VStr uuid))).

Lemma build_manual_lookup k :
  k <> "_sortKey" -> k <> "isManual" -> k <> "created_at" -> k <> "__manualId" ->
  k <> "transaction" ->
  o !! k = copy_manual_fields payload !! k.
Proof.
  intros N1 N2 N3 N4 N5. unfold build_manual_order.
  rewrite !lookup_insert_ne by congruence.
  destruct (py_truthy _); [reflexivity|]. now rewrite lookup_insert_ne by congruence.
Qed.

Lemma build_manual_transaction :
  get o "transaction" =
  if py_truthy (get payload "transaction") then get payload "transaction"
  else VStr (manual_transaction upper manual_id).
Proof.
  pose proof (copy_manual_fields_transaction payload) as E.
  assert (get o "transaction" =
          if py_truthy (get (copy_manual_fields payload) "transaction")
          then get (copy_manual_fields payload) "transaction"
          else VStr (manual_transaction upper manual_id)) as ->.
  { unfold build_manual_order, get at 1. rewrite !lookup_insert_ne by discriminate.
    destruct (py_truthy (get (copy_manual_fields payload) "transaction"));
      [unfold get; reflexivity|now rewrite lookup_insert_eq]. }
  rewrite E. unfold get.
  destruct (payload !! "transaction") as [[|[]|z|s]|]; cbn [default py_truthy];
    try reflexivity.
Qed.

Lemma build_manual_transaction_truthy : py_truthy (get o "transaction") = true.
Proof.
  rewrite build_manual_transaction.
  destruct (py_truthy (get payload "transaction")) eqn:T; [exact T|reflexivity].
Qed.

Lemma build_manual_transaction_Some : is_Some (o !! "transaction").
Proof. apply truthy_get_Some, build_manual_transaction_truthy. Qed.

Lemma build_manual_id : o !! "__manualId" = Some (VStr manual_id).
Proof.
  unfold build_manual_order. rewrite !lookup_insert_ne by discriminate.
  apply lookup_insert_eq.
Qed.

Lemma build_manual_isManual : o !! "isManual" = Some (VBool true).
Proof.
  unfold build_manual_order. rewrite !lookup_insert_ne by discriminate.
  apply lookup_insert_eq.
Qed.

Lemma build_manual_keys k : is_Some (o !! k) <-> k ∈ manual_keys.
Proof.
  assert (forall x, x ∈ manual_keys <-> x ∈ MANUAL_ORDER_FIELDS ++ ["isManual"] \/ x = "__manualId")
    as MK.
  { intros x. unfold manual_keys. rewrite !elem_of_app, !elem_of_cons, !elem_of_nil. tauto. }
  destruct (decide (k = "_sortKey")) as [->|N1].
  { unfold build_manual_order. rewrite lookup_insert_eq. split; [intros _; decide_closed|eauto]. }
  destruct (decide (k = "isManual")) as [->|N2].
  { rewrite build_manual_isManual. split; [intros _; decide_closed|eauto]. }
  destruct (decide (k = "__manualId")) as [->|N4].
  { rewrite build_manual_id. split; [intros _; decide_closed|eauto]. }
  destruct (decide (k = "created_at")) as [->|N3].
  { unfold build_manual_order. rewrite !lookup_insert_ne by discriminate.
    rewrite lookup_insert_eq. split; [intros _; decide_closed|eauto]. }
  destruct (decide (k = "transaction")) as [->|N5].
  { split; [intros _; decide_closed|intros _; apply build_manual_transaction_Some]. }
  rewrite build_manual_lookup by assumption. rewrite copy_manual_fields_lookup, MK.
  case_bool_decide as Hk.
  - split; [intros _; left; apply elem_of_app; now left|intros _].
    apply copied_value_Some. now apply fields_key.
  - rewrite default_manual_keys. split; [tauto|]. intros [H|H]; [|contradiction].
    split; [exact H|exact N1].
Qed.

Lemma build_manual_identifier :
  get_order_identifier o VNone = Some (py_str (get o "transaction")).
Proof. apply identifier_of_truthy_transaction, build_manual_transaction_truthy. Qed.

Lemma build_manual_copied k :
  k ∈ MANUAL_ORDER_FIELDS -> k ∉ ["transaction"; "created_at"; "_sortKey"] ->
  o !! k = copied_value payload k (DEFAULT_MANUAL_ORDER !! k).
Proof.
  intros Hk N. rewrite !not_elem_of_cons in N. destruct N as (N1 & N2 & N3 & _).
  rewrite build_manual_lookup; try assumption.
  - rewrite copy_manual_fields_lookup. now rewrite bool_decide_eq_true_2.
  - intros ->. revert Hk. decide_closed.
  - intros ->. revert Hk. decide_closed.
Qed.

Lemma build_manual_created :
  o !! "created_at" = Some (py_or (get payload "created_at") (VStr (isoformat now))).
Proof.
  unfold build_manual_order. rewrite !lookup_insert_ne by discriminate.
  apply lookup_insert_eq.
Qed.

Lemma build_manual_sort_key :
  exists before : order,
    (forall k, k <> "_sortKey" -> before !! k = o !! k)
    /\ before !! "_sortKey" = copied_value payload "_sortKey" None
    /\ o !! "_sortKey"
       = Some (py_or (get payload "_sortKey") (VStr (determine_sort_key now' before))).
Proof.
  eexists. split; [|split].
  3: { unfold build_manual_order. apply lookup_insert_eq. }
  - intros k N. unfold build_manual_order. now rewrite (lookup_insert_ne _ "_sortKey").
  - rewrite !lookup_insert_ne by discriminate.
    assert (copy_manual_fields payload !! "_sortKey" = copied_value payload "_sortKey" None)
      as E by (rewrite copy_manual_fields_lookup; reflexivity).
    destruct (py_truthy _); [exact E|]. now rewrite lookup_insert_ne by discriminate.
Qed.

Lemma build_manual_id_nonempty : uuid <> "" -> manual_id <> "".
Proof.
  intros Hu. unfold py_or.
  destruct (py_truthy (get payload "__manualId")) eqn:T; [now apply py_str_truthy|exact Hu].
Qed.

End BuildManual.

(** X19.  A manual order built from a payload has exactly the 23 known
    fields and the two markers [isManual] (true) and [__manualId]; the id is
    the payload's when that is true and the fresh UUID otherwise; a true
    transaction of the payload is kept and any other is replaced by
    "MANUAL-" and the upper-cased first eight characters of the id, so the
    order always has an identifier, the text of its transaction.
    [created_at] is the payload's when that is true and the time of the
    call otherwise, and [_sortKey] is the payload's when that is true and
    otherwise the key [determine_sort_key] reads from the order built so
    far (which holds the payload's [_sortKey] if that is not [None]).
    Every known field other than these three is the payload's value, or
    the default where the payload has none or [None]; keys of the payload
    outside the known fields are dropped. *)
Theorem build_manual_order_spec (env : PyEnv) (upper : string -> string) (uuid : string)
    (now now' : datetime) (payload : order) :
  let o := build_manual_order upper uuid now now' payload in
  let manual_id := py_str (py_or (get payload "__manualId") (VStr uuid)) in
  (forall k, is_Some (o !! k) <-> k ∈ manual_keys)
  /\ o !! "isManual" = Some (VBool true)
  /\ o !! "__manualId" = Some (VStr manual_id)
  /\ (uuid <> "" -> manual_id <> "")
  /\ get o "transaction"
     = (if py_truthy (get payload "transaction") then get payload "transaction"
        else VStr (manual_transaction upper manual_id))
  /\ get_order_identifier o VNone = Some (py_str (get o "transaction"))
  /\ o !! "created_at" = Some (py_or (get payload "created_at") (VStr (isoformat now)))
  /\ (exists before : order,
        (forall k, k <> "_sortKey" -> before !! k = o !! k)
        /\ before !! "_sortKey" = copied_value payload "_sortKey" None
        /\ o !! "_sortKey"
           = Some (py_or (get payload "_sortKey") (VStr (determine_sort_key now' before))))
  /\ (forall k, k ∈ MANUAL_ORDER_FIELDS -> k ∉ ["transaction"; "created_at"; "_sortKey"] ->
        o !! k = copied_value payload k (DEFAULT_MANUAL_ORDER !! k)).
Proof.
  intros o manual_id.
  split; [apply build_manual_keys|]. split; [apply build_manual_isManual|].
  split; [apply build_manual_id|]. split; [apply build_manual_id_nonempty|].
  split; [apply build_manual_transaction|]. split; [apply build_manual_identifier|].
  split; [apply build_manual_created|]. split; [apply build_manual_sort_key|].
  apply build_manual_copied.
Qed.

(** ** Creating, finding and deleting manual orders *)

Lemma get_manual_id (o : order) id :
  o !! "__manualId" = Some (VStr id) -> get o "__manualId" = VStr id.
Proof. intros H. unfold get. now rewrite H. Qed.

Lemma has_manual_id_own (o : order) id :
  o !! "__manualId" = Some (VStr id) -> has_manual_id (VStr id) o = true.
Proof.
  intros H. unfold has_manual_id. rewrite (get_manual_id o id H). apply py_eqb_refl.
Qed.

Lemma find_manual_by_id_last kept o id :
  Forall (fun e => has_manual_id (VStr id) e = false) kept ->
  has_manual_id (VStr id) o = true ->
  find_manual_by_id id (kept ++ [o]) = Some (length kept, o).
Proof.
  intros Hk Ho. unfold find_manual_by_id. apply list_find_Some.
  split; [|split; [exact Ho|]].
  - rewrite lookup_app_r by reflexivity. now rewrite Nat.sub_diag.
  - intros j y Hj Hlt. rewrite lookup_app_l in Hj by assumption.
    rewrite Forall_forall in Hk. apply list_elem_of_lookup_2 in Hj.
    rewrite (Hk y Hj). discriminate.
Qed.

Lemma find_manual_by_id_None id manual :
  find_manual_by_id id manual = None <->
  Forall (fun e => has_manual_id (VStr id) e = false) manual.
Proof.
  unfold find_manual_by_id. rewrite list_find_None. apply Forall_iff.
  intros e. destruct (has_manual_id (VStr id) e); split; congruence.
Qed.

Lemma filter_other_ids id manual :
  Forall (fun e => has_manual_id (VStr id) e = false)
    (List.filter (fun e => negb (has_manual_id (VStr id) e)) manual).
Proof.
  apply Forall_forall. intros e He. apply list_elem_of_In, filter_In in He as [_ He].
  now apply negb_true_iff in He.
Qed.

Lemma filter_all_true {A} (p : A -> bool) l :
  Forall (fun e => p e = true) l -> List.filter p l = l.
Proof.
  induction 1 as [|e l He _ IH]; simpl; [reflexivity|]. now rewrite He, IH.
Qed.

Lemma filter_all_false {A} (p : A -> bool) l :
  Forall (fun e => p e = false) l -> List.filter p l = [].
Proof.
  induction 1 as [|e l He _ IH]; simpl; [reflexivity|]. now rewrite He, IH.
Qed.

Lemma tracking_explicit_in_sync ts (o : order) log :
  py_truthy (get o "transaction") = true ->
  from_option is_complete false
    (update_order_completion_tracking ts o (get o "transaction") log
       !! py_str (get o "transaction"))
  = is_order_marked_complete o.
Proof.
  intros T. apply tracking_in_sync.
  unfold get_order_identifier, identifier_candidates. cbn [List.find]. now rewrite T.
Qed.

Lemma distinct_manual_ids_filter p manual :
  distinct_manual_ids manual -> distinct_manual_ids (List.filter p manual).
Proof.
  induction manual as [|o rest IH]; simpl; [auto|]. intros [H1 H2].
  destruct (p o); simpl; [|auto]. split; [|auto].
  intros x Hx. apply filter_In in Hx as [Hx _]. auto.
Qed.

Lemma distinct_manual_ids_snoc kept o :
  distinct_manual_ids kept ->
  (forall e, In e kept -> has_manual_id (get e "__manualId") o = false) ->
  distinct_manual_ids (kept ++ [o]).
Proof.
  induction kept as [|e kept IH]; simpl; intros Hd Ho.
  - split; [intros x []|exact I].
  - destruct Hd as [H1 H2]. split.
    + intros x Hx. apply in_app_or in Hx as [Hx|[<-|[]]]; auto.
    + apply IH; auto.
Qed.

Section CreateManual.
Context {env : PyEnv}.
Variable upper : string -> string.
Variables (ts uuid : string) (now now' : datetime) (payload : order) (st : app_state).

Local Notation o := (build_manual_order upper uuid now now' payload).
Local Notation manual_id := (py_str (py_or (get payload "__manualId") (VStr uuid))).
Local Notation created := (create_manual_order upper ts uuid now now' payload st).

Lemma create_manual_orders :
  manual_of created.1
  = List.filter (fun e => negb (has_manual_id (VStr manual_id) e)) (manual_of st) ++ [o].
Proof.
  unfold create_manual_order, manual_of. cbn [fst app_manual save_manual_orders manual_orders].
  now rewrite (get_manual_id _ _ (build_manual_id upper uuid now now' payload)).
Qed.

Lemma create_manual_file : manual_orders_file (app_manual created.1) = Some (manual_of created.1).
Proof. reflexivity. Qed.

Lemma create_manual_found :
  find_manual_by_id manual_id (manual_of created.1)
  = Some (length (manual_of created.1) - 1, o)%nat.
Proof.
  rewrite create_manual_orders, length_app. cbn [length].
  rewrite Nat.add_sub. apply find_manual_by_id_last; [apply filter_other_ids|].
  apply has_manual_id_own, build_manual_id.
Qed.

Lemma create_manual_once :
  count_orders (has_manual_id (VStr manual_id)) (manual_of created.1) = 1%nat.
Proof.
  rewrite create_manual_orders. unfold count_orders. rewrite List.filter_app.
  rewrite (filter_all_false _ _ (filter_other_ids manual_id (manual_of st))).
  cbn [List.filter app].
  now rewrite (has_manual_id_own _ _ (build_manual_id upper uuid now now' payload)).
Qed.

Lemma create_manual_log :
  from_option is_complete false (app_log created.1 !! py_str (get o "transaction"))
  = is_order_marked_complete o.
Proof.
  unfold create_manual_order. cbn [fst app_log].
  apply tracking_explicit_in_sync, build_manual_transaction_truthy.
Qed.

Lemma create_manual_distinct :
  distinct_manual_ids (manual_of st) -> distinct_manual_ids (manual_of created.1).
Proof.
  intros Hd. rewrite create_manual_orders.
  apply distinct_manual_ids_snoc; [now apply distinct_manual_ids_filter|].
  intros e He. apply filter_In in He as [_ He]. apply negb_true_iff in He.
  unfold has_manual_id in *.
  rewrite (get_manual_id _ _ (build_manual_id upper uuid now now' payload)).
  now rewrite py_eqb_sym.
Qed.

End CreateManual.

Lemma remove_first_find id manual :
  remove_first id manual =
  match find_manual_by_id id manual with
  | Some (i, o) => (Some o, delete i manual)
  | None => (None, manual)
  end.
Proof.
  unfold find_manual_by_id. induction manual as [|x l IH]; [reflexivity|].
  cbn [remove_first list_find]. destruct (has_manual_id (VStr id) x) eqn:E.
  - rewrite decide_True by reflexivity. reflexivity.
  - rewrite decide_False by discriminate. rewrite IH.
    destruct (list_find _ l) as [[i o]|]; reflexivity.
Qed.

Lemma has_manual_id_truthy id (o : order) :
  has_manual_id (VStr id) o = true -> dict_truthy o = true.
Proof.
  intros H. unfold dict_truthy. apply negb_true_iff, bool_decide_eq_false. intros ->.
  discriminate H.
Qed.

Lemma find_manual_by_id_has id manual i o :
  find_manual_by_id id manual = Some (i, o) ->
  manual !! i = Some o /\ has_manual_id (VStr id) o = true.
Proof. intros H. apply list_find_Some in H as (H1 & H2 & _). auto. Qed.

Lemma remove_entry_lookup x log k :
  remove_order_completion_entry x log !! k =
  if bool_decide (x = Some k /\ k <> "") then None else log !! k.
Proof.
  unfold remove_order_completion_entry. destruct x as [i|].
  - destruct (String.eqb i "") eqn:E.
    + apply String.eqb_eq in E. subst i. rewrite bool_decide_eq_false_2; [reflexivity|].
      intros [[= <-] N]. congruence.
    + apply String.eqb_neq in E. destruct (decide (i = k)) as [->|N].
      * rewrite lookup_delete_eq, bool_decide_eq_true_2; auto.
      * rewrite lookup_delete_ne by assumption. rewrite bool_decide_eq_false_2; [reflexivity|].
        intros [[= ->] _]. congruence.
  - rewrite bool_decide_eq_false_2; [reflexivity|]. intros [[=] _].
Qed.

Lemma distinct_manual_ids_remove id manual o rest :
  distinct_manual_ids manual -> remove_first id manual = (Some o, rest) ->
  distinct_manual_ids rest /\ Forall (fun e => has_manual_id (VStr id) e = false) rest.
Proof.
  revert rest. induction manual as [|x l IH]; intros rest Hd Hr; [discriminate|].
  cbn [remove_first] in Hr. destruct Hd as [H1 H2].
  destruct (has_manual_id (VStr id) x) eqn:E.
  - injection Hr as <- <-. split; [exact H2|]. apply Forall_forall. intros y Hy.
    apply list_elem_of_In in Hy. specialize (H1 y Hy). unfold has_manual_id in *.
    rewrite py_eqb_sym in H1. rewrite (py_eqb_true_l _ _ (get y "__manualId") E) in H1.
    now rewrite py_eqb_sym.
  - destruct (remove_first id l) as [removed remaining] eqn:R.
    injection Hr as -> <-. destruct (IH remaining H2 eq_refl) as [D F].
    split; [|constructor; assumption]. split; [|exact D].
    intros y Hy. apply H1.
    assert (forall n (m : list order) r s, remove_first n m = (r, s) -> forall z, In z s -> In z m)
      as Sub.
    { clear. intros n m. induction m as [|a m IHm]; intros r s Hm z Hz.
      - injection Hm as <- <-. exact Hz.
      - cbn [remove_first] in Hm. destruct (has_manual_id (VStr n) a).
        + injection Hm as <- <-. now right.
        + destruct (remove_first n m) as [r' s'] eqn:R'. injection Hm as <- <-.
          destruct Hz as [<-|Hz]; [now left|right; eapply IHm; eauto]. }
    eapply Sub; eauto.
Qed.

Section DeleteManual.
Variables (manual_id : string) (st : app_state).

Lemma delete_manual_refused :
  delete_manual_order false manual_id st = (st, HTTPException 403).
Proof. reflexivity. Qed.

Lemma delete_manual_not_found :
  find_manual_by_id manual_id (manual_of st) = None ->
  delete_manual_order true manual_id st = (st, HTTPException 404).
Proof.
  intros H. unfold delete_manual_order, manual_of in *. now rewrite remove_first_find, H.
Qed.

Lemma delete_manual_found i o :
  find_manual_by_id manual_id (manual_of st) = Some (i, o) ->
  delete_manual_order true manual_id st =
  (mk_app (app_cache st)
     (mk_manual (delete i (manual_of st)) (Some (delete i (manual_of st))))
     (remove_order_completion_entry (Some manual_id)
        (remove_order_completion_entry (get_order_identifier o VNone) (app_log st))),
   Ok true).
Proof.
  intros H. unfold delete_manual_order, manual_of in *. rewrite remove_first_find, H.
  apply find_manual_by_id_has in H as [_ H].
  now rewrite (has_manual_id_truthy _ _ H).
Qed.

End DeleteManual.

(** X21.  Deleting a manual order: a user who is not an admin is refused
    with 403 and an id no order has gives 404, both leaving the state as
    it was; otherwise the first order with the id, and only that one, is
    taken out of the list, the list is saved, the log loses the entries
    of the order's identifier and of the id and keeps all others, and the
    cache is not touched.  When the ids of the list are distinct, no
    order with the id is left. *)
Theorem delete_manual_order_spec (is_admin : bool) (manual_id : string)
    (st : app_state) :
  let r := delete_manual_order is_admin manual_id st in
  (is_admin = false -> r = (st, HTTPException 403))
  /\ (is_admin = true -> find_manual_by_id manual_id (manual_of st) = None ->
      r = (st, HTTPException 404))
  /\ (is_admin = true -> forall i o,
      find_manual_by_id manual_id (manual_of st) = Some (i, o) ->
      r.2 = Ok true
      /\ manual_of r.1 = delete i (manual_of st)
      /\ manual_orders_file (app_manual r.1) = Some (delete i (manual_of st))
      /\ app_cache r.1 = app_cache st
      /\ (manual_id <> "" -> app_log r.1 !! manual_id = None)
      /\ (forall id, get_order_identifier o VNone = Some id -> app_log r.1 !! id = None)
      /\ (forall k, k <> manual_id -> get_order_identifier o VNone <> Some k ->
            app_log r.1 !! k = app_log st !! k)
      /\ (distinct_manual_ids (manual_of st) ->
            distinct_manual_ids (manual_of r.1)
            /\ find_manual_by_id manual_id (manual_of r.1) = None)).
Proof.
  intros r. subst r. split; [intros ->; apply delete_manual_refused|].
  split; [intros ->; apply delete_manual_not_found|].
  intros -> i o H. rewrite (delete_manual_found manual_id st i o H).
  cbn [fst snd manual_of app_manual manual_orders manual_orders_file app_cache app_log].
  repeat (split; [reflexivity|]).
  split; [|split; [|split]].
  - intros N. rewrite remove_entry_lookup, bool_decide_eq_true_2; auto.
  - intros id Hid. rewrite !remove_entry_lookup.
    destruct (bool_decide (Some manual_id = Some id /\ id <> "")); [reflexivity|].
    rewrite bool_decide_eq_true_2; [reflexivity|]. split; [exact Hid|].
    apply String.eqb_neq. eapply get_order_identifier_nonempty; eauto.
  - intros k N1 N2. rewrite !remove_entry_lookup.
    rewrite !bool_decide_eq_false_2; [reflexivity|..].
    + intros [E _]. contradiction.
    + intros [[= E] _]. congruence.
  - intros Hd. pose proof (remove_first_find manual_id (manual_of st)) as R.
    rewrite H in R. destruct (distinct_manual_ids_remove _ _ _ _ Hd R) as [D F].
    split; [exact D|]. now apply find_manual_by_id_None.
Qed.

Lemma identifier_explicit_transaction (o : order) :
  get_order_identifier o (get o "transaction") = get_order_identifier o VNone.
Proof.
  unfold get_order_identifier, identifier_candidates. cbn [List.find py_truthy].
  destruct (py_truthy (get o "transaction")) eqn:T; [reflexivity|].
  reflexivity.
Qed.

Section CreateThenDelete.
Context {env : PyEnv}.
Variable upper : string -> string.
Variables (ts uuid : string) (now now' : datetime) (payload : order) (st : app_state).

Local Notation o := (build_manual_order upper uuid now now' payload).
Local Notation manual_id := (py_str (py_or (get payload "__manualId") (VStr uuid))).
Local Notation created := (create_manual_order upper ts uuid now now' payload st).

Lemma create_manual_other_logs k :
  k <> py_str (get o "transaction") -> app_log created.1 !! k = app_log st !! k.
Proof.
  intros N. unfold create_manual_order. cbn [fst app_log].
  apply tracking_other_id with (py_str (get o "transaction")); [|exact N].
  rewrite identifier_explicit_transaction. apply build_manual_identifier.
Qed.

Lemma create_manual_fresh :
  find_manual_by_id manual_id (manual_of st) = None ->
  manual_of created.1 = manual_of st ++ [o].
Proof.
  intros H. rewrite create_manual_orders. f_equal. apply filter_all_true.
  apply find_manual_by_id_None in H. eapply Forall_impl; [exact H|].
  intros e He. simpl in He. now rewrite He.
Qed.

Lemma create_then_delete_state :
  uuid <> "" ->
  find_manual_by_id manual_id (manual_of st) = None ->
  delete_manual_order true manual_id created.1 =
  (mk_app (app_cache st) (mk_manual (manual_of st) (Some (manual_of st)))
     (delete manual_id (delete (py_str (get o "transaction")) (app_log st))),
   Ok true).
Proof.
  intros Hu Hf.
  assert (find_manual_by_id manual_id (manual_of created.1)
          = Some (length (manual_of st), o)) as F.
  { rewrite (create_manual_fresh Hf). apply find_manual_by_id_last.
    - now apply find_manual_by_id_None.
    - apply has_manual_id_own, build_manual_id. }
  rewrite (delete_manual_found _ _ _ _ F).
  rewrite (create_manual_fresh Hf), delete_middle, app_nil_r.
  rewrite build_manual_identifier. f_equal. f_equal.
  apply map_eq. intros k. rewrite !remove_entry_lookup.
  pose proof (build_manual_id_nonempty uuid payload Hu) as Nid.
  destruct (decide (k = manual_id)) as [->|N1].
  { rewrite bool_decide_eq_true_2 by auto. now rewrite lookup_delete_eq. }
  rewrite bool_decide_eq_false_2 by (intros [[= E] _]; congruence).
  rewrite lookup_delete_ne by congruence.
  destruct (decide (k = py_str (get o "transaction"))) as [->|N2].
  { rewrite lookup_delete_eq, bool_decide_eq_true_2; [reflexivity|]. split; [reflexivity|].
    apply String.eqb_neq. eapply get_order_identifier_nonempty, build_manual_identifier. }
  rewrite bool_decide_eq_false_2 by (intros [[= E] _]; congruence).
  rewrite lookup_delete_ne by congruence. now apply create_manual_other_logs.
Qed.

End CreateThenDelete.

(** X20.  Creating a manual order returns the order built from the
    payload and puts it at the end of the list, after taking out every
    order that had its id; so looking its id up finds exactly this order,
    once.  The list is saved, the cache is not touched, the log entry of the
    order's transaction agrees with its three stage flags and no other
    entry changes; distinct ids stay distinct. *)
Theorem create_manual_order_spec (env : PyEnv) (upper : string -> string)
    (ts uuid : string) (now now' : datetime) (payload : order) (st : app_state) :
  let o := build_manual_order upper uuid now now' payload in
  let manual_id := py_str (py_or (get payload "__manualId") (VStr uuid)) in
  let r := create_manual_order upper ts uuid now now' payload st in
  r.2 = o
  /\ manual_of r.1
     = List.filter (fun e => negb (has_manual_id (VStr manual_id) e)) (manual_of st) ++ [o]
  /\ find_manual_by_id manual_id (manual_of r.1) = Some (length (manual_of r.1) - 1, o)%nat
  /\ count_orders (has_manual_id (VStr manual_id)) (manual_of r.1) = 1%nat
  /\ manual_orders_file (app_manual r.1) = Some (manual_of r.1)
  /\ app_cache r.1 = app_cache st
  /\ from_option is_complete false (app_log r.1 !! py_str (get o "transaction"))
     = is_order_marked_complete o
  /\ (forall k, k <> py_str (get o "transaction") -> app_log r.1 !! k = app_log st !! k)
  /\ (distinct_manual_ids (manual_of st) -> distinct_manual_ids (manual_of r.1)).
Proof.
  intros o manual_id r.
  split; [reflexivity|]. split; [apply create_manual_orders|].
  split; [apply create_manual_found|]. split; [apply create_manual_once|].
  split; [reflexivity|]. split; [reflexivity|].
  split; [apply create_manual_log|]. split; [apply create_manual_other_logs|].
  apply create_manual_distinct.
Qed.

(** X22.  Creating a manual order under an id no order has and then
    deleting that id gives back the list of manual orders as it was, saved;
    the cache is as before, and the log is the old one without the entries
    of the order's transaction and of its id. *)
Theorem create_then_delete_manual_order (env : PyEnv) (upper : string -> string)
    (ts uuid : string) (now now' : datetime) (payload : order) (st : app_state) :
  let o := build_manual_order upper uuid now now' payload in
  let manual_id := py_str (py_or (get payload "__manualId") (VStr uuid)) in
  uuid <> "" ->
  find_manual_by_id manual_id (manual_of st) = None ->
  let r := delete_manual_order true manual_id
             (create_manual_order upper ts uuid now now' payload st).1 in
  r.2 = Ok true
  /\ manual_of r.1 = manual_of st
  /\ manual_orders_file (app_manual r.1) = Some (manual_of st)
  /\ app_cache r.1 = app_cache st
  /\ app_log r.1 = delete manual_id (delete (py_str (get o "transaction")) (app_log st)).
Proof.
  intros o manual_id Hu Hf r. subst r o manual_id.
  rewrite (create_then_delete_state upper ts uuid now now' payload st Hu Hf).
  repeat split.
Qed.

Lemma create_then_delete_manual_order_witness :
  let r := delete_manual_order true sample_uuid
             (create_manual_order (env := sample_env) ascii_upper sample_stamp sample_uuid
                sample_now sample_now manual_payload_done empty_state).1 in
  r.2 = Ok true
  /\ manual_of r.1 = []
  /\ manual_orders_file (app_manual r.1) = Some []
  /\ app_cache r.1 = app_cache empty_state
  /\ app_log r.1 = delete sample_uuid (delete "MANUAL-1A2B3C4D" ∅).
Proof.
  apply (create_then_delete_manual_order sample_env ascii_upper sample_stamp sample_uuid
           sample_now sample_now manual_payload_done empty_state).
  - discriminate.
  - reflexivity.
Defined.

(** ** Updating a manual order *)

Lemma last_value_cons field u updates :
  last_value field (u :: updates) =
  match last_value field updates with
  | Some v => Some v
  | None => if String.eqb u.1 field then Some u.2 else None
  end.
Proof.
  unfold last_value. cbn [List.filter].
  destruct (String.eqb u.1 field); [|now destruct (last _)].
  destruct (List.filter _ updates) as [|w ws] eqn:E; [reflexivity|].
  rewrite (last_cons u (w :: ws)). destruct (last (w :: ws)); reflexivity.
Qed.

Lemma update_manual_field_lookup o u k :
  update_manual_field o u !! k =
  if bool_decide (k ∈ MANUAL_ORDER_FIELDS) && String.eqb u.1 k
  then Some (manual_stored_value k u.2) else o !! k.
Proof.
  unfold update_manual_field, manual_stored_value. destruct u as [f v]. cbn [fst snd].
  destruct (String.eqb f k) eqn:E.
  - apply String.eqb_eq in E. subst k. rewrite andb_true_r.
    destruct (bool_decide (f ∈ MANUAL_ORDER_FIELDS)); [|reflexivity].
    destruct (bool_decide (f ∈ ["Produce"; "Ready"; "Shipped"]));
      rewrite lookup_insert_eq; [reflexivity|now destruct v].
  - apply String.eqb_neq in E. rewrite andb_false_r.
    destruct (bool_decide (f ∈ MANUAL_ORDER_FIELDS)); [|reflexivity].
    destruct (bool_decide (f ∈ ["Produce"; "Ready"; "Shipped"]));
      now rewrite lookup_insert_ne.
Qed.

Lemma update_manual_fields_lookup updates o k :
  fold_left update_manual_field updates o !! k =
  if bool_decide (k ∈ MANUAL_ORDER_FIELDS) then
    match last_value k updates with
    | Some v => Some (manual_stored_value k v)
    | None => o !! k
    end
  else o !! k.
Proof.
  revert o. induction updates as [|u updates IH]; intros o.
  - simpl. now destruct (bool_decide _).
  - cbn [fold_left]. rewrite IH, last_value_cons, update_manual_field_lookup.
    destruct (bool_decide (k ∈ MANUAL_ORDER_FIELDS)); [|reflexivity]. simpl.
    destruct (last_value k updates); [reflexivity|].
    now destruct (String.eqb u.1 k).
Qed.

Lemma manualId_not_field : "__manualId" ∉ MANUAL_ORDER_FIELDS.
Proof. decide_closed. Qed.

Lemma sortKey_manual_field : "_sortKey" ∈ MANUAL_ORDER_FIELDS.
Proof. decide_closed. Qed.

Lemma has_manual_id_same (a b : order) id :
  a !! "__manualId" = b !! "__manualId" -> has_manual_id id a = has_manual_id id b.
Proof. intros H. unfold has_manual_id, get. now rewrite H. Qed.

Lemma find_manual_by_id_insert id manual i o o' :
  find_manual_by_id id manual = Some (i, o) ->
  o' !! "__manualId" = o !! "__manualId" ->
  find_manual_by_id id (<[i := o']> manual) = Some (i, o').
Proof.
  unfold find_manual_by_id. intros H E. apply list_find_Some in H as (H1 & H2 & H3).
  apply list_find_Some. split; [|split].
  - apply list_lookup_insert_eq. now apply lookup_lt_Some in H1.
  - now rewrite (has_manual_id_same o' o).
  - intros j y Hj Hlt. rewrite list_lookup_insert_ne in Hj by lia. eauto.
Qed.

Lemma distinct_manual_ids_same a b :
  Forall2 (fun x y => x !! "__manualId" = y !! "__manualId") a b ->
  distinct_manual_ids a -> distinct_manual_ids b.
Proof.
  induction 1 as [|x y a b E F IH]; [auto|]. intros [H1 H2]. split; [|auto].
  intros z Hz. apply list_elem_of_In in Hz.
  destruct (proj1 (list_elem_of_lookup _ _) Hz) as [j Hj].
  destruct (Forall2_lookup_r _ _ _ _ _ F Hj) as (w & Hw & Ew).
  unfold get. rewrite <- E. rewrite <- (has_manual_id_same w z) by exact Ew.
  apply H1. apply list_elem_of_In. eapply list_elem_of_lookup_2; eauto.
Qed.

Lemma insert_same_ids (manual : list order) i o o' :
  manual !! i = Some o -> o' !! "__manualId" = o !! "__manualId" ->
  Forall2 (fun x y => x !! "__manualId" = y !! "__manualId") manual (<[i := o']> manual).
Proof.
  intros H E. apply Forall2_same_length_lookup. split; [now rewrite length_insert|].
  intros j x y Hx Hy. destruct (decide (i = j)) as [<-|N].
  - rewrite list_lookup_insert_eq in Hy by (now apply lookup_lt_Some in H). congruence.
  - rewrite list_lookup_insert_ne in Hy by assumption. congruence.
Qed.

Section UpdateManual.
Context {env : PyEnv}.
Variables (ts : string) (now : datetime) (manual_id : string)
          (updates : list (string * pyval)) (st : app_state).

Local Notation updated := (update_manual_order ts now manual_id updates st).

Lemma update_manual_not_found :
  find_manual_by_id manual_id (manual_of st) = None -> updated = (st, HTTPException 404).
Proof. intros H. unfold update_manual_order, manual_of in *. now rewrite H. Qed.

Lemma update_manual_found i o :
  find_manual_by_id manual_id (manual_of st) = Some (i, o) ->
  exists o',
    updated.2 = Ok o'
    /\ manual_of updated.1 = <[i := o']> (manual_of st)
    /\ manual_orders_file (app_manual updated.1) = Some (<[i := o']> (manual_of st))
    /\ app_cache updated.1 = app_cache st
    /\ (forall k, k <> "_sortKey" ->
          o' !! k = fold_left update_manual_field updates o !! k)
    /\ o' !! "_sortKey"
       = Some (VStr (determine_sort_key now (fold_left update_manual_field updates o)))
    /\ (forall n, get_order_identifier o' VNone = Some n ->
          from_option is_complete false (app_log updated.1 !! n)
          = is_order_marked_complete o')
    /\ (forall p n, get_order_identifier o VNone = Some p ->
          get_order_identifier o' VNone = Some n -> p <> n ->
          app_log updated.1 !! p = None)
    /\ (forall k, get_order_identifier o VNone <> Some k ->
          get_order_identifier o' VNone <> Some k ->
          app_log updated.1 !! k = app_log st !! k).
Proof.
  intros H. unfold update_manual_order, manual_of in *. rewrite H.
  apply find_manual_by_id_has in H as [Hi Hm].
  rewrite (has_manual_id_truthy _ _ Hm).
  set (o1 := fold_left update_manual_field updates o).
  set (o2 := <["_sortKey" := VStr (determine_sort_key now o1)]> o1).
  clearbody o1. exists o2.
  cbn [fst snd app_manual save_manual_orders manual_orders manual_orders_file app_cache app_log].
  split; [reflexivity|]. split; [reflexivity|]. split; [reflexivity|].
  split; [reflexivity|].
  split; [intros k N; unfold o2; now rewrite lookup_insert_ne by congruence|].
  split; [unfold o2; apply lookup_insert_eq|].
  set (log1 := update_order_completion_tracking ts o2 (get o2 "transaction") (app_log st)).
  assert (forall n, get_order_identifier o2 VNone = Some n ->
                    from_option is_complete false (log1 !! n) = is_order_marked_complete o2)
    as Sync.
  { intros n Hn. apply tracking_in_sync. now rewrite identifier_explicit_transaction. }
  assert (forall k, get_order_identifier o2 VNone <> Some k -> log1 !! k = app_log st !! k)
    as Other.
  { intros k Hk. unfold log1.
    destruct (get_order_identifier o2 VNone) as [n|] eqn:Hn.
    - apply tracking_other_id with n; [now rewrite identifier_explicit_transaction|congruence].
    - rewrite tracking_no_identifier; [reflexivity|].
      now rewrite identifier_explicit_transaction. }
  clearbody log1 o2.
  destruct (get_order_identifier o VNone) as [p|] eqn:Hp;
    destruct (get_order_identifier o2 VNone) as [n|] eqn:Hn.
  2-4: split; [exact Sync|]; split; [congruence|]; intros k _ Hk; now apply Other.
  rewrite (get_order_identifier_nonempty _ _ _ Hp), (get_order_identifier_nonempty _ _ _ Hn).
  cbn [negb andb]. destruct (String.eqb p n) eqn:E; cbn [negb].
  - apply String.eqb_eq in E. subst n.
    split; [exact Sync|]. split; [intros ? ? [= <-] [= <-] N; congruence|].
    intros k _ Hk. now apply Other.
  - apply String.eqb_neq in E.
    split; [|split].
    + intros m [= <-]. rewrite remove_entry_lookup.
      rewrite bool_decide_eq_false_2 by (intros [[= ->] _]; congruence). now apply Sync.
    + intros ? ? [= <-] [= <-] _. rewrite remove_entry_lookup.
      rewrite bool_decide_eq_true_2; [reflexivity|]. split; [reflexivity|].
      apply String.eqb_neq. eapply get_order_identifier_nonempty; eauto.
    + intros k Hk1 Hk2. rewrite remove_entry_lookup.
      rewrite bool_decide_eq_false_2 by (intros [[= ->] _]; congruence). now apply Other.
Qed.

End UpdateManual.

(** X23.  Updating a manual order: an id no order has gives 404 and
    leaves the state as it was.  Otherwise the first order with the id is
    replaced, in its place, by the updated one, which is returned, and the
    list is saved.  Of the updated order every key outside the known fields
    (its id and [isManual] among them) is as before; a known field other
    than [_sortKey] holds what the last update sent under its name stores,
    a flag literal for a stage flag, the empty text for [None], and is as
    before when no update names it; so the id still finds the order.
    [_sortKey] is computed again after the updates, by
    [determine_sort_key] from the order with every known field, [_sortKey]
    too, updated in that way: a [_sortKey] the request sends is read there
    and then overwritten.  The log entry of the order's identifier agrees
    with its stage flags, the entry of a former, different identifier is
    gone, and all other entries are kept. *)
Theorem update_manual_order_spec (env : PyEnv) (ts : string) (now : datetime)
    (manual_id : string) (updates : list (string * pyval)) (st : app_state) :
  let r := update_manual_order ts now manual_id updates st in
  (find_manual_by_id manual_id (manual_of st) = None -> r = (st, HTTPException 404))
  /\ (forall i o,
      find_manual_by_id manual_id (manual_of st) = Some (i, o) ->
      exists o',
        r.2 = Ok o'
        /\ manual_of r.1 = <[i := o']> (manual_of st)
        /\ manual_orders_file (app_manual r.1) = Some (manual_of r.1)
        /\ app_cache r.1 = app_cache st
        /\ (forall k, k ∉ MANUAL_ORDER_FIELDS -> o' !! k = o !! k)
        /\ (forall k, k ∈ MANUAL_ORDER_FIELDS -> k <> "_sortKey" ->
              o' !! k = match last_value k updates with
                        | Some v => Some (manual_stored_value k v)
                        | None => o !! k
                        end)
        /\ (exists before : order,
              (forall k, before !! k =
                         if bool_decide (k ∈ MANUAL_ORDER_FIELDS) then
                           match last_value k updates with
                           | Some v => Some (manual_stored_value k v)
                           | None => o !! k
                           end
                         else o !! k)
              /\ o' !! "_sortKey" = Some (VStr (determine_sort_key now before)))
        /\ find_manual_by_id manual_id (manual_of r.1) = Some (i, o')
        /\ (forall n, get_order_identifier o' VNone = Some n ->
              from_option is_complete false (app_log r.1 !! n) = is_order_marked_complete o')
        /\ (forall p n, get_order_identifier o VNone = Some p ->
              get_order_identifier o' VNone = Some n -> p <> n ->
              app_log r.1 !! p = None)
        /\ (forall k, get_order_identifier o VNone <> Some k ->
              get_order_identifier o' VNone <> Some k ->
              app_log r.1 !! k = app_log st !! k)
        /\ (distinct_manual_ids (manual_of st) -> distinct_manual_ids (manual_of r.1))).
Proof.
  intros r. subst r. split; [apply update_manual_not_found|]. intros i o H.
  destruct (update_manual_found ts now manual_id updates st i o H)
    as (o' & E1 & E2 & E3 & E4 & E5 & E6 & E7 & E8 & E9).
  assert (forall k, k ∉ MANUAL_ORDER_FIELDS -> o' !! k = o !! k) as Out.
  { intros k Hk. rewrite E5 by (intros ->; apply Hk, sortKey_manual_field).
    rewrite update_manual_fields_lookup. now rewrite bool_decide_eq_false_2. }
  pose proof (Out "__manualId" manualId_not_field) as Eid.
  exists o'. split; [exact E1|]. split; [exact E2|]. split; [now rewrite E3, E2|].
  split; [exact E4|]. split; [exact Out|].
  split; [|split; [|split; [|split; [exact E7|]]]].
  - intros k Hk N. rewrite E5 by exact N. rewrite update_manual_fields_lookup.
    now rewrite bool_decide_eq_true_2.
  - exists (fold_left update_manual_field updates o).
    split; [intros k; apply update_manual_fields_lookup|exact E6].
  - rewrite E2. now apply find_manual_by_id_insert with o.
  - split; [exact E8|]. split; [exact E9|]. intros Hd. rewrite E2.
    apply find_manual_by_id_has in H as [Hi _].
    eapply distinct_manual_ids_same; [|exact Hd]. now apply insert_same_ids with o.
Qed.

(** ** The display order of the rows *)

Lemma sequence_items_nonempty sequence s : In s (sequence_items sequence) -> s <> "".
Proof.
  unfold sequence_items. intros H. apply in_map_iff in H as (v & <- & Hv).
  apply filter_In in Hv as [_ Hv]. now apply py_str_truthy.
Qed.

Lemma sequence_items_texts (l : list string) :
  Forall (fun s => s <> "") l -> sequence_items (as_values l) = l.
Proof.
  unfold sequence_items, as_values. induction 1 as [|s l Hs _ IH]; [reflexivity|].
  cbn [map List.filter py_truthy].
  assert (negb (String.eqb s "") = true) as ->
    by (apply negb_true_iff; now apply String.eqb_neq).
  cbn [map py_str]. now rewrite IH.
Qed.

(** X24.  Storing a display order: a user who is not privileged is refused
    with 403 and a payload without a list with 400, and both leave the
    stored order as it was.  Otherwise the stored order, which is also the
    answer, is the texts of the true items of the list, in their order: no
    stored item is the empty text, none is added, and sending the stored
    order back stores it again unchanged. *)
Theorem update_order_sequence_spec (privileged : bool) (sequence : option (list pyval))
    (order_sequence : list string) :
  let r := update_order_sequence_endpoint privileged sequence order_sequence in
  (privileged = false -> r = (order_sequence, HTTPException 403))
  /\ (privileged = true -> sequence = None -> r = (order_sequence, HTTPException 400))
  /\ (privileged = true -> forall items, sequence = Some items ->
      r.2 = Ok r.1
      /\ r.1 = map py_str (List.filter py_truthy items)
      /\ (forall s, In s r.1 -> s <> "")
      /\ (length r.1 <= length items)%nat
      /\ forall stored,
           update_order_sequence_endpoint true (Some (as_values r.1)) stored = (r.1, Ok r.1)).
Proof.
  intros r. subst r. split; [now intros ->|]. split; [now intros -> ->|].
  intros -> items ->. cbn [update_order_sequence_endpoint fst snd].
  split; [reflexivity|]. split; [reflexivity|]. split; [apply sequence_items_nonempty|].
  split.
  - unfold sequence_items. rewrite length_map. apply List.filter_length_le.
  - intros stored. rewrite sequence_items_texts; [reflexivity|].
    apply Forall_forall. intros s Hs. apply list_elem_of_In in Hs.
    eapply sequence_items_nonempty; eauto.
Qed.

(** ** Loading the manual orders *)

Lemma default_manual_not_None k : DEFAULT_MANUAL_ORDER !! k <> Some VNone.
Proof.
  unfold DEFAULT_MANUAL_ORDER. intros H. apply elem_of_list_to_map_2 in H.
  repeat (apply elem_of_cons in H as [H|H]; [discriminate H|]).
  now apply elem_of_nil in H.
Qed.

Lemma copied_value_idem (e : order) k d :
  d <> Some VNone ->
  match copied_value e k d with
  | Some VNone | None => d
  | Some v => Some v
  end = copied_value e k d.
Proof.
  intros Hd. unfold copied_value. destruct (e !! k) as [[]|]; try reflexivity.
  all: destruct d as [[]|]; congruence.
Qed.

Section LoadManual.
Context {env : PyEnv}.
Variable upper : string -> string.

Lemma normalize_manual_lookup u u' t e k :
  normalize_manual_entry upper u u' t e !! k =
  if String.eqb k "isManual" then Some (VBool true)
  else if String.eqb k "created_at"
       then Some (get_default e "created_at" (VStr (isoformat t)))
  else if String.eqb k "__manualId" then Some (py_or (get e "__manualId") (VStr u'))
  else if String.eqb k "transaction"
       then Some (py_or (get e "transaction") (VStr (manual_transaction upper u)))
  else if bool_decide (k ∈ MANUAL_ORDER_FIELDS)
       then copied_value e k (DEFAULT_MANUAL_ORDER !! k)
  else DEFAULT_MANUAL_ORDER !! k.
Proof.
  unfold normalize_manual_entry.
  destruct (String.eqb k "isManual") eqn:E1;
    [apply String.eqb_eq in E1; subst k; apply lookup_insert_eq|].
  apply String.eqb_neq in E1. rewrite lookup_insert_ne by congruence.
  destruct (String.eqb k "created_at") eqn:E2;
    [apply String.eqb_eq in E2; subst k; apply lookup_insert_eq|].
  apply String.eqb_neq in E2. rewrite lookup_insert_ne by congruence.
  destruct (String.eqb k "__manualId") eqn:E3;
    [apply String.eqb_eq in E3; subst k; apply lookup_insert_eq|].
  apply String.eqb_neq in E3. rewrite lookup_insert_ne by congruence.
  destruct (String.eqb k "transaction") eqn:E4;
    [apply String.eqb_eq in E4; subst k; apply lookup_insert_eq|].
  apply String.eqb_neq in E4. rewrite lookup_insert_ne by congruence.
  apply copy_fold_lookup.
Qed.

Lemma normalize_manual_copied u u' t e k :
  k ∈ MANUAL_ORDER_FIELDS -> k ∉ ["transaction"; "created_at"] ->
  normalize_manual_entry upper u u' t e !! k
  = copied_value e k (DEFAULT_MANUAL_ORDER !! k).
Proof.
  intros Hk N. rewrite !not_elem_of_cons in N. destruct N as (N1 & N2 & _).
  rewrite normalize_manual_lookup.
  assert (String.eqb k "isManual" = false) as ->
    by (apply String.eqb_neq; intros ->; revert Hk; decide_closed).
  assert (String.eqb k "__manualId" = false) as ->
    by (apply String.eqb_neq; intros ->; revert Hk; decide_closed).
  rewrite (proj2 (String.eqb_neq _ _) N1), (proj2 (String.eqb_neq _ _) N2).
  now rewrite bool_decide_eq_true_2.
Qed.

Lemma normalize_manual_named u u' t e :
  let o := normalize_manual_entry upper u u' t e in
  o !! "transaction" = Some (py_or (get e "transaction") (VStr (manual_transaction upper u)))
  /\ o !! "__manualId" = Some (py_or (get e "__manualId") (VStr u'))
  /\ o !! "created_at" = Some (get_default e "created_at" (VStr (isoformat t))).
Proof.
  cbv zeta. rewrite !normalize_manual_lookup.
  cbn [String.eqb Ascii.eqb Bool.eqb andb]. auto.
Qed.

Lemma py_or_truthy a b : py_truthy b = true -> py_truthy (py_or a b) = true.
Proof. intros H. unfold py_or. now destruct (py_truthy a) eqn:E. Qed.

Lemma py_or_idem a b c : py_truthy b = true -> py_or (py_or a b) c = py_or a b.
Proof. intros H. unfold py_or at 1. now rewrite (py_or_truthy a b H). Qed.

Lemma normalize_manual_normalized u u' t e :
  u' <> "" -> normalized_manual (normalize_manual_entry upper u u' t e).
Proof.
  intros Hu. unfold normalized_manual, get. rewrite !normalize_manual_lookup.
  cbn [String.eqb Ascii.eqb Bool.eqb andb default id].
  split; [reflexivity|]. split; [now apply py_or_truthy|].
  split; [apply py_or_truthy; simpl; apply negb_true_iff; now apply String.eqb_neq|].
  split; [eauto|]. intros k. rewrite normalize_manual_lookup.
  destruct (String.eqb k "isManual") eqn:E1;
    [apply String.eqb_eq in E1; subst k; intros _; decide_closed|].
  destruct (String.eqb k "created_at") eqn:E2;
    [apply String.eqb_eq in E2; subst k; intros _; decide_closed|].
  destruct (String.eqb k "__manualId") eqn:E3;
    [apply String.eqb_eq in E3; subst k; intros _; decide_closed|].
  destruct (String.eqb k "transaction") eqn:E4;
    [apply String.eqb_eq in E4; subst k; intros _; decide_closed|].
  unfold manual_keys. rewrite elem_of_app.
  case_bool_decide as Hk; [auto|]. rewrite default_manual_keys.
  rewrite elem_of_app. intros [[H|H] _]; [contradiction|].
  apply String.eqb_neq in E1. apply elem_of_cons in H as [->|H]; [congruence|].
  now apply elem_of_nil in H.
Qed.

Lemma normalize_manual_idem a b c u u' t e :
  u' <> "" ->
  normalize_manual_entry upper a b c (normalize_manual_entry upper u u' t e)
  = normalize_manual_entry upper u u' t e.
Proof.
  intros Hu. apply map_eq. intros k. rewrite (normalize_manual_lookup a b c).
  unfold get, get_default. rewrite !(normalize_manual_lookup u u' t e).
  cbn [String.eqb Ascii.eqb Bool.eqb andb default id].
  destruct (String.eqb k "isManual") eqn:E1; [reflexivity|].
  destruct (String.eqb k "created_at") eqn:E2; [reflexivity|].
  destruct (String.eqb k "__manualId") eqn:E3.
  { rewrite py_or_idem; [reflexivity|]. simpl. apply negb_true_iff.
    now apply String.eqb_neq. }
  destruct (String.eqb k "transaction") eqn:E4; [now rewrite py_or_idem|].
  destruct (bool_decide (k ∈ MANUAL_ORDER_FIELDS)) eqn:Hk; [|reflexivity].
  unfold copied_value at 1. rewrite normalize_manual_lookup, E1, E2, E3, E4, Hk.
  apply copied_value_idem, default_manual_not_None.
Qed.

End LoadManual.

Lemma Forall_imap_intro {A B} (P : B -> Prop) (f : nat -> A -> B) (l : list A) :
  (forall i x, P (f i x)) -> Forall P (imap f l).
Proof.
  revert f. induction l as [|a l IH]; intros f H; cbn [imap]; constructor; [apply H|].
  apply IH. intros i x. apply H.
Qed.

Lemma imap_imap_fixed {A B} (g : nat -> B -> B) (f : nat -> A -> B) (l : list A) :
  (forall i j x, g i (f j x) = f j x) -> imap g (imap f l) = imap f l.
Proof.
  revert f g. induction l as [|a l IH]; intros f g H; cbn [imap]; [reflexivity|].
  rewrite H. f_equal. apply IH. intros i j x. apply H.
Qed.

Lemma imap_lookup_Some {A B} (f : nat -> A -> B) (l : list A) i x :
  l !! i = Some x -> imap f l !! i = Some (f i x).
Proof. intros H. now rewrite list_lookup_imap, H. Qed.

Lemma load_manual_orders_eq {env : PyEnv} (upper : string -> string)
    (uuid uuid' : nat -> string) (utcnow : nat -> datetime) (m : manual_store) :
  load_manual_orders upper uuid uuid' utcnow m =
  let loaded :=
    imap (fun i entry => normalize_manual_entry upper (uuid i) (uuid' i) (utcnow i) entry)
      (default [] (manual_orders_file m)) in
  mk_manual loaded (Some loaded).
Proof. reflexivity. Qed.

(** X25.  Loading the manual orders (the UUID texts being non-empty):
    memory and file hold the same orders afterwards, one for each stored
    entry and in their order: the order at a position is made from the
    stored entry at that position, with the entry's transaction and id when
    they are true (a "MANUAL-" transaction and a fresh id otherwise), the
    entry's [created_at] when it has the key (the time of the load
    otherwise), and for every other known field the entry's value, or the
    default where the entry has none or [None].  What was in memory before
    is dropped, and a file that is missing or does not parse is replaced by
    an empty list.  Every loaded order is marked manual, has a true
    transaction and a true id, a [created_at], and no key outside the known
    ones.  Loading again changes nothing, whatever the new UUIDs and
    readings of the clock. *)
Theorem load_manual_orders_spec (env : PyEnv) (upper : string -> string)
    (uuid uuid' : nat -> string) (utcnow : nat -> datetime) (m : manual_store) :
  (forall i, uuid' i <> "") ->
  let m' := load_manual_orders upper uuid uuid' utcnow m in
  manual_orders_file m' = Some (manual_orders m')
  /\ length (manual_orders m') = length (default [] (manual_orders_file m))
  /\ (forall i entry, default [] (manual_orders_file m) !! i = Some entry ->
        exists o,
          manual_orders m' !! i = Some o
          /\ o !! "transaction"
             = Some (py_or (get entry "transaction")
                       (VStr (manual_transaction upper (uuid i))))
          /\ o !! "__manualId" = Some (py_or (get entry "__manualId") (VStr (uuid' i)))
          /\ o !! "created_at"
             = Some (get_default entry "created_at" (VStr (isoformat (utcnow i))))
          /\ (forall k, k ∈ MANUAL_ORDER_FIELDS -> k ∉ ["transaction"; "created_at"] ->
                o !! k = copied_value entry k (DEFAULT_MANUAL_ORDER !! k)))
  /\ (manual_orders_file m = None -> manual_orders m' = [])
  /\ Forall normalized_manual (manual_orders m')
  /\ (forall a b c, load_manual_orders upper a b c m' = m').
Proof.
  intros Hu m'. subst m'. rewrite load_manual_orders_eq. cbv zeta.
  cbn [manual_orders manual_orders_file].
  split; [reflexivity|]. split; [apply length_imap|].
  split; [|split; [|split]].
  - intros i entry Hi.
    exists (normalize_manual_entry upper (uuid i) (uuid' i) (utcnow i) entry).
    split; [exact (imap_lookup_Some _ _ i entry Hi)|].
    destruct (normalize_manual_named upper (uuid i) (uuid' i) (utcnow i) entry)
      as (N1 & N2 & N3).
    split; [exact N1|]. split; [exact N2|]. split; [exact N3|].
    intros k. apply normalize_manual_copied.
  - intros H. now rewrite H.
  - apply Forall_imap_intro. intros i x. apply normalize_manual_normalized, Hu.
  - intros a b c. rewrite load_manual_orders_eq. cbv zeta. cbn [manual_orders_file default id].
    rewrite imap_imap_fixed; [reflexivity|]. intros i j x.
    apply normalize_manual_idem, Hu.
Qed.

Lemma load_manual_orders_spec_witness :
  let stored := [manual_payload_done] in
  let m' := load_manual_orders (env := sample_env) ascii_upper (fun _ => sample_uuid)
              (fun _ => sample_uuid) (fun _ => sample_now)
              (mk_manual [] (Some stored)) in
  manual_orders_file m' = Some (manual_orders m')
  /\ length (manual_orders m') = 1%nat
  /\ (forall i entry, stored !! i = Some entry ->
        exists o,
          manual_orders m' !! i = Some o
          /\ o !! "transaction"
             = Some (py_or (get entry "transaction")
                       (VStr (manual_transaction ascii_upper sample_uuid)))
          /\ o !! "__manualId" = Some (py_or (get entry "__manualId") (VStr sample_uuid))
          /\ o !! "created_at"
             = Some (get_default entry "created_at"
                       (VStr (isoformat (PyEnv := sample_env) sample_now)))
          /\ (forall k, k ∈ MANUAL_ORDER_FIELDS -> k ∉ ["transaction"; "created_at"] ->
                o !! k = copied_value entry k (DEFAULT_MANUAL_ORDER !! k)))
  /\ (Some stored = None -> manual_orders m' = [])
  /\ Forall normalized_manual (manual_orders m')
  /\ (forall a b c, load_manual_orders (env := sample_env) ascii_upper a b c m' = m').
Proof.
  apply (load_manual_orders_spec sample_env ascii_upper (fun _ => sample_uuid)
           (fun _ => sample_uuid) (fun _ => sample_now)
           (mk_manual [] (Some [manual_payload_done]))).
  intros _. discriminate.
Defined.

(** ** Rate limiting *)

Lemma newer_lt w t : newer w t = true <-> (w < t)%Q.
Proof.
  unfold newer. rewrite negb_true_iff, <- not_true_iff_false, Qle_bool_iff.
  split; [apply Qnot_le_lt|apply Qlt_not_le].
Qed.

Lemma newer_weaken w w' t : (w <= w')%Q -> newer w' t = true -> newer w t = true.
Proof. rewrite !newer_lt. intros H1 H2. lra. Qed.

Lemma newer_own (window now : Q) : (0 < window)%Q -> newer (now - window) now = true.
Proof. intros H. apply newer_lt. lra. Qed.

Lemma nondecreasing_sorted l : nondecreasing l = true -> StronglySorted Qle l.
Proof.
  induction l as [|a l IH]; [constructor|]. intros H.
  assert (nondecreasing l = true /\ match l with [] => True | b :: _ => (a <= b)%Q end)
    as [H1 H2].
  { cbn [nondecreasing] in H. destruct l as [|b l']; [auto|].
    apply andb_true_iff in H as [H1 H2]. split; [exact H2|]. now apply Qle_bool_iff. }
  specialize (IH H1). constructor; [exact IH|].
  destruct l as [|b l']; [constructor|]. constructor; [exact H2|].
  apply StronglySorted_inv in IH as [_ IH]. eapply Forall_impl; [exact IH|].
  intros x Hx. simpl in Hx. lra.
Qed.

Lemma sorted_drop_middle (l1 l2 : list Q) x :
  StronglySorted Qle (l1 ++ x :: l2) -> StronglySorted Qle (l1 ++ l2) /\ Forall (Qle x) l2.
Proof.
  induction l1 as [|a l1 IH]; cbn [app]; intros H.
  - apply StronglySorted_inv in H as [H1 H2]. auto.
  - apply StronglySorted_inv in H as [H1 H2]. destruct (IH H1) as [S F]. split; [|exact F].
    constructor; [exact S|]. rewrite Forall_app in *. destruct H2 as [F1 F2].
    split; [exact F1|]. now apply Forall_cons in F2 as [_ F2].
Qed.

Lemma sorted_app_l (l1 l2 : list Q) :
  StronglySorted Qle (l1 ++ l2) -> StronglySorted Qle l1.
Proof.
  induction l1 as [|a l IHl]; [constructor|]. cbn [app]. intros S.
  apply StronglySorted_inv in S as [S1 S2]. constructor; [auto|].
  now apply Forall_app in S2 as [S2 _].
Qed.

Lemma times_sorted ip recorded :
  StronglySorted Qle (map snd recorded) -> StronglySorted Qle (times ip recorded).
Proof.
  unfold times. induction recorded as [|[ip' t] l IH]; cbn [map List.filter]; intros H;
    [constructor|].
  apply StronglySorted_inv in H as [H1 H2]. cbn [fst snd] in *.
  destruct (String.eqb ip' ip); [|auto]. cbn [map snd]. constructor; [auto|].
  rewrite Forall_forall in *. intros x Hx. apply H2.
  apply list_elem_of_In, in_map_iff in Hx as ([ip2 t2] & <- & Hin).
  apply filter_In in Hin as [Hin _]. apply list_elem_of_In, in_map_iff.
  exists (ip2, t2). auto.
Qed.

Lemma times_snoc ip recorded ip' t :
  times ip (recorded ++ [(ip', t)]) =
  if String.eqb ip' ip then times ip recorded ++ [t] else times ip recorded.
Proof.
  unfold times. rewrite List.filter_app. cbn [List.filter fst].
  destruct (String.eqb ip' ip); [now rewrite map_app|now rewrite app_nil_r].
Qed.

Lemma popleft_until_length w bucket : (length (popleft_until w bucket) <= length bucket)%nat.
Proof.
  induction bucket as [|t rest IH]; cbn [popleft_until]; [reflexivity|].
  destruct (Qle_bool t w); cbn [length]; lia.
Qed.

Lemma popleft_until_sorted w bucket :
  StronglySorted Qle bucket -> popleft_until w bucket = List.filter (newer w) bucket.
Proof.
  induction bucket as [|t rest IH]; [reflexivity|]. intros H.
  apply StronglySorted_inv in H as [H1 H2]. cbn [popleft_until List.filter].
  unfold newer at 1. destruct (Qle_bool t w) eqn:E; cbn [negb]; [auto|].
  f_equal. symmetry. apply filter_all_true. eapply Forall_impl; [exact H2|].
  intros x Hx. simpl in Hx. apply newer_lt.
  assert (newer w t = true) as Ht by (unfold newer; now rewrite E).
  apply newer_lt in Ht. lra.
Qed.

Lemma filter_newer_sorted w l :
  StronglySorted Qle l -> StronglySorted Qle (List.filter (newer w) l).
Proof.
  induction l as [|a l IH]; [constructor|]. intros H.
  apply StronglySorted_inv in H as [H1 H2]. cbn [List.filter].
  destruct (newer w a); [|auto]. constructor; [auto|].
  rewrite Forall_forall in *. intros x Hx. apply H2.
  apply list_elem_of_In, filter_In in Hx as [Hx _]. now apply list_elem_of_In.
Qed.

Lemma filter_newer_twice w w' l :
  (w <= w')%Q -> List.filter (newer w') (List.filter (newer w) l) = List.filter (newer w') l.
Proof.
  intros H. induction l as [|a l IH]; [reflexivity|]. cbn [List.filter].
  destruct (newer w a) eqn:E; cbn [List.filter]; [now rewrite IH|].
  destruct (newer w' a) eqn:E'; [|exact IH].
  apply (newer_weaken _ _ _ H) in E'. congruence.
Qed.

(** The bucket of an address after the stale stamps have been dropped,
    when it held the recorded stamps newer than an older window start. *)
Lemma pruned_bucket w ws ip recorded :
  StronglySorted Qle (map snd recorded) -> (w <= ws)%Q ->
  popleft_until ws (List.filter (newer w) (times ip recorded))
  = List.filter (newer ws) (times ip recorded).
Proof.
  intros S H. rewrite popleft_until_sorted.
  - now apply filter_newer_twice.
  - now apply filter_newer_sorted, times_sorted.
Qed.

Lemma run_requests_cons ip now rest hits :
  run_requests ((ip, now) :: rest) hits =
  ((rate_limit_dependency ip now hits).2
     :: (run_requests rest (rate_limit_dependency ip now hits).1).1,
   (run_requests rest (rate_limit_dependency ip now hits).1).2).
Proof.
  cbn [run_requests]. destruct (rate_limit_dependency ip now hits) as [hits' answer].
  cbn [fst snd]. now destruct (run_requests rest hits').
Qed.

Lemma run_requests_sliding requests : forall hits accepted,
  StronglySorted Qle (map snd accepted ++ map snd requests) ->
  (forall ip, exists w,
      (forall r, In r requests -> (w <= r.2 - RATE_LIMIT_WINDOW_SECONDS)%Q)
      /\ default [] (hits !! ip) = List.filter (newer w) (times ip accepted)) ->
  (run_requests requests hits).1 = sliding_window requests accepted.
Proof.
  induction requests as [|[ip now] rest IH]; intros hits accepted S Inv; [reflexivity|].
  rewrite run_requests_cons. cbn [fst sliding_window].
  pose proof (sorted_app_l _ _ S) as Sa.
  cbn [map snd] in S. destruct (sorted_drop_middle _ _ _ S) as [S' F].
  destruct (Inv ip) as (w & Hw & Hb).
  assert (w <= now - RATE_LIMIT_WINDOW_SECONDS)%Q as Hwn by (apply (Hw (ip, now)); now left).
  assert (forall r, In r rest ->
            (now - RATE_LIMIT_WINDOW_SECONDS <= r.2 - RATE_LIMIT_WINDOW_SECONDS)%Q) as Hrest.
  { intros r Hr. rewrite Forall_forall in F.
    assert (now <= r.2)%Q by (apply F, list_elem_of_In, in_map; exact Hr). lra. }
  unfold rate_limit_dependency. rewrite Hb, (pruned_bucket _ _ _ _ Sa Hwn).
  unfold window_count.
  destruct (rate_limit ip <=? _)%nat; cbn [fst snd]; f_equal.
  - apply IH; [exact S'|]. intros ip'. destruct (decide (ip = ip')) as [<-|N].
    + exists (now - RATE_LIMIT_WINDOW_SECONDS)%Q. split; [exact Hrest|].
      now rewrite lookup_insert_eq.
    + destruct (Inv ip') as (w' & Hw' & Hb'). exists w'. split.
      * intros r Hr. apply Hw'. now right.
      * now rewrite lookup_insert_ne.
  - apply IH.
    + rewrite map_app, <- app_assoc. exact S.
    + intros ip'. rewrite times_snoc. destruct (decide (ip = ip')) as [<-|N].
      * exists (now - RATE_LIMIT_WINDOW_SECONDS)%Q. split; [exact Hrest|].
        rewrite lookup_insert_eq, String.eqb_refl, List.filter_app.
        cbn [default List.filter id]. now rewrite newer_own.
      * destruct (Inv ip') as (w' & Hw' & Hb'). exists w'. split.
        -- intros r Hr. apply Hw'. now right.
        -- rewrite lookup_insert_ne by assumption.
           now rewrite (proj2 (String.eqb_neq ip ip') N).
Qed.

(** X26.  While the clock does not go back, the rate limiter answers
    every request as a sliding window over all the requests let through
    would: a request is refused with 429 exactly when its address already
    has its limit of accepted requests less than a second back, and a
    refused request does not count. *)
Theorem rate_limit_is_sliding_window (requests : list (string * Q)) :
  nondecreasing (map snd requests) = true ->
  (run_requests requests ∅).1 = sliding_window requests [].
Proof.
  intros H. apply nondecreasing_sorted in H. apply run_requests_sliding; [exact H|].
  intros ip. rewrite lookup_empty.
  destruct requests as [|[ip0 t0] rest].
  - exists 0%Q. split; [intros r []|reflexivity].
  - exists (t0 - RATE_LIMIT_WINDOW_SECONDS)%Q. split; [|reflexivity].
    intros r [<-|Hr]; [cbn [snd]; lra|].
    cbn [map snd] in H. apply StronglySorted_inv in H as [_ H].
    rewrite Forall_forall in H.
    assert (t0 <= r.2)%Q by (apply H, list_elem_of_In, in_map; exact Hr). lra.
Qed.

Lemma rate_limit_is_sliding_window_witness :
  (run_requests sample_burst ∅).1 = sliding_window sample_burst []
  /\ (run_requests sample_burst ∅).1
     = repeat (Ok tt) 30 ++ [HTTPException 429; Ok tt].
Proof.
  split; [apply (rate_limit_is_sliding_window sample_burst); vm_compute; reflexivity|].
  vm_compute. reflexivity.
Defined.

(** *** What the table of the rate limiter holds *)

Lemma rate_limit_dependency_bounded ip now hits :
  (forall a b, hits !! a = Some b -> (length b <= rate_limit a)%nat) ->
  forall a b, (rate_limit_dependency ip now hits).1 !! a = Some b ->
              (length b <= rate_limit a)%nat.
Proof.
  intros H a b. unfold rate_limit_dependency.
  set (bucket := popleft_until _ _).
  destruct (rate_limit ip <=? length bucket)%nat eqn:E; cbn [fst].
  - destruct (decide (ip = a)) as [<-|N].
    + rewrite lookup_insert_eq. intros [= <-]. subst bucket.
      destruct (hits !! ip) as [b0|] eqn:Hb; cbn [default id].
      * etransitivity; [apply popleft_until_length|]. now apply H.
      * cbn [popleft_until length]. lia.
    + rewrite lookup_insert_ne by assumption. apply H.
  - apply Nat.leb_gt in E. destruct (decide (ip = a)) as [<-|N].
    + rewrite lookup_insert_eq. intros [= <-]. rewrite length_app. cbn [length]. lia.
    + rewrite lookup_insert_ne by assumption. apply H.
Qed.

Lemma rate_limit_dependency_dom ip now hits a :
  is_Some ((rate_limit_dependency ip now hits).1 !! a) <-> a = ip \/ is_Some (hits !! a).
Proof.
  unfold rate_limit_dependency. destruct (rate_limit ip <=? _)%nat; cbn [fst].
  all: destruct (decide (ip = a)) as [<-|N];
    [rewrite lookup_insert_eq; split; eauto
    |rewrite lookup_insert_ne by assumption; split; [auto|intros [->|H]; [congruence|exact H]]].
Qed.

Lemma run_requests_table requests : forall hits,
  (forall a b, hits !! a = Some b -> (length b <= rate_limit a)%nat) ->
  (forall a b, (run_requests requests hits).2 !! a = Some b -> (length b <= rate_limit a)%nat)
  /\ (forall a, is_Some ((run_requests requests hits).2 !! a) <->
                In a (map fst requests) \/ is_Some (hits !! a)).
Proof.
  induction requests as [|[ip now] rest IH]; intros hits H.
  - cbn [run_requests snd map]. split; [exact H|]. intros a.
    split; [auto|intros [[]|Ha]; exact Ha].
  - rewrite run_requests_cons. cbn [snd map fst In].
    destruct (IH _ (rate_limit_dependency_bounded ip now hits H)) as [B D].
    split; [exact B|]. intros a. rewrite D, rate_limit_dependency_dom.
    intuition congruence.
Qed.

(** X27.  Whatever the clock does, the table of the rate limiter, started
    empty, never holds more stamps for an address than the limit of that
    address; and it holds a bucket for exactly the addresses that have sent
    a request: no address is ever taken out of it. *)
Theorem rate_limit_table_bounded (requests : list (string * Q)) :
  let final := (run_requests requests ∅).2 in
  (forall ip bucket, final !! ip = Some bucket -> (length bucket <= rate_limit ip)%nat)
  /\ (forall ip, is_Some (final !! ip) <-> In ip (map fst requests)).
Proof.
  intros final. subst final.
  destruct (run_requests_table requests ∅) as [B D].
  - intros a b. rewrite lookup_empty. discriminate.
  - split; [exact B|]. intros ip. rewrite D, lookup_empty. split; [|auto].
    intros [H|[x Hx]]; [exact H|discriminate].
Qed.

(** ** The lock-out after failed logins *)

Lemma pruned_times w ws (T : list Q) :
  StronglySorted Qle T -> (w <= ws)%Q ->
  popleft_until ws (List.filter (newer w) T) = List.filter (newer ws) T.
Proof.
  intros S H. rewrite popleft_until_sorted.
  - now apply filter_newer_twice.
  - now apply filter_newer_sorted.
Qed.

Lemma times_filter_out ip ip' (recorded : list (string * Q)) :
  times ip' (List.filter (fun h => negb (String.eqb h.1 ip)) recorded) =
  if String.eqb ip ip' then [] else times ip' recorded.
Proof.
  unfold times. induction recorded as [|[a t] l IH]; cbn [List.filter fst map].
  - now destruct (String.eqb ip ip').
  - destruct (String.eqb a ip) eqn:E1; cbn [negb List.filter fst].
    + apply String.eqb_eq in E1. subst a. rewrite IH.
      destruct (String.eqb ip ip'); reflexivity.
    + destruct (String.eqb a ip') eqn:E2; cbn [map snd]; rewrite IH.
      * apply String.eqb_eq in E2. subst a. rewrite String.eqb_sym in E1.
        now rewrite E1.
      * reflexivity.
Qed.

Lemma readings_rest (T R : list Q) c f :
  StronglySorted Qle (T ++ c :: f :: R) ->
  StronglySorted Qle (T ++ R) /\ StronglySorted Qle (T ++ f :: R)
  /\ StronglySorted Qle T /\ (c <= f)%Q /\ Forall (Qle f) R.
Proof.
  intros S. destruct (sorted_drop_middle _ _ _ S) as [S1 F1].
  destruct (sorted_drop_middle _ _ _ S1) as [S2 F2].
  apply Forall_cons in F1 as [F1 _].
  split; [exact S2|]. split; [exact S1|]. split; [now apply sorted_app_l in S2|]. auto.
Qed.

Lemma is_ip_locked_spec ip c attempts (T : list Q) w :
  StronglySorted Qle T -> (w <= c - FAILED_LOGIN_WINDOW_SECONDS)%Q ->
  default [] (attempts !! ip) = List.filter (newer w) T ->
  (is_ip_locked ip c attempts).2
  = (FAILED_LOGIN_LIMIT
     <=? length (List.filter (newer (c - FAILED_LOGIN_WINDOW_SECONDS)) T))%nat
  /\ (forall ip', ip' <> ip -> (is_ip_locked ip c attempts).1 !! ip' = attempts !! ip')
  /\ exists w1, (w1 <= c - FAILED_LOGIN_WINDOW_SECONDS)%Q
       /\ default [] ((is_ip_locked ip c attempts).1 !! ip) = List.filter (newer w1) T.
Proof.
  intros S Hw Hb. unfold is_ip_locked.
  assert (default [] (attempts !! ip) = [] ->
          List.filter (newer (c - FAILED_LOGIN_WINDOW_SECONDS)) T = []) as Hnil.
  { intros E. rewrite <- (filter_newer_twice w _ T Hw), <- Hb, E. reflexivity. }
  destruct (attempts !! ip) as [[|t b]|] eqn:E; cbn [fst snd].
  - rewrite (Hnil eq_refl). split; [reflexivity|]. split; [reflexivity|].
    exists w. rewrite E. auto.
  - cbn [default id] in Hb. rewrite Hb, (pruned_times _ _ _ S Hw).
    split; [reflexivity|]. split; [intros ip' N; now rewrite lookup_insert_ne|].
    exists (c - FAILED_LOGIN_WINDOW_SECONDS)%Q. split; [apply Qle_refl|].
    now rewrite lookup_insert_eq.
  - rewrite (Hnil eq_refl). split; [reflexivity|]. split; [reflexivity|].
    exists w. rewrite E. auto.
Qed.

Lemma on_record_tail window table recorded q R :
  on_record window table recorded (q :: R) -> on_record window table recorded R.
Proof.
  intros Inv ip. destruct (Inv ip) as (w & Hq & Hb & S). exists w.
  split; [intros x Hx; apply Hq; now right|]. split; [exact Hb|].
  now apply sorted_drop_middle in S as [S _].
Qed.

Lemma on_record_empty window readings :
  StronglySorted Qle readings -> on_record window ∅ [] readings.
Proof.
  intros S ip. rewrite lookup_empty. cbn [times List.filter map app default].
  destruct readings as [|q0 R].
  - exists 0%Q. split; [intros q []|]. split; [reflexivity|constructor].
  - exists (q0 - window)%Q. split; [|split; [reflexivity|exact S]].
    intros q [<-|Hq]; [lra|].
    apply StronglySorted_inv in S as [_ S]. rewrite Forall_forall in S.
    assert (q0 <= q)%Q by (apply S; now apply list_elem_of_In). lra.
Qed.

(** The guard on a table that agrees with the record of accepted requests:
    its answer is the answer of the sliding window, and the table it leaves
    agrees with the record it stands for. *)
Lemma rate_limit_dependency_window ip now hits accepted R :
  hits_on_record hits accepted (now :: R) ->
  let refused :=
    (rate_limit ip <=? window_count RATE_LIMIT_WINDOW_SECONDS ip now accepted)%nat in
  (rate_limit_dependency ip now hits).2 = (if refused then HTTPException 429 else Ok tt)
  /\ hits_on_record (rate_limit_dependency ip now hits).1
       (if refused then accepted else accepted ++ [(ip, now)]) R.
Proof.
  intros Inv refused. subst refused.
  destruct (Inv ip) as (w & Hq & Hb & S).
  assert (w <= now - RATE_LIMIT_WINDOW_SECONDS)%Q as Hw by (apply Hq; now left).
  pose proof (sorted_app_l _ _ S) as ST.
  destruct (sorted_drop_middle _ _ _ S) as [S' F].
  assert (forall q, In q R ->
            (now - RATE_LIMIT_WINDOW_SECONDS <= q - RATE_LIMIT_WINDOW_SECONDS)%Q) as Hrest.
  { intros q Hin. rewrite Forall_forall in F.
    assert (now <= q)%Q by (apply F; now apply list_elem_of_In). lra. }
  unfold rate_limit_dependency. rewrite Hb, (pruned_times _ _ _ ST Hw). unfold window_count.
  destruct (rate_limit ip <=? _)%nat; cbn [fst snd]; (split; [reflexivity|]); intros ip'.
  - destruct (decide (ip = ip')) as [<-|N].
    + exists (now - RATE_LIMIT_WINDOW_SECONDS)%Q. rewrite lookup_insert_eq. auto.
    + destruct (on_record_tail _ _ _ _ _ Inv ip') as (w' & K1 & K2 & K3).
      exists w'. rewrite lookup_insert_ne by assumption. auto.
  - rewrite times_snoc. destruct (decide (ip = ip')) as [<-|N].
    + exists (now - RATE_LIMIT_WINDOW_SECONDS)%Q. rewrite String.eqb_refl, lookup_insert_eq.
      split; [exact Hrest|]. split.
      * rewrite List.filter_app. cbn [default List.filter id].
        rewrite newer_own by reflexivity. reflexivity.
      * rewrite <- app_assoc. exact S.
    + destruct (on_record_tail _ _ _ _ _ Inv ip') as (w' & K1 & K2 & K3).
      exists w'. rewrite lookup_insert_ne by assumption.
      rewrite (proj2 (String.eqb_neq ip ip') N). auto.
Qed.

Lemma failures_on_record_kept ip c f R attempts attempts' failures w1 :
  failures_on_record attempts failures (c :: f :: R) ->
  (forall ip', ip' <> ip -> attempts' !! ip' = attempts !! ip') ->
  (w1 <= c - FAILED_LOGIN_WINDOW_SECONDS)%Q ->
  default [] (attempts' !! ip) = List.filter (newer w1) (times ip failures) ->
  failures_on_record attempts' failures R.
Proof.
  intros Inv Ho Hw Hb ip'. destruct (Inv ip') as (w & Hq & Hw' & S).
  destruct (readings_rest _ _ _ _ S) as (S1 & _ & _ & Hcf & F).
  destruct (decide (ip' = ip)) as [->|N].
  - exists w1. split; [|auto]. intros q Hin. rewrite Forall_forall in F.
    assert (f <= q)%Q by (apply F; now apply list_elem_of_In). lra.
  - exists w. rewrite (Ho ip' N). split; [|auto]. intros q Hin. apply Hq. now do 2 right.
Qed.

(** The body of [login] on a table that agrees with the record of
    failures. *)
Lemma login_body_window r attempts failures R :
  failures_on_record attempts failures (login_checked_at r :: login_failed_at r :: R) ->
  let ip := login_ip r in
  let locked :=
    (FAILED_LOGIN_LIMIT
     <=? window_count FAILED_LOGIN_WINDOW_SECONDS ip (login_checked_at r) failures)%nat in
  (is_ip_locked ip (login_checked_at r) attempts).2 = locked
  /\ failures_on_record (is_ip_locked ip (login_checked_at r) attempts).1 failures R
  /\ failures_on_record
       (register_failed_login ip (login_failed_at r)
          (is_ip_locked ip (login_checked_at r) attempts).1)
       (failures ++ [(ip, login_failed_at r)]) R
  /\ failures_on_record (delete ip (is_ip_locked ip (login_checked_at r) attempts).1)
       (List.filter (fun h => negb (String.eqb h.1 ip)) failures) R.
Proof.
  intros Inv ip locked. subst locked.
  set (c := login_checked_at r) in *. set (f := login_failed_at r) in *.
  destruct (Inv ip) as (w & Hq & Hb & S).
  destruct (readings_rest _ _ _ _ S) as (S1 & S2 & ST & Hcf & F).
  assert (w <= c - FAILED_LOGIN_WINDOW_SECONDS)%Q as Hw by (apply Hq; now left).
  destruct (is_ip_locked_spec ip c attempts _ w ST Hw Hb) as (L1 & L2 & w1 & Hw1 & L3).
  destruct (is_ip_locked ip c attempts) as [a1 locked]. cbn [fst snd] in *.
  pose proof (failures_on_record_kept ip c f R attempts a1 failures w1 Inv L2 Hw1 L3) as Kept.
  split; [exact L1|]. split; [exact Kept|]. split.
  - (* a wrong password *)
    intros ip'. rewrite times_snoc. unfold register_failed_login.
    destruct (decide (ip = ip')) as [<-|N].
    + exists (f - FAILED_LOGIN_WINDOW_SECONDS)%Q. rewrite String.eqb_refl, lookup_insert_eq.
      split; [|split].
      * intros q Hin. rewrite Forall_forall in F.
        assert (f <= q)%Q by (apply F; now apply list_elem_of_In). lra.
      * rewrite L3, pruned_times by (exact ST || lra).
        rewrite List.filter_app. cbn [List.filter].
        rewrite newer_own by reflexivity. reflexivity.
      * rewrite <- app_assoc. exact S2.
    + destruct (Kept ip') as (w' & K1 & K2 & K3). exists w'.
      rewrite lookup_insert_ne by assumption.
      rewrite (proj2 (String.eqb_neq ip ip') N). auto.
  - (* a login that goes through *)
    intros ip'. rewrite times_filter_out.
    destruct (Kept ip') as (w' & K1 & K2 & K3).
    destruct (decide (ip = ip')) as [<-|N].
    + exists w'. rewrite String.eqb_refl, lookup_delete_eq.
      split; [exact K1|]. split; [reflexivity|].
      clear -K3. induction (times ip failures) as [|a l IHl]; [exact K3|].
      apply IHl. cbn [app] in K3. now apply StronglySorted_inv in K3 as [K3 _].
    + exists w'. rewrite lookup_delete_ne by assumption.
      rewrite (proj2 (String.eqb_neq ip ip') N). auto.
Qed.

Lemma login_eq r hits attempts :
  login r hits attempts =
  let g := rate_limit_dependency (login_ip r) (login_arrived_at r) hits in
  match g.2 with
  | HTTPException status_code => (g.1, attempts, HTTPException status_code)
  | Ok _ =>
      let l := is_ip_locked (login_ip r) (login_checked_at r) attempts in
      if l.2 then (g.1, l.1, HTTPException 429)
      else if negb (login_captcha r) then (g.1, l.1, HTTPException 400)
      else match login_found r with
           | BadPassword =>
               (g.1, register_failed_login (login_ip r) (login_failed_at r) l.1,
                HTTPException 401)
           | InactiveUser => (g.1, l.1, HTTPException 400)
           | NotWhitelisted => (g.1, l.1, HTTPException 403)
           | Accepted => (g.1, delete (login_ip r) l.1, Ok tt)
           end
  end.
Proof.
  unfold login. destruct (rate_limit_dependency _ _ hits) as [h [body|code]]; cbn [fst snd];
    [|reflexivity].
  now destruct (is_ip_locked _ _ attempts) as [a locked].
Qed.

Lemma run_traffic_login r rest hits attempts :
  run_traffic (Login r :: rest) hits attempts =
  ((login r hits attempts).2
     :: (run_traffic rest (login r hits attempts).1.1 (login r hits attempts).1.2).1,
   (run_traffic rest (login r hits attempts).1.1 (login r hits attempts).1.2).2).
Proof.
  cbn [run_traffic]. destruct (login r hits attempts) as [[hits' attempts'] answer].
  cbn [fst snd]. now destruct (run_traffic rest hits' attempts').
Qed.

Lemma run_traffic_guarded ip now rest hits attempts :
  run_traffic (Guarded ip now :: rest) hits attempts =
  ((rate_limit_dependency ip now hits).2
     :: (run_traffic rest (rate_limit_dependency ip now hits).1 attempts).1,
   (run_traffic rest (rate_limit_dependency ip now hits).1 attempts).2).
Proof.
  cbn [run_traffic]. destruct (rate_limit_dependency ip now hits) as [hits' answer].
  cbn [fst snd]. now destruct (run_traffic rest hits' attempts).
Qed.

Lemma run_traffic_windows requests : forall hits attempts accepted failures,
  hits_on_record hits accepted (traffic_readings requests) ->
  failures_on_record attempts failures (traffic_readings requests) ->
  (run_traffic requests hits attempts).1 = traffic_windows requests accepted failures.
Proof.
  induction requests as [|[r|ip now] rest IH]; intros hits attempts accepted failures Hh Hf;
    [reflexivity| |].
  - (* a login *)
    change (traffic_readings (Login r :: rest))
      with (login_arrived_at r :: login_checked_at r :: login_failed_at r
              :: traffic_readings rest) in Hh, Hf.
    rewrite run_traffic_login, login_eq. cbv zeta. cbn [fst traffic_windows].
    destruct (rate_limit_dependency_window (login_ip r) _ _ _ _ Hh) as [G1 G2].
    cbv zeta in G1, G2. rewrite G1.
    apply on_record_tail in Hf.
    destruct (rate_limit (login_ip r) <=? _)%nat; cbn [fst snd].
    { f_equal. apply IH; [|do 2 apply on_record_tail in Hf; exact Hf].
      do 2 apply on_record_tail in G2. exact G2. }
    do 2 apply on_record_tail in G2.
    destruct (login_body_window r attempts failures _ Hf) as (L1 & K0 & K1 & K2).
    cbv zeta in L1, K0, K1, K2. rewrite L1.
    destruct (FAILED_LOGIN_LIMIT <=? _)%nat; cbn [fst snd]; [f_equal; now apply IH|].
    destruct (negb (login_captcha r)); cbn [fst snd]; [f_equal; now apply IH|].
    destruct (login_found r); cbn [fst snd]; f_equal; now apply IH.
  - (* another guarded request *)
    change (traffic_readings (Guarded ip now :: rest)) with (now :: traffic_readings rest)
      in Hh, Hf.
    rewrite run_traffic_guarded. cbn [fst traffic_windows].
    destruct (rate_limit_dependency_window ip _ _ _ _ Hh) as [G1 G2]. cbv zeta in G1, G2.
    rewrite G1. apply on_record_tail in Hf.
    destruct (rate_limit ip <=? _)%nat; cbn [fst snd]; f_equal; now apply IH.
Qed.

(** X28.  While the clock does not go back, [login] answers as two
    sliding windows would, one over the requests its rate guard has let
    through and one over the failures on record.  The guard runs first:
    when the address already has its limit of accepted requests (logins or
    requests to the other guarded endpoints) less than a second back, the
    login is answered 429 and the body does not run, so no failure is
    added.  Otherwise the address is answered 429, whatever it sends,
    exactly when seven wrong passwords of it lie less than five minutes
    back; only a wrong password adds a failure (a locked attempt, a failed
    captcha, an inactive or unlisted user do not), and a login that goes
    through clears the failures of its address. *)
Theorem login_lockout_is_sliding_window (requests : list request) :
  nondecreasing (traffic_readings requests) = true ->
  (run_traffic requests ∅ ∅).1 = traffic_windows requests [] [].
Proof.
  intros H. apply nondecreasing_sorted in H.
  apply run_traffic_windows; now apply on_record_empty.
Qed.

Lemma login_lockout_is_sliding_window_witness :
  (run_traffic sample_traffic ∅ ∅).1 = traffic_windows sample_traffic [] []
  /\ (run_traffic sample_traffic ∅ ∅).1
     = repeat (HTTPException 401) 7 ++ [HTTPException 429] ++ repeat (Ok tt) 30
       ++ [HTTPException 429; Ok tt; HTTPException 401].
Proof.
  split; [apply (login_lockout_is_sliding_window sample_traffic); vm_compute; reflexivity|].
  vm_compute. reflexivity.
Defined.

(** ** The pages of the chat *)

Lemma chat_window_segment {A} (limit offset : nat) (filtered : list A) :
  let total := length filtered in
  let size := Nat.max 1 (Nat.min limit 500) in
  chat_window (Some limit) offset filtered
  = drop (total - offset - size) (take (total - offset) filtered).
Proof.
  intros total size. unfold chat_window. fold total size.
  destruct (total =? 0)%nat eqn:E.
  - apply Nat.eqb_eq in E. subst total. destruct filtered; [|discriminate].
    now rewrite take_nil, drop_nil.
  - replace (total - Nat.max 0 (Nat.min offset total))%nat with (total - offset)%nat by lia.
    reflexivity.
Qed.

Lemma segment_split {A} (s e : nat) (l : list A) :
  (s <= e)%nat -> take e l = take s l ++ drop s (take e l).
Proof.
  intros H. rewrite <- (take_drop s (take e l)) at 1. f_equal.
  rewrite take_take. f_equal. lia.
Qed.

Lemma pages_join {A} (s' s e : nat) (l : list A) :
  (s' <= s)%nat -> (s <= e)%nat -> (s <= length l)%nat ->
  drop s' (take s l) ++ drop s (take e l) = drop s' (take e l).
Proof.
  intros H1 H2 H3. rewrite (segment_split s e l H2) at 2.
  rewrite drop_app_le; [reflexivity|]. rewrite length_take. lia.
Qed.

(** X29.  A page of the chat is a segment of the messages, oldest first:
    the [size] messages (the limit, kept within 1..500) that come before
    the newest [offset] ones, fewer when the list runs out, and none, not
    an error, when the offset is the number of messages or more.  The page
    at [offset + size] ends where the page at [offset] begins, so
    consecutive pages neither overlap nor skip a message; without a limit
    all messages are returned. *)
Theorem chat_window_pages {A} (limit offset : nat) (filtered : list A) :
  let total := length filtered in
  let size := Nat.max 1 (Nat.min limit 500) in
  let page := chat_window (Some limit) offset filtered in
  take (total - offset - size) filtered ++ page ++ drop (total - offset) filtered = filtered
  /\ length page = Nat.min size (total - offset)
  /\ chat_window (Some limit) (offset + size) filtered ++ page
     = drop (total - offset - 2 * size) (take (total - offset) filtered)
  /\ (total <= offset -> page = [])%nat
  /\ chat_window None offset filtered = filtered.
Proof.
  intros total size page. subst page. rewrite !chat_window_segment. fold total size.
  set (s := (total - offset - size)%nat). set (e := (total - offset)%nat).
  assert (s <= e)%nat as Hse by lia.
  split; [|split; [|split; [|split]]].
  - rewrite app_assoc, <- (segment_split s e filtered Hse). apply take_drop.
  - rewrite length_drop, length_take. fold total. lia.
  - subst s e.
    match goal with
    | |- drop ?a (take ?b _) ++ _ = drop ?c _ =>
        replace a with c by lia; replace b with (total - offset - size)%nat by lia
    end.
    apply pages_join; fold total; lia.
  - intros H. replace e with 0%nat by lia. now rewrite take_0, drop_nil.
  - reflexivity.
Qed.
